(* ===== verification/_CoqProject ===== *)
-Q . S2P
Prelude.v
GoStd.v
Migrations.v
EventDedup.v
EventPipeline.v
SqlStore.v
NodeRegistry.v
SessionTracker.v
DepGraph.v
Commands.v
Dispatcher.v
Config.v
PolicyEngine.v
Security.v
AuditLog.v
Hub.v
CredentialApplier.v
Floats.v
Backoff.v
WSClient.v
EnvCheck.v
Provision.v
Cost.v
CostPoll.v
OpenCode.v
Subscriptions.v
SessionCommands.v
Integration.v
MockAdapter.v
MockChannels.v
TestHarness.v
ToolAuth.v
Agent.v
OAuth.v
Health.v
Metrics.v
HttpApi.v
Server.v
Discord.v
Supervisor.v
Daemons.v
Tabwriter.v
Halctl.v
CliConfig.v
HalctlMain.v
CredentialFlow.v
Support.v
CommandFlow.v
