(* ===== verification/Prelude.v ===== *)
(** * A verification of hal-o-swarm

    hal-o-swarm is a supervisor ([internal/supervisor]) that watches and commands
    coding agents on many machines, and the agent process ([internal/agent]) that
    runs on each of them.  An agent keeps one web socket to the supervisor; over
    it go envelopes ([internal/shared]): heartbeats, events, commands, command
    results, authentication states and credentials.

    How the parts meet in the program:
    - the hub accepts agents and owns their connections; it registers their nodes
      and hands their messages to the pipeline, the registry and the dispatcher;
    - the event pipeline puts each agent's events in order and into the database;
    - the node registry and the session tracker hold what the supervisor knows,
      in memory and written through to SQLite;
    - the dispatcher resolves a command's target with these two, sends it through
      the hub and waits for the result; the policy engine watches the sessions and
      gives it commands; the dependency graph says which projects may start;
    - the cost aggregator polls the model providers and fills the daily buckets;
    - the REST API and the Discord bot let people look and command: they read the
      registry and the tracker and dispatch commands; the audit log keeps what was
      commanded; the server starts and stops all of it and rotates the token;
    - on the agent the client numbers, buffers and resends events, the credential
      applier keeps the pushed environment, the session commands drive the local
      OpenCode servers, the environment check and the provisioner compare the
      machine with a manifest and mend it, and the tool authentication reports
      which tools are logged in and logs them in.

    ** The files

    In the order they are compiled; every definition keeps the name of the Go
    function, method or type it translates.

    - [Prelude] (this file): results, the empty string, ranging over a map, loops
      that return at the first error.
    - [GoStd]: [strings], [time], [path/filepath], [strconv.Quote], [math],
      [net/url] and [float64] as far as the source uses them; [Floats]: what of the
      arithmetic of binary64 the proofs need.
    - [EventDedup] (event_dedup.go), module [Dedup]: [eventDedupCache] is the field
      [caches], a map of LRU caches; [IsDuplicate].
    - [EventPipeline] (event_pipeline.go), module [Pipeline]: the maps [lastSeq] and
      [pending] and the queue; [ProcessEvent], the persist worker, and their runs.
    - [SqlStore]: the database the source talks to, and the theory of a cache
      written through to it, which the registry and the tracker share.
    - [NodeRegistry] (registry.go, auth_state.go, credential_sync.go), module
      [Registry]; [SessionTracker] (tracker.go), module [Tracker].
    - [DepGraph] (depgraph.go), module [Dep].
    - [Commands] (shared/protocol.go, shared/types.go, shared/auth_types.go,
      supervisor/command_types.go).
    - [Dispatcher] (command_dispatcher.go): [Dispatch] is the sequential part,
      [Waiters] the concurrent one, a step relation.
    - [Config] (config/supervisor.go, agent.go, env_manifest.go).
    - [PolicyEngine] (policy_engine.go), module [Policy].
    - [Security] (security.go); [AuditLog] (audit.go), module [Audit].
    - [Migrations] (storage/migrations.go, schema.go).
    - [Hub] (hub.go, agent_conn.go, hubCommandTransport of command_dispatcher.go):
      a step function over a store of connections.
    - [CredentialApplier] (agent/credential_apply.go), module [Applier]; [WSClient]
      (agent/wsclient.go), module [Client]; [Backoff] (agent/backoff.go), module
      [Wait]; [EnvCheck] (agent/envcheck.go);
      [Provision] (agent/provision.go).
    - [Cost] (cost.go), the rows and buckets; [CostPoll], the requests to the
      providers and the goroutine that polls them.
    - [OpenCode] (agent/opencode_adapter.go), module [Adapter], a monad over the
      adapter, the servers and a log of the calls; [Subscriptions], module [Bus], the
      goroutines of its event streams as a step relation; [SessionCommands]
      (agent/session_commands.go), module [Session], with the way of a command
      from the dispatcher's transport to the agent and back.
    - [Integration] (integration/helpers.go), module [Harness]: the client, the
      connections, which break, and the supervisor's registry, tracker, dispatcher
      and pipeline, as one world with a step function; [MockAdapter]
      (agent/opencode_mock.go), module [Mock]: the adapter that feeds it.
      [TestHarness]: the rest of the helpers, the set-up of a test, the waiting for
      a condition, restarts from a snapshot; [MockChannels], module [Channels]: the
      adapter's channels of single sessions.
    - [ToolAuth] (agent/auth_*.go, tool_*.go, oauth_trigger.go) and [OAuth]
      (oauth_orchestrator.go, manual_auth_guidance.go).
    - [Agent] (agent/projects.go, agent.go): how the agent is put together; module
      [Register], the handlers and the on-connect hook it gives its client.
    - [Health] (health.go); [Metrics] (metrics.go), module [Metric]; [HttpApi] (http_api.go), module [Api]: the routes and the
      handlers over the class [ApiParts] of what they call; [Server] (server.go).
    - [Discord] (discord.go), module [Bot]: the slash commands over the same
      [ApiParts], and what they come to at the agent.
    - [Supervisor] (cmd/supervisor/main.go), module [Assembled]: the registry, the
      tracker, the dispatcher and the audit log as an instance of [ApiParts], and
      the reaction of the whole to requests and interactions.
    - [Daemons] (cmd/supervisor/main.go, cmd/agent/main.go): the two programs from
      their configuration to the signal that ends them.
    - [Halctl] (internal/halctl, cmd/halctl/main.go): modules [Wire], the bodies as
      JSON values, [Net] and [Ctl], the client over any network and over the REST
      API.  [CliConfig] (cmd/halctl/config_cmd.go), module [Dialogue]: the prompts
      and the three configuration files.  [Tabwriter]: text/tabwriter as halctl
      uses it, and [HalctlMain] (cmd/halctl/main.go, halctl/auth.go), module [Main]:
      the tables, the texts of errors, and [main] to its exit status.
    - [CredentialFlow]: agents, connections and hub as one transition system, for
      the way of a credential version; [CommandFlow]: the dispatches of a supervisor
      and its hub as one transition system, for the way of a command.
    - [Support]: correlation ids (shared/logging.go), random tokens, the TLS
      configuration, [StartHTTPServer], the storage handle, and what the hub does
      with a command result.

    In each file the definitions come first, in a module named after the
    component; then a module [...Facts] with the invariants and lemmas, a section
    [Properties] with the theorems that state what the component promises, and a
    module [...Witness] that runs them on concrete inputs.

    ** Conventions

    - A function that returns a value and an error is a [res]; error texts are
      constructors of a type per component, so that tests on errors show.
    - Strings are sequences of bytes; [int64] is [Z] with its wrap-around written
      out where the source does arithmetic on it ([i64], [u64] of the prelude); a
      [time.Time] counts nanoseconds from year 1, a [time.Duration] is an [int64];
      [float64] is the standard library's [SpecFloat] at 53 bits.
    - [time.Now()], uuids, random tokens, decoders, sockets and the file system are
      arguments, as functions or as type classes.
    - Where the source ranges over a map the order is an argument, or the class
      [MapRange]; theorems are then about every order.
    - Code that is not in the repository is a class of operations with a class of
      laws: the LRU cache ([LruCache], [LruCacheLaws]), SQLite tables
      ([KeyedTable], [KeyedTableLaws], [SchemaDB], [AuditTable], [CostTotals]) and
      time texts ([TimeText]), [encoding/json] ([Json], [JsonLaws]), semantic
      versions ([Semver]), the file system ([FileSystem], [FileSystemLaws]), the
      OpenCode SDK ([OpencodeSDK]), Discord ([DiscordSession], [DiscordOption]), the
      network of the command line client ([Network]) and its disk ([ConfigDisk]).  A
      class whose laws a theorem assumes has a concrete instance, with which the
      witnesses run.  Statements of SQLite may fail at any time and then change
      nothing.
    - Where a handler may panic and the panic is recovered, a panic is a value.
    - A method that holds its lock throughout is one function.  Where the source
      lets go of a lock between two halves ([Send] of the transport; sending,
      waiting and receiving of the dispatcher) the halves are separate steps.

    ** What the theorems show

    - Events: what an agent submits is handed on in order, once, without gaps,
      whatever the order of arrival; the persist queue is first in, first out and
      bounded; repeated ids are ignored; a gap asks for exactly what is missing.
      End to end: through any broken connections the supervisor hands on a prefix
      of what the agent sent, each event once, and all of it when nothing is in
      flight; it then knows exactly the sessions of the agent's adapter.
    - Registry and tracker: the cache agrees with the table after any calls and any
      failed statements, and what was known survives a restart.
    - Dispatcher: under every interleaving a caller gets a result of its own
      command or its own timeout, nothing is left pending once every caller has
      returned (a send that panics leaves its entry), replays are idempotent, and
      the target is exactly a suitable online node.
    - Hub: the map of clients is exactly the set of open connections, and the one
      panic that the code can reach is located.
    - The two together, for every way a dispatch can end: with a result, and then
      its command is in the queue of one connection, once, of the agent its target
      was resolved to, or the target was refused, or the result was kept under the
      key, and no queue has it; with an error; or with the panic of a send on a
      closed queue.  An answer is returned to the dispatch that waits for it; a queue
      holds what was dispatched and nothing else, in order.
    - Agents and hub together: the registry shows a node as in sync only if its
      agent dialled with the expected version, and every connection settles what it
      shows.
    - Policy engine: the retry cap bounds the commands sent in a reset window, and
      every command sent was due.
    - Dependency graph: building it terminates and succeeds exactly on acyclic
      configurations; the error names a cycle.
    - Configuration: validation accepts exactly the usable configurations.
      Migrations: interrupted ones resume where they stopped.
    - Agent: unacknowledged events are resent in order; every wait between two
      dials is within its limits, in the arithmetic of floats; the events of a stream
      are offered in its order, each once to every channel registered when it was
      read, and the panics the code can reach come from subscriptions that ended; a push is applied once;
      the provisioner leaves every required file and document there and announces
      every tool and runtime of the manifest; the check's status is exact; calls
      about a session go to the server that has it; reported authentication
      reaches the registry; a started agent handles every command type.
    - Cost, security and audit: daily buckets are replaced exactly; a poll asks for
      a window of its own day, and one goroutine polls at a time; nothing below a
      secret key survives redaction, and nothing of it reaches the audit log.
    - REST API: without the token nothing is read or changed; requests reach the
      handler of their route; pages are bounded; a repeated push is answered from
      the cache; readiness is exact.  Server: agents are let in with the current
      token, through any rotations.
    - Discord: what Discord lets users send is served and answered once, and only a
      panic of the dispatch makes it an internal error; no error text gets through; what each command does at the agent, where [/status] and
      [/resume] turn out never to succeed.
    - The supervisor as a whole: a command of the bot reaches the node of its
      session; of everything commanded the audit log has the credential pushes only,
      and the metrics count the posted commands, those that failed and no others.
      What a supervisor runs does not depend on its configuration but for the ports
      and the bot.
    - halctl: what it lists is what the tracker has, over the REST API and JSON and
      back; what its user is told of a command, and that an answer later than the
      server's write timeout never comes; the costs it shows read zero; its
      tables line up and can be read back.  The
      dialogue: a file is written whole or not at all; a fresh supervisor's
      configuration is valid; an edit loses the settings it does not ask for;
      prompts return exactly when a usable line comes.

    ** Fuel

    - [Dep.detectCycleDFS]: one unit per project; a call marks a project that was
      not visited, so the theorem on building the graph holds with this fuel.
    - [Pipeline.drain_pending]: the number of buffered events; each turn of the loop
      removes one.  [Pipeline.persist_drain]: the length of the queue, likewise.
    - [Strings.replace_fuel]: the length of the text; each turn consumes a byte of it.
    - [Cost.fetch_attempts]: the configured number of retries, from which the loop counts.
    - The prompts of [Dialogue]: one unit per line read; one more than the number of
      lines refused before the first usable one is enough.
    - [Tabwriter.format]: the greatest number of cells in a line; each level of the
      recursion is one column further.
    - Every other recursion is structural.

    ** What is not modelled

    - Flag parsing, signals and the usage text, and what is written to the log:
      input and output around the parts above.  Of the Prometheus client the calls
      made on it only.
    - Goroutines and tickers that only call a modelled function again and again
      appear as runs of that function; deadlines of sockets do not appear,
      but for the timeouts between halctl and the server, nor does waiting for
      goroutines to end.
    - One operation of the agent's client is one step, though [SendEvent] numbers
      and buffers under two locks; the theorems are for one sender at a time.
    - The transport of HTTP: an exchange with a provider is a function from the
      request to the response or an error; listening.
    - The parsing of certificates and of JSON, and the reading of files: arguments.
    - The zone of a time; only its instant.

    [CredentialFlow] and [CommandFlow] each join the hub to the parts they are
    about; the REST API and the bot are joined to the registry, tracker and
    dispatcher in [Supervisor], where what a node answers is an argument. *)

From stdpp Require Export base tactics option list gmap strings pretty relations sorting.
From Stdlib Require Export Ascii ZArith Lia.

Declare Scope go_scope.
Delimit Scope go_scope with go.
Open Scope go_scope.
Open Scope Z_scope.

(** ** Results

    A Go function that returns [(A, error)] is a [res E A]; the error type is
    chosen per component so that [errors.Is] tests stay visible. *)
Inductive res (E A : Type) : Type :=
  | Ok (a : A)
  | Err (e : E).
Arguments Ok {E A} a.
Arguments Err {E A} e.

Definition res_bind {E A B} (m : res E A) (k : A -> res E B) : res E B :=
  match m with Ok a => k a | Err e => Err e end.

Definition res_map_err {E E' A} (f : E -> E') (m : res E A) : res E' A :=
  match m with Ok a => Ok a | Err e => Err (f e) end.

Definition is_Ok {E A} (m : res E A) : bool :=
  match m with Ok _ => true | Err _ => false end.

Notation "'let?' x ':=' m 'in' k" := (res_bind m (fun x => k))
  (at level 10, x pattern, m at level 200, k at level 200) : go_scope.
(** A guard: [reject b with_err e in k] is [if b { return e }; k]. *)
Notation "'reject' b 'with_err' e 'in' k" := (if (b : bool) then Err e else k)
  (at level 10, b at level 200, e at level 200, k at level 200) : go_scope.

(** ** Notation for the empty Go string, of which the source makes many tests. *)
Notation "'ε'" := EmptyString : go_scope.
#[global] Arguments String.append !_ _ / : simpl nomatch.
Definition str_empty (s : string) : bool := match s with EmptyString => true | _ => false end.

(** ** Machine integers: [int], [int64] and [uint64] are 64 bits wide. *)
Definition u64 (x : Z) : Z := x mod 2 ^ 64.
Definition i64 (x : Z) : Z := (x + 2 ^ 63) mod 2 ^ 64 - 2 ^ 63.
Definition is_i64 (x : Z) : Prop := - 2 ^ 63 <= x < 2 ^ 63.
Definition is_u64 (x : Z) : Prop := 0 <= x < 2 ^ 64.

(** ** Ranging over a Go map: the order is unspecified, so an operation that
    ranges takes the order it met as an argument, and a theorem holds for every
    list that is a [range_order] of the map. *)
Definition range_order {K A} `{Countable K} (m : gmap K A) (l : list (K * A)) : Prop :=
  l ≡ₚ map_to_list m.
Definition key_order {K} `{Countable K} (X : gset K) (l : list K) : Prop :=
  l ≡ₚ elements X.

(** Where maps nested in data are ranged over, an oracle chooses the order of
    each; theorems hold for every oracle. *)
Class MapRange := {
  range_of : forall A : Type, gmap string A -> list (string * A);
  range_of_ok : forall A (m : gmap string A), range_order m (range_of A m);
}.
Arguments range_of {_ A} m.

(** The members of a map in the order of their keys. *)
Definition key_le {A} (x y : string * A) : Prop := String.leb x.1 y.1 = true.
#[export] Instance key_le_dec {A} : RelDecision (@key_le A).
Proof. intros x y. unfold key_le. apply _. Defined.
Definition members {A} (m : gmap string A) : list (string * A) := merge_sort key_le (map_to_list m).

(** ** Tactics *)
Create HintDb go discriminated.
Create Rewrite HintDb go_rw.

(** Case analysis on every [match]/[if] scrutinee of the goal. *)
Ltac go_case := repeat (case_match; simplify_eq/=).
(** Evaluate closed goals. *)
Ltac go_compute := vm_compute; try reflexivity; try congruence.
(** Destruct the boolean tests of the goal and hypotheses into propositions. *)
Ltac bool_props :=
  repeat match goal with
  | H : (_ && _)%bool = true |- _ => apply andb_true_iff in H as [? ?]
  | H : (_ && _)%bool = false |- _ => apply andb_false_iff in H
  | H : (_ || _)%bool = false |- _ => apply orb_false_iff in H as [? ?]
  | H : (_ || _)%bool = true |- _ => apply orb_true_iff in H
  | H : negb _ = true |- _ => apply negb_true_iff in H
  | H : negb _ = false |- _ => apply negb_false_iff in H
  | H : (_ <? _)%Z = true |- _ => apply Z.ltb_lt in H
  | H : (_ <? _)%Z = false |- _ => apply Z.ltb_ge in H
  | H : (_ <=? _)%Z = true |- _ => apply Z.leb_le in H
  | H : (_ <=? _)%Z = false |- _ => apply Z.leb_gt in H
  | H : (_ =? _)%Z = true |- _ => apply Z.eqb_eq in H
  | H : (_ =? _)%Z = false |- _ => apply Z.eqb_neq in H
  | H : bool_decide _ = true |- _ => apply bool_decide_eq_true_1 in H
  | H : bool_decide _ = false |- _ => apply bool_decide_eq_false_1 in H
  end.

(** ** Generic lemmas *)
Lemma str_empty_true s : str_empty s = true <-> s = ε.
Proof. by destruct s. Qed.
Lemma str_empty_false s : str_empty s = false <-> s <> ε.
Proof. by destruct s. Qed.

Lemma res_bind_Ok {E A B} (m : res E A) (k : A -> res E B) b :
  res_bind m k = Ok b <-> exists a, m = Ok a /\ k a = Ok b.
Proof. destruct m; simpl; split; [eauto | by intros (? & [= ->] & ?) | done | by intros (? & ? & ?)]. Qed.

Lemma u64_small x : is_u64 x -> u64 x = x.
Proof. intros. by apply Z.mod_small. Qed.
Lemma u64_range x : is_u64 (u64 x).
Proof. by apply Z.mod_pos_bound. Qed.
Lemma i64_small x : is_i64 x -> i64 x = x.
Proof. unfold is_i64, i64. intros. rewrite Z.mod_small; lia. Qed.
Lemma i64_range x : is_i64 (i64 x).
Proof. unfold is_i64, i64. pose proof (Z.mod_pos_bound (x + 2 ^ 63) (2 ^ 64)). lia. Qed.

#[export] Hint Resolve u64_range i64_range : go.
#[export] Hint Rewrite @str_empty_true @str_empty_false : go_rw.

Lemma range_order_elem {K A} `{Countable K} (m : gmap K A) l k a :
  range_order m l -> (k, a) ∈ l <-> m !! k = Some a.
Proof. unfold range_order. intros ->. apply elem_of_map_to_list. Qed.

Lemma range_order_self {K A} `{Countable K} (m : gmap K A) :
  range_order m (map_to_list m).
Proof. by unfold range_order. Qed.

Lemma range_order_NoDup {K A} `{Countable K} (m : gmap K A) l :
  range_order m l -> NoDup l.*1.
Proof. unfold range_order. intros ->. apply NoDup_fst_map_to_list. Qed.

Lemma key_order_elem {K} `{Countable K} (X : gset K) l k :
  key_order X l -> k ∈ l <-> k ∈ X.
Proof. unfold key_order. intros ->. apply elem_of_elements. Qed.

Lemma key_order_self {K} `{Countable K} (X : gset K) : key_order X (elements X).
Proof. by unfold key_order. Qed.

Lemma elem_of_range `{MapRange} {A} (m : gmap string A) k a : (k, a) ∈ range_of m <-> m !! k = Some a.
Proof. apply range_order_elem, range_of_ok. Qed.

Lemma range_of_empty `{MapRange} A : range_of (∅ : gmap string A) = [].
Proof.
  pose proof (range_of_ok A ∅) as Hr. unfold range_order in Hr. rewrite map_to_list_empty in Hr.
  by apply Permutation_nil_r in Hr.
Qed.

(** The oracle of the witnesses. *)
Definition sorted_range : MapRange :=
  {| range_of A m := map_to_list m; range_of_ok A m := range_order_self m |}.

#[export] Hint Resolve range_order_self key_order_self range_order_NoDup : go.

(** A loop that returns the first error: it ends well when no element fails. *)
Fixpoint first_error {E A} (check : A -> res E ()) (l : list A) : res E () :=
  match l with
  | [] => Ok ()
  | a :: l' => let? _ := check a in first_error check l'
  end.
Lemma first_error_Ok {E A} (check : A -> res E ()) l :
  first_error check l = Ok () <-> forall a, a ∈ l -> check a = Ok ().
Proof.
  induction l as [|a l IH]; simpl; [split; [by intros _ ? ?%elem_of_nil | done]|].
  destruct (check a) as [[]|] eqn:E1; simpl.
  - rewrite IH. split; [intros H b [->|?]%elem_of_cons; auto | intros H b ?; apply H; by right].
  - split; [done|]. intros H. rewrite H in E1; [done | by left].
Qed.
(** The same with the index of the element. *)
Fixpoint first_error_at {E A} (check : nat -> A -> res E ()) (i : nat) (l : list A) : res E () :=
  match l with
  | [] => Ok ()
  | a :: l' => let? _ := check i a in first_error_at check (S i) l'
  end.
Lemma first_error_at_Ok {E A} (check : nat -> A -> res E ()) (ok : A -> Prop) i l :
  (forall i a, check i a = Ok () <-> ok a) ->
  first_error_at check i l = Ok () <-> forall a, a ∈ l -> ok a.
Proof.
  intros Hok. revert i. induction l as [|a l IH]; intros i; simpl; [split; [by intros _ ? ?%elem_of_nil | done]|].
  pose proof (Hok i a) as Ha. destruct (check i a) as [[]|] eqn:E1; simpl.
  - rewrite IH. split; [intros H b [->|?]%elem_of_cons; [by apply Ha | auto] | intros H b ?; apply H; by right].
  - split; [done|]. intros H. enough (Err e = Ok () :> res E ()) by done. apply Ha, H. by left.
Qed.
Lemma res_unit_bind {E} (m k : res E ()) : res_bind m (fun _ => k) = Ok () <-> m = Ok () /\ k = Ok ().
Proof. destruct m as [[]|]; simpl; naive_solver. Qed.
Lemma reject_Ok {E} (b : bool) (e : E) (k : res E ()) :
  (if b then Err e else k) = Ok () <-> b = false /\ k = Ok ().
Proof. destruct b; naive_solver. Qed.

(** A left fold preserves an invariant of its accumulator. *)
Lemma foldl_inv {A B} (P : A -> Prop) (f : A -> B -> A) l a :
  P a -> (forall a b, b ∈ l -> P a -> P (f a b)) -> P (foldl f a l).
Proof.
  revert a. induction l as [|b l IH]; intros a Ha Hf; [done|]. simpl.
  apply IH; [apply Hf; [by left | done] |]. intros; apply Hf; [by right | done].
Qed.

(** A loop that writes [val x] under [key x]: the last writer of a key wins. *)
Lemma foldl_insert_lookup {K A B} `{Countable K} (key : B -> K) (val : B -> A) (m : gmap K A) (l : list B) k :
  foldl (fun m x => <[key x := val x]> m) m l !! k =
    match last (filter (fun x => key x = k) l) with Some x => Some (val x) | None => m !! k end.
Proof.
  induction l as [|x l IH] using rev_ind; [done|]. rewrite foldl_app, filter_app. simpl.
  destruct (decide (key x = k)) as [<-|Hne].
  - rewrite lookup_insert_eq, filter_cons_True, filter_nil by done. by rewrite last_snoc.
  - rewrite lookup_insert_ne, filter_cons_False, filter_nil by done. by rewrite app_nil_r.
Qed.
