(* ===== verification/GoStd.v ===== *)
(** * GoStd

    The parts of the Go standard library the source uses: the [strings]
    functions on byte strings, [time.Time] and [time.Duration] arithmetic and
    integer printing.  Strings are sequences of bytes.  Case mapping and white
    space follow the functions' ASCII fast path: a string with a byte of 128 or
    more is outside what [ToLower], [TrimSpace] and [EqualFold] describe here. *)

From Stdlib Require Export SpecFloat.
From S2P Require Import Prelude.

(** ** [strings] *)
Module Strings.

(** The byte string without its prefix [p], when it has it. *)
Fixpoint CutPrefix (s p : string) {struct p} : option string :=
  match p with
  | EmptyString => Some s
  | String a p' =>
      match s with
      | EmptyString => None
      | String b s' => if Ascii.eqb a b then CutPrefix s' p' else None
      end
  end.
Definition HasPrefix (s p : string) : bool :=
  match CutPrefix s p with Some _ => true | None => false end.
Definition TrimPrefix (s p : string) : string := default s (CutPrefix s p).

(** [s[n:]] and [s[:n]]. *)
Fixpoint drop_bytes (n : nat) (s : string) : string :=
  match n, s with
  | S n', String _ s' => drop_bytes n' s'
  | _, _ => s
  end.
Fixpoint take_bytes (n : nat) (s : string) : string :=
  match n, s with
  | S n', String c s' => String c (take_bytes n' s')
  | _, _ => EmptyString
  end.

Definition HasSuffix (s suf : string) : bool :=
  (String.length suf <=? String.length s)%nat
  && String.eqb (drop_bytes (String.length s - String.length suf) s) suf.
Definition TrimSuffix (s suf : string) : string :=
  if HasSuffix s suf then take_bytes (String.length s - String.length suf) s else s.

(** Position of the first and of the last occurrence. *)
Fixpoint index_nat (s sub : string) : option nat :=
  if HasPrefix s sub then Some O
  else match s with
       | EmptyString => None
       | String _ s' => S <$> index_nat s' sub
       end.
Fixpoint last_index_nat (s sub : string) : option nat :=
  match s with
  | EmptyString => if HasPrefix s sub then Some O else None
  | String _ s' =>
      match last_index_nat s' sub with
      | Some n => Some (S n)
      | None => if HasPrefix s sub then Some O else None
      end
  end.
Definition index_Z (o : option nat) : Z := match o with Some n => Z.of_nat n | None => -1 end.
Definition Index (s sub : string) : Z := index_Z (index_nat s sub).
Definition LastIndex (s sub : string) : Z := index_Z (last_index_nat s sub).
Definition Contains (s sub : string) : bool :=
  match index_nat s sub with Some _ => true | None => false end.

(** [strings.Cut] at a separator of one byte. *)
Fixpoint CutByte (s : string) (sep : ascii) : option (string * string) :=
  match s with
  | EmptyString => None
  | String c s' =>
      if Ascii.eqb c sep then Some (EmptyString, s')
      else match CutByte s' sep with
           | Some (a, b) => Some (String c a, b)
           | None => None
           end
  end.
(** [strings.Split] at a separator of one byte. *)
Fixpoint SplitByte (s : string) (sep : ascii) : list string :=
  match s with
  | EmptyString => [EmptyString]
  | String c s' =>
      if Ascii.eqb c sep then EmptyString :: SplitByte s' sep
      else match SplitByte s' sep with
           | w :: ws => String c w :: ws
           | [] => [String c EmptyString]
           end
  end.

Definition lower_byte (c : ascii) : ascii :=
  let n := nat_of_ascii c in
  if ((65 <=? n) && (n <=? 90))%nat then ascii_of_nat (n + 32) else c.
Fixpoint ToLower (s : string) : string :=
  match s with
  | EmptyString => EmptyString
  | String c s' => String (lower_byte c) (ToLower s')
  end.
Definition EqualFold (s t : string) : bool := String.eqb (ToLower s) (ToLower t).

Definition is_space (c : ascii) : bool :=
  let n := nat_of_ascii c in (((9 <=? n) && (n <=? 13)) || (n =? 32))%nat.
Fixpoint TrimLeftSpace (s : string) : string :=
  match s with
  | String c s' => if is_space c then TrimLeftSpace s' else s
  | EmptyString => EmptyString
  end.
Fixpoint TrimRightSpace (s : string) : string :=
  match s with
  | EmptyString => EmptyString
  | String c s' =>
      let r := TrimRightSpace s' in
      if is_space c && str_empty r then EmptyString else String c r
  end.
Definition TrimSpace (s : string) : string := TrimRightSpace (TrimLeftSpace s).

Fixpoint Join (parts : list string) (sep : string) : string :=
  match parts with
  | [] => EmptyString
  | [p] => p
  | p :: ps => (p +:+ sep +:+ Join ps sep)%stdpp
  end.

(** [strings.ReplaceAll] of a non-empty [old]: each step takes at least a byte. *)
Fixpoint replace_fuel (fuel : nat) (s old new : string) : string :=
  match fuel with
  | O => s
  | S fuel' =>
      match CutPrefix s old with
      | Some r => (new +:+ replace_fuel fuel' r old new)%stdpp
      | None =>
          match s with
          | EmptyString => EmptyString
          | String c s' => String c (replace_fuel fuel' s' old new)
          end
      end
  end.
Definition ReplaceAll (s old new : string) : string := replace_fuel (String.length s) s old new.

Fixpoint str_forallb (f : ascii -> bool) (s : string) : bool :=
  match s with EmptyString => true | String c s' => f c && str_forallb f s' end.
Definition is_digit (c : ascii) : bool :=
  let n := nat_of_ascii c in ((48 <=? n) && (n <=? 57))%nat.

End Strings.

(** ** [time]

    A [time.Time] is its number of nanoseconds since January 1, year 1, 00:00
    UTC, the instant for which [IsZero] holds; monotonic readings and locations
    are left out, every time in the source being compared or printed in UTC. *)
Module Time.

Definition t : Type := Z.
Definition zero : t := 0.
Definition IsZero (x : t) : bool := x =? 0.
Definition maxDuration : Z := 2 ^ 63 - 1.
Definition minDuration : Z := - 2 ^ 63.
Definition Nanosecond : Z := 1.
Definition Millisecond : Z := 1000000.
Definition Second : Z := 1000000000.
Definition Hour : Z := 3600 * Second.

(** [t.Sub(u)] saturates. *)
Definition Sub (x y : t) : Z := Z.max minDuration (Z.min maxDuration (x - y)).
Definition After (x y : t) : bool := y <? x.
Definition Before (x y : t) : bool := x <? y.
Definition Add (x : t) (d : Z) : t := x + d.

(** [time.Duration(n) * unit] on [int64]. *)
Definition mul_duration (n unit : Z) : Z := i64 (i64 n * unit).
(** [d.Milliseconds()]: division truncates towards zero. *)
Definition Milliseconds (d : Z) : Z := Z.quot d Millisecond.
(** [t.Unix()], seconds since 1970. *)
Definition Unix (x : t) : Z := Z.div x Second - 62135596800.
(** [time.Unix(seconds, 0)]. *)
Definition FromUnix (seconds : Z) : t := (seconds + 62135596800) * Second.

End Time.

(** ** [float64]: IEEE 754 binary64, round to nearest even, on the Standard
    Library's [spec_float]. *)
Module Float64.
Definition t : Type := spec_float.
Definition zero : t := S754_zero false.
Definition add : t -> t -> t := SFadd 53 1024.
Definition sub : t -> t -> t := SFsub 53 1024.
Definition mul : t -> t -> t := SFmul 53 1024.
Definition div : t -> t -> t := SFdiv 53 1024.
Definition ltb : t -> t -> bool := SFltb.
Definition leb : t -> t -> bool := SFleb.
Definition eqb : t -> t -> bool := SFeqb.
(** [float64(n)] of an integer. *)
Definition of_Z (n : Z) : t := binary_normalize 53 1024 n 0 false.
(** [int64(f)]: the fraction is dropped; outside [int64] the language leaves the
    result open, and this is what amd64 gives. *)
Definition to_i64 (f : t) : Z :=
  match f with
  | S754_zero _ => 0
  | S754_finite s m e =>
      let a := if 0 <=? e then Zpos m * 2 ^ e else Zpos m / 2 ^ (- e) in
      let z := if s then - a else a in
      if (- 2 ^ 63 <=? z) && (z <? 2 ^ 63) then z else - 2 ^ 63
  | _ => - 2 ^ 63
  end.
(** [Duration.Seconds]. *)
Definition Seconds (d : Z) : t :=
  add (of_Z (Z.quot d Time.Second)) (div (of_Z (Z.rem d Time.Second)) (of_Z Time.Second)).
End Float64.

(** [math]: [Frexp], [Ldexp], and [Pow] of a positive finite number and an
    integer, by the squarings of the library's loop. *)
Module Math.
Definition one : Float64.t := Float64.of_Z 1.
Definition half : Float64.t := Float64.div one (Float64.of_Z 2).
Definition Frexp (x : Float64.t) : Float64.t * Z := SFfrexp 53 1024 x.
Definition Ldexp (x : Float64.t) (e : Z) : Float64.t := SFldexp 53 1024 x e.

(** [x] to the power [i] is [a1 * 2^ae * (x1 * 2^xe)^i]. *)
Fixpoint pow_loop (i : positive) (a1 : Float64.t) (ae : Z) (x1 : Float64.t) (xe : Z) : Float64.t * Z :=
  if (xe <? - 2 ^ 12) || (2 ^ 12 <? xe) then (a1, ae + xe)
  else
    let squared := Float64.mul x1 x1 in
    let '(x1', xe') :=
      if Float64.ltb squared half then (Float64.add squared squared, 2 * xe - 1) else (squared, 2 * xe) in
    match i with
    | xH => (Float64.mul a1 x1, ae + xe)
    | xI i' => pow_loop i' (Float64.mul a1 x1) (ae + xe) x1' xe'
    | xO i' => pow_loop i' a1 ae x1' xe'
    end.
Definition Pow (x : Float64.t) (n : Z) : Float64.t :=
  if (n =? 0) || Float64.eqb x one then one
  else if n =? 1 then x
  else
    let '(x1, xe) := Frexp x in
    let '(a1, ae) := pow_loop (Z.to_pos (Z.abs n)) one 0 x1 xe in
    if n <? 0 then Ldexp (Float64.div one a1) (- ae) else Ldexp a1 ae.
End Math.

(** [%d] of an [int], and [strconv.Itoa]. *)
Definition Itoa (n : Z) : string := pretty n.

(** [%0wd] of a number that is not negative. *)
Fixpoint zeros (k : nat) : string := match k with O => EmptyString | S k => String "0" (zeros k) end.
Definition ZeroPad (w : nat) (n : Z) : string := (zeros (w - String.length (Itoa n)) +:+ Itoa n)%stdpp.

(** [%.2f] and the like: the decimal with so many places nearest to the float,
    ties to even. *)
Definition div_half_even (n d : Z) : Z :=
  let q := n / d in
  let r := n mod d in
  if 2 * r <? d then q else if d <? 2 * r then q + 1 else if Z.even q then q else q + 1.
Definition Fixed (places : nat) (f : Float64.t) : string :=
  let scale := 10 ^ Z.of_nat places in
  match f with
  | S754_nan => "NaN"
  | S754_infinity s => if s then "-Inf" else "+Inf"
  | S754_zero s => ((if s then "-" else EmptyString) +:+ "0." +:+ zeros places)%stdpp
  | S754_finite s m e =>
      let n := if 0 <=? e then Zpos m * 2 ^ e * scale else div_half_even (Zpos m * scale) (2 ^ (- e)) in
      ((if s then "-" else EmptyString) +:+ Itoa (n / scale) +:+ "." +:+ ZeroPad places (n mod scale))%stdpp
  end.
Definition Fixed2 : Float64.t -> string := Fixed 2.

(** [strconv.Atoi]: an optional sign and decimal digits, in the range of an [int]. *)
Fixpoint digits_value (acc : Z) (s : string) : option Z :=
  match s with
  | EmptyString => Some acc
  | String c s' =>
      if Strings.is_digit c then digits_value (10 * acc + Z.of_nat (nat_of_ascii c) - 48) s' else None
  end.
Definition in_int (n : option Z) : option Z :=
  match n with
  | Some n => if (- 2 ^ 63 <=? n) && (n <? 2 ^ 63) then Some n else None
  | None => None
  end.
Definition Atoi (s : string) : option Z :=
  match s with
  | EmptyString => None
  | String c s' =>
      let signed := Ascii.eqb c "-" || Ascii.eqb c "+" in
      let digits := if signed then s' else s in
      if str_empty digits then None
      else in_int (if Ascii.eqb c "-" then option_map Z.opp (digits_value 0 digits) else digits_value 0 digits)
  end.

(** ** [path/filepath] on Unix *)
Module Path.
Definition slash : ascii := "/".
Definition IsAbs (path : string) : bool := Strings.HasPrefix path "/".
(** [Clean]'s loop over the elements, the last one kept first. *)
Fixpoint clean_elems (rooted : bool) (stack elems : list string) : list string :=
  match elems with
  | [] => rev stack
  | e :: elems' =>
      if str_empty e || String.eqb e "." then clean_elems rooted stack elems'
      else if String.eqb e ".." then
        match stack with
        | top :: stack' =>
            if String.eqb top ".." then clean_elems rooted (e :: stack) elems'
            else clean_elems rooted stack' elems'
        | [] => clean_elems rooted (if rooted then [] else [e]) elems'
        end
      else clean_elems rooted (e :: stack) elems'
  end.
Definition Clean (path : string) : string :=
  let rooted := IsAbs path in
  let body := Strings.Join (clean_elems rooted [] (Strings.SplitByte path slash)) "/" in
  if rooted then ("/" +:+ body)%stdpp else if str_empty body then "."%string else body.
(** Leading empty elements are dropped; no element left gives the empty path. *)
Fixpoint Join (elems : list string) : string :=
  match elems with
  | [] => EmptyString
  | e :: elems' => if str_empty e then Join elems' else Clean (Strings.Join elems "/")
  end.
(** The extension: from the last dot of the last element. *)
Fixpoint Ext (path : string) : string :=
  match path with
  | EmptyString => EmptyString
  | String c p' =>
      if negb (str_empty (Ext p')) then Ext p'
      else if Ascii.eqb c "." && negb (Strings.Contains p' "/") then path else EmptyString
  end.
(** [Dir]: the path up to its last slash, cleaned. *)
Definition Dir (path : string) : string :=
  match Strings.last_index_nat path "/" with
  | Some n => Clean (Strings.take_bytes (S n) path)
  | None => "."%string
  end.
Definition Base (path : string) : string :=
  if str_empty path then "."%string
  else match List.filter (fun e => negb (str_empty e)) (rev (Strings.SplitByte path slash)) with
       | e :: _ => e
       | [] => "/"%string
       end.
End Path.

(** [%q] of a string of printable ASCII bytes. *)
Definition quote_byte : ascii := ascii_of_nat 34.
Fixpoint escape (s : string) : string :=
  match s with
  | EmptyString => EmptyString
  | String c s' =>
      if Ascii.eqb c quote_byte || Ascii.eqb c (ascii_of_nat 92)
      then String (ascii_of_nat 92) (String c (escape s')) else String c (escape s')
  end.
Definition Quote (s : string) : string := String quote_byte (escape s +:+ String quote_byte EmptyString)%stdpp.

(** ** Lemmas *)
(** ** [net/url] *)
Module Url.
Definition is_unreserved (c : ascii) : bool :=
  let n := nat_of_ascii c in
  Strings.is_digit c || ((65 <=? n)%nat && (n <=? 90)%nat) || ((97 <=? n)%nat && (n <=? 122)%nat) ||
  existsb (Ascii.eqb c) ["-"; "_"; "."; "~"]%char.
Definition hex_digit (n : nat) : ascii := ascii_of_nat (if (n <? 10)%nat then 48 + n else 55 + n).
Fixpoint QueryEscape (s : string) : string :=
  match s with
  | EmptyString => EmptyString
  | String c s' =>
      let n := nat_of_ascii c in
      if is_unreserved c then String c (QueryEscape s')
      else if Ascii.eqb c " " then String "+" (QueryEscape s')
      else String "%" (String (hex_digit (n / 16)) (String (hex_digit (n mod 16)) (QueryEscape s')))
  end.
(** [url.Values], and [Encode] of them by the order of their keys. *)
Definition Values := gmap string (list string).
Definition Add (key val : string) (v : Values) : Values := <[key := default [] (v !! key) ++ [val]]> v.
Definition Set_ (key val : string) (v : Values) : Values := <[key := [val]]> v.
Definition Encode (v : Values) : string :=
  Strings.Join
    (mbind (fun kv => (fun val => (QueryEscape kv.1 +:+ "=" +:+ QueryEscape val)%stdpp) <$> kv.2) (members v)) "&".
End Url.

Module StringsFacts.
Import Strings.

Lemma append_nil_r (s : string) : (s +:+ EmptyString = s)%stdpp.
Proof. induction s; simpl; [done | by f_equal]. Qed.

Lemma append_assoc (a b c : string) : ((a +:+ b) +:+ c = a +:+ (b +:+ c))%stdpp.
Proof. induction a; simpl; [done | by f_equal]. Qed.

Lemma length_append (a b : string) :
  String.length (a +:+ b)%stdpp = (String.length a + String.length b)%nat.
Proof. induction a; simpl; [done | by rewrite IHa]. Qed.

Lemma CutPrefix_Some s p r : CutPrefix s p = Some r <-> (s = p +:+ r)%stdpp.
Proof.
  revert s. induction p as [|a p IH]; intros s; simpl; [split; congruence|].
  destruct s as [|b s]; [split; discriminate|].
  destruct (Ascii.eqb_spec a b) as [->|Hne]; [rewrite IH; split; congruence|].
  split; congruence.
Qed.

Lemma HasPrefix_true s p : HasPrefix s p = true <-> exists r, (s = p +:+ r)%stdpp.
Proof.
  unfold HasPrefix. destruct (CutPrefix s p) as [r|] eqn:E.
  - apply CutPrefix_Some in E. naive_solver.
  - split; [done|]. intros [r Hr]. apply CutPrefix_Some in Hr. congruence.
Qed.

Lemma TrimPrefix_append p r : TrimPrefix (p +:+ r)%stdpp p = r.
Proof.
  unfold TrimPrefix. by rewrite (proj2 (CutPrefix_Some (p +:+ r)%stdpp p r) eq_refl).
Qed.

Lemma drop_append a b : drop_bytes (String.length a) (a +:+ b)%stdpp = b.
Proof. by induction a. Qed.
Lemma take_append a b : take_bytes (String.length a) (a +:+ b)%stdpp = a.
Proof. induction a; simpl; [by destruct b | by f_equal]. Qed.
Lemma take_drop n s : (take_bytes n s +:+ drop_bytes n s = s)%stdpp.
Proof. revert s. induction n; intros []; simpl; f_equal; done. Qed.
Lemma length_take n s : (n <= String.length s)%nat -> String.length (take_bytes n s) = n.
Proof. revert s. induction n; intros [] H; simpl in *; try lia. f_equal. apply IHn. lia. Qed.

Lemma HasSuffix_true s suf : HasSuffix s suf = true <-> exists r, (s = r +:+ suf)%stdpp.
Proof.
  unfold HasSuffix. rewrite andb_true_iff, Nat.leb_le, String.eqb_eq. split.
  - intros [_ H]. exists (take_bytes (String.length s - String.length suf) s).
    etrans; [symmetry; apply take_drop | by rewrite H].
  - intros [r ->]. rewrite length_append. split; [lia|].
    replace (_ - _)%nat with (String.length r) by lia. apply drop_append.
Qed.

Lemma TrimSuffix_append r suf : TrimSuffix (r +:+ suf)%stdpp suf = r.
Proof.
  unfold TrimSuffix.
  rewrite (proj2 (HasSuffix_true (r +:+ suf)%stdpp suf) (ex_intro _ r eq_refl)).
  rewrite length_append. replace (_ - _)%nat with (String.length r) by lia.
  apply take_append.
Qed.

Lemma Contains_true s sub :
  Contains s sub = true <-> exists a b, (s = a +:+ sub +:+ b)%stdpp.
Proof.
  unfold Contains. split.
  - destruct (index_nat s sub) as [n|] eqn:E; [|done]. intros _. revert n E.
    induction s as [|c s IH]; simpl; intros n; destruct (HasPrefix _ sub) eqn:P; try done.
    + intros _. apply HasPrefix_true in P as [r ->]. by exists EmptyString, r.
    + intros _. apply HasPrefix_true in P as [r ->]. by exists EmptyString, r.
    + intros (m & E & _)%fmap_Some. destruct (IH m E) as (a & b & ->).
      by exists (String c a), b.
  - intros (a & b & ->). enough (is_Some (index_nat (a +:+ sub +:+ b)%stdpp sub)) as [n ->] by done.
    induction a as [|c a IH].
    + simpl (_ +:+ _)%stdpp. destruct (sub +:+ b)%stdpp eqn:E; simpl;
      (assert (HasPrefix (sub +:+ b)%stdpp sub = true) as P by (apply HasPrefix_true; eauto));
      rewrite E in P; rewrite P; eauto.
    + simpl. case_match; [by eauto|]. by apply fmap_is_Some.
Qed.
Lemma str_forallb_impl (f g : ascii -> bool) s :
  (forall c, f c = true -> g c = true) -> str_forallb f s = true -> str_forallb g s = true.
Proof. intros Hfg. induction s as [|c s IH]; simpl; [done|]. intros [Hc Hs]%andb_true_iff. by rewrite Hfg, IH. Qed.
Lemma str_forallb_app f a b : str_forallb f (a +:+ b)%stdpp = str_forallb f a && str_forallb f b.
Proof. induction a as [|c a IH]; simpl; [done|]. by rewrite IH, andb_assoc. Qed.

(** [strings.Cut] splits at the first separator. *)
Lemma CutByte_append a b sep :
  str_forallb (fun c => negb (Ascii.eqb c sep)) a = true ->
  CutByte (a +:+ String sep b)%stdpp sep = Some (a, b).
Proof.
  induction a as [|c a IH]; simpl; [by rewrite Ascii.eqb_refl|].
  intros [H1 H2]%andb_true_iff. apply negb_true_iff in H1. rewrite H1.
  by rewrite (IH H2).
Qed.

Lemma CutByte_Some s sep a b :
  CutByte s sep = Some (a, b) ->
  (s = a +:+ String sep b)%stdpp /\ str_forallb (fun c => negb (Ascii.eqb c sep)) a = true.
Proof.
  revert a b. induction s as [|c s IH]; intros a b; simpl; [done|].
  destruct (Ascii.eqb_spec c sep) as [->|Hne]; [by intros [= <- <-]|].
  destruct (CutByte s sep) as [[a' b']|]; [|done].
  intros [= <- <-]. destruct (IH a' b') as [-> H]; [done|]. split; [done|].
  simpl. rewrite H, andb_true_r. apply negb_true_iff, Ascii.eqb_neq, Hne.
Qed.

Lemma SplitByte_join s sep : Join (SplitByte s sep) (String sep EmptyString) = s.
Proof.
  induction s as [|c s IH]; simpl; [done|]. destruct (Ascii.eqb_spec c sep) as [->|Hne].
  - destruct (Strings.SplitByte s sep) eqn:E; [by destruct s; simpl in E; repeat case_match|].
    simpl in *. by rewrite IH.
  - destruct (Strings.SplitByte s sep) as [|w ws] eqn:E; [by destruct s; simpl in E; repeat case_match|].
    simpl in *. destruct ws; simpl in *; by rewrite <- IH.
Qed.
Lemma SplitByte_no_sep s sep :
  Strings.str_forallb (fun c => negb (Ascii.eqb c sep)) s = true -> Strings.SplitByte s sep = [s].
Proof.
  induction s as [|c s IH]; simpl; [done|]. intros [Hc Hs]%andb_true_iff. apply negb_true_iff in Hc.
  by rewrite Hc, IH.
Qed.
Lemma SplitByte_app a b sep :
  Strings.str_forallb (fun c => negb (Ascii.eqb c sep)) a = true ->
  Strings.SplitByte (a +:+ String sep b)%stdpp sep = a :: Strings.SplitByte b sep.
Proof.
  induction a as [|c a IH]; simpl; [by rewrite Ascii.eqb_refl|]. intros [Hc Hs]%andb_true_iff.
  apply negb_true_iff in Hc. by rewrite Hc, IH.
Qed.
Lemma SplitByte_app_sep a b sep :
  SplitByte (a +:+ String sep b)%stdpp sep = SplitByte a sep ++ SplitByte b sep.
Proof.
  induction a as [|c a IH]; simpl; [by rewrite Ascii.eqb_refl|]. destruct (Ascii.eqb c sep); [by rewrite IH|].
  rewrite IH. destruct (SplitByte a sep) as [|w ws] eqn:E; [|done].
  by destruct a; simpl in E; repeat case_match.
Qed.
Lemma SplitByte_pieces s sep : Forall (fun w => str_forallb (fun c => negb (Ascii.eqb c sep)) w = true) (SplitByte s sep).
Proof.
  induction s as [|c s IH]; simpl; [by repeat constructor|]. destruct (Ascii.eqb c sep) eqn:E; [by constructor|].
  destruct (SplitByte s sep) as [|w ws]; [by repeat constructor; simpl; rewrite E|].
  apply Forall_cons in IH as [Hw Hws]. constructor; [|done]. simpl. by rewrite E.
Qed.
Lemma SplitByte_Join l sep :
  l <> [] -> Forall (fun w => str_forallb (fun c => negb (Ascii.eqb c sep)) w = true) l ->
  SplitByte (Join l (String sep EmptyString)) sep = l.
Proof.
  intros Hne Hl. induction Hl as [|w l Hw Hl IH]; [done|]. destruct l as [|w' l]; [by apply SplitByte_no_sep|].
  change (Join (w :: w' :: l) (String sep EmptyString)) with
    (w +:+ String sep (Join (w' :: l) (String sep EmptyString)))%stdpp.
  rewrite SplitByte_app by done. by rewrite IH.
Qed.

Lemma TrimLeftSpace_idem s : TrimLeftSpace (TrimLeftSpace s) = TrimLeftSpace s.
Proof.
  induction s as [|c s IH]; simpl; [done|]. destruct (is_space c) eqn:E; [done|].
  simpl. by rewrite E.
Qed.
Lemma TrimRightSpace_idem s : TrimRightSpace (TrimRightSpace s) = TrimRightSpace s.
Proof.
  induction s as [|c s IH]; simpl; [done|].
  destruct (is_space c && str_empty (TrimRightSpace s)) eqn:E; [done|].
  simpl. by rewrite IH, E.
Qed.
Lemma lower_byte_idem c : lower_byte (lower_byte c) = lower_byte c.
Proof. destruct c as [[] [] [] [] [] [] [] []]; vm_compute; reflexivity. Qed.
Lemma ToLower_idem s : ToLower (ToLower s) = ToLower s.
Proof. induction s; simpl; [done|]. by rewrite lower_byte_idem, IHs. Qed.

End StringsFacts.

Module TimeFacts.
Import Time.

Lemma Sub_small x y : is_i64 (x - y) -> Sub x y = x - y.
Proof. unfold is_i64, Sub, minDuration, maxDuration. lia. Qed.
Lemma Sub_ge x y d : d <= maxDuration -> d <= x - y -> d <= Sub x y.
Proof. unfold Sub. lia. Qed.
Lemma Sub_lt x y d : minDuration < d -> x - y < d -> Sub x y < d.
Proof. unfold Sub, maxDuration. lia. Qed.
Lemma mul_duration_small n u :
  is_i64 n -> is_i64 (n * u) -> mul_duration n u = n * u.
Proof. intros. unfold mul_duration. by rewrite (i64_small n), i64_small. Qed.

Lemma mul_duration_le n u : mul_duration n u <= maxDuration.
Proof. pose proof (i64_range (i64 n * u)). unfold is_i64, mul_duration, maxDuration in *. lia. Qed.

End TimeFacts.

Module PathFacts.
Import Strings StringsFacts Path.

(** A cleaned stack of elements, the last one first: no empty element, no ["."],
    no slash, and [".."] only at the bottom of a relative path. *)
Definition no_slash (e : string) : Prop := str_forallb (fun c => negb (Ascii.eqb c slash)) e = true.
Definition plain (e : string) : Prop := e <> EmptyString /\ e <> "."%string /\ no_slash e.
Fixpoint clean_stack (rooted : bool) (st : list string) : Prop :=
  match st with
  | [] => True
  | e :: st' => plain e /\ clean_stack rooted st' /\
      (e = ".."%string -> rooted = false /\ forall x, x ∈ st' -> x = ".."%string)
  end.

Lemma clean_elems_app rooted st l1 l2 :
  clean_elems rooted st (l1 ++ l2) = clean_elems rooted (rev (clean_elems rooted st l1)) l2.
Proof.
  revert st. induction l1 as [|e l1 IH]; intros st; simpl; [by rewrite rev_involutive|].
  repeat case_match; apply IH.
Qed.

Lemma clean_elems_stack rooted st l :
  clean_stack rooted st -> Forall no_slash l -> clean_stack rooted (rev (clean_elems rooted st l)).
Proof.
  intros Hst Hl. revert st Hst. induction Hl as [|e l He Hl IH]; intros st Hst; cbn [clean_elems].
  { by rewrite rev_involutive. }
  destruct (str_empty e) eqn:Ee; [by apply IH|]. apply str_empty_false in Ee. simpl.
  destruct (String.eqb_spec e ".") as [->|Hdot]; [by apply IH|].
  destruct (String.eqb_spec e "..") as [->|Hdd].
  - destruct st as [|top st].
    + apply IH. destruct rooted; [done|]. split; [done|]. split; [done|]. intros _. split; [done|].
      by intros x ?%elem_of_nil.
    + destruct Hst as (Htop & Hst & Hup). destruct (String.eqb_spec top "..") as [->|]; [|by apply IH].
      apply IH. destruct (Hup eq_refl) as [-> Hall]. split; [done|]. split; [done|]. intros _. split; [done|].
      intros x [->|?]%elem_of_cons; auto.
  - apply IH. split; [done|]. split; [done|]. intros ->. done.
Qed.

(** Cleaning a cleaned stack gives it back. *)
Lemma reclean rooted st : clean_stack rooted st -> clean_elems rooted [] (rev st) = rev st.
Proof.
  induction st as [|e st IH]; [done|]. intros ((He & Hdot & _) & Hst & Hup). simpl.
  rewrite clean_elems_app, IH, rev_involutive by done. cbn [clean_elems].
  rewrite (proj2 (str_empty_false e) He). destruct (String.eqb_spec e "."); [done|]. simpl.
  destruct (String.eqb_spec e "..") as [->|]; [|done]. destruct (Hup eq_refl) as [-> Hall].
  destruct st as [|top st]; [done|]. rewrite (Hall top) by (by left). done.
Qed.

Lemma clean_stack_no_slash rooted st : clean_stack rooted st -> Forall no_slash (rev st).
Proof.
  induction st as [|e st IH]; simpl; [constructor|]. intros ((_ & _ & He) & Hst & _).
  apply Forall_app. split; [by apply IH|]. by repeat constructor.
Qed.

Definition elems_of (path : string) : list string := clean_elems (IsAbs path) [] (SplitByte path slash).
Lemma Clean_app_body path r :
  elems_of path <> [] ->
  IsAbs (Clean path +:+ String slash r)%stdpp = IsAbs path /\
  elems_of (Clean path +:+ String slash r)%stdpp =
    clean_elems (IsAbs path) (rev (elems_of path)) (SplitByte r slash).
Proof.
  intros Hne. unfold Clean. fold (elems_of path).
  pose proof (clean_elems_stack (IsAbs path) [] (SplitByte path slash) I (SplitByte_pieces path slash)) as Hst.
  fold (elems_of path) in Hst. pose proof (clean_stack_no_slash _ _ Hst) as Hns. rewrite rev_involutive in Hns.
  pose proof (reclean _ _ Hst) as Hre. rewrite rev_involutive in Hre.
  pose proof (SplitByte_Join (elems_of path) slash Hne Hns) as Hsplit. fold slash in Hsplit.
  change (String slash EmptyString) with "/"%string in Hsplit.
  destruct (IsAbs path) eqn:Ea.
  - change ((("/" +:+ Strings.Join (elems_of path) "/") +:+ String slash r)%stdpp) with
      (String slash ((Strings.Join (elems_of path) "/") +:+ String slash r)%stdpp).
    split; [done|]. unfold elems_of at 1.
    change (IsAbs (String slash ((Strings.Join (elems_of path) "/") +:+ String slash r)%stdpp)) with true.
    cbn [SplitByte]. rewrite Ascii.eqb_refl. cbn [clean_elems str_empty orb].
    by rewrite SplitByte_app_sep, Hsplit, clean_elems_app, Hre.
  - destruct (str_empty (Strings.Join (elems_of path) "/")) eqn:Eb.
    { apply str_empty_true in Eb. rewrite Eb in Hsplit. simpl in Hsplit. rewrite <- Hsplit in Hst.
      destruct Hst as ((? & _) & _). done. }
    assert (IsAbs (Strings.Join (elems_of path) "/" +:+ String slash r)%stdpp = false) as Hrel.
    { destruct (elems_of path) as [|e l] eqn:El; [done|]. apply Forall_cons in Hns as [He _].
      assert (e <> EmptyString) as Hee.
      { pose proof (clean_elems_stack false [] (SplitByte path slash) I (SplitByte_pieces path slash)) as Hst2.
        unfold elems_of in El. rewrite Ea in El. rewrite El in Hst2. clear -Hst2.
        assert (forall st, clean_stack false st -> forall x, x ∈ st -> x <> EmptyString) as Hall.
        { induction st as [|y st IH]; [by intros _ x ?%elem_of_nil|].
          intros ((? & _) & ? & _) x [->|?]%elem_of_cons; [done | by apply IH]. }
        apply (Hall _ Hst2). apply list_elem_of_In. rewrite <- in_rev. by left. }
      destruct e as [|x e]; [done|]. unfold no_slash in He. cbn [str_forallb] in He.
      apply andb_true_iff in He as [Hx _]. apply negb_true_iff in Hx. unfold IsAbs, HasPrefix.
      destruct l; cbn -[Ascii.eqb]; rewrite Ascii.eqb_sym; unfold slash in Hx; by rewrite Hx. }
    split; [done|]. unfold elems_of at 1. rewrite Hrel.
    by rewrite SplitByte_app_sep, Hsplit, clean_elems_app, Hre.
Qed.

(** Joining to a path cleaned before is joining to the path. *)
Lemma Clean_Clean_app path r :
  elems_of path <> [] -> Clean (Clean path +:+ String slash r)%stdpp = Clean (path +:+ String slash r)%stdpp.
Proof.
  intros Hne. destruct (Clean_app_body path r Hne) as [Ha He].
  assert (IsAbs (path +:+ String slash r)%stdpp = IsAbs path) as Ha2.
  { destruct path as [|c path]; [done|]. unfold IsAbs, HasPrefix. cbn -[Ascii.eqb]. by destruct (Ascii.eqb _ c). }
  unfold Clean at 1. fold (elems_of (Clean path +:+ String slash r)%stdpp). rewrite Ha, He.
  unfold Clean. rewrite Ha2, SplitByte_app_sep, clean_elems_app. done.
Qed.
End PathFacts.
#[export] Hint Rewrite StringsFacts.append_nil_r StringsFacts.TrimPrefix_append
  StringsFacts.TrimSuffix_append StringsFacts.ToLower_idem : go_rw.

(** ** Numbers in text *)
Module NumberFacts.
Import Strings StringsFacts.

Lemma digit_char x : (x < 10)%N ->
  is_digit (pretty_N_char x) = true /\ Z.of_nat (nat_of_ascii (pretty_N_char x)) - 48 = Z.of_N x.
Proof.
  intros Hx. assert (x ∈ [0; 1; 2; 3; 4; 5; 6; 7; 8; 9]%N) as Hin by (rewrite !elem_of_cons; lia).
  repeat (apply elem_of_cons in Hin as [->|Hin]; [by vm_compute|]). by apply elem_of_nil in Hin.
Qed.
Lemma pretty_go_digits x : forall s, exists k : nat,
  (forall acc, digits_value acc (pretty_N_go x s) = digits_value (acc * 10 ^ Z.of_nat k + Z.of_N x) s) /\
  (str_forallb is_digit s = true -> str_forallb is_digit (pretty_N_go x s) = true).
Proof.
  induction (N.lt_wf_0 x) as [x _ IH]. intros s. destruct (decide (x = 0)%N) as [->|Hne].
  { exists 0%nat. split; [|done]. intros acc. rewrite pretty_N_go_0. f_equal. lia. }
  rewrite pretty_N_go_step by lia.
  destruct (digit_char (x mod 10)) as [Hd Hv]; [by apply N.mod_lt|].
  destruct (IH (x / 10)%N ltac:(by apply N.div_lt; lia) (String (pretty_N_char (x mod 10)) s)) as (k & Hk & Hs).
  exists (S k). split; [|intros Hall; apply Hs; simpl; by rewrite Hd].
  intros acc. rewrite Hk. cbn [digits_value]. rewrite Hd. f_equal.
  rewrite <- Z.add_sub_assoc, Hv, Nat2Z.inj_succ, Z.pow_succ_r by lia.
  pose proof (N.div_mod x 10 ltac:(done)) as Hx. apply (f_equal Z.of_N) in Hx.
  rewrite N2Z.inj_add, N2Z.inj_mul in Hx. lia.
Qed.
Lemma Itoa_digits n : 0 < n -> str_forallb is_digit (Itoa n) = true /\ digits_value 0 (Itoa n) = Some n.
Proof.
  intros Hn. destruct n as [|p|p]; [lia | | lia]. unfold Itoa.
  change (pretty (Z.pos p)) with (if decide (N.pos p = 0)%N then "0"%string else pretty_N_go (N.pos p) EmptyString).
  rewrite decide_False by done. destruct (pretty_go_digits (N.pos p) EmptyString) as (k & Hk & Hs).
  split; [by apply Hs | by rewrite Hk].
Qed.
(** Every number is written in digits, after a sign when it is negative. *)
Lemma Itoa_chars f n : f "-"%char = true -> (forall c, is_digit c = true -> f c = true) -> str_forallb f (Itoa n) = true.
Proof.
  intros Hm Hf. destruct n as [|p|p].
  - change (Itoa 0) with (String "0" ε). simpl. by rewrite Hf.
  - eapply str_forallb_impl; [exact Hf|]. exact (proj1 (Itoa_digits (Z.pos p) eq_refl)).
  - change (Itoa (Z.neg p)) with (String "-" (Itoa (Z.pos p))). simpl. rewrite Hm.
    eapply str_forallb_impl; [exact Hf|]. exact (proj1 (Itoa_digits (Z.pos p) eq_refl)).
Qed.
Lemma ZeroPad_chars f w n :
  f "-"%char = true -> (forall c, is_digit c = true -> f c = true) -> str_forallb f (ZeroPad w n) = true.
Proof.
  intros Hm Hf. unfold ZeroPad. rewrite str_forallb_app, Itoa_chars by done.
  induction (w - String.length (Itoa n))%nat as [|k IH]; [done|]. simpl. rewrite Hf by done. exact IH.
Qed.
Lemma Atoi_Itoa n : 0 < n < 2 ^ 63 -> Atoi (Itoa n) = Some n.
Proof.
  intros Hn. destruct (Itoa_digits n) as [Hd Hv]; [lia|]. unfold Atoi.
  destruct (Itoa n) as [|c s] eqn:E; [by injection Hv as ?; lia|]. simpl in Hd. apply andb_true_iff in Hd as [Hc _].
  assert (Ascii.eqb c "-" = false /\ Ascii.eqb c "+" = false) as [-> ->].
  { split; apply Ascii.eqb_neq; intros ->; done. }
  simpl orb. cbv iota. cbn [str_empty]. rewrite Hv. unfold in_int.
  rewrite (proj2 (Z.leb_le _ _)), (proj2 (Z.ltb_lt _ _)) by lia. done.
Qed.
Lemma digits_value_zeros k acc s : digits_value acc (zeros k +:+ s)%stdpp = digits_value (acc * 10 ^ Z.of_nat k) s.
Proof.
  revert acc. induction k as [|k IH]; intros acc; [by rewrite Z.mul_1_r|].
  rewrite Nat2Z.inj_succ, Z.pow_succ_r by lia. cbn [zeros String.append digits_value]. simpl is_digit. cbv iota.
  rewrite IH. change (Z.of_nat (nat_of_ascii "0")) with 48. f_equal. ring.
Qed.
Lemma ZeroPad_inj w a b : 0 < a -> 0 < b -> ZeroPad w a = ZeroPad w b -> a = b.
Proof.
  intros Ha Hb E. apply (f_equal (digits_value 0)) in E. unfold ZeroPad in E. rewrite !digits_value_zeros in E.
  rewrite !Z.mul_0_l, (proj2 (Itoa_digits a Ha)), (proj2 (Itoa_digits b Hb)) in E. congruence.
Qed.
End NumberFacts.
