(* ===== verification/Migrations.v ===== *)
(** * Migrations

    internal/storage/migrations.go: bringing the database's schema up to date.
    A migration's SQL and the row that records it are two statements without a
    transaction around them, so a run can stop between the two.  The database is
    the class [SchemaDB]; what a statement answers (it may fail) comes with the
    database's state. *)

From stdpp Require Import sorting.
From S2P Require Import Prelude GoStd.

Record Migration := mkMigration {
  mig_Version : string; mig_Filename : string; mig_Content : string; mig_Checksum : string }.

(** The statements [Migrate] sends. *)
Class SchemaDB (DB : Type) := {
  exec_wal : DB -> DB * res string ();
  exec_create_table : DB -> DB * res string ();
  select_checksum : DB -> string -> res string (option string);
  exec_sql : DB -> string -> DB * res string ();
  insert_migration : DB -> string -> string -> DB * res string ();
}.

Inductive migrate_error :=
  | wal_failed (e : string)
  | create_table_failed (e : string)
  | load_failed (e : string)
  | checksum_mismatch (version expected got : string)
  | status_failed (e : string)
  | execute_failed (e : string)
  | record_failed (e : string).
Inductive migrate_failure :=
  | migrate_setup (e : migrate_error)
  | apply_failed (version : string) (e : migrate_error).

Module Migrate.

(** One file of the embedded directory: its name, whether it is a directory, its
    contents. *)
Record file_entry := mkFile { fe_Name : string; fe_IsDir : bool; fe_Read : res string string }.

Section Defs.
Context (md5_hex : string -> string).

Definition version_of (name : string) : string :=
  match Strings.SplitByte name "_" with v :: _ => v | [] => ε end.
(** The files that are migrations, in the order of the directory. *)
Fixpoint read_files (entries : list file_entry) : res string (list Migration) :=
  match entries with
  | [] => Ok []
  | e :: rest =>
      if fe_IsDir e || negb (Strings.HasSuffix (fe_Name e) ".sql") then read_files rest
      else
        let? content := fe_Read e in
        let? ms := read_files rest in
        Ok (mkMigration (version_of (fe_Name e)) (fe_Name e) content (md5_hex content) :: ms)
  end.
(** [sort.Slice] by version: it leaves equal versions in any order, this in
    theirs. *)
Definition version_le (a b : Migration) : Prop := String.leb (mig_Version a) (mig_Version b) = true.
#[export] Instance version_le_dec : RelDecision version_le.
Proof. intros a b. unfold version_le. apply _. Defined.
Definition loadMigrations (entries : res string (list file_entry)) : res string (list Migration) :=
  let? entries := entries in
  let? ms := read_files entries in
  Ok (merge_sort version_le ms).

Context {DB : Type} `{SchemaDB DB}.

Definition applyMigration (d : DB) (m : Migration) : DB * res migrate_error () :=
  match select_checksum d (mig_Version m) with
  | Ok (Some existing) =>
      (d, reject (negb (String.eqb existing (mig_Checksum m)))
            with_err (checksum_mismatch (mig_Version m) existing (mig_Checksum m)) in Ok ())
  | Err e => (d, Err (status_failed e))
  | Ok None =>
      match exec_sql d (mig_Content m) with
      | (d, Err e) => (d, Err (execute_failed e))
      | (d, Ok _) =>
          let '(d, r) := insert_migration d (mig_Version m) (mig_Checksum m) in
          (d, res_map_err record_failed r)
      end
  end.
Fixpoint apply_all (d : DB) (ms : list Migration) : DB * res migrate_failure () :=
  match ms with
  | [] => (d, Ok ())
  | m :: rest =>
      match applyMigration d m with
      | (d, Err e) => (d, Err (apply_failed (mig_Version m) e))
      | (d, Ok _) => apply_all d rest
      end
  end.
Definition Migrate (loaded : res string (list Migration)) (d : DB) : DB * res migrate_failure () :=
  match exec_wal d with
  | (d, Err e) => (d, Err (migrate_setup (wal_failed e)))
  | (d, Ok _) =>
      match exec_create_table d with
      | (d, Err e) => (d, Err (migrate_setup (create_table_failed e)))
      | (d, Ok _) =>
          match loaded with
          | Err e => (d, Err (migrate_setup (load_failed e)))
          | Ok ms => apply_all d ms
          end
      end
  end.
End Defs.
End Migrate.

(** ** What SQLite documents of the statements

    [applied] is the table of applied migrations (empty before it is created) and
    [schema] everything else.  [effect_of] is what a script does to the schema and
    [left_by] relates a schema to what is left of it when the script failed half
    way. *)
Class SchemaDBLaws (DB Sch : Type) `{SchemaDB DB} := {
  applied : DB -> gmap string string;
  schema : DB -> Sch;
  effect_of : string -> Sch -> Sch;
  left_by : string -> Sch -> Sch -> Prop;
  wal_keeps d : applied (exec_wal d).1 = applied d /\ schema (exec_wal d).1 = schema d;
  create_keeps d : applied (exec_create_table d).1 = applied d /\ schema (exec_create_table d).1 = schema d;
  select_reads d v o : select_checksum d v = Ok o -> o = applied d !! v;
  exec_runs d c d' : exec_sql d c = (d', Ok ()) ->
    applied d' = applied d /\ schema d' = effect_of c (schema d);
  exec_fails d c d' e : exec_sql d c = (d', Err e) ->
    applied d' = applied d /\ left_by c (schema d) (schema d');
  insert_records d v c d' : insert_migration d v c = (d', Ok ()) ->
    applied d' = <[v := c]> (applied d) /\ schema d' = schema d;
  insert_fails d v c d' e : insert_migration d v c = (d', Err e) ->
    applied d' = applied d /\ schema d' = schema d;
}.

(** ** Specification *)
Section Spec.
Context {DB Sch : Type} `{SchemaDBLaws DB Sch}.

Definition view (d : DB) : gmap string string * Sch := (applied d, schema d).
(** What the migrations come to when nothing fails. *)
Definition migrated (x : gmap string string * Sch) (m : Migration) : gmap string string * Sch :=
  match x.1 !! mig_Version m with
  | Some _ => x
  | None => (<[mig_Version m := mig_Checksum m]> x.1, effect_of (mig_Content m) x.2)
  end.
(** A script that can be run again after it failed half way or was not recorded,
    as one of [CREATE ... IF NOT EXISTS] statements can. *)
Definition rerunnable (m : Migration) : Prop :=
  forall s s', left_by (mig_Content m) s s' \/ s' = effect_of (mig_Content m) s ->
    effect_of (mig_Content m) s' = effect_of (mig_Content m) s.

(** The databases that attempts to migrate lead to, one after the other; between
    two attempts anything but the tables may change. *)
Inductive attempts (ms : list Migration) (d0 : DB) : DB -> Prop :=
  | no_attempt d : view d = view d0 -> attempts ms d0 d
  | one_more d d' : attempts ms d0 d -> view d' = view (Migrate.Migrate (Ok ms) d).1 -> attempts ms d0 d'.
End Spec.

(** ** Lemmas *)
Module MigrateFacts.
Import Migrate.
Section Facts.
Context {DB Sch : Type} `{SchemaDBLaws DB Sch}.

Lemma migrated_known x m c : x.1 !! mig_Version m = Some c -> migrated x m = x.
Proof. unfold migrated. by intros ->. Qed.
Lemma migrated_has x m : is_Some ((migrated x m).1 !! mig_Version m).
Proof. unfold migrated. destruct (x.1 !! mig_Version m) eqn:E; [by rewrite E|]. simpl. rewrite lookup_insert_eq. eauto. Qed.
Lemma select_view d m o : select_checksum d (mig_Version m) = Ok o -> (view d).1 !! mig_Version m = o.
Proof. intros Hs. by rewrite (select_reads _ _ _ Hs). Qed.

(** One migration, whatever becomes of it, leaves the same work to do. *)
Lemma applyMigration_view d m d' r :
  rerunnable m -> applyMigration d m = (d', r) ->
  migrated (view d') m = migrated (view d) m /\ applied d ⊆ applied d' /\
  (r = Ok () -> view d' = migrated (view d) m).
Proof.
  intros Hre. unfold applyMigration. destruct (select_checksum d (mig_Version m)) as [[c|]|e] eqn:Es.
  - intros [= <- <-]. split_and!; [done | done |]. intros _. symmetry. by eapply migrated_known, select_view.
  - apply select_view in Es. destruct (exec_sql d (mig_Content m)) as [d1 [[]|e]] eqn:Ee.
    + apply exec_runs in Ee as [Ha Hs].
      destruct (insert_migration d1 (mig_Version m) (mig_Checksum m)) as [d2 [[]|e]] eqn:Ei; intros [= <- <-].
      * apply insert_records in Ei as [Ha' Hs'].
        assert (Hv : view d2 = migrated (view d) m).
        { unfold migrated. rewrite Es. unfold view. simpl. by rewrite Ha', Hs', Ha, Hs. }
        split_and!; [| rewrite Ha', Ha; by apply insert_subseteq | done].
        rewrite Hv. destruct (migrated_has (view d) m) as [c Hc]. by eapply migrated_known.
      * apply insert_fails in Ei as [Ha' Hs']. split_and!; [|by rewrite Ha', Ha | done].
        unfold migrated. rewrite Es. unfold view in *. simpl in *. rewrite Ha', Hs', Ha, Hs, Es.
        f_equal. apply Hre. by right.
    + intros [= <- <-]. apply exec_fails in Ee as [Ha Hs]. split_and!; [|by rewrite Ha | done].
      unfold migrated, view in *. simpl in *. rewrite Ha, Es. f_equal. apply Hre. by left.
  - intros [= <- <-]. by split_and!.
Qed.
Lemma migrated_later d d' m :
  applied d ⊆ applied d' -> is_Some (applied d !! mig_Version m) -> migrated (view d') m = view d'.
Proof. intros Hsub [c Hc]. eapply migrated_known, lookup_weaken; [exact Hc | exact Hsub]. Qed.

Lemma apply_all_view ms d d' r :
  Forall rerunnable ms -> apply_all d ms = (d', r) ->
  foldl migrated (view d') ms = foldl migrated (view d) ms /\ applied d ⊆ applied d' /\
  (r = Ok () -> view d' = foldl migrated (view d) ms).
Proof.
  intros Hms. revert d. induction Hms as [|m ms Hm _ IH]; intros d; [by intros [= <- <-]|]. simpl.
  destruct (applyMigration d m) as [d1 [[]|e]] eqn:E1.
  - destruct (applyMigration_view _ _ _ _ Hm E1) as (_ & Hsub & Hv). specialize (Hv eq_refl).
    intros (Hf & Hsub' & Hv')%IH. rewrite <- Hv. split_and!; [| by etrans | done].
    rewrite (migrated_later d1 d'); [done | done |]. assert (applied d1 = (view d1).1) as -> by done.
    rewrite Hv. apply migrated_has.
  - intros [= <- <-]. destruct (applyMigration_view _ _ _ _ Hm E1) as (Hv & Hsub & _). split_and!; [by rewrite Hv | done | done].
Qed.
Lemma Migrate_view ms d d' r :
  Forall rerunnable ms -> Migrate (Ok ms) d = (d', r) ->
  foldl migrated (view d') ms = foldl migrated (view d) ms /\
  (r = Ok () -> view d' = foldl migrated (view d) ms).
Proof.
  intros Hms. unfold Migrate. destruct (wal_keeps d) as [Ha Hs].
  destruct (exec_wal d) as [d1 [[]|e]]; simpl in *.
  2: { intros [= <- <-]. unfold view. by rewrite Ha, Hs. }
  destruct (create_keeps d1) as [Ha' Hs']. destruct (exec_create_table d1) as [d2 [[]|e]]; simpl in *.
  2: { intros [= <- <-]. unfold view. by rewrite Ha', Hs', Ha, Hs. }
  intros (Hf & _ & Hv)%apply_all_view; [|done].
  assert (view d2 = view d) as E by (unfold view; by rewrite Ha', Hs', Ha, Hs). by rewrite <- E.
Qed.
End Facts.
End MigrateFacts.

(** ** Properties *)
Section Properties.
Import Migrate MigrateFacts.
Context {DB Sch : Type} `{SchemaDBLaws DB Sch}.

(** C27: however often and wherever migrating failed before, between a script and
    its record included, a run that succeeds leaves the database as if every
    migration that was not applied at the start had been applied once, in order;
    and one more run that succeeds changes nothing. *)
Theorem migrations_resume (ms : list Migration) (d0 d d' : DB) :
  Forall rerunnable ms -> attempts ms d0 d -> Migrate (Ok ms) d = (d', Ok ()) ->
  view d' = foldl migrated (view d0) ms /\
  forall d1 d2, view d1 = view d' -> Migrate (Ok ms) d1 = (d2, Ok ()) -> view d2 = view d'.
Proof.
  intros Hms Hatt Hrun. apply Migrate_view in Hrun as [Hf Hv]; [|done]. specialize (Hv eq_refl).
  assert (Hinv : foldl migrated (view d) ms = foldl migrated (view d0) ms).
  { clear Hf Hv d'. induction Hatt as [d Hd|d d' _ IH Hd]; [by rewrite Hd|]. rewrite Hd.
    destruct (Migrate (Ok ms) d) as [d2 r] eqn:E. simpl. apply Migrate_view in E as [E _]; [|done]. by rewrite E. }
  split; [by rewrite Hv|]. intros d1 d2 Hd1 E. apply Migrate_view in E as [_ E]; [|done].
  by rewrite E, Hd1, Hf, <- Hv.
Qed.
End Properties.

(** ** Witness: a database whose statements run as long as its budget lasts *)
Module MigrateWitness.
Import Migrate.

Record small_db := mkSmall { sd_budget : nat; sd_applied : gmap string string; sd_tables : gset string }.
Definition spend (d : small_db) (d' : small_db) : small_db * res string () :=
  match sd_budget d with
  | O => (d, Err "disk full"%string)
  | S n => (mkSmall n (sd_applied d') (sd_tables d'), Ok ())
  end.
#[export] Instance small_schema : SchemaDB small_db := {
  exec_wal d := (d, Ok ());
  exec_create_table d := (d, Ok ());
  select_checksum d v := Ok (sd_applied d !! v);
  exec_sql d c := spend d (mkSmall 0 (sd_applied d) ({[c]} ∪ sd_tables d));
  insert_migration d v c := spend d (mkSmall 0 (<[v := c]> (sd_applied d)) (sd_tables d)) }.
#[export] Instance small_laws : SchemaDBLaws small_db (gset string).
Proof.
  refine {| applied := sd_applied; schema := sd_tables; effect_of c s := {[c]} ∪ s; left_by c s s' := s' = s |}.
  - done.
  - done.
  - by intros d v o [= <-].
  - intros d c d'. simpl. unfold spend. destruct (sd_budget d); by intros [= <-].
  - intros d c d' e. simpl. unfold spend. destruct (sd_budget d); by intros [= <- _].
  - intros d v c d'. simpl. unfold spend. destruct (sd_budget d); by intros [= <-].
  - intros d v c d' e. simpl. unfold spend. destruct (sd_budget d); by intros [= <- _].
Defined.

Definition files : list file_entry :=
  [mkFile "002_audit_log.sql" false (Ok "audit_log"); mkFile "001_initial_schema.sql" false (Ok "nodes");
   mkFile "README" false (Ok "text")]%string.
Definition two : list Migration :=
  match loadMigrations (fun c => c) (Ok files) with Ok ms => ms | Err _ => [] end.
Definition empty_db : small_db := mkSmall 1 ∅ ∅.
(** The first run stops after the first script, before its record. *)
Definition stopped : small_db := (Migrate (Ok two) empty_db).1.
Definition more_space : small_db := mkSmall 9 (sd_applied stopped) (sd_tables stopped).
Definition final : small_db := (Migrate (Ok two) more_space).1.

Definition viewed (d : small_db) : gmap string string * gset string := view d.
Lemma migrations_resume_witness :
  viewed final = foldl migrated (viewed empty_db) two /\
  forall d1 d2, viewed d1 = viewed final -> Migrate (Ok two) d1 = (d2, Ok ()) -> viewed d2 = viewed final.
Proof.
  apply (migrations_resume two empty_db more_space final).
  - assert (Hre : forall c s s', s' = s \/ s' = {[c]} ∪ s -> {[c]} ∪ s' = ({[c]} ∪ s : gset string)) by set_solver.
    apply Forall_forall. intros m _ s s'. simpl. apply Hre.
  - eapply one_more; [by apply no_attempt | done].
  - vm_compute. reflexivity.
Defined.
Example stopped_unrecorded : sd_applied stopped = ∅ /\ sd_tables stopped = {[ "nodes" ]}%string.
Proof. vm_compute. by split. Qed.
Example versions : mig_Version <$> two = ["001"; "002"]%string.
Proof. vm_compute. reflexivity. Qed.
End MigrateWitness.
