(* ===== verification/EventDedup.v ===== *)
(** * EventDedup

    internal/supervisor/event_dedup.go: one bounded cache of event ids per
    agent, keyed by the part of the event key before the first colon.  The
    cache itself is hashicorp/golang-lru, which is not part of the repository:
    its operations are the class [LruCache] and its documented behaviour the
    class [LruCacheLaws]. *)

From S2P Require Import Prelude GoStd.

(** ** The LRU library

    [lru_keys] lists the resident keys, the most recently used first. *)
Class LruCache (C : Type) := {
  lru_new : Z -> option C;
  lru_contains : string -> C -> bool;
  lru_add : string -> C -> C;
}.

Class LruCacheLaws (C : Type) `{LruCache C} := {
  lru_keys : C -> list string;
  lru_cap : C -> Z;
  lru_new_spec n : 0 < n -> exists c, lru_new n = Some c /\ lru_keys c = [] /\ lru_cap c = n;
  lru_contains_spec k c : lru_contains k c = bool_decide (k ∈ lru_keys c);
  lru_add_keys k c :
    lru_keys (lru_add k c) = take (Z.to_nat (lru_cap c)) (k :: filter (.≠ k) (lru_keys c));
  lru_add_cap k c : lru_cap (lru_add k c) = lru_cap c;
}.

(** A cache kept as a list satisfies the laws. *)
Record list_lru := mkListLru { ll_cap : Z; ll_keys : list string }.
#[export] Instance list_lru_cache : LruCache list_lru := {
  lru_new n := if 0 <? n then Some (mkListLru n []) else None;
  lru_contains k c := bool_decide (k ∈ ll_keys c);
  lru_add k c :=
    mkListLru (ll_cap c) (take (Z.to_nat (ll_cap c)) (k :: filter (.≠ k) (ll_keys c)));
}.
#[export] Instance list_lru_laws : LruCacheLaws list_lru.
Proof.
  refine {| lru_keys := ll_keys; lru_cap := ll_cap |}; try done.
  intros n Hn. simpl. rewrite (proj2 (Z.ltb_lt 0 n) Hn). eauto.
Defined.

(** ** The dedup cache *)
Module Dedup.

Definition dedupCacheSizePerAgent : Z := 1000.
Definition colon : ascii := ":"%char.

Section Defs.
Context {C : Type} `{LruCache C}.

Record eventDedupCache := mkDedup { cacheSize : Z; caches : gmap string C }.

Definition newEventDedupCache (size : Z) : res string eventDedupCache :=
  reject (size <=? 0) with_err "cache size must be positive"
  in Ok (mkDedup size ∅).

(** [seen(eventKey)]: was the event id already in its agent's cache; an id that
    was not is added. *)
Definition seen (d : eventDedupCache) (eventKey : string) : eventDedupCache * bool :=
  match Strings.CutByte eventKey colon with
  | None => (d, false)
  | Some (agentID, eventID) =>
      if str_empty agentID || str_empty eventID then (d, false)
      else
        match (match caches d !! agentID with
               | Some c => Some c
               | None => lru_new (cacheSize d)
               end) with
        | None => (d, false)
        | Some cache =>
            if lru_contains eventID cache
            then (mkDedup (cacheSize d) (<[agentID := cache]> (caches d)), true)
            else (mkDedup (cacheSize d) (<[agentID := lru_add eventID cache]> (caches d)), false)
        end
  end.

End Defs.
Arguments eventDedupCache : clear implicits.

(** The key [ProcessEvent] builds for an agent's event. *)
Definition event_key (agentID eventID : string) : string := (agentID +:+ String colon eventID)%stdpp.
(** An agent id that the key separates from the event id. *)
Definition plain_agent (agentID : string) : bool :=
  negb (str_empty agentID) && Strings.str_forallb (fun c => negb (Ascii.eqb c colon)) agentID.

Section Facts.
Context {C : Type} `{LruCacheLaws C}.

(** The ids an agent's cache holds, the newest first. *)
Definition ids (d : eventDedupCache C) (agentID : string) : list string :=
  match caches d !! agentID with Some c => lru_keys c | None => [] end.

Definition wf (d : eventDedupCache C) : Prop :=
  0 < cacheSize d /\
  (forall a c, caches d !! a = Some c -> lru_cap c = cacheSize d /\ NoDup (lru_keys c)).

(** What a call does to one agent's window of remembered ids. *)
Definition window_step (n : Z) (w : list string) (eventID : string) : list string :=
  if bool_decide (eventID ∈ w) then w else take (Z.to_nat n) (eventID :: w).

Lemma wf_new n : 0 < n -> wf (mkDedup n ∅).
Proof. intros; split; [done|]. intros a c; simpl. by rewrite lookup_empty. Qed.

Lemma ids_new n a : ids (mkDedup n ∅) a = [].
Proof. unfold ids; simpl. by rewrite lookup_empty. Qed.

Lemma wf_insert d a c :
  wf d -> lru_cap c = cacheSize d -> NoDup (lru_keys c) ->
  wf (mkDedup (cacheSize d) (<[a := c]> (caches d))).
Proof.
  intros [Hn Hwf] Hcap Hnd. split; [done|]. intros b c'; simpl.
  intros [[<- <-]|[? Hb]]%lookup_insert_Some; [done|]. by apply Hwf in Hb.
Qed.

Lemma ids_insert n a c m : ids (mkDedup n (<[a := c]> m)) a = lru_keys c.
Proof. unfold ids; simpl. by rewrite lookup_insert_eq. Qed.
Lemma ids_insert_ne d a c b :
  b <> a -> ids (mkDedup (cacheSize d) (<[a := c]> (caches d))) b = ids d b.
Proof. intros. unfold ids; simpl. by rewrite lookup_insert_ne. Qed.

Lemma filter_ne_absent k (l : list string) : k ∉ l -> filter (.≠ k) l = l.
Proof.
  induction l as [|x l IH]; intros Hk; [done|]. apply not_elem_of_cons in Hk as [Hx Hl].
  rewrite filter_cons_True by congruence. by rewrite IH.
Qed.

(** One call on a key that splits into an agent and an event id, in terms of
    windows. *)
Lemma seen_cut d key a e :
  wf d -> Strings.CutByte key colon = Some (a, e) -> a <> ε -> e <> ε ->
  let '(d', hit) := seen d key in
  wf d' /\ cacheSize d' = cacheSize d /\ hit = bool_decide (e ∈ ids d a) /\
  ids d' a = window_step (cacheSize d) (ids d a) e /\
  (forall b, b <> a -> ids d' b = ids d b).
Proof.
  intros [Hn Hwf] Hcut Ha He. unfold seen. rewrite Hcut.
  rewrite (proj2 (str_empty_false a) Ha), (proj2 (str_empty_false e) He). simpl.
  assert (exists c, match caches d !! a with Some c => Some c | None => lru_new (cacheSize d) end
            = Some c /\ lru_keys c = ids d a /\ lru_cap c = cacheSize d /\ NoDup (lru_keys c))
    as (c & -> & Hk & Hcap & Hnd).
  { unfold ids. destruct (caches d !! a) as [c|] eqn:E.
    - destruct (Hwf a c E). eauto.
    - destruct (lru_new_spec (cacheSize d) Hn) as (c & -> & Hk & Hcap).
      exists c. rewrite Hk. repeat split; auto using NoDup_nil_2. }
  rewrite lru_contains_spec, Hk. unfold window_step.
  destruct (bool_decide_reflect (e ∈ ids d a)) as [Hin|Hin]; simpl.
  - rewrite ids_insert, Hk. split_and!; auto using ids_insert_ne. apply wf_insert; [by split | done | done].
  - assert (lru_keys (lru_add e c) = take (Z.to_nat (cacheSize d)) (e :: ids d a)) as Hadd.
    { rewrite lru_add_keys, Hcap, Hk. by rewrite filter_ne_absent. }
    rewrite ids_insert, Hadd. split_and!; auto using ids_insert_ne.
    apply wf_insert; [by split | by rewrite lru_add_cap |].
    rewrite Hadd. apply (sublist_NoDup _ (e :: ids d a)); [|apply sublist_take].
    rewrite <- Hk in *. by constructor.
Qed.

Lemma seen_wf d key : wf d -> wf (seen d key).1 /\ cacheSize (seen d key).1 = cacheSize d.
Proof.
  intros Hwf. destruct (Strings.CutByte key colon) as [[a e]|] eqn:Hcut.
  - destruct (str_empty a || str_empty e) eqn:E.
    + unfold seen. by rewrite Hcut, E.
    + apply orb_false_iff in E as [Ha%str_empty_false He%str_empty_false].
      pose proof (seen_cut d key a e Hwf Hcut Ha He) as Hs.
      destruct (seen d key) as [d' hit]. by destruct Hs as (? & ? & _).
  - unfold seen. by rewrite Hcut.
Qed.

(** One call on a plain agent and a non-empty event id. *)
Lemma seen_spec d a e :
  wf d -> plain_agent a = true -> e <> ε ->
  let '(d', hit) := seen d (event_key a e) in
  wf d' /\ cacheSize d' = cacheSize d /\ hit = bool_decide (e ∈ ids d a) /\
  ids d' a = window_step (cacheSize d) (ids d a) e /\
  (forall b, b <> a -> ids d' b = ids d b).
Proof.
  intros Hwf [Ha Hc]%andb_true_iff He.
  apply seen_cut; [done | by apply StringsFacts.CutByte_append | | done].
  by apply negb_true_iff, str_empty_false in Ha.
Qed.

End Facts.
End Dedup.

(** ** What the cache promises the pipeline *)
Section Contract.
Import Dedup.
Context {C : Type} `{LruCacheLaws C}.

(** The state after a sequence of calls [seen(agent ":" id)]. *)
Definition seen_all (d : eventDedupCache C) (calls : list (string * string)) : eventDedupCache C :=
  foldl (fun d '(a, e) => (seen d (event_key a e)).1) d calls.

Definition valid_call (c : string * string) : Prop := plain_agent c.1 = true /\ c.2 <> ε.

Definition calls_of (a : string) (calls : list (string * string)) : list string :=
  (filter (fun c => c.1 = a) calls).*2.

Lemma seen_all_windows d calls :
  wf d -> Forall valid_call calls ->
  wf (seen_all d calls) /\ cacheSize (seen_all d calls) = cacheSize d /\
  forall a, ids (seen_all d calls) a =
            foldl (window_step (cacheSize d)) (ids d a) (calls_of a calls).
Proof.
  intros Hwf Hall. revert d Hwf. induction Hall as [|[a e] calls [Ha He] _ IH]; intros d Hwf; [done|].
  simpl in Ha, He. pose proof (seen_spec d a e Hwf Ha He) as Hs. simpl.
  destruct (seen d (event_key a e)) as [d' hit].
  destruct Hs as (Hwf' & Hsz & _ & Hw & Hother). simpl.
  destruct (IH d' Hwf') as (? & ? & Hall'). split_and!; [done|congruence|].
  intros b. rewrite Hall', Hsz. unfold calls_of.
  destruct (decide (a = b)) as [<-|Hne].
  - rewrite filter_cons_True by done. simpl. by rewrite Hw.
  - rewrite filter_cons_False by done. by rewrite Hother.
Qed.

Lemma window_length n w x :
  (length w <= Z.to_nat n)%nat -> (length (window_step n w x) <= Z.to_nat n)%nat.
Proof. intros. unfold window_step. case_bool_decide; [done|]. rewrite length_take. lia. Qed.

Lemma window_keeps n w e xs i :
  w !! i = Some e -> (i + length xs < Z.to_nat n)%nat ->
  e ∈ foldl (window_step n) w xs.
Proof.
  revert w i. induction xs as [|x xs IH]; intros w i Hi Hlen; simpl in *.
  - by eapply list_elem_of_lookup_2.
  - unfold window_step at 2. case_bool_decide; [by apply (IH _ i); [|lia]|].
    apply (IH _ (S i)); [|lia]. rewrite lookup_take_lt by lia. done.
Qed.

Lemma window_elem n w xs e :
  e ∈ foldl (window_step n) w xs -> e ∈ w \/ e ∈ xs.
Proof.
  revert w. induction xs as [|x xs IH]; intros w; simpl; [by left|].
  intros [Hw|Hx]%IH; [|right; by right].
  unfold window_step in Hw. case_bool_decide; [by left|].
  apply elem_of_take in Hw as (i & Hi & _). apply list_elem_of_lookup_2 in Hi.
  apply elem_of_cons in Hi as [->|?]; [right; by left | by left].
Qed.

(** No false positives: an id the agent never sent is new, and what a call
    reports about it is [false], in every reachable state. *)
Lemma seen_fresh_from d calls a e :
  wf d -> ids d a = [] -> Forall valid_call calls -> valid_call (a, e) -> (a, e) ∉ calls ->
  (seen (seen_all d calls) (event_key a e)).2 = false.
Proof.
  intros Hwf Hids Hall [Ha He] Hnot.
  destruct (seen_all_windows d calls Hwf Hall) as (Hwf' & _ & Hw).
  pose proof (seen_spec _ a e Hwf' Ha He) as Hs.
  destruct (seen _ (event_key a e)) as [d'' hit]. destruct Hs as (_ & _ & -> & _).
  simpl. rewrite Hw, Hids. apply bool_decide_eq_false_2.
  intros [?%elem_of_nil|Hin]%window_elem; [done|].
  unfold calls_of in Hin. apply list_elem_of_fmap in Hin as ([b e'] & -> & Hin).
  apply list_elem_of_filter in Hin as [<- Hin]. done.
Qed.
End Contract.
