(* ===== verification/EventPipeline.v ===== *)
(** * EventPipeline

    internal/supervisor/event_pipeline.go: deduplication, per-agent sequence
    checking with a buffer for early events, and the bounded persist queue.
    A call of [ProcessEvent] returns the new state, its error and the effects
    it had outside the state (events handed to the queue or dropped, replay
    requests).  Calls are taken one after the other, as one agent's read loop
    makes them. *)

From S2P Require Import Prelude GoStd EventDedup.
Import Dedup.

Record Event := mkEvent {
  ev_ID : string; ev_SessionID : string; ev_Type : string; ev_Data : string;
  ev_Timestamp : Time.t; ev_Seq : Z }.

Record RequestEventRange := mkRange { range_From : Z; range_To : Z }.

Inductive sequenceStatus := sequenceStatusMatch | sequenceStatusOld | sequenceStatusGap.

Inductive pipeline_error :=
  | agent_id_is_required
  | event_id_is_required
  | event_sequence_must_be_positive.

(** What a call does outside the pipeline's own maps. *)
Inductive effect :=
  | Enqueued (e : Event)
  | Dropped (e : Event)
  | ReplayRequested (r : RequestEventRange).

Definition persistQueueSize : nat := 1024.

(** ** The events table: [INSERT INTO events] of a [database/sql] handle. *)
Record EventRow := mkEventRow {
  row_id : string; row_session_id : string; row_type : string; row_data : string;
  row_timestamp : Time.t }.
Class EventStore (DB E : Type) := { insert_event : DB -> EventRow -> res E DB }.

Module Pipeline.
Section Defs.
Context {C : Type} `{LruCache C}.

Record EventPipeline := mkPipeline {
  dedup : eventDedupCache C;
  agentSequences : gmap string Z;
  pendingEvents : gmap string (gmap Z Event);
  persistQueue : list Event;
  has_replay_sender : bool }.

Definition NewEventPipeline (has_sender : bool) : res string EventPipeline :=
  let? d := newEventDedupCache dedupCacheSizePerAgent in
  Ok (mkPipeline d ∅ ∅ [] has_sender).

Definition LastSequence (p : EventPipeline) (agentID : string) : Z :=
  default 0 (agentSequences p !! agentID).
Definition pending_of (p : EventPipeline) (agentID : string) : gmap Z Event :=
  default ∅ (pendingEvents p !! agentID).
Definition PendingCount (p : EventPipeline) (agentID : string) : nat :=
  size (pending_of p agentID).

Definition validateSequence (p : EventPipeline) (agentID : string) (event : Event)
    : res pipeline_error sequenceStatus :=
  if ev_Seq event =? 0 then Err event_sequence_must_be_positive
  else
    let expected := u64 (LastSequence p agentID + 1) in
    if ev_Seq event <? expected then Ok sequenceStatusOld
    else if expected <? ev_Seq event then Ok sequenceStatusGap
    else Ok sequenceStatusMatch.

Definition handleGap (p : EventPipeline) (agentID : string) (event : Event)
    : EventPipeline * list effect :=
  let expected := u64 (LastSequence p agentID + 1) in
  let pending := <[ev_Seq event := event]> (pending_of p agentID) in
  (mkPipeline (dedup p) (agentSequences p) (<[agentID := pending]> (pendingEvents p))
     (persistQueue p) (has_replay_sender p),
   if has_replay_sender p
   then [ReplayRequested (mkRange expected (u64 (ev_Seq event - 1)))] else []).

(** The loop of [consumeInOrder]; the fuel bounds its iterations, each of which
    deletes an entry of [pending]. *)
Fixpoint drain_pending (fuel : nat) (pending : gmap Z Event) (last : Z) (events : list Event)
    : gmap Z Event * Z * list Event :=
  match fuel with
  | O => (pending, last, events)
  | S fuel' =>
      let nextSeq := u64 (last + 1) in
      match pending !! nextSeq with
      | None => (pending, last, events)
      | Some nextEvent =>
          drain_pending fuel' (delete nextSeq pending) (ev_Seq nextEvent) (events ++ [nextEvent])
      end
  end.

Definition consumeInOrder (p : EventPipeline) (agentID : string) (first : Event)
    : EventPipeline * list Event :=
  match pendingEvents p !! agentID with
  | None =>
      (mkPipeline (dedup p) (<[agentID := ev_Seq first]> (agentSequences p)) (pendingEvents p)
         (persistQueue p) (has_replay_sender p), [first])
  | Some pending =>
      let '(pending', last, events) :=
        drain_pending (size pending) pending (ev_Seq first) [first] in
      (mkPipeline (dedup p) (<[agentID := last]> (agentSequences p))
         (if (size pending' =? 0)%nat then delete agentID (pendingEvents p)
          else <[agentID := pending']> (pendingEvents p))
         (persistQueue p) (has_replay_sender p), events)
  end.

Definition enqueuePersist (p : EventPipeline) (event : Event) : EventPipeline * effect :=
  if (length (persistQueue p) <? persistQueueSize)%nat
  then (mkPipeline (dedup p) (agentSequences p) (pendingEvents p)
          (persistQueue p ++ [event]) (has_replay_sender p), Enqueued event)
  else (p, Dropped event).

Fixpoint enqueue_all (p : EventPipeline) (events : list Event) : EventPipeline * list effect :=
  match events with
  | [] => (p, [])
  | e :: events' =>
      let '(p1, eff) := enqueuePersist p e in
      let '(p2, effs) := enqueue_all p1 events' in (p2, eff :: effs)
  end.

Definition ProcessEvent (p : EventPipeline) (agentID : string) (event : Event)
    : EventPipeline * res pipeline_error () * list effect :=
  if str_empty agentID then (p, Err agent_id_is_required, [])
  else if str_empty (ev_ID event) then (p, Err event_id_is_required, [])
  else
    let '(d, hit) := seen (dedup p) (event_key agentID (ev_ID event)) in
    let p := mkPipeline d (agentSequences p) (pendingEvents p) (persistQueue p)
               (has_replay_sender p) in
    if hit then (p, Ok (), [])
    else
      match validateSequence p agentID event with
      | Err e => (p, Err e, [])
      | Ok sequenceStatusOld => (p, Ok (), [])
      | Ok sequenceStatusGap =>
          let '(p, effs) := handleGap p agentID event in (p, Ok (), effs)
      | Ok sequenceStatusMatch =>
          let '(p, events) := consumeInOrder p agentID event in
          let '(p, effs) := enqueue_all p events in (p, Ok (), effs)
      end.

(** *** The persist worker *)
Definition persistEvent {DB E} `{EventStore DB E} (db : option DB) (now : Time.t) (event : Event)
    : option DB * option E :=
  match db with
  | None => (None, None)
  | Some db =>
      let data := if str_empty (ev_Data event) then "{}"%string else ev_Data event in
      let timestamp := if Time.IsZero (ev_Timestamp event) then now else ev_Timestamp event in
      match insert_event db (mkEventRow (ev_ID event) (ev_SessionID event) (ev_Type event)
                               data timestamp) with
      | Ok db' => (Some db', None)
      | Err e => (Some db, Some e)
      end
  end.

(** One turn of [persistWorker]'s loop: take the oldest event of the queue and
    persist it; an error is only logged. *)
Definition persist_turn {DB E} `{EventStore DB E} (p : EventPipeline) (db : option DB)
    (now : Time.t) : option (EventPipeline * option DB) :=
  match persistQueue p with
  | [] => None
  | e :: rest =>
      Some (mkPipeline (dedup p) (agentSequences p) (pendingEvents p) rest (has_replay_sender p),
            (persistEvent db now e).1)
  end.

(** The worker's exit on [Close]: the default case of the inner [select] ends it
    when the queue is empty; the fuel is the queue's length. *)
Fixpoint persist_drain {DB E} `{EventStore DB E} (fuel : nat) (p : EventPipeline)
    (db : option DB) (now : Time.t) : EventPipeline * option DB :=
  match fuel with
  | O => (p, db)
  | S fuel' =>
      match persist_turn p db now with
      | None => (p, db)
      | Some (p', db') => persist_drain fuel' p' db' now
      end
  end.
Definition Close {DB E} `{EventStore DB E} (p : EventPipeline) (db : option DB) (now : Time.t)
    : EventPipeline * option DB :=
  persist_drain (length (persistQueue p)) p db now.

(** The events a call put on the queue. *)
Definition put_on_queue (effs : list effect) : list Event :=
  omap (fun f => match f with Enqueued e => Some e | _ => None end) effs.

(** The callers and the worker interleaved: what was put on the queue so far,
    what the worker took off it, and the database. *)
Inductive pipeline_act := Call (agentID : string) (event : Event) | Turn (now : Time.t).
Definition sys_step {DB E} `{EventStore DB E}
    (s : EventPipeline * option DB * list Event * list Event) (x : pipeline_act)
    : EventPipeline * option DB * list Event * list Event :=
  let '(p, db, put, taken) := s in
  match x with
  | Call a e =>
      let '(p', _, effs) := ProcessEvent p a e in
      (p', db, put ++ put_on_queue effs, taken)
  | Turn now =>
      match persistQueue p, persist_turn p db now with
      | e :: _, Some (p', db') => (p', db', put, taken ++ [e])
      | _, _ => s
      end
  end.

(** A history of calls, with each effect's agent. *)
Fixpoint run (p : EventPipeline) (calls : list (string * Event))
    : EventPipeline * list (string * effect) :=
  match calls with
  | [] => (p, [])
  | (a, e) :: calls' =>
      let '(p1, _, effs) := ProcessEvent p a e in
      let '(p2, tr) := run p1 calls' in (p2, ((fun x => (a, x)) <$> effs) ++ tr)
  end.

End Defs.
Arguments EventPipeline : clear implicits.

Definition delivered_event (x : effect) : option Event :=
  match x with Enqueued e | Dropped e => Some e | ReplayRequested _ => None end.
(** The events [consumeInOrder] handed on for an agent, in order. *)
Definition delivered (agentID : string) (tr : list (string * effect)) : list Event :=
  omap (fun x => if decide (x.1 = agentID) then delivered_event x.2 else None) tr.
Definition inputs (agentID : string) (calls : list (string * Event)) : list Event :=
  (filter (fun c => c.1 = agentID) calls).*2.

(** The sequence numbers [from], [from + 1], ... of [n] events. *)
Definition consecutive (from : Z) (events : list Event) : Prop :=
  ev_Seq <$> events = seqZ from (Z.of_nat (length events)).

End Pipeline.

(** ** Lemmas *)
Module PipelineFacts.
Import Pipeline.

Lemma consecutive_nil from : consecutive from [].
Proof. done. Qed.

Lemma consecutive_app from l1 l2 :
  consecutive from (l1 ++ l2) <->
  consecutive from l1 /\ consecutive (from + Z.of_nat (length l1)) l2.
Proof.
  unfold consecutive. rewrite fmap_app, length_app, Nat2Z.inj_add, seqZ_app by lia. split.
  - intros [? ?]%app_inj_1; [done|]. rewrite length_fmap, length_seqZ. lia.
  - by intros [-> ->].
Qed.

Lemma consecutive_cons from e l :
  consecutive from (e :: l) <-> ev_Seq e = from /\ consecutive (from + 1) l.
Proof.
  rewrite (consecutive_app from [e] l). unfold consecutive at 1. simpl.
  rewrite seqZ_cons, seqZ_nil by lia. split; intros [H ?]; split; try congruence; done.
Qed.

Section Facts.
Context {C : Type} `{LruCacheLaws C}.
Implicit Types p : EventPipeline C.

(** The keys of the buffer are the sequence numbers of its events, all beyond
    [last] (which is said of a [last] that can still be incremented). *)
Definition keyed (last : Z) (m : gmap Z Event) : Prop :=
  forall k e, m !! k = Some e ->
    ev_Seq e = k /\ 0 < k < 2 ^ 64 /\ (last + 1 < 2 ^ 64 -> last < k).

(** A buffer of early events after sequence number [last]. *)
Definition buffer_ok (last : Z) (m : gmap Z Event) : Prop :=
  m !! u64 (last + 1) = None /\ keyed last m.

(** What holds of every reachable pipeline. *)
Definition pipeline_wf p : Prop :=
  wf (dedup p) /\ (length (persistQueue p) <= persistQueueSize)%nat /\
  forall a, 0 <= LastSequence p a < 2 ^ 64 /\ buffer_ok (LastSequence p a) (pending_of p a).

(** What [drain_pending] takes out of the buffer: the longest run of
    consecutive events, and nothing else.  The fuel [size m] is enough. *)
Lemma drain_spec fuel m last acc :
  keyed last m -> 0 <= last < 2 ^ 64 -> (size m <= fuel)%nat ->
  exists m' l,
    drain_pending fuel m last acc = (m', last + Z.of_nat (length l), acc ++ l) /\
    consecutive (last + 1) l /\ last + Z.of_nat (length l) < 2 ^ 64 /\
    buffer_ok (last + Z.of_nat (length l)) m' /\
    (forall e, e ∈ l -> m !! ev_Seq e = Some e) /\
    (forall k, m' !! k =
       if decide (last < k <= last + Z.of_nat (length l)) then None else m !! k).
Proof.
  revert m last acc. induction fuel as [|fuel IH]; intros m last acc Hk Hl Hs; simpl.
  - assert (m = ∅) as -> by (apply map_size_empty_inv; lia).
    exists ∅, []. rewrite app_nil_r. simpl (length _).
    rewrite Nat2Z.inj_0, Z.add_0_r.
    split_and!; try done; [lia | by intros ? ?%elem_of_nil|].
    intros k. by case_decide.
  - destruct (m !! u64 (last + 1)) as [e|] eqn:E.
    + destruct (Hk _ _ E) as (He & Hr & _).
      assert (u64 (last + 1) = last + 1) as Hu.
      { unfold u64 in *. destruct (decide (last + 1 = 2 ^ 64)) as [Heq|?].
        - rewrite Heq, Z.mod_same in Hr; lia.
        - apply Z.mod_small. lia. }
      rewrite Hu in *. rewrite He.
      destruct (IH (delete (last + 1) m) (last + 1) (acc ++ [e])) as (m' & l & -> & H1 & H2 & H3 & H4 & H5).
      { intros k e' [Hne Hke]%lookup_delete_Some. apply Hk in Hke as (? & ? & Hgt).
        split_and!; try done; lia. }
      { lia. }
      { rewrite map_size_delete_Some by eauto. lia. }
      exists m', (e :: l). simpl (length _).
      replace (last + Z.of_nat (S (length l))) with (last + 1 + Z.of_nat (length l)) by lia.
      rewrite <- app_assoc. split_and!; try done.
      * apply consecutive_cons. split; [done|]. done.
      * intros e' [->|Hin]%elem_of_cons; [by rewrite He|].
        apply H4 in Hin. by apply lookup_delete_Some in Hin as [? ?].
      * intros k. rewrite H5. rewrite lookup_delete. repeat case_decide; try done; try lia.
    + exists m, []. rewrite app_nil_r. simpl (length _).
      rewrite Nat2Z.inj_0, Z.add_0_r. split_and!; try done; [lia | by intros ? ?%elem_of_nil|]. intros k. case_decide; [lia|done].
Qed.

Lemma enqueue_all_spec p events :
  (length (persistQueue p) <= persistQueueSize)%nat ->
  let '(p', effs) := enqueue_all p events in
  dedup p' = dedup p /\ agentSequences p' = agentSequences p /\
  pendingEvents p' = pendingEvents p /\ has_replay_sender p' = has_replay_sender p /\
  (length (persistQueue p') <= persistQueueSize)%nat /\ omap delivered_event effs = events.
Proof.
  revert p. induction events as [|e events IH]; intros p Hq; simpl; [done|].
  unfold enqueuePersist. destruct (Nat.ltb_spec (length (persistQueue p)) persistQueueSize).
  - specialize (IH (mkPipeline (dedup p) (agentSequences p) (pendingEvents p)
          (persistQueue p ++ [e]) (has_replay_sender p))). simpl in IH.
    destruct (enqueue_all _ events) as [p' effs].
    destruct IH as (? & ? & ? & ? & ? & Hd); [rewrite length_app; simpl; lia|].
    split_and!; try done. simpl. f_equal. exact Hd.
  - specialize (IH p Hq). destruct (enqueue_all p events) as [p' effs].
    destruct IH as (? & ? & ? & ? & ? & Hd). split_and!; try done. simpl. f_equal. exact Hd.
Qed.

(** The sequence numbers of an agent's events that the pipeline holds or has
    handed on. *)
Definition received p (a : string) (k : Z) : Prop :=
  0 < k <= LastSequence p a \/ is_Some (pending_of p a !! k).

(** What one call does to the agent's state, whichever branch it takes. *)
Record agent_step p (a : string) (e : Event) p' (effs : list effect) : Prop := {
  step_last : LastSequence p' a =
    LastSequence p a + Z.of_nat (length (omap delivered_event effs));
  step_order : consecutive (LastSequence p a + 1) (omap delivered_event effs);
  step_origin x : x ∈ omap delivered_event effs ->
    x = e \/ pending_of p a !! ev_Seq x = Some x;
  step_buffer k x : pending_of p' a !! k = Some x -> pending_of p a !! k = Some x \/ x = e;
  step_received k : received p a k -> received p' a k;
  step_frame b : b <> a ->
    LastSequence p' b = LastSequence p b /\ pending_of p' b = pending_of p b }.

Lemma buffer_empty last : buffer_ok last ∅.
Proof. split; [apply lookup_empty|]. intros ??. by rewrite lookup_empty. Qed.

Lemma step_none p a e p' effs :
  agentSequences p' = agentSequences p -> pendingEvents p' = pendingEvents p ->
  omap delivered_event effs = [] -> agent_step p a e p' effs.
Proof.
  intros Hs Hp Hd.
  assert (forall b, LastSequence p' b = LastSequence p b) as Hl
    by (intros; unfold LastSequence; by rewrite Hs).
  assert (forall b, pending_of p' b = pending_of p b) as Hpe
    by (intros; unfold pending_of; by rewrite Hp).
  split; rewrite ?Hd; intros *; unfold received; rewrite ?Hl, ?Hpe; simpl (length _); try done.
  - rewrite Nat2Z.inj_0. lia.
  - by intros ?%elem_of_nil.
  - by left.
Qed.

Lemma handleGap_step p a e :
  pipeline_wf p -> 0 < ev_Seq e < 2 ^ 64 -> u64 (LastSequence p a + 1) < ev_Seq e ->
  agent_step p a e (handleGap p a e).1 (handleGap p a e).2 /\
  pipeline_wf (handleGap p a e).1 /\ received (handleGap p a e).1 a (ev_Seq e).
Proof.
  intros (Hd & Hq & Hwf) Hr Hlt.
  assert (omap delivered_event (handleGap p a e).2 = []) as Hno
    by (unfold handleGap; simpl; by destruct (has_replay_sender p)).
  assert (forall b, pending_of (handleGap p a e).1 b =
            if decide (a = b) then <[ev_Seq e := e]> (pending_of p a) else pending_of p b) as Hpe.
  { intros b. unfold pending_of at 1; simpl. rewrite lookup_insert. by case_decide. }
  split_and!.
  - split; rewrite ?Hno; simpl (length _); rewrite ?Nat2Z.inj_0; intros *; try done.
    + unfold LastSequence; simpl; lia.
    + by intros ?%elem_of_nil.
    + rewrite Hpe, decide_True by done.
      intros [[_ ->]|[_ ?]]%lookup_insert_Some; [by right | by left].
    + intros [?|Hs]; [by left|]. right. rewrite Hpe, decide_True by done.
      rewrite lookup_insert. case_decide; [by eauto | done].
    + intros Hb. by rewrite Hpe, decide_False.
  - split_and!; [done | done |]. intros b. destruct (Hwf b) as [Hl Hbuf].
    change (LastSequence (handleGap p a e).1 b) with (LastSequence p b). split; [done|].
    rewrite Hpe. case_decide; [subst b|done]. destruct Hbuf as [Hb1 Hb2]. split.
    + rewrite lookup_insert_ne by lia. done.
    + intros k x [[<- <-]|[_ ?]]%lookup_insert_Some; [|by apply Hb2].
      split_and!; try done; try lia. intros Hs. rewrite u64_small in Hlt; [lia|].
      unfold is_u64. lia.
  - right. rewrite Hpe, decide_True by done. rewrite lookup_insert_eq. by eauto.
Qed.

Lemma consumeInOrder_step p a e :
  pipeline_wf p -> ev_Seq e = LastSequence p a + 1 -> ev_Seq e < 2 ^ 64 ->
  let '(p1, events) := consumeInOrder p a e in
  pipeline_wf p1 /\ agent_step p a e p1 (Enqueued <$> events) /\
  ev_Seq e <= LastSequence p1 a.
Proof.
  intros (Hd & Hq & Hwf) He Hr. pose proof (Hwf a) as [Hl [Hb1 Hb2]].
  assert (forall events : list Event, omap delivered_event (Enqueued <$> events) = events) as Hom.
  { induction events as [|x l IH]; [done|]. simpl. f_equal. exact IH. }
  assert (exists m' l, consumeInOrder p a e =
     (mkPipeline (dedup p) (<[a := ev_Seq e + Z.of_nat (length l)]> (agentSequences p))
        (if (size m' =? 0)%nat then delete a (pendingEvents p) else <[a := m']> (pendingEvents p))
        (persistQueue p) (has_replay_sender p), e :: l) /\
     consecutive (ev_Seq e + 1) l /\ ev_Seq e + Z.of_nat (length l) < 2 ^ 64 /\
     buffer_ok (ev_Seq e + Z.of_nat (length l)) m' /\
     (forall x, x ∈ l -> pending_of p a !! ev_Seq x = Some x) /\
     (forall k, m' !! k = if decide (ev_Seq e < k <= ev_Seq e + Z.of_nat (length l))
                          then None else pending_of p a !! k))
    as (m' & l & -> & Hc & Hlt & Hbuf & Hin & Hm').
  { unfold consumeInOrder, pending_of in *. destruct (pendingEvents p !! a) as [m|] eqn:Em.
    - destruct (drain_spec (size m) m (ev_Seq e) [e]) as (m' & l & -> & ?);
        [| lia | done | by exists m', l].
      intros k x Hx. pose proof (Hb2 k x Hx) as (? & ? & Hgt). split_and!; try done; try lia.
      intros Hs. assert (k <> ev_Seq e); [|lia]. intros ->. rewrite u64_small in Hb1.
      + rewrite <- He in Hb1. simpl in *. congruence.
      + unfold is_u64. lia.
    - exists ∅, []. rewrite map_size_empty. simpl (length _).
      rewrite Nat2Z.inj_0, Z.add_0_r, delete_id by done. simpl.
      split_and!; try done; [by intros ? ?%elem_of_nil |].
      intros k. by case_decide. }
  set (p1 := mkPipeline _ _ _ _ _).
  assert (LastSequence p1 a = ev_Seq e + Z.of_nat (length l)) as Hl1.
  { unfold LastSequence; simpl. by rewrite lookup_insert_eq. }
  assert (pending_of p1 a = m') as Hp1.
  { unfold pending_of; simpl. destruct (Nat.eqb_spec (size m') 0) as [Hs|Hs].
    - apply map_size_empty_inv in Hs as ->. by rewrite lookup_delete_eq.
    - by rewrite lookup_insert_eq. }
  assert (forall b, b <> a -> LastSequence p1 b = LastSequence p b /\
            pending_of p1 b = pending_of p b) as Hframe.
  { intros b Hb. unfold LastSequence, pending_of; simpl.
    rewrite lookup_insert_ne by done. split; [done|].
    case_match; [by rewrite lookup_delete_ne | by rewrite lookup_insert_ne]. }
  split_and!.
  - split_and!; [done | done |]. intros b. destruct (decide (b = a)) as [->|Hb].
    + rewrite Hl1, Hp1. split; [lia | done].
    + destruct (Hframe b Hb) as [-> ->]. apply Hwf.
  - split; rewrite ?Hom.
    + rewrite Hl1. simpl (length _). lia.
    + apply consecutive_cons. split; [done|]. by rewrite <- He.
    + intros x [->|Hx]%elem_of_cons; [by left|]. right. by apply Hin.
    + intros k x. rewrite Hp1, Hm'. case_decide; [done|]. by left.
    + intros k [?|[x Hx]]; unfold received; rewrite Hl1, Hp1; [left; lia|].
      rewrite Hm'. case_decide; [left; lia|]. right. by rewrite Hx.
    + done.
  - rewrite Hl1. lia.
Qed.

(** [enqueue_all] changes only the queue, so a step survives it. *)
Lemma step_enqueue p a e p1 events :
  pipeline_wf p1 -> agent_step p a e p1 (Enqueued <$> events) ->
  let '(p2, effs) := enqueue_all p1 events in
  pipeline_wf p2 /\ dedup p2 = dedup p1 /\ agent_step p a e p2 effs /\
  LastSequence p2 a = LastSequence p1 a.
Proof.
  intros (Hd & Hq & Hwf) Hstep. pose proof (enqueue_all_spec p1 events Hq) as Hen.
  destruct (enqueue_all p1 events) as [p2 effs].
  destruct Hen as (Hde & Hse & Hpe & _ & Hq2 & Hom).
  assert (omap delivered_event (Enqueued <$> events) = events) as Hom'.
  { clear. induction events as [|x l IH]; [done|]. simpl. f_equal. exact IH. }
  assert (forall b, LastSequence p2 b = LastSequence p1 b) as Hl
    by (intros; unfold LastSequence; by rewrite Hse).
  assert (forall b, pending_of p2 b = pending_of p1 b) as Hp
    by (intros; unfold pending_of; by rewrite Hpe).
  split_and!; try done.
  - rewrite <- Hde in Hd. split_and!; [done | done |]. intros b. by rewrite Hl, Hp.
  - destruct Hstep as [S1 S2 S3 S4 S5 S6]. rewrite Hom' in S1, S2, S3.
    split; rewrite ?Hom, ?Hl; intros *; unfold received; rewrite ?Hl, ?Hp; auto.
    apply S5.
Qed.

Lemma ProcessEvent_step p a e :
  pipeline_wf p -> is_u64 (ev_Seq e) ->
  let '(p', r, effs) := ProcessEvent p a e in
  pipeline_wf p' /\ agent_step p a e p' effs.
Proof.
  intros Hwf Hu. unfold ProcessEvent.
  destruct (str_empty a); [split; [done | by apply step_none]|].
  destruct (str_empty (ev_ID e)); [split; [done | by apply step_none]|].
  pose proof (seen_wf (dedup p) (event_key a (ev_ID e)) (proj1 Hwf)) as [Hd' _].
  destruct (seen (dedup p) (event_key a (ev_ID e))) as [d hit]. simpl in Hd'.
  set (pd := mkPipeline d _ _ _ _).
  assert (pipeline_wf pd) as Hpd by (destruct Hwf as (_ & ? & ?); by split).
  assert (forall effs p', agent_step pd a e p' effs -> agent_step p a e p' effs) as Hlift
    by (intros effs p' [S1 S2 S3 S4 S5 S6]; by split).
  destruct hit; [split; [done | by apply step_none]|].
  unfold validateSequence. destruct (Z.eqb_spec (ev_Seq e) 0); [split; [done | by apply step_none]|].
  destruct (Z.ltb_spec (ev_Seq e) (u64 (LastSequence pd a + 1))); [split; [done | by apply step_none]|].
  destruct (Z.ltb_spec (u64 (LastSequence pd a + 1)) (ev_Seq e)).
  - destruct (handleGap_step pd a e Hpd) as (Hs & Hw & _); [unfold is_u64 in Hu; lia | lia |].
    destruct (handleGap pd a e) as [p' effs]. split; auto.
  - assert (ev_Seq e = LastSequence pd a + 1) as He.
    { assert (ev_Seq e = u64 (LastSequence pd a + 1)) as E by lia.
      destruct Hpd as (_ & _ & Hl). destruct (Hl a) as [Hl' _]. unfold u64 in E.
      destruct (decide (LastSequence pd a + 1 = 2 ^ 64)) as [Heq|?].
      - rewrite Heq, Z.mod_same in E; lia.
      - rewrite Z.mod_small in E by lia. done. }
    pose proof (consumeInOrder_step pd a e Hpd He ltac:(unfold is_u64 in Hu; lia)) as Hc.
    destruct (consumeInOrder pd a e) as [p1 events]. destruct Hc as (Hw1 & Hs1 & _).
    pose proof (step_enqueue pd a e p1 events Hw1 Hs1) as Hen.
    destruct (enqueue_all p1 events) as [p2 effs]. destruct Hen as (? & _ & ? & _).
    split; auto.
Qed.

(** A fresh event with a positive sequence number is kept: handed on, buffered,
    or already covered by what was handed on. *)
Lemma ProcessEvent_received p a e :
  pipeline_wf p -> 0 < ev_Seq e < 2 ^ 64 -> LastSequence p a < 2 ^ 64 - 1 ->
  a <> ε -> ev_ID e <> ε ->
  (seen (dedup p) (event_key a (ev_ID e))).2 = false ->
  let '(p', r, _) := ProcessEvent p a e in
  r = Ok () /\ received p' a (ev_Seq e).
Proof.
  intros Hwf Hr Hlast Ha He Hhit. unfold ProcessEvent.
  rewrite (proj2 (str_empty_false a) Ha), (proj2 (str_empty_false _) He).
  pose proof (seen_wf (dedup p) (event_key a (ev_ID e)) (proj1 Hwf)) as [Hd' _].
  destruct (seen (dedup p) (event_key a (ev_ID e))) as [d hit]. simpl in Hd', Hhit. subst hit.
  set (pd := mkPipeline d _ _ _ _).
  assert (pipeline_wf pd) as Hpd by (destruct Hwf as (_ & ? & ?); by split).
  pose proof (proj2 (proj2 Hpd) a) as [Hl _].
  change (LastSequence p a) with (LastSequence pd a) in Hlast.
  unfold validateSequence. destruct (Z.eqb_spec (ev_Seq e) 0); [lia|].
  assert (u64 (LastSequence pd a + 1) = LastSequence pd a + 1) as ->
    by (apply u64_small; unfold is_u64; lia).
  destruct (Z.ltb_spec (ev_Seq e) (LastSequence pd a + 1)); [split; [done | left; lia]|].
  destruct (Z.ltb_spec (LastSequence pd a + 1) (ev_Seq e)).
  - destruct (handleGap_step pd a e Hpd) as (_ & _ & Hrec); [lia | |].
    { rewrite u64_small; [lia | unfold is_u64; lia]. }
    by destruct (handleGap pd a e).
  - pose proof (consumeInOrder_step pd a e Hpd ltac:(lia) ltac:(lia)) as Hc.
    destruct (consumeInOrder pd a e) as [p1 events]. destruct Hc as (Hw1 & Hs1 & Hle).
    pose proof (step_enqueue pd a e p1 events Hw1 Hs1) as Hen.
    destruct (enqueue_all p1 events) as [p2 effs]. destruct Hen as (_ & _ & _ & Hls).
    split; [done | left; lia].
Qed.

Lemma run_app p c1 c2 :
  run p (c1 ++ c2) =
  let '(p1, t1) := run p c1 in let '(p2, t2) := run p1 c2 in (p2, t1 ++ t2).
Proof.
  revert p. induction c1 as [|[a e] c1 IH]; intros p; simpl.
  - by destruct (run p c2).
  - destruct (ProcessEvent p a e) as [[p1 r] effs]. rewrite IH.
    destruct (run p1 c1) as [p2 t1]. destruct (run p2 c2) as [p3 t2]. by rewrite app_assoc.
Qed.

Lemma delivered_app a t1 t2 : delivered a (t1 ++ t2) = delivered a t1 ++ delivered a t2.
Proof. apply omap_app. Qed.

Lemma delivered_call a b effs :
  delivered a ((fun x => (b, x)) <$> effs) =
  if decide (b = a) then omap delivered_event effs else [].
Proof.
  unfold delivered. induction effs as [|x effs IH]; simpl; [by case_decide|].
  unfold omap in IH. destruct (decide (b = a)) as [->|]; [|done].
  destruct (delivered_event x); [f_equal|]; done.
Qed.

Lemma inputs_snoc a calls b e :
  inputs a (calls ++ [(b, e)]) = inputs a calls ++ (if decide (b = a) then [e] else []).
Proof.
  unfold inputs. rewrite filter_app, fmap_app. f_equal.
  rewrite filter_cons. simpl. case_decide; done.
Qed.

(** What holds of one agent after any history. *)
Record history (a : string) (calls : list (string * Event)) p (tr : list (string * effect)) : Prop := {
  hist_wf : pipeline_wf p;
  hist_order : consecutive 1 (delivered a tr);
  hist_last : LastSequence p a = Z.of_nat (length (delivered a tr));
  hist_origin x : x ∈ delivered a tr -> x ∈ inputs a calls;
  hist_buffer k x : pending_of p a !! k = Some x -> x ∈ inputs a calls }.

Lemma run_history p0 calls a :
  pipeline_wf p0 -> LastSequence p0 a = 0 -> pending_of p0 a = ∅ ->
  Forall (fun c => is_u64 (ev_Seq c.2)) calls ->
  history a calls (run p0 calls).1 (run p0 calls).2.
Proof.
  intros Hwf Hl Hp. induction calls as [|[b e] calls IH] using rev_ind; intros Hall.
  - split; simpl; try done. intros k x. by rewrite Hp, lookup_empty.
  - apply Forall_app in Hall as [Hall [Hone _]%Forall_cons]. simpl in Hone.
    specialize (IH Hall). rewrite run_app. destruct (run p0 calls) as [p tr]; simpl in IH |- *.
    destruct IH as [H1 H2 H3 H4 H5].
    pose proof (ProcessEvent_step p b e H1 Hone) as Hs.
    destruct (ProcessEvent p b e) as [[p' r] effs]. destruct Hs as [Hw' [S1 S2 S3 S4 S5 S6]].
    simpl. rewrite app_nil_r. destruct (decide (b = a)) as [->|Hb].
    + split; rewrite ?delivered_app, ?delivered_call, ?inputs_snoc, ?decide_True by done.
      * done.
      * apply consecutive_app. split; [done|]. by rewrite H3, Z.add_comm in S2.
      * rewrite S1, H3, length_app. lia.
      * intros x [Hx|Hx]%elem_of_app; apply elem_of_app; [left; auto|].
        apply S3 in Hx as [->|Hx]; [right; by apply list_elem_of_singleton | left; eauto].
      * intros k x Hx. apply elem_of_app.
        apply S4 in Hx as [Hx| ->]; [left; eauto | right; by apply list_elem_of_singleton].
    + destruct (S6 a (not_eq_sym Hb)) as [E1 E2].
      split; rewrite ?delivered_app, ?delivered_call, ?inputs_snoc, ?decide_False, ?app_nil_r by done;
        rewrite ?E1, ?E2; done.
Qed.

Lemma enqueue_all_dedup p events : dedup (enqueue_all p events).1 = dedup p.
Proof.
  revert p. induction events as [|e events IH]; intros p; [done|]. simpl.
  unfold enqueuePersist. destruct (length (persistQueue p) <? persistQueueSize)%nat.
  - specialize (IH (mkPipeline (dedup p) (agentSequences p) (pendingEvents p)
          (persistQueue p ++ [e]) (has_replay_sender p))).
    destruct (enqueue_all _ events). exact IH.
  - specialize (IH p). destruct (enqueue_all _ events). exact IH.
Qed.

Lemma ProcessEvent_dedup p a e :
  a <> ε -> ev_ID e <> ε ->
  dedup (ProcessEvent p a e).1.1 = (seen (dedup p) (event_key a (ev_ID e))).1.
Proof.
  intros Ha He. unfold ProcessEvent.
  rewrite (proj2 (str_empty_false a) Ha), (proj2 (str_empty_false _) He).
  destruct (seen (dedup p) (event_key a (ev_ID e))) as [d hit].
  destruct hit; [done|]. destruct (validateSequence _ a e) as [[]|]; try done.
  set (pd := mkPipeline d _ _ _ _).
  assert (dedup (consumeInOrder pd a e).1 = d) as Hdd.
  { unfold consumeInOrder. destruct (pendingEvents pd !! a); [|done].
    by destruct (drain_pending _ _ _ _) as [[? ?] ?]. }
  destruct (consumeInOrder pd a e) as [p1 events].
  pose proof (enqueue_all_dedup p1 events). destruct (enqueue_all p1 events). simpl in *. congruence.
Qed.

Definition call_key (c : string * Event) : string * string := (c.1, ev_ID c.2).

Lemma consecutive_in from l x :
  consecutive from l -> x ∈ l -> from <= ev_Seq x < from + Z.of_nat (length l).
Proof.
  intros Hc Hx. apply (list_elem_of_fmap_2 ev_Seq) in Hx. rewrite Hc in Hx.
  by apply elem_of_seqZ in Hx.
Qed.

Lemma consecutive_has from l k :
  consecutive from l -> from <= k < from + Z.of_nat (length l) -> exists x, x ∈ l /\ ev_Seq x = k.
Proof.
  intros Hc Hk. apply elem_of_seqZ in Hk. rewrite <- Hc in Hk.
  apply list_elem_of_fmap in Hk as (x & -> & ?). eauto.
Qed.

Lemma consecutive_length_le from l n :
  consecutive from l -> (forall x, x ∈ l -> ev_Seq x <= n) -> from - 1 <= n ->
  from + Z.of_nat (length l) - 1 <= n.
Proof.
  intros Hc Hle Hn. destruct (decide (length l = 0%nat)) as [->|Hl]; [lia|].
  destruct (consecutive_has from l (from + Z.of_nat (length l) - 1) Hc) as (x & Hx & E); [lia|].
  apply Hle in Hx. lia.
Qed.

(** Sequence numbers go with ids: what is submitted again is the same event. *)
Definition stable_seqs (l : list Event) : Prop :=
  forall x y, x ∈ l -> y ∈ l -> ev_ID x = ev_ID y -> ev_Seq x = ev_Seq y.
Lemma stable_seqs_nodup l : NoDup (ev_ID <$> l) -> stable_seqs l.
Proof.
  intros Hnd x y [i Hi]%list_elem_of_lookup [j Hj]%list_elem_of_lookup E.
  assert (i = j) as ->; [|congruence].
  apply (NoDup_lookup _ i j (ev_ID x) Hnd); rewrite list_lookup_fmap, ?Hi, ?Hj; simpl; congruence.
Qed.

Lemma run_received p0 calls a n :
  pipeline_wf p0 -> LastSequence p0 a = 0 -> pending_of p0 a = ∅ -> ids (dedup p0) a = [] ->
  0 <= n < 2 ^ 64 - 1 ->
  Forall (fun c => is_u64 (ev_Seq c.2)) calls -> Forall valid_call (call_key <$> calls) ->
  stable_seqs (inputs a calls) ->
  (forall x, x ∈ inputs a calls -> 0 < ev_Seq x <= n) ->
  dedup (run p0 calls).1 = seen_all (dedup p0) (call_key <$> calls) /\
  forall x, x ∈ inputs a calls -> received (run p0 calls).1 a (ev_Seq x).
Proof.
  intros Hwf Hl Hp Hids Hn. induction calls as [|[b e] calls IH] using rev_ind;
    intros Hall Hval Hst Hseq; [split; [done | by intros ? ?%elem_of_nil]|].
  rewrite inputs_snoc in Hst, Hseq |- *. rewrite fmap_app in Hval |- *.
  apply Forall_app in Hall as [Hall [Hone _]%Forall_cons].
  apply Forall_app in Hval as [Hval [[Hb He] _]%Forall_cons]. simpl in Hone, Hb, He.
  assert (b <> ε) as Hbe by (intros ->; done).
  destruct IH as [Hde Hrec]; [done | done | | |].
  { intros x y Hx Hy. apply Hst; apply elem_of_app; by left. }
  { intros x Hx. apply Hseq, elem_of_app. by left. }
  pose proof (run_history p0 calls a Hwf Hl Hp Hall) as [H1 H2 H3 H4 H5].
  rewrite run_app. destruct (run p0 calls) as [p tr]; simpl in *.
  assert (LastSequence p a <= n) as Hlast.
  { rewrite H3. pose proof (consecutive_length_le 1 _ n H2) as Hle.
    enough (1 + Z.of_nat (length (delivered a tr)) - 1 <= n) by lia.
    apply Hle; [|lia]. intros x Hx. apply H4 in Hx. apply Hseq, elem_of_app. by left. }
  pose proof (ProcessEvent_dedup p b e Hbe He) as Hd'.
  pose proof (ProcessEvent_step p b e H1 Hone) as Hs.
  pose proof (ProcessEvent_received p b e H1) as Hkeep.
  destruct (ProcessEvent p b e) as [[p' r] effs]. simpl in *.
  destruct Hs as [_ [_ _ _ _ S5 S6]]. split.
  { unfold seen_all. rewrite foldl_app. simpl. fold (seen_all (dedup p0) (call_key <$> calls)).
    by rewrite <- Hde. }
  intros x. rewrite elem_of_app. destruct (decide (b = a)) as [->|Hb'].
  - intros [Hx|Hx%list_elem_of_singleton]; [by apply S5, Hrec|]. subst x.
    assert (e ∈ inputs a calls ++ [e]) as Hine by (apply elem_of_app; right; by apply list_elem_of_singleton).
    destruct (decide ((a, ev_ID e) ∈ call_key <$> calls)) as [Hin|Hnin].
    + apply list_elem_of_fmap in Hin as ([b' e'] & E & Hin). injection E as -> E.
      assert (e' ∈ inputs b' calls) as Hin'.
      { unfold inputs. apply list_elem_of_fmap. exists (b', e'). split; [done|]. by apply list_elem_of_filter. }
      rewrite (Hst e e'); [by apply S5, Hrec | done | apply elem_of_app; by left | done].
    + apply Hkeep; [| lia | done | done |].
      { destruct (Hseq e); [done | lia]. }
      rewrite Hde. apply seen_fresh_from; [by apply Hwf | done | done | by split | done].
  - intros [Hx|Hx%elem_of_nil]; [|done].
    destruct (S6 a (not_eq_sym Hb')) as [E1 E2]. unfold received. rewrite E1, E2. by apply Hrec.
Qed.

Lemma new_pipeline_facts sender p0 :
  NewEventPipeline sender = Ok p0 ->
  pipeline_wf p0 /\ forall a, LastSequence p0 a = 0 /\ pending_of p0 a = ∅ /\ ids (dedup p0) a = [].
Proof.
  unfold NewEventPipeline, newEventDedupCache. simpl. intros [= <-]. split.
  - split_and!; simpl; [by apply wf_new | lia |]. intros a.
    unfold LastSequence, pending_of; simpl. rewrite !lookup_empty. split; [simpl; lia|].
    apply buffer_empty.
  - intros a. unfold LastSequence, pending_of; simpl. by rewrite !lookup_empty, ids_new.
Qed.

Lemma consecutive_lookup from l i x : consecutive from l -> l !! i = Some x -> ev_Seq x = from + Z.of_nat i.
Proof.
  intros Hc Hi. assert ((ev_Seq <$> l) !! i = Some (ev_Seq x)) as E by by rewrite list_lookup_fmap, Hi.
  rewrite Hc in E. apply lookup_seqZ in E. lia.
Qed.
(** An agent that submits its events [es], each as often and in whatever order:
    what is handed on is a prefix of [es], and includes every prefix of it that
    was submitted in full. *)
Lemma resubmitted p0 calls a es :
  pipeline_wf p0 -> LastSequence p0 a = 0 -> pending_of p0 a = ∅ -> ids (dedup p0) a = [] ->
  Forall (fun c => is_u64 (ev_Seq c.2)) calls -> Forall valid_call (call_key <$> calls) ->
  consecutive 1 es -> NoDup (ev_ID <$> es) -> Z.of_nat (length es) < 2 ^ 64 - 1 ->
  (forall x, x ∈ inputs a calls -> x ∈ es) ->
  let '(p, tr) := run p0 calls in
  delivered a tr = take (length (delivered a tr)) es /\
  forall j, (j <= length es)%nat -> (forall x, x ∈ take j es -> x ∈ inputs a calls) ->
    (j <= length (delivered a tr))%nat.
Proof.
  intros Hwf Hl Hp Hids Hu Hval Hc Hnd Hlen Hin.
  assert (Hseq : forall x, x ∈ inputs a calls -> 0 < ev_Seq x <= Z.of_nat (length es)).
  { intros x Hx%Hin. apply (consecutive_in _ _ _ Hc) in Hx. lia. }
  pose proof (run_history p0 calls a Hwf Hl Hp Hu) as [H1 H2 H3 H4 _].
  destruct (run_received p0 calls a (Z.of_nat (length es))) as [_ Hrec]; try done; [lia| |].
  { intros x y Hx%Hin Hy%Hin. by apply (stable_seqs_nodup es). }
  destruct (run p0 calls) as [p tr]. simpl in *. set (d := delivered a tr) in *.
  assert (Hpre : forall i x, d !! i = Some x -> es !! i = Some x).
  { intros i x Hx. pose proof (consecutive_lookup 1 d i x H2 Hx) as Es.
    assert (x ∈ es) as [j Hj]%list_elem_of_lookup by (apply Hin, H4, list_elem_of_lookup; eauto).
    pose proof (consecutive_lookup 1 es j x Hc Hj). by replace i with j by lia. }
  split.
  - apply list_eq. intros i. destruct (decide (i < length d)%nat) as [Hi|Hi].
    + rewrite lookup_take_lt by done. destruct (d !! i) as [x|] eqn:E; [by rewrite (Hpre i x E)|].
      apply lookup_ge_None in E. lia.
    + rewrite lookup_take_ge by lia. apply lookup_ge_None. lia.
  - intros j Hj Hsub. destruct (decide (j <= length d)%nat) as [|Hn]; [done|]. exfalso.
    destruct (es !! length d) as [x|] eqn:Ex; [|apply lookup_ge_None in Ex; lia].
    assert (x ∈ take j es) as Hx%Hsub by (apply list_elem_of_lookup; exists (length d); rewrite lookup_take_lt by lia; done).
    apply Hrec in Hx. rewrite (consecutive_lookup 1 es _ x Hc Ex) in Hx.
    destruct H1 as (_ & _ & Hb). destruct (Hb a) as [_ [Hnext _]]. unfold received in Hx.
    rewrite u64_small in Hnext by (unfold is_u64; lia). rewrite H3 in *.
    rewrite Z.add_comm in Hnext. destruct Hx as [?|[y Hy]]; [lia|]. congruence.
Qed.

(** What the persist worker takes off the queue makes no difference to what is
    handed on. *)
Definition same_but_queue p q : Prop :=
  dedup p = dedup q /\ agentSequences p = agentSequences q /\ pendingEvents p = pendingEvents q /\
  has_replay_sender p = has_replay_sender q.
Lemma enqueue_all_same p q events :
  same_but_queue p q ->
  let '(p', effs) := enqueue_all p events in let '(q', effs') := enqueue_all q events in
  same_but_queue p' q' /\ omap delivered_event effs = omap delivered_event effs'.
Proof.
  revert p q. induction events as [|e events IH]; intros p q Hs; simpl; [done|].
  assert (Hone : same_but_queue (enqueuePersist p e).1 (enqueuePersist q e).1 /\
    delivered_event (enqueuePersist p e).2 = Some e /\ delivered_event (enqueuePersist q e).2 = Some e).
  { unfold enqueuePersist. by do 2 case_match. }
  destruct (enqueuePersist p e) as [p1 x], (enqueuePersist q e) as [q1 y]. simpl in Hone.
  destruct Hone as (H1 & Hx & Hy). specialize (IH p1 q1 H1).
  destruct (enqueue_all p1 events) as [p2 effs], (enqueue_all q1 events) as [q2 effs'].
  destruct IH as [? Heq]. split; [done|]. simpl. rewrite Hx, Hy. f_equal. exact Heq.
Qed.
Lemma ProcessEvent_same p q a e :
  same_but_queue p q ->
  let '(p', r, effs) := ProcessEvent p a e in let '(q', r', effs') := ProcessEvent q a e in
  same_but_queue p' q' /\ r = r' /\ omap delivered_event effs = omap delivered_event effs'.
Proof.
  destruct p as [d s m qu sender], q as [d2 s2 m2 qu2 sender2]. intros (? & ? & ? & ?). simpl in *. subst.
  unfold ProcessEvent. simpl. destruct (str_empty a); [done|]. destruct (str_empty (ev_ID e)); [done|].
  destruct (seen _ _) as [d hit]. destruct hit; [done|].
  set (p1 := mkPipeline d s2 m2 qu sender2). set (q1 := mkPipeline d s2 m2 qu2 sender2).
  change (validateSequence q1 a e) with (validateSequence p1 a e).
  destruct (validateSequence p1 a e) as [[]|]; try done.
  assert (Hc : same_but_queue (consumeInOrder p1 a e).1 (consumeInOrder q1 a e).1 /\
    (consumeInOrder p1 a e).2 = (consumeInOrder q1 a e).2).
  { unfold consumeInOrder. simpl. destruct (m2 !! a); [|done]. by destruct (drain_pending _ _ _ _) as [[? ?] ?]. }
  destruct (consumeInOrder p1 a e) as [p2 events], (consumeInOrder q1 a e) as [q2 events']. simpl in Hc.
  destruct Hc as [Hs ->]. pose proof (enqueue_all_same p2 q2 events' Hs) as He.
  destruct (enqueue_all p2 events'), (enqueue_all q2 events'). destruct He. by split_and!.
Qed.

Lemma enqueue_all_queue p events :
  let '(p', effs) := enqueue_all p events in
  persistQueue p' = persistQueue p ++ put_on_queue effs.
Proof.
  revert p. induction events as [|e events IH]; intros p; simpl; [by rewrite app_nil_r|].
  unfold enqueuePersist. destruct (length (persistQueue p) <? persistQueueSize)%nat.
  - specialize (IH (mkPipeline (dedup p) (agentSequences p) (pendingEvents p)
          (persistQueue p ++ [e]) (has_replay_sender p))).
    destruct (enqueue_all _ events) as [p' effs]. rewrite IH. simpl. by rewrite <- app_assoc.
  - specialize (IH p). by destruct (enqueue_all _ events).
Qed.

Lemma ProcessEvent_queue p a e :
  let '(p', _, effs) := ProcessEvent p a e in
  persistQueue p' = persistQueue p ++ put_on_queue effs.
Proof.
  unfold ProcessEvent. destruct (str_empty a); [by rewrite app_nil_r|].
  destruct (str_empty (ev_ID e)); [by rewrite app_nil_r|].
  destruct (seen _ _) as [d hit]. destruct hit; [by rewrite app_nil_r|].
  set (pd := mkPipeline d _ _ _ _).
  destruct (validateSequence pd a e) as [[]|]; try by rewrite app_nil_r.
  - assert (persistQueue (consumeInOrder pd a e).1 = persistQueue p) as Hq.
    { unfold consumeInOrder. destruct (pendingEvents pd !! a); [|done].
      by destruct (drain_pending _ _ _ _) as [[? ?] ?]. }
    destruct (consumeInOrder pd a e) as [p1 events].
    pose proof (enqueue_all_queue p1 events) as Hen.
    destruct (enqueue_all p1 events). simpl in Hq. by rewrite Hen, Hq.
  - simpl. destruct (has_replay_sender p); by rewrite app_nil_r.
Qed.

(** The invariant of callers and worker together. *)
Definition sys_inv {DB} (s : EventPipeline C * option DB * list Event * list Event) : Prop :=
  let '(p, _, put, taken) := s in pipeline_wf p /\ put = taken ++ persistQueue p.

Lemma sys_step_inv {DB E} `{EventStore DB E} s x :
  match x with Call _ e => is_u64 (ev_Seq e) | Turn _ => True end ->
  sys_inv s -> sys_inv (sys_step s x).
Proof.
  destruct s as [[[p db] put] taken]. intros Hx [Hwf Heq]. destruct x as [a e|now]; simpl.
  - pose proof (ProcessEvent_step p a e Hwf Hx) as Hs. pose proof (ProcessEvent_queue p a e) as Hpq.
    destruct (ProcessEvent p a e) as [[p' r] effs]. destruct Hs as [Hw _].
    split; [done|]. by rewrite Hpq, Heq, app_assoc.
  - unfold persist_turn. destruct (persistQueue p) as [|e rest] eqn:Eq; [by split; [|rewrite Eq]|].
    destruct Hwf as (? & Hlen & ?). split.
    + split_and!; [done | rewrite Eq in Hlen; simpl in Hlen |- *; lia | done].
    + simpl. by rewrite Heq, <- app_assoc.
Qed.

End Facts.
End PipelineFacts.

(** ** Properties *)
Section Properties.
Import Pipeline PipelineFacts.
Context {C : Type} `{LruCacheLaws C}.

(** C2: whatever calls a new pipeline has served (events missing, repeated,
    early, late, of several agents interleaved, with repeated ids or invalid
    sequence numbers), the events it handed to persistence for an agent carry
    the sequence numbers 1, 2, 3, ... without gap or repetition, each is an
    event of that agent that was submitted, and [LastSequence] is their
    number. *)
Theorem events_delivered_in_order (sender : bool) (p0 p : EventPipeline C)
    (calls : list (string * Event)) (tr : list (string * effect)) (a : string) :
  NewEventPipeline sender = Ok p0 ->
  Forall (fun c => is_u64 (ev_Seq c.2)) calls ->
  run p0 calls = (p, tr) ->
  consecutive 1 (delivered a tr) /\
  LastSequence p a = Z.of_nat (length (delivered a tr)) /\
  (forall x, x ∈ delivered a tr -> x ∈ inputs a calls).
Proof.
  intros [Hwf Ha]%new_pipeline_facts Hall Hrun. destruct (Ha a) as (? & ? & _).
  pose proof (run_history p0 calls a) as Hh. rewrite Hrun in Hh. destruct Hh; auto.
Qed.

(** The events of an agent with sequence numbers 1 to n and distinct ids,
    submitted in any order and interleaved with any events of other agents,
    are all handed on, each once, in sequence order, and none stays in the
    buffer. *)
Theorem reordered_events_all_delivered (sender : bool) (p0 p : EventPipeline C)
    (calls : list (string * Event)) (tr : list (string * effect)) (a : string) (n : Z) :
  NewEventPipeline sender = Ok p0 ->
  run p0 calls = (p, tr) ->
  0 <= n < 2 ^ 64 - 1 ->
  Forall (fun c => is_u64 (ev_Seq c.2)) calls ->
  Forall valid_call (call_key <$> calls) ->
  NoDup (ev_ID <$> inputs a calls) ->
  ev_Seq <$> inputs a calls ≡ₚ seqZ 1 n ->
  delivered a tr ≡ₚ inputs a calls /\ consecutive 1 (delivered a tr) /\
  LastSequence p a = n /\ PendingCount p a = 0%nat.
Proof.
  intros [Hwf Ha]%new_pipeline_facts Hrun Hn Hall Hval Hnd Hperm.
  destruct (Ha a) as (Hl & Hp & Hids).
  assert (forall x, x ∈ inputs a calls -> 0 < ev_Seq x <= n) as Hseq.
  { intros x Hx. apply (list_elem_of_fmap_2 ev_Seq) in Hx.
    rewrite Hperm in Hx. apply elem_of_seqZ in Hx. lia. }
  pose proof (run_history p0 calls a Hwf Hl Hp Hall) as [H1 H2 H3 H4 H5].
  destruct (run_received p0 calls a n) as [_ Hrec]; try done; [by apply stable_seqs_nodup|].
  rewrite Hrun in *. simpl in *.
  assert (length (inputs a calls) = Z.to_nat n) as Hlen.
  { rewrite <- (length_fmap ev_Seq), Hperm. apply length_seqZ. }
  assert (LastSequence p a <= n) as Hle.
  { rewrite H3. pose proof (consecutive_length_le 1 _ n H2) as Hle.
    assert (1 + Z.of_nat (length (delivered a tr)) - 1 <= n); [|lia].
    apply Hle; [|lia]. intros x Hx. apply H4, Hseq in Hx. lia. }
  destruct H1 as (_ & _ & Hbuf). destruct (Hbuf a) as [_ [Hnext Hkey]].
  assert (LastSequence p a = n) as Hlast.
  { destruct (decide (LastSequence p a = n)) as [|Hne]; [done|]. exfalso.
    assert (LastSequence p a + 1 ∈ ev_Seq <$> inputs a calls) as Hin
      by (rewrite Hperm; apply elem_of_seqZ; lia).
    apply list_elem_of_fmap in Hin as (x & E & Hx). apply Hrec in Hx. rewrite <- E in Hx.
    destruct Hx as [?|Hx]; [lia|]. rewrite u64_small in Hnext by (unfold is_u64; lia).
    rewrite Hnext in Hx. by destruct Hx. }
  split_and!; [|done|done|].
  - symmetry. apply submseteq_length_Permutation; [|rewrite Hlen; lia].
    apply NoDup_submseteq; [by eapply NoDup_fmap_1|]. intros x Hx.
    pose proof (Hseq x Hx) as Hr.
    destruct (consecutive_has 1 (delivered a tr) (ev_Seq x) H2) as (y & Hy & E); [lia|].
    pose proof (H4 y Hy) as Hy'. enough (x = y) by congruence.
    assert (NoDup (ev_Seq <$> inputs a calls)) as Hns by (rewrite Hperm; apply NoDup_seqZ).
    apply list_elem_of_lookup in Hx as [i Hi]. apply list_elem_of_lookup in Hy' as [j Hj].
    assert (i = j) as ->; [|congruence].
    apply (NoDup_lookup _ i j (ev_Seq x) Hns); rewrite list_lookup_fmap, ?Hi, ?Hj; simpl; congruence.
  - unfold PendingCount. apply map_size_empty_iff, map_empty. intros k.
    destruct (pending_of p a !! k) as [x|] eqn:E; [|done]. exfalso.
    pose proof (Hkey _ _ E) as (Ek & _ & Hgt). pose proof (H5 _ _ E) as Hx.
    apply Hseq in Hx. lia.
Qed.

(** An event beyond the next sequence number is buffered, hands nothing on,
    and asks the agent for exactly the missing numbers. *)
Theorem gap_requests_missing_range (p : EventPipeline C) (a : string) (e : Event) :
  pipeline_wf p -> has_replay_sender p = true -> a <> ε -> ev_ID e <> ε ->
  (seen (dedup p) (event_key a (ev_ID e))).2 = false ->
  LastSequence p a + 1 < ev_Seq e < 2 ^ 64 ->
  let '(p', r, effs) := ProcessEvent p a e in
  r = Ok () /\
  effs = [ReplayRequested (mkRange (LastSequence p a + 1) (ev_Seq e - 1))] /\
  LastSequence p' a = LastSequence p a /\
  pending_of p' a = <[ev_Seq e := e]> (pending_of p a) /\
  persistQueue p' = persistQueue p.
Proof.
  intros (_ & _ & Hwf) Hs Ha He Hhit Hr. destruct (Hwf a) as [Hl _].
  unfold ProcessEvent, validateSequence, handleGap.
  rewrite (proj2 (str_empty_false a) Ha), (proj2 (str_empty_false _) He).
  destruct (seen _ _) as [d hit]; simpl in Hhit; subst hit.
  set (pd := mkPipeline d _ _ _ _). change (LastSequence pd a) with (LastSequence p a).
  rewrite u64_small by (unfold is_u64; lia).
  rewrite (proj2 (Z.eqb_neq _ 0)), (proj2 (Z.ltb_ge (ev_Seq e) _)), (proj2 (Z.ltb_lt _ (ev_Seq e))) by lia.
  simpl. rewrite Hs, u64_small by (unfold is_u64; lia). split_and!; try done.
  unfold pending_of at 1; simpl. by rewrite lookup_insert_eq.
Qed.

(** Once an event id has been submitted for an agent, a second call with
    the same id changes neither sequence numbers, buffers nor queue and has no
    effect, whatever the first call returned and whatever the second event's
    contents; in particular an event that was refused for its sequence number
    stays lost when it is sent again with a valid one. *)
Theorem repeated_id_ignored (p : EventPipeline C) (a : string) (e e' : Event) :
  pipeline_wf p -> plain_agent a = true -> ev_ID e <> ε -> ev_ID e' = ev_ID e ->
  let p1 := (ProcessEvent p a e).1.1 in
  let '(p2, r, effs) := ProcessEvent p1 a e' in
  r = Ok () /\ effs = [] /\ agentSequences p2 = agentSequences p1 /\
  pendingEvents p2 = pendingEvents p1 /\ persistQueue p2 = persistQueue p1.
Proof.
  intros Hwf Ha He E p1.
  assert (a <> ε) as Hne by (intros ->; done).
  assert ((seen (dedup p1) (event_key a (ev_ID e'))).2 = true) as Hhit.
  { unfold p1. rewrite ProcessEvent_dedup, E by done.
    pose proof (seen_spec (dedup p) a (ev_ID e) (proj1 Hwf) Ha He) as Hs.
    destruct (seen (dedup p) (event_key a (ev_ID e))) as [d hit]. simpl.
    destruct Hs as (Hwd & Hsz & _ & Hw & _).
    pose proof (seen_spec d a (ev_ID e) Hwd Ha He) as Hs.
    destruct (seen d (event_key a (ev_ID e))) as [d2 hit2]. simpl.
    destruct Hs as (_ & _ & -> & _). apply bool_decide_eq_true_2. rewrite Hw.
    unfold window_step. case_bool_decide; [done|].
    destruct (Z.to_nat (cacheSize (dedup p))) eqn:Ez; [|by left].
    destruct Hwf as ([? _] & _). lia. }
  unfold ProcessEvent at 1. rewrite (proj2 (str_empty_false a) Hne), E, (proj2 (str_empty_false _) He).
  rewrite <- E. destruct (seen (dedup p1) (event_key a (ev_ID e'))) as [d hit]. simpl in Hhit.
  by subst hit.
Qed.

(** The queue between the callers and the persist worker is first in, first
    out and loses nothing it accepted: in every interleaving of calls and
    worker turns, what was accepted is what the worker took, in order, followed
    by what is still queued, and the queue never exceeds its capacity. *)
Theorem persist_queue_fifo {DB E} `{EventStore DB E} (sender : bool) (p0 : EventPipeline C)
    (db0 : option DB) (acts : list pipeline_act) :
  NewEventPipeline sender = Ok p0 ->
  Forall (fun x => match x with Call _ e => is_u64 (ev_Seq e) | Turn _ => True end) acts ->
  let '(p, db, put, taken) := foldl sys_step (p0, db0, [], []) acts in
  put = taken ++ persistQueue p /\ (length (persistQueue p) <= persistQueueSize)%nat.
Proof.
  intros Hnew Hall. pose proof (new_pipeline_facts _ _ Hnew) as [Hwf0 _].
  pose proof (foldl_inv sys_inv sys_step acts (p0, db0, [], [])) as Hinv.
  destruct (foldl sys_step _ acts) as [[[p db] put] taken].
  destruct Hinv as [(_ & ? & _) ?]; [split; [done | by injection Hnew as <-] | | done].
  rewrite Forall_forall in Hall. intros s x Hx. by apply sys_step_inv, Hall.
Qed.

End Properties.

(** ** Witnesses *)
Module PipelineWitness.
Import Pipeline PipelineFacts.

(** An events table with its primary key. *)
#[export] Instance row_store : EventStore (list EventRow) string := {
  insert_event db r :=
    if bool_decide (row_id r ∈ row_id <$> db) then Err "UNIQUE constraint failed"%string
    else Ok (db ++ [r]) }.

Definition ev (id : string) (seq : Z) : Event := mkEvent id "s1" "session.idle" ε 0 seq.
Definition p0 : EventPipeline list_lru := mkPipeline (mkDedup 1000 ∅) ∅ ∅ [] true.
Definition calls : list (string * Event) :=
  [("a", ev "e3" 3); ("b", ev "e1" 1); ("a", ev "e1" 1); ("a", ev "e2" 2)]%string.
Definition final := run p0 calls.

Ltac small_seqs := repeat constructor; unfold is_u64; simpl; lia.

Example pipeline_run_example :
  delivered "a" final.2 = [ev "e1" 1; ev "e2" 2; ev "e3" 3].
Proof. vm_compute. reflexivity. Qed.

Lemma events_delivered_in_order_witness :
  consecutive 1 (delivered "a" final.2) /\
  LastSequence final.1 "a" = Z.of_nat (length (delivered "a" final.2)) /\
  (forall x, x ∈ delivered "a" final.2 -> x ∈ inputs "a" calls).
Proof.
  apply (events_delivered_in_order true p0 final.1 calls final.2 "a");
    [reflexivity | small_seqs | apply surjective_pairing].
Defined.

Lemma reordered_events_all_delivered_witness :
  delivered "a" final.2 ≡ₚ inputs "a" calls /\ consecutive 1 (delivered "a" final.2) /\
  LastSequence final.1 "a" = 3 /\ PendingCount final.1 "a" = 0%nat.
Proof.
  apply (reordered_events_all_delivered true p0 final.1 calls final.2 "a" 3);
    [reflexivity | apply surjective_pairing | lia | small_seqs | | | ].
  - repeat constructor; done.
  - apply (bool_decide_unpack _). vm_compute. exact I.
  - apply (bool_decide_unpack _). vm_compute. exact I.
Defined.

Lemma p0_wf : pipeline_wf p0.
Proof. apply (new_pipeline_facts true). reflexivity. Qed.

Lemma gap_requests_missing_range_witness :
  let '(p', r, effs) := ProcessEvent p0 "a" (ev "e3" 3) in
  r = Ok () /\ effs = [ReplayRequested (mkRange 1 2)] /\
  LastSequence p' "a" = 0 /\ pending_of p' "a" = <[3 := ev "e3" 3]> ∅ /\
  persistQueue p' = [].
Proof.
  apply (gap_requests_missing_range p0 "a" (ev "e3" 3));
    [exact p0_wf | reflexivity | done | done | vm_compute; reflexivity | vm_compute; split; reflexivity].
Defined.

(** The first call is refused, the second, with a valid number, is ignored. *)
Lemma repeated_id_ignored_witness :
  let p1 := (ProcessEvent p0 "a" (ev "e1" 0)).1.1 in
  let '(p2, r, effs) := ProcessEvent p1 "a" (ev "e1" 1) in
  r = Ok () /\ effs = [] /\ agentSequences p2 = agentSequences p1 /\
  pendingEvents p2 = pendingEvents p1 /\ persistQueue p2 = persistQueue p1.
Proof.
  apply (repeated_id_ignored p0 "a" (ev "e1" 0) (ev "e1" 1));
    [exact p0_wf | reflexivity | done | reflexivity].
Defined.

Definition acts : list pipeline_act :=
  [Call "a" (ev "e1" 1); Turn 5; Call "a" (ev "e2" 2)]%string.

Lemma persist_queue_fifo_witness :
  let '(p, db, put, taken) := foldl sys_step (p0, Some [], [], []) acts in
  put = taken ++ persistQueue p /\ (length (persistQueue p) <= persistQueueSize)%nat.
Proof.
  apply (persist_queue_fifo true p0 (Some []) acts); [reflexivity | small_seqs].
Defined.

End PipelineWitness.
