(* ===== verification/SqlStore.v ===== *)
(** * SqlStore

    What the supervisor asks of its SQLite database.  The driver and the engine
    are not part of the repository: a table with a text primary key is the
    class [KeyedTable], whose operations are the statements the source sends,
    and what the engine documents of them is the class [KeyedTableLaws].  Every
    statement may fail, and then leaves the table as it was.  The text form of
    time stamps is the class [TimeText].

    The second half is the theory of a write-through cache over such a table,
    which the node registry and the session tracker share. *)

From S2P Require Import Prelude GoStd.

(** ** Tables *)
Class KeyedTable (DB Row E : Type) := {
  (** [INSERT ... ON CONFLICT(id) DO UPDATE SET] every other column *)
  upsert_row : DB -> Row -> res E DB;
  (** [SELECT ... WHERE id = ?]; [None] is [sql.ErrNoRows] *)
  select_row : DB -> string -> res E (option Row);
  (** [UPDATE ... SET ... WHERE] *)
  update_rows : DB -> (Row -> bool) -> (Row -> Row) -> res E DB;
  (** [SELECT] of all rows: the rows, [None] for one that does not scan, and
      what [rows.Err] says after the last one *)
  select_rows : DB -> res E (list (option Row) * option E);
}.

(** The primary key of a row. *)
Class RowKey (Row : Type) := the_key : Row -> string.

(** [contents] has the rows whose columns have the types the source scans. *)
Class KeyedTableLaws (DB Row E : Type) `{KeyedTable DB Row E} `{RowKey Row} := {
  contents : DB -> gmap string Row;
  contents_key db k r : contents db !! k = Some r -> the_key r = k;
  upsert_row_ok db r db' :
    upsert_row db r = Ok db' -> contents db' = <[the_key r := r]> (contents db);
  select_row_ok db k o : select_row db k = Ok o -> o = contents db !! k;
  update_rows_ok db p f db' :
    (forall r, the_key (f r) = the_key r) -> update_rows db p f = Ok db' ->
    contents db' = (fun r => if (p r : bool) then f r else r) <$> contents db;
  select_rows_ok db rs :
    select_rows db = Ok (rs, None) ->
    forall r, Some r ∈ rs <-> contents db !! the_key r = Some r;
}.

(** A table kept as a map; [mt_open] is whether statements succeed. *)
Record mem_table (Row : Type) `{RowKey Row} := mkMem {
  mt_open : bool;
  mt_rows : gmap string Row;
  mt_keyed : bool_decide (map_Forall (fun k r => the_key r = k) mt_rows) }.
Arguments mkMem {Row _}.
Arguments mt_open {Row _}.
Arguments mt_rows {Row _}.
Arguments mt_keyed {Row _}.

Section MemTable.
Context {Row : Type} `{RowKey Row}.

Lemma mem_insert_keyed (m : gmap string Row) r :
  bool_decide (map_Forall (fun k r => the_key r = k) m) ->
  bool_decide (map_Forall (fun k r => the_key r = k) (<[the_key r := r]> m)).
Proof. intros Hm%bool_decide_unpack. apply bool_decide_pack, map_Forall_insert_2; done. Qed.

Definition mem_update (p : Row -> bool) (f : Row -> Row) (r : Row) : Row :=
  if p r && bool_decide (the_key (f r) = the_key r) then f r else r.

Lemma mem_update_key p f r : the_key (mem_update p f r) = the_key r.
Proof. unfold mem_update. case_match; bool_props; auto. Qed.

Lemma mem_update_keyed p f (m : gmap string Row) :
  bool_decide (map_Forall (fun k r => the_key r = k) m) ->
  bool_decide (map_Forall (fun k r => the_key r = k) (mem_update p f <$> m)).
Proof.
  intros Hm%bool_decide_unpack. apply bool_decide_pack. intros k r.
  rewrite lookup_fmap. intros (r0 & Hr & ->)%fmap_Some. rewrite mem_update_key. by apply Hm.
Qed.

#[export] Instance mem_keyed_table : KeyedTable (mem_table Row) Row string := {
  upsert_row db r :=
    if mt_open db then Ok (mkMem true _ (mem_insert_keyed _ r (mt_keyed db)))
    else Err "sql: database is closed"%string;
  select_row db k :=
    if mt_open db then Ok (mt_rows db !! k) else Err "sql: database is closed"%string;
  update_rows db p f :=
    if mt_open db then Ok (mkMem true _ (mem_update_keyed p f _ (mt_keyed db)))
    else Err "sql: database is closed"%string;
  select_rows db :=
    if mt_open db then Ok ((fun kr => Some kr.2) <$> map_to_list (mt_rows db), None)
    else Err "sql: database is closed"%string;
}.

#[export] Instance mem_keyed_table_laws : KeyedTableLaws (mem_table Row) Row string.
Proof.
  refine {| contents := mt_rows |}; simpl; intros db.
  - intros k r. apply (bool_decide_unpack _ (mt_keyed db)).
  - intros r db'. destruct (mt_open db); [|done]. by intros [= <-].
  - intros k o. destruct (mt_open db); [|done]. by intros [= <-].
  - intros p f db' Hf. destruct (mt_open db); [|done]. intros [= <-]. simpl.
    apply map_fmap_ext. intros k r _. unfold mem_update. rewrite Hf.
    by rewrite bool_decide_eq_true_2, andb_true_r.
  - intros rs. destruct (mt_open db); [|done]. intros [= <-] r. rewrite list_elem_of_fmap. split.
    + intros ([k r'] & [= ->] & Hr). apply elem_of_map_to_list in Hr. simpl.
      by rewrite (bool_decide_unpack _ (mt_keyed db) k r' Hr).
    + intros Hr. exists (the_key r, r). split; [done|]. by apply elem_of_map_to_list.
Defined.

Definition mem_empty : mem_table Row := mkMem true ∅ I.
End MemTable.

(** ** Time stamps as text: [t.UTC().Format(time.RFC3339Nano)], and
    [time.Parse] at a layout, in UTC.  Layouts write years with four digits. *)
Definition year10000 : Z := 315537897600 * Time.Second.
Definition printable_time (t : Time.t) : Prop := 0 <= t < year10000.

Class TimeText := {
  Format_RFC3339Nano : Time.t -> string;
  Parse : string -> string -> option Time.t;
}.
Definition RFC3339Nano : string := "2006-01-02T15:04:05.999999999Z07:00".
Definition RFC3339 : string := "2006-01-02T15:04:05Z07:00".
Class TimeTextLaws `{TimeText} := {
  parse_format t : printable_time t -> Parse RFC3339Nano (Format_RFC3339Nano t) = Some t;
}.

(** registry.go's [parseSQLiteTimestamp]: the first layout that parses. *)
Definition timestamp_layouts : list string :=
  [RFC3339Nano; RFC3339; "2006-01-02 15:04:05"; "2006-01-02 15:04:05.999999999"]%string.
Fixpoint first_layout `{TimeText} (layouts : list string) (value : string) : option Time.t :=
  match layouts with
  | [] => None
  | layout :: layouts' =>
      match Parse layout value with
      | Some t => Some t
      | None => first_layout layouts' value
      end
  end.
Definition parseSQLiteTimestamp `{TimeText} (value : string) : option Time.t :=
  first_layout timestamp_layouts value.

Lemma parse_stored `{TimeTextLaws} t :
  printable_time t -> parseSQLiteTimestamp (Format_RFC3339Nano t) = Some t.
Proof. intros Ht. unfold parseSQLiteTimestamp. simpl. by rewrite parse_format. Qed.

(** A codec that writes the bits of the instant, for the witnesses. *)
Fixpoint bits_text (p : positive) : string :=
  match p with
  | xH => ε
  | xO p' => String "0" (bits_text p')
  | xI p' => String "1" (bits_text p')
  end.
Fixpoint text_bits (s : string) : positive :=
  match s with
  | ε => xH
  | String c s' => if Ascii.eqb c "1" then xI (text_bits s') else xO (text_bits s')
  end.
Lemma text_bits_text p : text_bits (bits_text p) = p.
Proof. induction p; simpl; by f_equal. Qed.
#[export] Instance bits_time_text : TimeText := {
  Format_RFC3339Nano t := bits_text (Z.to_pos (t + 1));
  Parse _ s := Some (Z.pos (text_bits s) - 1);
}.
#[export] Instance bits_time_text_laws : TimeTextLaws.
Proof.
  refine {| parse_format := _ |}. intros t [Ht _]. simpl.
  rewrite text_bits_text, Z2Pos.id by lia. f_equal. lia.
Defined.

(** ** Write-through caches

    A component keeps entries of type [A] in memory; [saved a] is the part of an
    entry the table stores and [loaded r] what a row reads back as. *)
Section WriteThrough.
Context {DB Row E A V : Type} `{KeyedTableLaws DB Row E}.
Context (id_of : A -> string) (saved : A -> V) (loaded : Row -> option V).

(** Every cached entry sits under its own id and agrees with its row. *)
Definition coherent (cache : gmap string A) (db : DB) : Prop :=
  forall k a, cache !! k = Some a ->
    id_of a = k /\ exists r, contents db !! k = Some r /\ loaded r = Some (saved a).

Lemma coherent_empty db : coherent ∅ db.
Proof. intros k a. by rewrite lookup_empty. Qed.

(** The row is written first, then the entry is cached. *)
Lemma coherent_write cache db r db' a :
  coherent cache db -> upsert_row db r = Ok db' ->
  the_key r = id_of a -> loaded r = Some (saved a) ->
  coherent (<[id_of a := a]> cache) db'.
Proof.
  intros Hc Hup Hk Hl k b. apply upsert_row_ok in Hup. rewrite Hup, Hk.
  intros [[<- <-]|[Hne Hb]]%lookup_insert_Some.
  - split; [done|]. exists r. by rewrite lookup_insert_eq.
  - destruct (Hc k b Hb) as (Hid & r' & Hr' & Hl'). split; [done|]. exists r'.
    by rewrite lookup_insert_ne.
Qed.

(** An entry read from its row is cached. *)
Lemma coherent_fill cache db k r a :
  coherent cache db -> contents db !! k = Some r -> id_of a = k -> loaded r = Some (saved a) ->
  coherent (<[k := a]> cache) db.
Proof.
  intros Hc Hr Hid Hl k' b [[<- <-]|[Hne Hb]]%lookup_insert_Some; [split; eauto | by apply Hc].
Qed.

(** An entry changes in memory only. *)
Lemma coherent_touch cache db k a a' :
  coherent cache db -> cache !! k = Some a -> id_of a' = id_of a -> saved a' = saved a ->
  coherent (<[k := a']> cache) db.
Proof.
  intros Hc Ha Hid Hs. destruct (Hc k a Ha) as (Hk & r & Hr & Hl).
  eapply coherent_fill; [done | done | congruence | congruence].
Qed.

(** One [UPDATE] and the same change of every cached entry. *)
Lemma coherent_update cache db p f db' (g : A -> A) :
  coherent cache db -> (forall r, the_key (f r) = the_key r) -> update_rows db p f = Ok db' ->
  (forall a, id_of (g a) = id_of a) ->
  (forall r a, loaded r = Some (saved a) ->
     loaded (if (p r : bool) then f r else r) = Some (saved (g a))) ->
  coherent (g <$> cache) db'.
Proof.
  intros Hc Hf Hup Hg Hfg k b. apply update_rows_ok in Hup; [|done]. rewrite lookup_fmap, Hup.
  intros (a & Ha & ->)%fmap_Some. destruct (Hc k a Ha) as (Hk & r & Hr & Hl).
  split; [by rewrite Hg|]. exists (if (p r : bool) then f r else r).
  rewrite lookup_fmap, Hr. split; [done | by apply Hfg].
Qed.

End WriteThrough.

(** The start-up load: every row that decodes becomes an entry, changed by [g],
    and the others are counted. *)
Section Load.
Context {Row A : Type} `{RowKey Row} (decode : Row -> option A) (id_of : A -> string) (g : A -> A).
Context (decode_id : forall row a, decode row = Some a -> id_of a = the_key row).

Definition load_entry (acc : gmap string A * Z) (row : option Row) : gmap string A * Z :=
  match row ≫= decode with
  | None => (acc.1, u64 (acc.2 + 1))
  | Some a => (<[id_of a := g a]> acc.1, acc.2)
  end.

Section Rows.
Context (m : gmap string Row) (rows : list (option Row)).
Context (rows_in : forall row, Some row ∈ rows -> m !! the_key row = Some row).

Lemma foldl_load_only errs k b :
  (foldl load_entry (∅, errs) rows).1 !! k = Some b ->
  exists row a, m !! k = Some row /\ decode row = Some a /\ b = g a.
Proof.
  enough (forall k b, (foldl load_entry (∅, errs) rows).1 !! k = Some b ->
    exists row a, m !! k = Some row /\ decode row = Some a /\ b = g a) by auto.
  apply (foldl_inv (fun acc : gmap string A * Z => forall k b, acc.1 !! k = Some b ->
    exists row a, m !! k = Some row /\ decode row = Some a /\ b = g a)).
  { intros k' b'. simpl. by rewrite lookup_empty. }
  intros acc [row|] Hin Hacc; unfold load_entry; simpl; [|done].
  destruct (decode row) as [a|] eqn:Ea; [|done]. simpl. intros k' b'.
  rewrite (decode_id _ _ Ea). intros [[<- <-]|[_ ?]]%lookup_insert_Some; [|by apply Hacc].
  exists row, a. split_and!; [by apply rows_in | done | done].
Qed.

Lemma foldl_load_all acc row a :
  Some row ∈ rows -> decode row = Some a ->
  (foldl load_entry acc rows).1 !! the_key row = Some (g a).
Proof.
  revert rows_in. induction rows as [|o rs IH] using rev_ind; intros Hin Hrow Ha.
  { by apply elem_of_nil in Hrow. }
  rewrite foldl_app. simpl. specialize (IH (fun r Hr => Hin r (proj2 (elem_of_app _ _ _) (or_introl Hr)))).
  assert (forall acc', Some row = o -> (load_entry acc' o).1 !! the_key row = Some (g a)) as Hlast.
  { intros acc' <-. unfold load_entry; simpl. rewrite Ha; simpl.
    by rewrite (decode_id _ _ Ha), lookup_insert_eq. }
  apply elem_of_app in Hrow as Hcases. destruct Hcases as [Hr|Hr%list_elem_of_singleton]; [|by apply Hlast].
  specialize (IH Hr Ha). destruct o as [row'|]; [|done]. unfold load_entry; simpl.
  destruct (decode row') as [a'|] eqn:Ea'; simpl; [|done]. rewrite (decode_id _ _ Ea').
  destruct (decide (the_key row' = the_key row)) as [E|Hne]; [|by rewrite lookup_insert_ne].
  assert (row' = row) as ->.
  { pose proof (Hin row' (proj2 (elem_of_app _ _ _) (or_intror (proj2 (list_elem_of_singleton _ _) eq_refl)))).
    pose proof (Hin row Hrow). congruence. }
  assert (a' = a) as -> by congruence. by rewrite lookup_insert_eq.
Qed.
End Rows.

(** Loading the rows of a table gives exactly its decodable rows. *)
Lemma foldl_load_entry (m : gmap string Row) rows errs k :
  (forall row, Some row ∈ rows <-> m !! the_key row = Some row) ->
  (forall k row, m !! k = Some row -> the_key row = k) ->
  (foldl load_entry (∅, errs) rows).1 !! k = g <$> (m !! k ≫= decode).
Proof.
  intros Hrows Hkey. assert (forall row, Some row ∈ rows -> m !! the_key row = Some row) as Hin
    by (intros row; apply Hrows).
  destruct (m !! k ≫= decode) as [a|] eqn:E; simpl.
  - apply bind_Some in E as (row & Hk & Ha). rewrite <- (Hkey k row Hk).
    apply (foldl_load_all m); [done | | done]. apply Hrows. by rewrite (Hkey k row Hk).
  - destruct ((foldl load_entry (∅, errs) rows).1 !! k) as [b|] eqn:Eb; [|done].
    apply (foldl_load_only m rows Hin) in Eb as (row & a & Hk & Ha & _).
    rewrite Hk in E. simpl in E. congruence.
Qed.
End Load.
