(* ===== verification/NodeRegistry.v ===== *)
(** * NodeRegistry

    internal/supervisor/registry.go, auth_state.go and credential_sync.go: the
    nodes the supervisor knows, kept in memory and written through to the
    [nodes] table; the authentication state of each node's tools and the
    reconciliation of credential versions, which are kept in memory only.
    [time.Now()] is an argument; the payload decoders of [encoding/json] are
    arguments too. *)

From S2P Require Import Prelude GoStd SqlStore.

(** ** Data *)
Definition NodeStatusOnline : string := "online".
Definition NodeStatusOffline : string := "offline".
Definition NodeStatusDegraded : string := "degraded".
Definition CredentialSyncStatusInSync : string := "in_sync".
Definition CredentialSyncStatusDriftDetected : string := "drift_detected".
Definition CredentialSyncStatusUnknown : string := "unknown".

Record NodeAuthState := mkNodeAuthState {
  nas_Tool : string; nas_Status : string; nas_Reason : string; nas_CheckedAt : Time.t }.

(** [None] is the nil map. *)
Record NodeEntry := mkNodeEntry {
  node_ID : string;
  node_Hostname : string;
  node_Address : string;
  node_Projects : list string;
  node_Capabilities : list string;
  node_Status : string;
  node_LastHeartbeat : Time.t;
  node_ConnectedAt : Time.t;
  node_CredSyncStatus : string;
  node_CredVersion : Z;
  node_AuthStates : option (gmap string NodeAuthState);
  node_AuthUpdatedAt : Time.t }.

(** A row of the [nodes] table; the two time stamps are nullable. *)
Record NodeRow := mkNodeRow {
  nr_id : string; nr_hostname : string; nr_status : string;
  nr_last_heartbeat : option string; nr_connected_at : option string }.
#[export] Instance node_row_key : RowKey NodeRow := nr_id.

(** shared/auth_types.go's report, as [HandleAuthStateMessage] decodes it. *)
Record AuthStateReport := mkAuthStateReport {
  asr_Tool : string; asr_Status : string; asr_Reason : string; asr_CheckedAt : Time.t }.
Record CredentialSyncPayload := mkCredentialSync {
  csp_NodeID : string; csp_CredentialVersion : Z }.

(** Reading a row: the statement's error, or a time stamp that does not parse. *)
Inductive scan_error :=
  | bad_last_heartbeat (id : string)
  | bad_connected_at (id : string).
Inductive read_error (E : Type) :=
  | ErrNoRows
  | read_failed (e : E)
  | scan_failed (e : scan_error).
Arguments ErrNoRows {E}.
Arguments read_failed {E} e.
Arguments scan_failed {E} e.

Inductive registry_error (E : Type) :=
  | register_missing_id
  | register_missing_hostname (id : string)
  | register_failed (id : string) (e : E)
  | ErrNodeNotFound
  | mark_offline_read (id : string) (e : read_error E)
  | mark_offline_write (id : string) (e : E)
  | get_node_failed (id : string) (e : read_error E)
  | update_auth_state_failed (id : string) (e : read_error E)
  | reconcile_failed (id : string) (e : read_error E)
  | load_mark_offline (e : E)
  | load_query_rows (e : E)
  | load_iterate_rows (e : E)
  | auth_state_node_id_required
  | auth_state_unmarshal (e : string)
  | auth_state_reports_empty
  | credential_sync_unmarshal (e : string)
  | credential_sync_node_id_required.
Arguments register_missing_id {E}.
Arguments register_missing_hostname {E} id.
Arguments register_failed {E} id e.
Arguments ErrNodeNotFound {E}.
Arguments mark_offline_read {E} id e.
Arguments mark_offline_write {E} id e.
Arguments get_node_failed {E} id e.
Arguments update_auth_state_failed {E} id e.
Arguments reconcile_failed {E} id e.
Arguments load_mark_offline {E} e.
Arguments load_query_rows {E} e.
Arguments load_iterate_rows {E} e.
Arguments auth_state_node_id_required {E}.
Arguments auth_state_unmarshal {E} e.
Arguments auth_state_reports_empty {E}.
Arguments credential_sync_unmarshal {E} e.
Arguments credential_sync_node_id_required {E}.

Module Registry.

(** Field updates. *)
Definition set_status (s : string) (n : NodeEntry) : NodeEntry :=
  mkNodeEntry (node_ID n) (node_Hostname n) (node_Address n) (node_Projects n)
    (node_Capabilities n) s (node_LastHeartbeat n) (node_ConnectedAt n) (node_CredSyncStatus n)
    (node_CredVersion n) (node_AuthStates n) (node_AuthUpdatedAt n).
Definition set_heartbeat (t : Time.t) (n : NodeEntry) : NodeEntry :=
  mkNodeEntry (node_ID n) (node_Hostname n) (node_Address n) (node_Projects n)
    (node_Capabilities n) (node_Status n) t (node_ConnectedAt n) (node_CredSyncStatus n)
    (node_CredVersion n) (node_AuthStates n) (node_AuthUpdatedAt n).
Definition set_connected (t : Time.t) (n : NodeEntry) : NodeEntry :=
  mkNodeEntry (node_ID n) (node_Hostname n) (node_Address n) (node_Projects n)
    (node_Capabilities n) (node_Status n) (node_LastHeartbeat n) t (node_CredSyncStatus n)
    (node_CredVersion n) (node_AuthStates n) (node_AuthUpdatedAt n).
Definition set_cred (s : string) (v : Z) (n : NodeEntry) : NodeEntry :=
  mkNodeEntry (node_ID n) (node_Hostname n) (node_Address n) (node_Projects n)
    (node_Capabilities n) (node_Status n) (node_LastHeartbeat n) (node_ConnectedAt n) s
    v (node_AuthStates n) (node_AuthUpdatedAt n).
Definition set_auth (m : gmap string NodeAuthState) (t : Time.t) (n : NodeEntry) : NodeEntry :=
  mkNodeEntry (node_ID n) (node_Hostname n) (node_Address n) (node_Projects n)
    (node_Capabilities n) (node_Status n) (node_LastHeartbeat n) (node_ConnectedAt n)
    (node_CredSyncStatus n) (node_CredVersion n) (Some m) t.

Section Defs.
Context {DB E : Type} `{KeyedTable DB NodeRow E} `{TimeText}.

Record NodeRegistry := mkRegistry {
  db : DB; nodes : gmap string NodeEntry; recoveryErrors : Z }.

Definition NewNodeRegistry (d : DB) : NodeRegistry := mkRegistry d ∅ 0.

Definition with_node (r : NodeRegistry) (id : string) (n : NodeEntry) : NodeRegistry :=
  mkRegistry (db r) (<[id := n]> (nodes r)) (recoveryErrors r).

(** *** Rows *)
Definition upsertNode (d : DB) (node : NodeEntry) : res E DB :=
  upsert_row d (mkNodeRow (node_ID node) (node_Hostname node) (node_Status node)
                  (Some (Format_RFC3339Nano (node_LastHeartbeat node)))
                  (Some (Format_RFC3339Nano (node_ConnectedAt node)))).

(** A nullable time stamp; a null leaves the zero time. *)
Definition scan_time (bad : scan_error) (v : option string) : res scan_error Time.t :=
  match v with
  | None => Ok Time.zero
  | Some s =>
      match parseSQLiteTimestamp s with
      | Some t => Ok t
      | None => Err bad
      end
  end.

Definition scanNodeRow (row : NodeRow) : res scan_error NodeEntry :=
  let? hb := scan_time (bad_last_heartbeat (nr_id row)) (nr_last_heartbeat row) in
  let? ca := scan_time (bad_connected_at (nr_id row)) (nr_connected_at row) in
  Ok (mkNodeEntry (nr_id row) (nr_hostname row) ε [] [] (nr_status row) hb ca
        CredentialSyncStatusUnknown 0 None Time.zero).

Definition readNode (d : DB) (nodeID : string) : res (read_error E) NodeEntry :=
  match select_row d nodeID with
  | Err e => Err (read_failed e)
  | Ok None => Err ErrNoRows
  | Ok (Some row) => res_map_err scan_failed (scanNodeRow row)
  end.

(** *** Operations *)
Definition Register (r : NodeRegistry) (now : Time.t) (node : NodeEntry)
    : NodeRegistry * res (registry_error E) () :=
  if str_empty (node_ID node) then (r, Err register_missing_id)
  else if str_empty (node_Hostname node) then (r, Err (register_missing_hostname (node_ID node)))
  else
    let node := if Time.IsZero (node_ConnectedAt node) then set_connected now node else node in
    let node := set_heartbeat now (set_status NodeStatusOnline node) in
    let node := if str_empty (node_CredSyncStatus node)
                then set_cred CredentialSyncStatusUnknown (node_CredVersion node) node
                else node in
    match upsertNode (db r) node with
    | Err e => (r, Err (register_failed (node_ID node) e))
    | Ok d => (mkRegistry d (<[node_ID node := node]> (nodes r)) (recoveryErrors r), Ok ())
    end.

(** The cached entry of a node, or what its row says. *)
Definition lookup_or_read (r : NodeRegistry) (nodeID : string) : res (read_error E) NodeEntry :=
  match nodes r !! nodeID with
  | Some node => Ok node
  | None => readNode (db r) nodeID
  end.
Definition not_found_or (wrap : read_error E -> registry_error E) (e : read_error E)
    : registry_error E :=
  match e with ErrNoRows => ErrNodeNotFound | e => wrap e end.

Definition MarkOffline (r : NodeRegistry) (now : Time.t) (nodeID : string)
    : NodeRegistry * res (registry_error E) () :=
  match lookup_or_read r nodeID with
  | Err e => (r, Err (not_found_or (mark_offline_read nodeID) e))
  | Ok node =>
      let node := set_heartbeat now (set_status NodeStatusOffline node) in
      match upsertNode (db r) node with
      | Err e => (r, Err (mark_offline_write nodeID e))
      | Ok d => (mkRegistry d (<[nodeID := node]> (nodes r)) (recoveryErrors r), Ok ())
      end
  end.
Definition Unregister (r : NodeRegistry) (now : Time.t) (nodeID : string)
    : NodeRegistry * res (registry_error E) () := MarkOffline r now nodeID.

Definition GetNode (r : NodeRegistry) (nodeID : string)
    : NodeRegistry * res (registry_error E) NodeEntry :=
  match nodes r !! nodeID with
  | Some node => (r, Ok node)
  | None =>
      match readNode (db r) nodeID with
      | Err e => (r, Err (not_found_or (get_node_failed nodeID) e))
      | Ok node => (with_node r nodeID node, Ok node)
      end
  end.

(** In the order the map of nodes is ranged over. *)
Definition ListNodes (order : list (string * NodeEntry)) : list NodeEntry := order.*2.

(** The loop over [states] writes each of its entries: a union that prefers
    them. *)
Definition UpdateAuthState (r : NodeRegistry) (now : Time.t) (nodeID : string)
    (states : gmap string NodeAuthState) : NodeRegistry * res (registry_error E) () :=
  match lookup_or_read r nodeID with
  | Err e => (r, Err (not_found_or (update_auth_state_failed nodeID) e))
  | Ok node =>
      (with_node r nodeID (set_auth (states ∪ default ∅ (node_AuthStates node)) now node), Ok ())
  end.

Definition GetAuthState (r : NodeRegistry) (nodeID : string)
    : NodeRegistry * gmap string NodeAuthState :=
  match nodes r !! nodeID ≫= node_AuthStates with
  | Some m => (r, m)
  | None =>
      match readNode (db r) nodeID with
      | Ok fromDB =>
          match node_AuthStates fromDB with
          | Some m => (with_node r nodeID fromDB, m)
          | None => (r, ∅)
          end
      | Err _ => (r, ∅)
      end
  end.

Definition ReconcileCredentialVersion (r : NodeRegistry) (nodeID : string)
    (reportedVersion expectedVersion : Z) : NodeRegistry * res (registry_error E) () :=
  match lookup_or_read r nodeID with
  | Err e => (r, Err (not_found_or (reconcile_failed nodeID) e))
  | Ok node =>
      (with_node r nodeID
         (set_cred (if reportedVersion =? expectedVersion then CredentialSyncStatusInSync
                    else CredentialSyncStatusDriftDetected) reportedVersion node), Ok ())
  end.

(** The loop over the rows: entries by id, and the number of rows skipped. *)
Definition incrementRecoveryError (errors : Z) : Z := u64 (errors + 1).
Definition load_row (acc : gmap string NodeEntry * Z) (row : option NodeRow)
    : gmap string NodeEntry * Z :=
  match row with
  | None => (acc.1, incrementRecoveryError acc.2)
  | Some row =>
      match scanNodeRow row with
      | Err _ => (acc.1, incrementRecoveryError acc.2)
      | Ok entry => (<[node_ID entry := set_status NodeStatusOffline entry]> acc.1, acc.2)
      end
  end.

Definition set_row_status (s : string) (row : NodeRow) : NodeRow :=
  mkNodeRow (nr_id row) (nr_hostname row) s (nr_last_heartbeat row) (nr_connected_at row).

Definition LoadNodesFromDB (r : NodeRegistry) : NodeRegistry * res (registry_error E) () :=
  match update_rows (db r) (fun _ => true) (set_row_status NodeStatusOffline) with
  | Err e => (r, Err (load_mark_offline e))
  | Ok d =>
      match select_rows d with
      | Err e => (mkRegistry d (nodes r) (recoveryErrors r), Err (load_query_rows e))
      | Ok (rows, iter) =>
          let '(loaded, errs) := foldl load_row (∅, recoveryErrors r) rows in
          match iter with
          | Some e => (mkRegistry d (nodes r) errs, Err (load_iterate_rows e))
          | None => (mkRegistry d loaded errs, Ok ())
          end
      end
  end.

(** *** auth_state.go and credential_sync.go *)
Definition auth_state_of (report : AuthStateReport) : NodeAuthState :=
  mkNodeAuthState (asr_Tool report) (asr_Status report) (asr_Reason report) (asr_CheckedAt report).
Definition states_of (reports : list AuthStateReport) : gmap string NodeAuthState :=
  foldl (fun m report => <[asr_Tool report := auth_state_of report]> m) ∅ reports.

Definition HandleAuthStateMessage (decode : string -> res string (list AuthStateReport))
    (r : NodeRegistry) (now : Time.t) (nodeID payload : string)
    : NodeRegistry * res (registry_error E) () :=
  if str_empty nodeID then (r, Err auth_state_node_id_required)
  else
    match decode payload with
    | Err e => (r, Err (auth_state_unmarshal e))
    | Ok [] => (r, Err auth_state_reports_empty)
    | Ok reports => UpdateAuthState r now nodeID (states_of reports)
    end.

Definition HandleCredentialSyncMessage (decode : string -> res string CredentialSyncPayload)
    (r : NodeRegistry) (payload : string) (expectedVersion : Z)
    : NodeRegistry * res (registry_error E) () :=
  match decode payload with
  | Err e => (r, Err (credential_sync_unmarshal e))
  | Ok p =>
      if str_empty (csp_NodeID p) then (r, Err credential_sync_node_id_required)
      else ReconcileCredentialVersion r (csp_NodeID p) (csp_CredentialVersion p) expectedVersion
  end.

Definition RecoveryErrorCount (r : NodeRegistry) : Z := recoveryErrors r.

(** *** Histories of calls, of a registry that was loaded from the table or not *)
Definition booted (d : DB) (r : NodeRegistry) : Prop :=
  r = NewNodeRegistry d \/ r = (LoadNodesFromDB (NewNodeRegistry d)).1.

Inductive registry_op :=
  | OpRegister (now : Time.t) (node : NodeEntry)
  | OpMarkOffline (now : Time.t) (nodeID : string)
  | OpGetNode (nodeID : string)
  | OpUpdateAuthState (now : Time.t) (nodeID : string) (states : gmap string NodeAuthState)
  | OpGetAuthState (nodeID : string)
  | OpReconcile (nodeID : string) (reported expected : Z).

Definition registry_step (r : NodeRegistry) (op : registry_op) : NodeRegistry :=
  match op with
  | OpRegister now node => (Register r now node).1
  | OpMarkOffline now id => (MarkOffline r now id).1
  | OpGetNode id => (GetNode r id).1
  | OpUpdateAuthState now id states => (UpdateAuthState r now id states).1
  | OpGetAuthState id => (GetAuthState r id).1
  | OpReconcile id v w => (ReconcileCredentialVersion r id v w).1
  end.

(** The instants an operation writes can be printed with a four-digit year. *)
Definition op_times_ok (op : registry_op) : Prop :=
  match op with
  | OpRegister now node => printable_time now /\ printable_time (node_ConnectedAt node)
  | OpMarkOffline now _ => printable_time now
  | _ => True
  end.

End Defs.
Arguments NodeRegistry : clear implicits.

End Registry.

(** ** Lemmas *)
Module RegistryFacts.
Import Registry.
Section Facts.
Context {DB E : Type} `{KeyedTable DB NodeRow E} `{!KeyedTableLaws DB NodeRow E} `{TimeTextLaws}.
Implicit Types r : NodeRegistry DB.

(** The part of a node the table stores, and what a row says of it. *)
Definition saved (n : NodeEntry) : string * string * Time.t * Time.t :=
  (node_Hostname n, node_Status n, node_LastHeartbeat n, node_ConnectedAt n).
Definition loaded (row : NodeRow) : option (string * string * Time.t * Time.t) :=
  match scanNodeRow row with Ok n => Some (saved n) | Err _ => None end.

Definition rows_printable (d : DB) : Prop :=
  forall k row h s hb ca, contents d !! k = Some row -> loaded row = Some (h, s, hb, ca) ->
    printable_time hb /\ printable_time ca.

(** Cache and table agree, and the table's instants can be printed. *)
Definition registry_inv r : Prop :=
  coherent node_ID saved loaded (nodes r) (db r) /\ rows_printable (db r).

Lemma loaded_status s row :
  loaded (set_row_status s row) =
  (fun '(h, _, hb, ca) => (h, s, hb, ca)) <$> loaded row.
Proof.
  unfold loaded, scanNodeRow. simpl.
  destruct (scan_time (bad_last_heartbeat (nr_id row)) _); simpl; [|done].
  by destruct (scan_time (bad_connected_at (nr_id row)) _).
Qed.

Lemma scan_time_printed (bad : scan_error) t :
  printable_time t -> scan_time bad (Some (Format_RFC3339Nano t)) = Ok t.
Proof. intros. unfold scan_time. by rewrite parse_stored. Qed.

Lemma upsertNode_ok d n d' :
  printable_time (node_LastHeartbeat n) -> printable_time (node_ConnectedAt n) ->
  upsertNode d n = Ok d' ->
  exists row, nr_id row = node_ID n /\ loaded row = Some (saved n) /\ upsert_row d row = Ok d'.
Proof.
  intros Hh Hc Hup. eexists. split_and!; [| | exact Hup]; [done|].
  unfold loaded, scanNodeRow. simpl. rewrite !parse_stored by done. done.
Qed.

Lemma readNode_ok d id n :
  readNode d id = Ok n ->
  exists row, contents d !! id = Some row /\ loaded row = Some (saved n) /\ node_ID n = id.
Proof.
  unfold readNode. destruct (select_row d id) as [[row|]|] eqn:Es; try done.
  apply select_row_ok in Es. intros Hs. exists row.
  pose proof (contents_key d id row (eq_sym Es)) as Hk.
  destruct (scanNodeRow row) as [n'|] eqn:Hn; [|done]. injection Hs as ->.
  split_and!; [done | by unfold loaded; rewrite Hn |].
  unfold scanNodeRow in Hn. rename Hn into Hs. apply res_bind_Ok in Hs as (hb & _ & Hs).
  apply res_bind_Ok in Hs as (ca & _ & [= <-]). exact Hk.
Qed.

Lemma lookup_or_read_ok r id n :
  registry_inv r -> lookup_or_read r id = Ok n ->
  exists row, contents (db r) !! id = Some row /\ loaded row = Some (saved n) /\ node_ID n = id.
Proof.
  intros [Hc _]. unfold lookup_or_read. destruct (nodes r !! id) as [n'|] eqn:En.
  - intros [= <-]. destruct (Hc id n' En) as (Hid & row & ? & ?). eauto.
  - apply readNode_ok.
Qed.

(** Writing a node of which the table holds, or will hold, the row. *)
Lemma inv_write r n d' errs :
  registry_inv r ->
  printable_time (node_LastHeartbeat n) -> printable_time (node_ConnectedAt n) ->
  upsertNode (db r) n = Ok d' ->
  registry_inv (mkRegistry d' (<[node_ID n := n]> (nodes r)) errs).
Proof.
  intros [Hc Hp] Hh Hca Hup. destruct (upsertNode_ok _ _ _ Hh Hca Hup) as (row & Hid & Hl & Hu).
  split; simpl; [by eapply coherent_write|].
  apply upsert_row_ok in Hu. intros k row' h s hb ca. rewrite Hu.
  intros [[_ <-]|[_ ?]]%lookup_insert_Some; [|by eapply Hp].
  rewrite Hl. by intros [= <- <- <- <-].
Qed.

(** Caching a changed copy of an entry whose stored part is as it was. *)
Lemma inv_touch r id n n' :
  registry_inv r -> lookup_or_read r id = Ok n -> node_ID n' = node_ID n -> saved n' = saved n ->
  registry_inv (with_node r id n').
Proof.
  intros Hinv Hn Hid Hs. destruct (lookup_or_read_ok r id n Hinv Hn) as (row & Hr & Hl & Hk).
  destruct Hinv as [Hc Hp]. split; [|done]. simpl. eapply coherent_fill; [done | done | | ]; congruence.
Qed.

Lemma Register_inv r now n :
  registry_inv r -> printable_time now -> printable_time (node_ConnectedAt n) ->
  registry_inv (Register r now n).1.
Proof.
  intros Hinv Hnow Hca. unfold Register. destruct (str_empty _); [done|].
  destruct (str_empty (node_Hostname n)); [done|]. cbv zeta.
  match goal with |- context [upsertNode _ ?m] => set (n' := m) end.
  destruct (upsertNode (db r) n') as [d|] eqn:Eu; [|done].
  eapply inv_write; [done | | | done]; unfold n'; repeat case_match; done.
Qed.

Lemma MarkOffline_inv r now id :
  registry_inv r -> printable_time now -> registry_inv (MarkOffline r now id).1.
Proof.
  intros Hinv Hnow. unfold MarkOffline.
  destruct (lookup_or_read r id) as [n|] eqn:En; [|done].
  destruct (lookup_or_read_ok r id n Hinv En) as (row & Hr & Hl & Hk).
  destruct (upsertNode _ _) as [d|] eqn:Eu; [|done].
  rewrite <- Hk. apply (inv_write r _ d (recoveryErrors r) Hinv) in Eu; [done | done |].
  by eapply (proj2 Hinv).
Qed.

Lemma readNode_fill_inv r id n :
  registry_inv r -> nodes r !! id = None -> readNode (db r) id = Ok n ->
  registry_inv (with_node r id n).
Proof.
  intros Hinv En Hr. apply (inv_touch r id n n); [done | | done | done].
  unfold lookup_or_read. by rewrite En.
Qed.

(** The rows read into a map. *)
Definition load_spec (d : DB) (m : gmap string NodeEntry) : Prop :=
  forall k n, m !! k = Some n -> node_ID n = k /\ node_Status n = NodeStatusOffline /\
    exists row, contents d !! k = Some row /\
      exists n0, scanNodeRow row = Ok n0 /\ n = set_status NodeStatusOffline n0.

Lemma scanNodeRow_id row n : scanNodeRow row = Ok n -> node_ID n = nr_id row.
Proof.
  unfold scanNodeRow. intros Hs. apply res_bind_Ok in Hs as (hb & _ & Hs).
  apply res_bind_Ok in Hs as (ca & _ & [= <-]). done.
Qed.

Lemma foldl_load d rows acc :
  (forall row, Some row ∈ rows -> contents d !! nr_id row = Some row) ->
  load_spec d acc.1 -> load_spec d (foldl load_row acc rows).1.
Proof.
  intros Hrows Hacc.
  apply (foldl_inv (fun acc : gmap string NodeEntry * Z => load_spec d acc.1)); [done|].
  intros [m e] [row|] Hin Hm; simpl; [|done].
  destruct (scanNodeRow row) as [n|] eqn:Es; [|done]. simpl.
  pose proof (scanNodeRow_id row n Es) as Hid.
  intros k n' [[<- <-]|[_ ?]]%lookup_insert_Some; [|by apply Hm].
  split_and!; [done | done |]. exists row. rewrite Hid. split; [by apply Hrows | eauto].
Qed.

(** A row that scans is in the map, whatever came before and after it. *)
Lemma foldl_load_has d rows acc row n :
  (forall row', Some row' ∈ rows -> contents d !! nr_id row' = Some row') ->
  Some row ∈ rows -> scanNodeRow row = Ok n ->
  (foldl load_row acc rows).1 !! nr_id row = Some (set_status NodeStatusOffline n).
Proof.
  intros Hrows Hin Hs. pose proof (scanNodeRow_id row n Hs) as Hid.
  induction rows as [|o rows IH] using rev_ind; [by apply elem_of_nil in Hin|].
  rewrite foldl_app. simpl. assert (forall row', Some row' ∈ rows -> contents d !! nr_id row' = Some row')
    as Hpre by (intros; apply Hrows, elem_of_app; by left).
  assert (forall m, Some row = o -> (load_row m o).1 !! nr_id row = Some (set_status NodeStatusOffline n))
    as Hlast by (intros m <-; simpl; rewrite Hs; simpl; by rewrite Hid, lookup_insert_eq).
  apply elem_of_app in Hin as [Hin|Hin%list_elem_of_singleton]; [|by apply Hlast].
  specialize (IH Hpre Hin). destruct (foldl load_row acc rows) as [m e]. simpl in IH.
  destruct o as [row'|]; simpl; [|done]. destruct (scanNodeRow row') as [n'|] eqn:Es'; simpl; [|done].
  destruct (decide (node_ID n' = nr_id row)) as [Heq|Hne]; [|by rewrite lookup_insert_ne].
  apply scanNodeRow_id in Es' as Hid'.
  assert (contents d !! nr_id row' = Some row') as E1
    by (apply Hrows, elem_of_app; right; by left).
  pose proof (Hpre row Hin) as E2. rewrite <- Hid', Heq in E1.
  assert (row' = row) as -> by congruence. assert (n' = n) as -> by congruence.
  by rewrite Hid, lookup_insert_eq.
Qed.

(** What a load leaves behind, whatever came of it. *)
Lemma LoadNodesFromDB_db r :
  let '(r', res) := LoadNodesFromDB r in
  (db r' = db r /\ nodes r' = nodes r /\ is_Ok res = false) \/
  (update_rows (db r) (fun _ => true) (set_row_status NodeStatusOffline) = Ok (db r') /\
   (is_Ok res = false /\ nodes r' = nodes r \/
    res = Ok () /\ exists rows, select_rows (db r') = Ok (rows, None) /\
      nodes r' = (foldl load_row (∅, recoveryErrors r) rows).1)).
Proof.
  unfold LoadNodesFromDB. destruct (update_rows _ _ _) as [d|] eqn:Eu; [|by left].
  destruct (select_rows d) as [[rows iter]|] eqn:Es; [|right; split; [done | by left]].
  destruct (foldl load_row _ rows) as [m errs] eqn:Ef.
  destruct iter; simpl; right; (split; [done|]); [by left|].
  right. split; [done|]. exists rows. by rewrite Ef.
Qed.

Lemma rows_printable_offline d d' :
  rows_printable d -> update_rows d (fun _ => true) (set_row_status NodeStatusOffline) = Ok d' ->
  rows_printable d'.
Proof.
  intros Hp Hup%update_rows_ok; [|done]. intros k row h s hb ca. rewrite Hup, lookup_fmap.
  intros (row0 & Hr & ->)%fmap_Some. rewrite loaded_status.
  intros ([[[h0 s0] hb0] ca0] & Hl & [= -> -> -> ->])%fmap_Some. by eapply Hp.
Qed.

(** A reload of an open table: what was cached stays known, offline. *)
Lemma LoadNodesFromDB_ok r r' :
  LoadNodesFromDB r = (r', Ok ()) ->
  load_spec (db r') (nodes r') /\
  (forall k row, contents (db r) !! k = Some row ->
     contents (db r') !! k = Some (set_row_status NodeStatusOffline row)) /\
  (forall k row, contents (db r') !! k = Some row -> nr_status row = NodeStatusOffline) /\
  (forall row n, contents (db r') !! nr_id row = Some row -> scanNodeRow row = Ok n ->
     nodes r' !! nr_id row = Some (set_status NodeStatusOffline n)).
Proof.
  intros Hload. pose proof (LoadNodesFromDB_db r) as Hl. rewrite Hload in Hl.
  destruct Hl as [(_ & _ & ?)|(Hup & [[? _]|(_ & rows & Hs & Hn)])]; [done | done |].
  apply update_rows_ok in Hup; [|done]. pose proof (select_rows_ok _ _ Hs) as Hrows.
  split_and!.
  - rewrite Hn. apply foldl_load; [by intros row ?%Hrows|]. done.
  - intros k row Hr. by rewrite Hup, lookup_fmap, Hr.
  - intros k row. rewrite Hup, lookup_fmap. by intros (? & _ & ->)%fmap_Some.
  - intros row n Hr Hsc. rewrite Hn.
    apply (foldl_load_has (db r')); [by intros row' ?%Hrows | by apply Hrows | done].
Qed.

Lemma LoadNodesFromDB_inv d : rows_printable d -> registry_inv (LoadNodesFromDB (NewNodeRegistry d)).1.
Proof.
  intros Hp. pose proof (LoadNodesFromDB_db (NewNodeRegistry d)) as Hl.
  pose proof (LoadNodesFromDB_ok (NewNodeRegistry d)) as Hok.
  destruct (LoadNodesFromDB _) as [r' res]. simpl in *.
  destruct Hl as [(E1 & E2 & _)|(Hup & Hcase)].
  { split; rewrite E1, ?E2; [apply coherent_empty | done]. }
  split; [|by eapply rows_printable_offline].
  destruct Hcase as [[_ ->]|[-> _]]; [apply coherent_empty|].
  destruct (Hok r' eq_refl) as (Hspec & _ & Hoff & _). intros k n Hn.
  destruct (Hspec k n Hn) as (Hid & _ & row & Hr & n0 & Hs & ->). split; [done|].
  exists row. split; [done|]. unfold loaded. rewrite Hs.
  assert (node_Status n0 = NodeStatusOffline) as Hst; [|unfold saved; simpl; by rewrite Hst].
  rewrite <- (Hoff k row Hr). unfold scanNodeRow in Hs.
  apply res_bind_Ok in Hs as (? & _ & Hs). by apply res_bind_Ok in Hs as (? & _ & [= <-]).
Qed.

Lemma readNode_auth d id n : readNode d id = Ok n -> node_AuthStates n = None.
Proof.
  unfold readNode. destruct (select_row _ _) as [[row|]|]; try done.
  destruct (scanNodeRow row) as [n'|] eqn:Hs; [|done]. intros [= <-]. unfold scanNodeRow in Hs.
  apply res_bind_Ok in Hs as (? & _ & Hs). by apply res_bind_Ok in Hs as (? & _ & [= <-]).
Qed.

(** The table stores no authentication state, so only the memory answers. *)
Lemma GetAuthState_eq r id :
  GetAuthState r id = (r, default ∅ (nodes r !! id ≫= node_AuthStates)).
Proof.
  unfold GetAuthState. destruct (nodes r !! id ≫= node_AuthStates); [done|].
  destruct (readNode (db r) id) eqn:Er; [|done]. by rewrite (readNode_auth _ _ _ Er).
Qed.

Lemma registry_step_inv r op :
  op_times_ok op -> registry_inv r -> registry_inv (registry_step r op).
Proof.
  intros Hop Hinv. destruct op as [now n|now id|id|now id states|id|id v w]; simpl in *.
  - destruct Hop. by apply Register_inv.
  - by apply MarkOffline_inv.
  - unfold GetNode. destruct (nodes r !! id) eqn:En; [done|].
    destruct (readNode (db r) id) eqn:Er; [|done]. by apply readNode_fill_inv.
  - unfold UpdateAuthState. destruct (lookup_or_read r id) eqn:En; [|done]. by eapply inv_touch.
  - by rewrite GetAuthState_eq.
  - unfold ReconcileCredentialVersion. destruct (lookup_or_read r id) eqn:En; [|done].
    by eapply inv_touch.
Qed.

Lemma booted_inv d r0 : rows_printable d -> booted d r0 -> registry_inv r0.
Proof.
  intros Hp [->| ->]; [|by apply LoadNodesFromDB_inv]. by split; [apply coherent_empty|].
Qed.

Lemma history_inv d r0 ops :
  rows_printable d -> booted d r0 -> Forall op_times_ok ops -> registry_inv (foldl registry_step r0 ops).
Proof.
  intros Hp Hb Hops. apply foldl_inv; [by eapply booted_inv|]. rewrite Forall_forall in Hops.
  intros. by apply registry_step_inv; [apply Hops|].
Qed.

(** The last report of a tool. *)
Definition last_report (tool : string) (reports : list AuthStateReport) : option AuthStateReport :=
  last (filter (fun rep => asr_Tool rep = tool) reports).

Lemma states_of_lookup reports tool :
  states_of reports !! tool = auth_state_of <$> last_report tool reports.
Proof.
  unfold states_of, last_report. rewrite foldl_insert_lookup, lookup_empty. by destruct (last _).
Qed.

(** What [HandleAuthStateMessage] does when it accepts a message. *)
Lemma HandleAuthStateMessage_merges (decode : string -> res string (list AuthStateReport))
    (r r' : NodeRegistry DB) (now : Time.t) (id payload : string) (reports : list AuthStateReport) :
  decode payload = Ok reports ->
  HandleAuthStateMessage decode r now id payload = (r', Ok ()) ->
  reports <> [] /\ db r' = db r /\
  (forall tool, (GetAuthState r' id).2 !! tool =
     match last_report tool reports with
     | Some rep => Some (auth_state_of rep)
     | None => (GetAuthState r id).2 !! tool
     end) /\
  (forall k, k <> id -> nodes r' !! k = nodes r !! k).
Proof.
  intros Hd. unfold HandleAuthStateMessage. destruct (str_empty id); [done|]. rewrite Hd.
  destruct reports as [|rep0 reps]; [done|]. set (reports := rep0 :: reps).
  unfold UpdateAuthState. destruct (lookup_or_read r id) as [n|] eqn:En; [|done].
  intros [= <-]. split_and!; [done | done | | intros; simpl; by rewrite lookup_insert_ne].
  assert ((GetAuthState r id).2 = default ∅ (node_AuthStates n)) as ->.
  { rewrite GetAuthState_eq. unfold lookup_or_read in En.
    destruct (nodes r !! id) as [m|]; simpl; [by injection En as ->|].
    by rewrite (readNode_auth _ _ _ En). }
  intros tool. rewrite GetAuthState_eq. simpl. rewrite lookup_insert_eq. simpl.
  rewrite lookup_union, states_of_lookup.
  by destruct (last_report tool reports); simpl; destruct (_ !! tool).
Qed.
End Facts.
End RegistryFacts.

(** ** Properties *)
Section Properties.
Import Registry RegistryFacts.
Context {DB E : Type} `{KeyedTable DB NodeRow E} `{!KeyedTableLaws DB NodeRow E} `{TimeTextLaws}.

(** C8: the registry's memory and the nodes table never disagree: after any
    calls on a new registry, loaded from the table or not, whatever statements failed, every
    cached node sits under its own id, its row exists and reads back with the
    same hostname, status, last heartbeat and connection time. *)
Theorem registry_agrees_with_table (d : DB) (r0 : NodeRegistry DB) (ops : list registry_op)
    (id : string) (n : NodeEntry) :
  rows_printable d -> booted d r0 -> Forall op_times_ok ops ->
  let r := foldl registry_step r0 ops in
  nodes r !! id = Some n ->
  node_ID n = id /\
  exists row, contents (db r) !! id = Some row /\ loaded row = Some (saved n).
Proof.
  intros Hp Hb Hops r. destruct (history_inv d r0 ops Hp Hb Hops) as [Hc _]. apply Hc.
Qed.

(** A node the supervisor knows survives its restart as an offline node:
    whatever calls were served before, when the load of a new registry over the
    same database succeeds, the node is there with its hostname and times, its
    status offline, and no node of the new registry is anything but offline. *)
Theorem known_nodes_survive_restart (d : DB) (r0 r' : NodeRegistry DB)
    (ops : list registry_op) (id : string) (n : NodeEntry) :
  rows_printable d -> booted d r0 -> Forall op_times_ok ops ->
  let r := foldl registry_step r0 ops in
  nodes r !! id = Some n ->
  LoadNodesFromDB (NewNodeRegistry (db r)) = (r', Ok ()) ->
  (exists n', nodes r' !! id = Some n' /\ node_ID n' = id /\
    node_Hostname n' = node_Hostname n /\ node_Status n' = NodeStatusOffline /\
    node_LastHeartbeat n' = node_LastHeartbeat n /\ node_ConnectedAt n' = node_ConnectedAt n) /\
  (forall k m, nodes r' !! k = Some m -> node_Status m = NodeStatusOffline).
Proof.
  intros Hp Hb Hops r Hn Hload. destruct (history_inv d r0 ops Hp Hb Hops) as [Hc _].
  destruct (Hc id n Hn) as (Hid & row & Hr & Hl).
  destruct (LoadNodesFromDB_ok _ _ Hload) as (Hspec & Hoff & _ & Hhas).
  split; [|by intros k m (_ & ? & _)%Hspec]. apply Hoff in Hr as Hr'.
  pose proof (contents_key (db r') id _ Hr') as Hk. simpl in Hk.
  assert (loaded (set_row_status NodeStatusOffline row) =
    Some (node_Hostname n, NodeStatusOffline, node_LastHeartbeat n, node_ConnectedAt n)) as Hl'
    by by rewrite loaded_status, Hl.
  unfold loaded in Hl'.
  destruct (scanNodeRow (set_row_status NodeStatusOffline row)) as [n0|] eqn:Hs; [|done].
  injection Hl' as E1 E2 E3 E4. exists (set_status NodeStatusOffline n0).
  assert (nr_id (set_row_status NodeStatusOffline row) = id) as Hk' by exact Hk.
  split_and!; [|simpl; rewrite (scanNodeRow_id _ _ Hs); exact Hk' | done | done | done | done].
  rewrite <- Hk'. apply Hhas; [by rewrite Hk' | done].
Qed.

(** An accepted [auth_state] message of a node replaces the state of every
    tool it reports, by its last report of the tool, keeps the others, and
    touches neither the table nor the other nodes. *)
Theorem auth_state_message_merges (decode : string -> res string (list AuthStateReport))
    (r r' : NodeRegistry DB) (now : Time.t) (id payload : string) (reports : list AuthStateReport) :
  decode payload = Ok reports ->
  HandleAuthStateMessage decode r now id payload = (r', Ok ()) ->
  reports <> [] /\ db r' = db r /\
  (forall tool, (GetAuthState r' id).2 !! tool =
     match last_report tool reports with
     | Some rep => Some (auth_state_of rep)
     | None => (GetAuthState r id).2 !! tool
     end) /\
  (forall k, k <> id -> nodes r' !! k = nodes r !! k).
Proof. apply HandleAuthStateMessage_merges. Qed.

End Properties.

(** ** Witnesses *)
Module RegistryWitness.
Import Registry RegistryFacts.

Definition d0 : mem_table NodeRow := mem_empty.
Definition node1 : NodeEntry :=
  mkNodeEntry "n1" "host-1" "10.0.0.1" ["p"] [] ε 0 0 ε 0 None 0.
Definition reg0 : NodeRegistry (mem_table NodeRow) := NewNodeRegistry d0.
Definition ops : list registry_op :=
  [OpRegister 7000 node1; OpReconcile "n1" 3 4; OpMarkOffline 9000 "n1"].
Definition reg1 := foldl registry_step reg0 ops.
Definition cached : NodeEntry :=
  mkNodeEntry "n1" "host-1" "10.0.0.1" ["p"] [] "offline" 9000 7000 "drift_detected" 3 None 0.

Lemma d0_printable : rows_printable d0.
Proof. intros k row h s hb ca. simpl. by rewrite lookup_empty. Qed.
Lemma ops_ok : Forall op_times_ok ops.
Proof. repeat constructor; simpl; unfold printable_time, year10000; simpl; lia. Qed.

Lemma registry_agrees_with_table_witness :
  node_ID cached = "n1"%string /\
  exists row, contents (db reg1) !! "n1"%string = Some row /\ loaded row = Some (saved cached).
Proof.
  apply (registry_agrees_with_table d0 reg0 ops "n1" cached);
    [exact d0_printable | left; reflexivity | exact ops_ok | vm_compute; reflexivity].
Defined.

Definition reg2 := (LoadNodesFromDB (NewNodeRegistry (db reg1))).1.
Lemma known_nodes_survive_restart_witness :
  (exists n', nodes reg2 !! "n1"%string = Some n' /\ node_ID n' = "n1"%string /\
    node_Hostname n' = node_Hostname cached /\ node_Status n' = NodeStatusOffline /\
    node_LastHeartbeat n' = node_LastHeartbeat cached /\
    node_ConnectedAt n' = node_ConnectedAt cached) /\
  (forall k m, nodes reg2 !! k = Some m -> node_Status m = NodeStatusOffline).
Proof.
  apply (known_nodes_survive_restart d0 reg0 reg2 ops "n1" cached);
    [exact d0_printable | left; reflexivity | exact ops_ok | vm_compute; reflexivity |].
  vm_compute. reflexivity.
Defined.

Definition rep (tool status : string) : AuthStateReport := mkAuthStateReport tool status ε 8000.
Definition decode (payload : string) : res string (list AuthStateReport) :=
  Ok [rep "codex" "error"; rep "codex" "authenticated"].
Lemma auth_state_message_merges_witness :
  let r' := (HandleAuthStateMessage decode reg1 10000 "n1" "[...]").1 in
  [rep "codex" "error"; rep "codex" "authenticated"] <> [] /\ db r' = db reg1 /\
  (forall tool, (GetAuthState r' "n1").2 !! tool =
     match last_report tool [rep "codex" "error"; rep "codex" "authenticated"] with
     | Some rep => Some (auth_state_of rep)
     | None => (GetAuthState reg1 "n1").2 !! tool
     end) /\
  (forall k, k <> "n1"%string -> nodes r' !! k = nodes reg1 !! k).
Proof.
  apply (auth_state_message_merges decode reg1 _ 10000 "n1" "[...]"); [reflexivity|].
  vm_compute. reflexivity.
Defined.
End RegistryWitness.
