(* ===== verification/SessionTracker.v ===== *)
(** * SessionTracker

    internal/supervisor/tracker.go: the sessions of the swarm, in memory and
    written through to the [sessions] table.  [UpdateSession] takes its updates
    as the list of entries in the order the map is ranged over.  The clock is
    read once per call. *)

From S2P Require Import Prelude GoStd SqlStore.

(** ** Data *)
Definition SessionStatusRunning : string := "running".
Definition SessionStatusIdle : string := "idle".
Definition SessionStatusError : string := "error".
Definition SessionStatusUnreachable : string := "unreachable".

Record TokenUsage := mkTokenUsage { tu_Prompt : Z; tu_Completion : Z; tu_Total : Z }.

Record TrackedSession := mkSession {
  ses_SessionID : string;
  ses_NodeID : string;
  ses_Project : string;
  ses_Status : string;
  ses_TokenUsage : TokenUsage;
  ses_CompactionCount : Z;
  ses_CurrentTask : string;
  ses_LastActivity : Time.t;
  ses_SessionCost : Float64.t;
  ses_Model : string;
  ses_StartedAt : Time.t }.

(** A row of the [sessions] table. *)
Record SessionRow := mkSessionRow {
  sr_id : string; sr_node_id : string; sr_project : string; sr_status : string;
  sr_tokens : Z; sr_cost : Float64.t; sr_started_at : string }.
#[export] Instance session_row_key : RowKey SessionRow := sr_id.

(** The dynamic type of a value of [map[string]interface{}]. *)
Inductive update_value :=
  | VString (s : string)
  | VInt (n : Z)
  | VFloat (f : Float64.t)
  | VTime (t : Time.t)
  | VTokenUsage (u : TokenUsage)
  | VOther.

Inductive session_error (E : Type) :=
  | add_missing_session_id
  | add_missing_node_id (id : string)
  | add_missing_project (id : string)
  | upsert_failed (id : string) (e : E)
  | ErrSessionNotFound
  | read_session_failed (id : string) (e : E)
  | bad_started_at (id : string)
  | bad_update_type (key : string)
  | unsupported_field (key : string)
  | mark_unreachable_failed (nodeID : string) (e : E)
  | load_sessions_mark (e : E)
  | load_sessions_query (e : E)
  | load_sessions_iterate (e : E)
  | unsupported_event_type (eventType : string)
  | restore_snapshot (id : string) (e : session_error E).
Arguments add_missing_session_id {E}.
Arguments add_missing_node_id {E} id.
Arguments add_missing_project {E} id.
Arguments upsert_failed {E} id e.
Arguments ErrSessionNotFound {E}.
Arguments read_session_failed {E} id e.
Arguments bad_started_at {E} id.
Arguments bad_update_type {E} key.
Arguments unsupported_field {E} key.
Arguments mark_unreachable_failed {E} nodeID e.
Arguments load_sessions_mark {E} e.
Arguments load_sessions_query {E} e.
Arguments load_sessions_iterate {E} e.
Arguments unsupported_event_type {E} eventType.
Arguments restore_snapshot {E} id e.

(** ** The fields [UpdateSession] knows *)
Inductive field :=
  | f_node_id | f_project | f_status | f_tokens | f_cost | f_started_at | f_token_usage
  | f_session_cost | f_last_activity | f_current_task | f_model | f_compaction_count.
#[export] Instance field_eq_dec : EqDecision field.
Proof. solve_decision. Defined.

Definition field_names : list (string * field) :=
  [("node_id", f_node_id); ("project", f_project); ("status", f_status); ("tokens", f_tokens);
   ("cost", f_cost); ("started_at", f_started_at); ("token_usage", f_token_usage);
   ("session_cost", f_session_cost); ("last_activity", f_last_activity);
   ("current_task", f_current_task); ("model", f_model);
   ("compaction_count", f_compaction_count)]%string.
Definition field_of_key (key : string) : option field :=
  '(_, (_, f)) ← list_find (fun '(k, _) => k = key) field_names; Some f.

Module Tracker.

Definition set_status (s : string) (x : TrackedSession) : TrackedSession :=
  mkSession (ses_SessionID x) (ses_NodeID x) (ses_Project x) s (ses_TokenUsage x)
    (ses_CompactionCount x) (ses_CurrentTask x) (ses_LastActivity x) (ses_SessionCost x)
    (ses_Model x) (ses_StartedAt x).
Definition set_node (n : string) (x : TrackedSession) : TrackedSession :=
  mkSession (ses_SessionID x) n (ses_Project x) (ses_Status x) (ses_TokenUsage x)
    (ses_CompactionCount x) (ses_CurrentTask x) (ses_LastActivity x) (ses_SessionCost x)
    (ses_Model x) (ses_StartedAt x).

(** One case of [UpdateSession]'s switch; [None] is the failed type assertion. *)
Definition set_field (f : field) (v : update_value) (x : TrackedSession) : option TrackedSession :=
  let '(mkSession id node proj st tu cc task act cost model start) := x in
  match f, v with
  | f_node_id, VString s => Some (mkSession id s proj st tu cc task act cost model start)
  | f_project, VString s => Some (mkSession id node s st tu cc task act cost model start)
  | f_status, VString s => Some (mkSession id node proj s tu cc task act cost model start)
  | f_tokens, VInt n =>
      Some (mkSession id node proj st (mkTokenUsage (tu_Prompt tu) (tu_Completion tu) n)
              cc task act cost model start)
  | f_cost, VFloat c => Some (mkSession id node proj st tu cc task act c model start)
  | f_started_at, VTime t => Some (mkSession id node proj st tu cc task act cost model t)
  | f_token_usage, VTokenUsage u => Some (mkSession id node proj st u cc task act cost model start)
  | f_session_cost, VFloat c => Some (mkSession id node proj st tu cc task act c model start)
  | f_last_activity, VTime t => Some (mkSession id node proj st tu cc task t cost model start)
  | f_current_task, VString s => Some (mkSession id node proj st tu cc s act cost model start)
  | f_model, VString s => Some (mkSession id node proj st tu cc task act cost s start)
  | f_compaction_count, VInt n => Some (mkSession id node proj st tu n task act cost model start)
  | _, _ => None
  end.

Section Defs.
Context {DB E : Type} `{KeyedTable DB SessionRow E} `{TimeText}.

Record SessionTracker := mkTracker {
  tdb : DB; sessions : gmap string TrackedSession; recoveryErrors : Z }.

Definition NewSessionTracker (d : DB) : SessionTracker := mkTracker d ∅ 0.

Definition upsertSession (d : DB) (x : TrackedSession) : res (session_error E) DB :=
  res_map_err (upsert_failed (ses_SessionID x))
    (upsert_row d (mkSessionRow (ses_SessionID x) (ses_NodeID x) (ses_Project x) (ses_Status x)
                     (tu_Total (ses_TokenUsage x)) (ses_SessionCost x)
                     (Format_RFC3339Nano (ses_StartedAt x)))).

Definition scanSessionRow (row : SessionRow) : option TrackedSession :=
  t ← parseSQLiteTimestamp (sr_started_at row);
  Some (mkSession (sr_id row) (sr_node_id row) (sr_project row) (sr_status row)
          (mkTokenUsage 0 0 (sr_tokens row)) 0 ε Time.zero (sr_cost row) ε t).

Definition readSession (d : DB) (sessionID : string) : res (session_error E) TrackedSession :=
  match select_row d sessionID with
  | Err e => Err (read_session_failed sessionID e)
  | Ok None => Err ErrSessionNotFound
  | Ok (Some row) =>
      match scanSessionRow row with
      | Some x => Ok x
      | None => Err (bad_started_at sessionID)
      end
  end.

(** Store a session: the row, then the cache. *)
Definition store (t : SessionTracker) (x : TrackedSession)
    : SessionTracker * res (session_error E) () :=
  match upsertSession (tdb t) x with
  | Err e => (t, Err e)
  | Ok d => (mkTracker d (<[ses_SessionID x := x]> (sessions t)) (recoveryErrors t), Ok ())
  end.

Definition with_defaults (now : Time.t) (x : TrackedSession) : TrackedSession :=
  mkSession (ses_SessionID x) (ses_NodeID x) (ses_Project x)
    (if str_empty (ses_Status x) then SessionStatusRunning else ses_Status x)
    (ses_TokenUsage x) (ses_CompactionCount x) (ses_CurrentTask x)
    (if Time.IsZero (ses_LastActivity x) then now else ses_LastActivity x)
    (ses_SessionCost x) (ses_Model x)
    (if Time.IsZero (ses_StartedAt x) then now else ses_StartedAt x).

Definition AddSession (t : SessionTracker) (now : Time.t) (x : TrackedSession)
    : SessionTracker * res (session_error E) () :=
  if str_empty (ses_SessionID x) then (t, Err add_missing_session_id)
  else if str_empty (ses_NodeID x) then (t, Err (add_missing_node_id (ses_SessionID x)))
  else if str_empty (ses_Project x) then (t, Err (add_missing_project (ses_SessionID x)))
  else store t (with_defaults now x).

Definition GetSession (t : SessionTracker) (sessionID : string)
    : SessionTracker * res (session_error E) TrackedSession :=
  match sessions t !! sessionID with
  | Some x => (t, Ok x)
  | None =>
      match readSession (tdb t) sessionID with
      | Err e => (t, Err e)
      | Ok x =>
          (mkTracker (tdb t) (<[ses_SessionID x := x]> (sessions t)) (recoveryErrors t), Ok x)
      end
  end.

(** The loop over the updates. *)
Fixpoint apply_updates (updates : list (string * update_value)) (x : TrackedSession)
    : res (session_error E) TrackedSession :=
  match updates with
  | [] => Ok x
  | (key, v) :: updates' =>
      match field_of_key key with
      | None => Err (unsupported_field key)
      | Some f =>
          match set_field f v x with
          | None => Err (bad_update_type key)
          | Some x' => apply_updates updates' x'
          end
      end
  end.

Definition UpdateSession (t : SessionTracker) (sessionID : string)
    (updates : list (string * update_value)) : SessionTracker * res (session_error E) () :=
  match GetSession t sessionID with
  | (t, Err e) => (t, Err e)
  | (t, Ok x) =>
      match apply_updates updates x with
      | Err e => (t, Err e)
      | Ok x' => store t x'
      end
  end.

Definition GetAllSessions (order : list (string * TrackedSession)) : list TrackedSession := order.*2.
Definition GetSessionsByProject (order : list (string * TrackedSession)) (project : string)
    : list TrackedSession := filter (fun x => ses_Project x = project) order.*2.

Definition set_row_status (s : string) (row : SessionRow) : SessionRow :=
  mkSessionRow (sr_id row) (sr_node_id row) (sr_project row) s (sr_tokens row) (sr_cost row)
    (sr_started_at row).
Definition unreachable_on (nodeID : string) (x : TrackedSession) : TrackedSession :=
  if String.eqb (ses_NodeID x) nodeID then set_status SessionStatusUnreachable x else x.

Definition MarkUnreachable (t : SessionTracker) (nodeID : string)
    : SessionTracker * res (session_error E) () :=
  match update_rows (tdb t) (fun row => String.eqb (sr_node_id row) nodeID)
          (set_row_status SessionStatusUnreachable) with
  | Err e => (t, Err (mark_unreachable_failed nodeID e))
  | Ok d => (mkTracker d (unreachable_on nodeID <$> sessions t) (recoveryErrors t), Ok ())
  end.

Definition incrementRecoveryError (errors : Z) : Z := u64 (errors + 1).
Definition load_row (acc : gmap string TrackedSession * Z) (row : option SessionRow)
    : gmap string TrackedSession * Z :=
  match row ≫= scanSessionRow with
  | None => (acc.1, incrementRecoveryError acc.2)
  | Some x => (<[ses_SessionID x := set_status SessionStatusUnreachable x]> acc.1, acc.2)
  end.

Definition LoadSessionsFromDB (t : SessionTracker) : SessionTracker * res (session_error E) () :=
  match update_rows (tdb t) (fun _ => true) (set_row_status SessionStatusUnreachable) with
  | Err e => (t, Err (load_sessions_mark e))
  | Ok d =>
      match select_rows d with
      | Err e => (mkTracker d (sessions t) (recoveryErrors t), Err (load_sessions_query e))
      | Ok (rows, iter) =>
          let '(loaded, errs) := foldl load_row (∅, recoveryErrors t) rows in
          match iter with
          | Some e => (mkTracker d (sessions t) errs, Err (load_sessions_iterate e))
          | None => (mkTracker d loaded errs, Ok ())
          end
      end
  end.

Definition status_by_event (eventType : string) : option string :=
  if String.eqb eventType "session.running" then Some SessionStatusRunning
  else if String.eqb eventType "session.idle" then Some SessionStatusIdle
  else if String.eqb eventType "session.error" then Some SessionStatusError
  else None.

Definition ApplyEvent (t : SessionTracker) (now : Time.t) (eventType sessionID : string)
    : SessionTracker * res (session_error E) () :=
  match status_by_event eventType with
  | None => (t, Err (unsupported_event_type eventType))
  | Some status =>
      UpdateSession t sessionID [("status", VString status); ("last_activity", VTime now)]%string
  end.

Fixpoint RestoreFromSnapshot (t : SessionTracker) (now : Time.t) (nodeID : string)
    (snapshot : list TrackedSession) : SessionTracker * res (session_error E) () :=
  match snapshot with
  | [] => (t, Ok ())
  | x :: snapshot' =>
      let x := set_node nodeID x in
      let x := if str_empty (ses_Status x) then set_status SessionStatusRunning x else x in
      match AddSession t now x with
      | (t', Err e) => (t', Err (restore_snapshot (ses_SessionID x) e))
      | (t', Ok _) => RestoreFromSnapshot t' now nodeID snapshot'
      end
  end.

Definition RecoveryErrorCount (t : SessionTracker) : Z := recoveryErrors t.

(** *** Histories of calls, of a tracker that was loaded from the table or not *)
Definition booted (d : DB) (t : SessionTracker) : Prop :=
  t = NewSessionTracker d \/ t = (LoadSessionsFromDB (NewSessionTracker d)).1.

Inductive tracker_op :=
  | OpAdd (now : Time.t) (x : TrackedSession)
  | OpUpdate (sessionID : string) (updates : list (string * update_value))
  | OpGet (sessionID : string)
  | OpMarkUnreachable (nodeID : string)
  | OpApplyEvent (now : Time.t) (eventType sessionID : string)
  | OpRestore (now : Time.t) (nodeID : string) (snapshot : list TrackedSession).

Definition tracker_step (t : SessionTracker) (op : tracker_op) : SessionTracker :=
  match op with
  | OpAdd now x => (AddSession t now x).1
  | OpUpdate id ups => (UpdateSession t id ups).1
  | OpGet id => (GetSession t id).1
  | OpMarkUnreachable n => (MarkUnreachable t n).1
  | OpApplyEvent now ty id => (ApplyEvent t now ty id).1
  | OpRestore now n xs => (RestoreFromSnapshot t now n xs).1
  end.

(** The instants an operation may store can be printed with a four-digit year. *)
Definition op_times_ok (op : tracker_op) : Prop :=
  match op with
  | OpAdd now x => printable_time now /\ printable_time (ses_StartedAt x)
  | OpUpdate _ ups => forall t, ("started_at"%string, VTime t) ∈ ups -> printable_time t
  | OpRestore now _ xs => printable_time now /\ Forall (fun x => printable_time (ses_StartedAt x)) xs
  | _ => True
  end.
End Defs.
Arguments SessionTracker : clear implicits.

End Tracker.

(** ** Lemmas *)
Module TrackerFacts.
Import Tracker.

(** Updates that write the same field: the order of the map decides which of
    two such updates wins. *)
Definition same_target (f g : field) : bool :=
  bool_decide (f = g) ||
  match f, g with
  | f_tokens, f_token_usage | f_token_usage, f_tokens
  | f_cost, f_session_cost | f_session_cost, f_cost => true
  | _, _ => false
  end.

Lemma set_field_comm f g v w x :
  same_target f g = false ->
  (y ← set_field f v x; set_field g w y) = (y ← set_field g w x; set_field f v y).
Proof. destruct x, f, g; try done; intros _; destruct v, w; reflexivity. Qed.

Lemma set_field_id f v x y : set_field f v x = Some y -> ses_SessionID y = ses_SessionID x.
Proof. destruct x, f, v; simpl; intros; by simplify_eq/=. Qed.

Lemma set_field_started f v x y :
  set_field f v x = Some y -> ses_StartedAt y = ses_StartedAt x \/ (f = f_started_at /\ v = VTime (ses_StartedAt y)).
Proof. destruct x, f, v; simpl; intros; simplify_eq/=; auto. Qed.

(** A type assertion fails or not whatever the session is. *)
Lemma set_field_total f v x y : is_Some (set_field f v x) -> is_Some (set_field f v y).
Proof. destruct x, y, f, v; simpl; intros [? ?]; simplify_eq; eauto. Qed.

Lemma field_of_key_inj k k' f : field_of_key k = Some f -> field_of_key k' = Some f -> k = k'.
Proof.
  unfold field_of_key. intros ([i [k1 f1]] & H1 & [= <-])%bind_Some ([j [k2 f2]] & H2 & [= ->])%bind_Some.
  apply list_find_Some in H1 as (H1 & -> & _), H2 as (H2 & -> & _).
  assert (NoDup (snd <$> field_names)) as Hnd by (apply (bool_decide_unpack _); vm_compute; exact I).
  assert (i = j) as ->; [|congruence].
  apply (NoDup_lookup _ i j f1 Hnd); by rewrite list_lookup_fmap, ?H1, ?H2.
Qed.

Section Facts.
Context {DB E : Type} `{KeyedTable DB SessionRow E} `{!KeyedTableLaws DB SessionRow E} `{TimeTextLaws}.
Implicit Types t : SessionTracker DB.

(** [apply_updates] as an option, without the error. *)
Definition update_opt (u : string * update_value) (x : TrackedSession) : option TrackedSession :=
  f ← field_of_key u.1; set_field f u.2 x.
Fixpoint updates_opt (us : list (string * update_value)) (x : TrackedSession) : option TrackedSession :=
  match us with [] => Some x | u :: us' => y ← update_opt u x; updates_opt us' y end.

Lemma apply_updates_opt us x :
  match @apply_updates E us x with Ok y => Some y | Err _ => None end = updates_opt us x.
Proof.
  revert x. induction us as [|[k v] us IH]; intros x; simpl; [done|]. unfold update_opt; simpl.
  destruct (field_of_key k); simpl; [|done]. by destruct (set_field _ v x); simpl.
Qed.

Definition no_clash (us : list (string * update_value)) : Prop :=
  forall k k' v v' f g, (k, v) ∈ us -> (k', v') ∈ us -> k <> k' ->
    field_of_key k = Some f -> field_of_key k' = Some g -> same_target f g = false.

Definition clash_free (us : list (string * update_value)) : bool :=
  forallb (fun u => forallb (fun w => String.eqb u.1 w.1 ||
    match field_of_key u.1, field_of_key w.1 with
    | Some f, Some g => negb (same_target f g)
    | _, _ => true
    end) us) us.
Lemma clash_free_ok us : clash_free us = true -> no_clash us.
Proof.
  unfold clash_free. rewrite forallb_forall. intros Hall k k' v v' f g Hk Hk' Hne Hf Hg.
  specialize (Hall (k, v) (proj1 (list_elem_of_In _ _) Hk)). rewrite forallb_forall in Hall.
  specialize (Hall (k', v') (proj1 (list_elem_of_In _ _) Hk')). simpl in Hall.
  rewrite Hf, Hg in Hall. bool_props. destruct Hall as [?%String.eqb_eq|?%negb_true_iff]; done.
Qed.

Lemma update_opt_comm u w x :
  (forall f g, field_of_key u.1 = Some f -> field_of_key w.1 = Some g -> same_target f g = false) ->
  (y ← update_opt u x; update_opt w y) = (y ← update_opt w x; update_opt u y).
Proof.
  intros Hc. unfold update_opt. destruct (field_of_key u.1) as [f|]; simpl.
  - destruct (field_of_key w.1) as [g|]; simpl; [by apply set_field_comm, Hc | by destruct (set_field f _ x)].
  - destruct (field_of_key w.1) as [g|]; simpl; [by destruct (set_field g _ x) | done].
Qed.

Lemma updates_opt_perm us us' x :
  us ≡ₚ us' -> NoDup us.*1 -> no_clash us -> updates_opt us x = updates_opt us' x.
Proof.
  intros Hp. revert x. induction Hp as [|u us us' Hp IH|u w us|us1 us2 us3 Hp1 IH1 Hp2 IH2];
    intros x Hnd Hc; simpl; [done| | |].
  - destruct (update_opt u x); simpl; [|done]. inversion_clear Hnd. apply IH; [done|].
    intros k k' v v' f g ? ?. apply (Hc k k' v v'); by right.
  - simpl in Hnd. apply NoDup_cons in Hnd as [Hu _].
    assert ((y ← update_opt w x; update_opt u y) = (y ← update_opt u x; update_opt w y)) as Hcomm.
    { apply update_opt_comm. intros f g. destruct u as [ku vu], w as [kw vw]. simpl in *.
      apply (Hc kw ku vw vu); [set_solver | set_solver |]. intros ->. by apply Hu; left. }
    destruct (update_opt w x) as [y|], (update_opt u x) as [z|]; simpl in *;
      first [by rewrite Hcomm | by rewrite <- Hcomm | done].
  - rewrite IH1 by done. apply IH2; [by rewrite <- Hp1|].
    intros k k' v v' f g Hk Hk'. rewrite <- Hp1 in Hk, Hk'. by apply (Hc k k' v v').
Qed.

(** The part of a session the table stores. *)
Definition saved (x : TrackedSession) : string * string * string * Z * Float64.t * Time.t :=
  (ses_NodeID x, ses_Project x, ses_Status x, tu_Total (ses_TokenUsage x), ses_SessionCost x,
   ses_StartedAt x).
Definition loaded (row : SessionRow) : option (string * string * string * Z * Float64.t * Time.t) :=
  saved <$> scanSessionRow row.

Definition rows_printable (d : DB) : Prop :=
  forall k row x, contents d !! k = Some row -> scanSessionRow row = Some x ->
    printable_time (ses_StartedAt x).

Definition tracker_inv t : Prop :=
  coherent ses_SessionID saved loaded (sessions t) (tdb t) /\ rows_printable (tdb t).

Lemma scan_id row x : scanSessionRow row = Some x -> ses_SessionID x = sr_id row.
Proof. unfold scanSessionRow. by intros (? & _ & [= <-])%bind_Some. Qed.

Lemma tracker_loaded_status s row :
  loaded (set_row_status s row) =
  (fun '(n, p, _, tok, c, st) => (n, p, s, tok, c, st)) <$> loaded row.
Proof. unfold loaded, scanSessionRow. simpl. by destruct (parseSQLiteTimestamp _). Qed.

Lemma store_inv t x :
  tracker_inv t -> printable_time (ses_StartedAt x) -> tracker_inv (store t x).1.
Proof.
  intros [Hc Hp] Hx. unfold store, upsertSession. destruct (upsert_row _ _) as [d|] eqn:Eu; [|done].
  simpl. split; simpl.
  - eapply coherent_write; [done | exact Eu | done |]. unfold loaded, scanSessionRow. simpl.
    by rewrite parse_stored.
  - apply upsert_row_ok in Eu. intros k row y. rewrite Eu. unfold scanSessionRow.
    intros [[_ <-]|[_ ?]]%lookup_insert_Some; [|by eapply Hp]. simpl.
    rewrite parse_stored by done. by intros [= <-].
Qed.

Lemma cached_printable t k x :
  tracker_inv t -> sessions t !! k = Some x -> printable_time (ses_StartedAt x).
Proof.
  intros [Hc Hp] Hx. destruct (Hc k x Hx) as (_ & row & Hr & Hl).
  unfold loaded in Hl. apply fmap_Some in Hl as (y & Hs & Hy).
  assert (ses_StartedAt x = ses_StartedAt y) as -> by (unfold saved in Hy; congruence). by eapply Hp.
Qed.

Lemma GetSession_inv t id :
  tracker_inv t ->
  tracker_inv (GetSession t id).1 /\
  forall x, (GetSession t id).2 = Ok x -> sessions (GetSession t id).1 !! id = Some x.
Proof.
  intros Hinv. unfold GetSession. destruct (sessions t !! id) as [x|] eqn:Ex; simpl.
  { split; [done|]. by intros ? [= <-]. }
  unfold readSession. destruct (select_row (tdb t) id) as [[row|]|] eqn:Es; try done.
  destruct (scanSessionRow row) as [x|] eqn:Hs; simpl; [|done].
  apply select_row_ok in Es. symmetry in Es. pose proof (contents_key _ _ _ Es) as Hk.
  rewrite (scan_id _ _ Hs). change (sr_id row) with (the_key row). rewrite Hk. split.
  - destruct Hinv as [Hc Hp]. split; [|done]. simpl. eapply coherent_fill; [done | done | |].
    + rewrite (scan_id _ _ Hs). exact Hk.
    + unfold loaded. by rewrite Hs.
  - intros ? [= <-]. by rewrite lookup_insert_eq.
Qed.

Lemma apply_updates_ok us x y :
  @apply_updates E us x = Ok y -> printable_time (ses_StartedAt x) ->
  (forall s, ("started_at"%string, VTime s) ∈ us -> printable_time s) ->
  ses_SessionID y = ses_SessionID x /\ printable_time (ses_StartedAt y).
Proof.
  revert x. induction us as [|[k v] us IH]; intros x; simpl; [by intros [= <-]|].
  destruct (field_of_key k) as [f|] eqn:Ek; [|done].
  destruct (set_field f v x) as [x'|] eqn:Ef; [|done]. intros Ha Hx Hs.
  rewrite <- (set_field_id _ _ _ _ Ef). apply IH; [done | | by intros s ?; apply Hs; right].
  apply set_field_started in Ef as [->|[-> Hv]]; [done|].
  assert (k = "started_at"%string) as -> by (by apply (field_of_key_inj _ _ f_started_at)).
  apply Hs. rewrite <- Hv. by left.
Qed.

Lemma UpdateSession_inv t id us :
  tracker_inv t -> (forall s, ("started_at"%string, VTime s) ∈ us -> printable_time s) ->
  tracker_inv (UpdateSession t id us).1.
Proof.
  intros Hinv Hus. unfold UpdateSession. destruct (GetSession_inv t id Hinv) as [Hinv' Hx].
  destruct (GetSession t id) as [t' [x|]]; simpl in *; [|done].
  destruct (apply_updates us x) as [x'|] eqn:Ea; [|done].
  apply store_inv; [done|]. eapply apply_updates_ok; [done | | done].
  by eapply cached_printable, Hx.
Qed.

Lemma AddSession_inv t now x :
  tracker_inv t -> printable_time now -> printable_time (ses_StartedAt x) ->
  tracker_inv (AddSession t now x).1.
Proof.
  intros Hinv Hnow Hx. unfold AddSession.
  destruct (str_empty _); [done|]. destruct (str_empty (ses_NodeID x)); [done|].
  destruct (str_empty (ses_Project x)); [done|]. apply store_inv; [done|].
  simpl. by destruct (Time.IsZero _).
Qed.

Lemma Restore_inv t now n xs :
  tracker_inv t -> printable_time now -> Forall (fun x => printable_time (ses_StartedAt x)) xs ->
  tracker_inv (RestoreFromSnapshot t now n xs).1.
Proof.
  intros Hinv Hnow Hxs. revert t Hinv. induction Hxs as [|x xs Hx _ IH]; intros t Hinv; [done|].
  cbn [RestoreFromSnapshot]. cbv zeta. set (y := if str_empty _ then _ else _).
  assert (printable_time (ses_StartedAt y)) as Hy by (unfold y; by destruct (str_empty _)).
  pose proof (AddSession_inv t now y Hinv Hnow Hy) as Ha.
  destruct (AddSession t now y) as [t' [|]]; [by apply IH | done].
Qed.

Lemma rows_printable_update d p d' :
  rows_printable d -> update_rows d p (set_row_status SessionStatusUnreachable) = Ok d' ->
  rows_printable d'.
Proof.
  intros Hp Hup%update_rows_ok; [|done]. intros k row x. rewrite Hup, lookup_fmap.
  intros (row0 & Hr & ->)%fmap_Some. destruct (p row0); [|by eapply Hp].
  unfold scanSessionRow. intros (s & Hs & [= <-])%bind_Some. simpl in *.
  apply (Hp k row0 (mkSession (sr_id row0) (sr_node_id row0) (sr_project row0) (sr_status row0)
    (mkTokenUsage 0 0 (sr_tokens row0)) 0 ε Time.zero (sr_cost row0) ε s) Hr).
  unfold scanSessionRow. by rewrite Hs.
Qed.

Lemma MarkUnreachable_inv t n : tracker_inv t -> tracker_inv (MarkUnreachable t n).1.
Proof.
  intros [Hc Hp]. unfold MarkUnreachable. destruct (update_rows _ _ _) as [d|] eqn:Eu; [|done].
  split; simpl; [|by eapply rows_printable_update].
  eapply coherent_update; [exact Hc | | exact Eu | |]; [done | |].
  - intros x. unfold unreachable_on. by destruct (String.eqb _ _).
  - intros row x Hl. assert (sr_node_id row = ses_NodeID x) as Hn.
    { unfold loaded, scanSessionRow in Hl. apply fmap_Some in Hl as (y & Hs & Hy).
      apply bind_Some in Hs as (s & _ & [= <-]). unfold saved in Hy; simpl in Hy. congruence. }
    unfold unreachable_on. rewrite Hn. destruct (String.eqb (ses_NodeID x) n); [|done].
    by rewrite tracker_loaded_status, Hl.
Qed.

Lemma tracker_step_inv t op : op_times_ok op -> tracker_inv t -> tracker_inv (tracker_step t op).
Proof.
  intros Hop Hinv. destruct op; simpl in *.
  - destruct Hop. by apply AddSession_inv.
  - by apply UpdateSession_inv.
  - by apply GetSession_inv.
  - by apply MarkUnreachable_inv.
  - unfold ApplyEvent. destruct (status_by_event _); [|done]. apply UpdateSession_inv; [done|].
    intros s'. rewrite !elem_of_cons, elem_of_nil. intros [[=]|[[=]|[]]].
  - destruct Hop. by apply Restore_inv.
Qed.

(** What a successful load leaves in memory: every row that scans, unreachable. *)
Lemma LoadSessionsFromDB_ok t t' :
  LoadSessionsFromDB t = (t', Ok ()) ->
  contents (tdb t') = set_row_status SessionStatusUnreachable <$> contents (tdb t) /\
  forall k, sessions t' !! k =
    set_status SessionStatusUnreachable <$>
      (contents (tdb t) !! k ≫= fun row => scanSessionRow (set_row_status SessionStatusUnreachable row)).
Proof.
  unfold LoadSessionsFromDB. destruct (update_rows _ _ _) as [d|] eqn:Eu; [|done].
  destruct (select_rows d) as [[rows iter]|] eqn:Es; [|done].
  destruct (foldl load_row (∅, recoveryErrors t) rows) as [m errs] eqn:Ef.
  destruct iter; [done|]. intros [= <-]. simpl. apply update_rows_ok in Eu; [|done]. split; [done|].
  intros k. pose proof (foldl_load_entry (H:=session_row_key) scanSessionRow ses_SessionID
    (set_status SessionStatusUnreachable) scan_id (contents d) rows (recoveryErrors t) k
    (select_rows_ok d rows Es) (contents_key d)) as Hk.
  change (load_entry _ _ _) with load_row in Hk. rewrite Ef in Hk. cbn [fst] in Hk.
  rewrite Hk, Eu, lookup_fmap.
  by destruct (contents (tdb t) !! k).
Qed.

Lemma tracker_booted_inv d t : rows_printable d -> booted d t -> tracker_inv t.
Proof.
  intros Hp [->| ->]; [by split; [apply coherent_empty|]|].
  pose proof (LoadSessionsFromDB_ok (NewSessionTracker d)) as Hok. revert Hok.
  unfold LoadSessionsFromDB. simpl. destruct (update_rows d _ _) as [d'|] eqn:Eu; simpl; intros Hok;
    [|split; [apply coherent_empty | done]].
  assert (rows_printable d') as Hp' by (by eapply rows_printable_update).
  destruct (select_rows d') as [[rows iter]|]; [|split; [apply coherent_empty | done]].
  destruct (foldl load_row _ rows) as [m errs]. destruct iter; simpl in *; [split; [apply coherent_empty | done]|].
  destruct (Hok _ eq_refl) as [Hd Hm]. split; [|done]. simpl in *. intros k x.
  rewrite Hm. intros (y & (row & Hr & Hs)%bind_Some & ->)%fmap_Some.
  pose proof (scan_id _ _ Hs) as Hid. simpl in Hid. pose proof (contents_key d k row Hr) as Hk.
  split; [by rewrite <- Hk|]. exists (set_row_status SessionStatusUnreachable row).
  rewrite Hd, lookup_fmap, Hr. split; [done|]. unfold loaded. rewrite Hs. simpl.
  unfold scanSessionRow in Hs. apply bind_Some in Hs as (s & _ & [= <-]). done.
Qed.

Lemma tracker_history_inv d t0 ops :
  rows_printable d -> booted d t0 -> Forall op_times_ok ops -> tracker_inv (foldl tracker_step t0 ops).
Proof.
  intros Hp Hb Hops. apply foldl_inv; [by eapply tracker_booted_inv|]. rewrite Forall_forall in Hops.
  intros. by apply tracker_step_inv; [apply Hops|].
Qed.

(** What [GetSession] answers from a coherent tracker: the cached session, or
    what the row says. *)
Lemma GetSession_cases t id x :
  (GetSession t id).2 = Ok x ->
  sessions t !! id = Some x \/
  sessions t !! id = None /\ exists row, contents (tdb t) !! id = Some row /\ scanSessionRow row = Some x.
Proof.
  unfold GetSession. destruct (sessions t !! id) as [y|]; [left; simpl in *; congruence|].
  unfold readSession. destruct (select_row (tdb t) id) as [[row|]|] eqn:Es; try done.
  apply select_row_ok in Es. destruct (scanSessionRow row) as [y|] eqn:Hs; [|done].
  simpl. intros [= ->]. right. eauto.
Qed.
End Facts.
End TrackerFacts.

(** ** Properties *)
Section Properties.
Import Tracker TrackerFacts.
Context {DB E : Type} `{KeyedTable DB SessionRow E} `{!KeyedTableLaws DB SessionRow E} `{TimeTextLaws}.

(** C9: the tracker's memory and the sessions table never disagree: after any
    calls on a new tracker, loaded from the table or not, and whatever
    statements failed, every cached session sits under its own id and its row
    exists and reads back with the same node, project, status, token total,
    cost and start. *)
Theorem tracker_agrees_with_table (d : DB) (t0 : SessionTracker DB) (ops : list tracker_op)
    (id : string) (x : TrackedSession) :
  rows_printable d -> booted d t0 -> Forall op_times_ok ops ->
  let t := foldl tracker_step t0 ops in
  sessions t !! id = Some x ->
  ses_SessionID x = id /\
  exists row, contents (tdb t) !! id = Some row /\ loaded row = Some (saved x).
Proof. intros Hp Hb Hops t. destruct (tracker_history_inv d t0 ops Hp Hb Hops) as [Hc _]. apply Hc. Qed.

(** C40: the order in which the map of updates is ranged over does not matter:
    when no two of its keys write the same field (as "tokens" and "token_usage"
    do), every order leaves the same tracker and succeeds or fails alike. *)
Theorem update_order_irrelevant (t : SessionTracker DB) (id : string)
    (updates : gmap string update_value) (l1 l2 : list (string * update_value)) :
  range_order updates l1 -> range_order updates l2 -> no_clash l1 ->
  (UpdateSession t id l1).1 = (UpdateSession t id l2).1 /\
  is_Ok (UpdateSession t id l1).2 = is_Ok (UpdateSession t id l2).2.
Proof.
  intros Ho1 Ho2 Hc. unfold UpdateSession. destruct (GetSession t id) as [t' [x|]]; [|done].
  pose proof (updates_opt_perm l1 l2 x) as Hperm. rewrite <- !(apply_updates_opt (E:=E)) in Hperm.
  assert (l1 ≡ₚ l2) as Hp by (unfold range_order in *; by rewrite Ho1, Ho2).
  specialize (Hperm Hp (range_order_NoDup _ _ Ho1) Hc).
  destruct (apply_updates l1 x) as [y|], (apply_updates l2 x) as [z|]; try done.
  by injection Hperm as ->.
Qed.

(** [MarkUnreachable] is exact: a session that was on the node reads as
    unreachable afterwards, in memory or from the table, with everything else
    as before, and the sessions of other nodes read as they did. *)
Theorem mark_unreachable_exact (t t' : SessionTracker DB) (n id : string) (x x' : TrackedSession) :
  MarkUnreachable t n = (t', Ok ()) ->
  (GetSession t id).2 = Ok x -> (GetSession t' id).2 = Ok x' ->
  x' = unreachable_on n x.
Proof.
  unfold MarkUnreachable. destruct (update_rows _ _ _) as [d|] eqn:Eu; [|done]. intros [= <-].
  apply update_rows_ok in Eu; [|done].
  intros [Hx|(Hx & row & Hr & Hs)]%GetSession_cases [Hx'|(Hx' & row' & Hr' & Hs')]%GetSession_cases;
    simpl in *; rewrite lookup_fmap, Hx in Hx'; simplify_eq/=; [done|].
  rewrite Eu, lookup_fmap, Hr in Hr'. injection Hr' as <-.
  unfold scanSessionRow in Hs, Hs'. apply bind_Some in Hs as (s & Hs & [= <-]).
  unfold unreachable_on. simpl. destruct (String.eqb (sr_node_id row) n); simpl in Hs';
    rewrite Hs in Hs'; by injection Hs' as <-.
Qed.

(** Sessions survive a restart of the supervisor as unreachable ones: when
    the load of a new tracker succeeds, every session the old one had in memory
    is there with its node, project, token total, cost and start, and every
    loaded session is unreachable. *)
Theorem sessions_survive_restart (d : DB) (t0 t' : SessionTracker DB) (ops : list tracker_op)
    (id : string) (x : TrackedSession) :
  rows_printable d -> booted d t0 -> Forall op_times_ok ops ->
  let t := foldl tracker_step t0 ops in
  sessions t !! id = Some x ->
  LoadSessionsFromDB (NewSessionTracker (tdb t)) = (t', Ok ()) ->
  (exists y, sessions t' !! id = Some y /\ ses_SessionID y = id /\
     saved y = saved (set_status SessionStatusUnreachable x)) /\
  (forall k y, sessions t' !! k = Some y -> ses_Status y = SessionStatusUnreachable).
Proof.
  intros Hp Hb Hops t Hx [_ Hm]%LoadSessionsFromDB_ok. simpl in Hm.
  destruct (tracker_history_inv d t0 ops Hp Hb Hops) as [Hc _]. destruct (Hc id x Hx) as (Hid & row & Hr & Hl).
  fold t in Hr. split.
  - rewrite Hm, Hr. simpl. unfold loaded, scanSessionRow in *. simpl in *.
    destruct (parseSQLiteTimestamp (sr_started_at row)) as [s|]; [|done]. simpl in *.
    eexists. split; [done|]. simpl. split; [exact (contents_key _ _ _ Hr)|].
    unfold saved in *. simpl in *. congruence.
  - intros k y. rewrite Hm. by intros (? & _ & ->)%fmap_Some.
Qed.
End Properties.

(** ** Witnesses *)
Module TrackerWitness.
Import Tracker TrackerFacts.

Definition d0 : mem_table SessionRow := mem_empty.
Definition ses (id node : string) : TrackedSession :=
  mkSession id node "proj" ε (mkTokenUsage 0 0 10) 0 ε 0 Float64.zero ε 0.
Definition tr0 : SessionTracker (mem_table SessionRow) := NewSessionTracker d0.
Definition ops : list tracker_op :=
  [OpAdd 7000 (ses "s1" "n1"); OpAdd 7100 (ses "s2" "n2"); OpApplyEvent 8000 "session.idle" "s1"]%string.
Definition tr1 := foldl tracker_step tr0 ops.
Definition cached : TrackedSession :=
  mkSession "s1" "n1" "proj" "idle" (mkTokenUsage 0 0 10) 0 ε 8000 Float64.zero ε 7000.

Lemma tracker_d0_printable : rows_printable d0.
Proof. intros k row x. simpl. by rewrite lookup_empty. Qed.
Lemma tracker_ops_ok : Forall op_times_ok ops.
Proof. repeat constructor; simpl; unfold printable_time, year10000; simpl; lia. Qed.

Lemma tracker_agrees_with_table_witness :
  ses_SessionID cached = "s1"%string /\
  exists row, contents (tdb tr1) !! "s1"%string = Some row /\ loaded row = Some (saved cached).
Proof.
  apply (tracker_agrees_with_table d0 tr0 ops "s1" cached);
    [exact tracker_d0_printable | left; reflexivity | exact tracker_ops_ok | vm_compute; reflexivity].
Defined.

Definition updates : gmap string update_value :=
  {[ "tokens" := VInt 5; "status" := VString "running"; "model" := VOther ]}%string.
Lemma updates_no_clash : no_clash (map_to_list updates).
Proof. apply clash_free_ok. vm_compute. reflexivity. Qed.
Definition order1 := map_to_list updates.
Definition order2 := reverse order1.
Lemma order2_ok : range_order updates order2.
Proof. unfold range_order, order2, order1. by rewrite reverse_Permutation. Qed.
Lemma update_order_irrelevant_witness :
  (UpdateSession tr1 "s1" order1).1 = (UpdateSession tr1 "s1" order2).1 /\
  is_Ok (UpdateSession tr1 "s1" order1).2 = is_Ok (UpdateSession tr1 "s1" order2).2.
Proof.
  exact (update_order_irrelevant tr1 "s1" updates order1 order2
    (range_order_self updates) order2_ok updates_no_clash).
Defined.

Definition tr2 := (MarkUnreachable tr1 "n1").1.
Lemma mark_unreachable_exact_witness :
  set_status "unreachable" cached = unreachable_on "n1" cached.
Proof.
  apply (mark_unreachable_exact tr1 tr2 "n1" "s1" cached (set_status "unreachable" cached));
    vm_compute; reflexivity.
Defined.

Definition tr3 := (LoadSessionsFromDB (NewSessionTracker (tdb tr1))).1.
Lemma sessions_survive_restart_witness :
  (exists y, sessions tr3 !! "s1"%string = Some y /\ ses_SessionID y = "s1"%string /\
     saved y = saved (set_status SessionStatusUnreachable cached)) /\
  (forall k y, sessions tr3 !! k = Some y -> ses_Status y = SessionStatusUnreachable).
Proof.
  apply (sessions_survive_restart d0 tr0 tr3 ops "s1" cached);
    [exact tracker_d0_printable | left; reflexivity | exact tracker_ops_ok | vm_compute; reflexivity | vm_compute; reflexivity].
Defined.
End TrackerWitness.
