(* ===== verification/DepGraph.v ===== *)
(** * DepGraph

    internal/supervisor/depgraph.go: the project dependency graph, its cycle
    check and the projects a finished project makes ready.  The depth-first
    search is run with fuel; one unit per project is enough, because a call
    marks a project that was not visited.  The maps are ranged over in orders
    given as arguments. *)

From S2P Require Import Prelude GoStd SqlStore SessionTracker.

(** ** Data *)
Record DependencyGraph := mkGraph {
  graph : gmap string (list string);
  reverseGraph : gmap string (list string);
  allProjects : gset string }.

Module Dep.

(** [dg.graph[node]]: nil for an unknown project. *)
Definition deps_of (g : gmap string (list string)) (node : string) : list string :=
  default [] (g !! node).

(** The two maps of the search that are used as sets. *)
Record dfs_state := mkDfs { visited : gset string; inStack : gset string }.

(** Position of a project on the path. *)
Fixpoint index_of (x : string) (path : list string) : option nat :=
  match path with
  | [] => None
  | p :: path' => if String.eqb p x then Some O else S <$> index_of x path'
  end.

(** What a search answers: [None] when the fuel ran out, else the state and the
    cycle found, if any. *)
Definition dfs_result : Type := option (dfs_state * option (list string)).

(** The loop over the neighbours, given the recursive call. *)
Fixpoint visit_neighbors (dfs : string -> dfs_state -> dfs_result) (path ns : list string)
    (s : dfs_state) : dfs_result :=
  match ns with
  | [] => Some (s, None)
  | neighbor :: ns' =>
      if decide (neighbor ∈ visited s) then
        if decide (neighbor ∈ inStack s) then
          match index_of neighbor path with
          | Some cycleStart => Some (s, Some (drop cycleStart path ++ [neighbor]))
          | None => visit_neighbors dfs path ns' s
          end
        else visit_neighbors dfs path ns' s
      else
        match dfs neighbor s with
        | None => None
        | Some (s', Some cycle) => Some (s', Some cycle)
        | Some (s', None) => visit_neighbors dfs path ns' s'
        end
  end.

Fixpoint detectCycleDFS (fuel : nat) (g : gmap string (list string)) (path : list string)
    (node : string) (s : dfs_state) : dfs_result :=
  match fuel with
  | O => None
  | S fuel' =>
      let s := mkDfs ({[node]} ∪ visited s) ({[node]} ∪ inStack s) in
      let path := path ++ [node] in
      match visit_neighbors (detectCycleDFS fuel' g path) path (deps_of g node) s with
      | Some (s', None) => Some (mkDfs (visited s') (inStack s' ∖ {[node]}), None)
      | r => r
      end
  end.

(** The loop of [Validate] over the projects, in the order of the map. *)
Fixpoint validate_loop (fuel : nat) (g : gmap string (list string)) (projects : list string)
    (s : dfs_state) : option (option (list string)) :=
  match projects with
  | [] => Some None
  | project :: projects' =>
      if decide (project ∈ visited s) then validate_loop fuel g projects' s
      else
        match detectCycleDFS fuel g [] project s with
        | None => None
        | Some (_, Some cycle) => Some (Some cycle)
        | Some (s', None) => validate_loop fuel g projects' s'
        end
  end.
(** The cycle [Validate] finds; the fuel is the number of projects. *)
Definition Validate (dg : DependencyGraph) (order : list string) : option (option (list string)) :=
  validate_loop (size (allProjects dg)) (graph dg) order (mkDfs ∅ ∅).

(** [NewDependencyGraph]'s first loop, over the configuration, and second loop,
    over [dg.graph]. *)
Definition add_project (dg : DependencyGraph) (entry : string * list string) : DependencyGraph :=
  let '(project, dependsOn) := entry in
  mkGraph (<[project := dependsOn]> (graph dg)) (reverseGraph dg)
    (list_to_set dependsOn ∪ ({[project]} ∪ allProjects dg)).
Definition add_dependents (rg : gmap string (list string)) (entry : string * list string)
    : gmap string (list string) :=
  let '(project, deps) := entry in
  foldl (fun rg dep => <[dep := deps_of rg dep ++ [project]]> rg) rg deps.

Definition cycle_error (cycle : list string) : string :=
  ("cycle detected: " +:+ Strings.Join cycle " -> ")%stdpp.

(** [order_config], [order_graph] and [order_all] are the orders in which the
    configuration, [dg.graph] and [dg.allProjects] are ranged over. *)
Definition NewDependencyGraph (order_config order_graph : list (string * list string))
    (order_all : list string) : option (res string DependencyGraph) :=
  let dg := foldl add_project (mkGraph ∅ ∅ ∅) order_config in
  let dg := mkGraph (graph dg) (foldl add_dependents ∅ order_graph) (allProjects dg) in
  match Validate dg order_all with
  | None => None
  | Some (Some cycle) => Some (Err (cycle_error cycle))
  | Some None => Some (Ok dg)
  end.

(** Copies of the stored slices. *)
Definition GetDependencies (dg : DependencyGraph) (project : string) : list string :=
  deps_of (graph dg) project.
Definition GetDependents (dg : DependencyGraph) (project : string) : list string :=
  deps_of (reverseGraph dg) project.

(** [tracker] is the sessions of the tracker in the order they are ranged over,
    or [None] for a nil tracker. *)
Definition hasCompletedSession (project : string) (tracker : option (list (string * TrackedSession)))
    : bool :=
  match tracker with
  | None => false
  | Some sessions =>
      existsb (fun s => negb (String.eqb (ses_Status s) SessionStatusError) &&
                        negb (String.eqb (ses_Status s) SessionStatusUnreachable))
        (Tracker.GetSessionsByProject sessions project)
  end.

Definition IsReady (dg : DependencyGraph) (project : string)
    (tracker : option (list (string * TrackedSession))) : bool :=
  let deps := GetDependencies dg project in
  if (length deps =? 0)%nat then true
  else forallb (fun dep => hasCompletedSession dep tracker) deps.

Definition TriggerDependents (dg : DependencyGraph) (project : string)
    (tracker : option (list (string * TrackedSession))) : res string (list string) :=
  if str_empty project then Err "project name cannot be empty"%string
  else Ok (filter (fun d => IsReady dg d tracker = true) (GetDependents dg project)).

(** ** What the search is about *)
Definition edge (g : gmap string (list string)) (a b : string) : Prop := b ∈ deps_of g a.
(** Consecutive projects depend on each other. *)
Fixpoint walk (g : gmap string (list string)) (path : list string) : Prop :=
  match path with
  | [] => True
  | a :: rest => match rest with [] => True | b :: _ => edge g a b /\ walk g rest end
  end.
Definition is_cycle (g : gmap string (list string)) (path : list string) : Prop :=
  exists a l, path = a :: l ++ [a] /\ walk g path.
Definition acyclic (g : gmap string (list string)) : Prop := forall a, ~ tc (edge g) a a.

End Dep.

(** ** Lemmas *)
Module DepFacts.
Import Dep.

Section Search.
Context (g : gmap string (list string)).

Lemma walk_app_r l1 l2 : walk g (l1 ++ l2) -> walk g l2.
Proof.
  induction l1 as [|a l1 IH]; [done|]. simpl. destruct (l1 ++ l2) as [|b l] eqn:E.
  - intros _. apply app_eq_nil in E as [_ ->]. done.
  - intros [_ ?]. by apply IH.
Qed.
Lemma walk_snoc l a b : walk g (l ++ [a]) -> edge g a b -> walk g ((l ++ [a]) ++ [b]).
Proof.
  induction l as [|c l IH]; simpl; [done|]. intros Hw He.
  destruct (l ++ [a]) as [|d l'] eqn:E; [by destruct l|]. simpl in *.
  destruct Hw as [? Hw]. split; [done|]. by apply IH.
Qed.

Lemma index_of_Some x path i : index_of x path = Some i -> exists l, drop i path = x :: l.
Proof.
  revert i. induction path as [|p path IH]; intros i; simpl; [done|].
  destruct (String.eqb_spec p x) as [->|]; [intros [= <-]; eauto|].
  intros (j & Hj & ->)%fmap_Some. by apply IH.
Qed.
Lemma index_of_elem x path : x ∈ path -> is_Some (index_of x path).
Proof.
  induction path as [|p path IH]; simpl; [by intros ?%elem_of_nil|].
  intros Hin. destruct (String.eqb_spec p x) as [->|]; [eauto|].
  apply fmap_is_Some, IH. set_solver.
Qed.

(** Projects the search has left for good. *)
Definition finished (s : dfs_state) (d : string) : Prop := d ∈ visited s /\ d ∉ inStack s.

(** The stack is the path; what was left for good is closed under dependencies
    and on no cycle. *)
Record dfs_inv (path : list string) (s : dfs_state) : Prop := {
  inv_stack : inStack s = list_to_set path;
  inv_sub : inStack s ⊆ visited s;
  inv_closed : forall d b, finished s d -> edge g d b -> finished s b;
  inv_acyclic : forall d, finished s d -> ~ tc (edge g) d d }.

Lemma closed_rtc path s d b : dfs_inv path s -> finished s d -> rtc (edge g) d b -> finished s b.
Proof. intros Hi Hd Hr. induction Hr; [done|]. eauto using inv_closed. Qed.

(** The projects a search may visit. *)
Context (U : gset string).
Context (U_closed : forall a b, a ∈ U -> edge g a b -> b ∈ U).

Definition search_post (path : list string) (s : dfs_state) (goal : dfs_state -> Prop)
    (r : dfs_result) : Prop :=
  exists s' o, r = Some (s', o) /\
    match o with
    | Some c => is_cycle g c
    | None => dfs_inv path s' /\ visited s ⊆ visited s' /\ goal s'
    end.

Definition dfs_ok (fuel : nat) (dfs : string -> dfs_state -> dfs_result) (path : list string) : Prop :=
  forall n s, dfs_inv path s -> n ∉ visited s -> n ∈ U -> walk g (path ++ [n]) ->
    (size (U ∖ visited s) <= fuel)%nat -> search_post path s (fun s' => finished s' n) (dfs n s).

Lemma visit_neighbors_ok fuel dfs path a ns s :
  dfs_ok fuel dfs (path ++ [a]) -> dfs_inv (path ++ [a]) s -> walk g (path ++ [a]) ->
  (forall n, n ∈ ns -> edge g a n /\ n ∈ U) -> (size (U ∖ visited s) <= fuel)%nat ->
  search_post (path ++ [a]) s (fun s' => forall n, n ∈ ns -> finished s' n)
    (visit_neighbors dfs (path ++ [a]) ns s).
Proof.
  intros Hdfs. revert s. induction ns as [|n ns IH]; intros s Hi Hw Hns Hf; simpl.
  { exists s, None. split_and!; try done. by intros ? ?%elem_of_nil. }
  destruct (Hns n) as [He HU]; [by left|].
  assert (forall m, m ∈ ns -> edge g a m /\ m ∈ U) as Hns' by (intros; apply Hns; by right).
  assert (forall s0, dfs_inv (path ++ [a]) s0 -> visited s ⊆ visited s0 -> finished s0 n ->
    search_post (path ++ [a]) s (fun s' => forall m, m ∈ n :: ns -> finished s' m)
      (visit_neighbors dfs (path ++ [a]) ns s0)) as Hrest.
  { intros s0 Hi0 Hsub Hfin. destruct (IH s0 Hi0 Hw Hns') as (s' & o & -> & Ho).
    { etrans; [|exact Hf]. apply subseteq_size. set_solver. }
    exists s', o. split; [done|]. destruct o as [c|]; [done|]. destruct Ho as (Hi' & Hsub' & Hall).
    split_and!; [done | by etrans |]. intros m [->|Hm]%elem_of_cons; [|by apply Hall].
    destruct Hfin as [Hv Hst]. split; [set_solver|]. rewrite (inv_stack _ _ Hi').
    by rewrite <- (inv_stack _ _ Hi0). }
  destruct (decide (n ∈ visited s)) as [Hv|Hv].
  - destruct (decide (n ∈ inStack s)) as [Hst|Hst].
    + assert (n ∈ path ++ [a]) as Hin by (rewrite (inv_stack _ _ Hi) in Hst; set_solver).
      destruct (index_of_elem _ _ Hin) as [i Ei]. rewrite Ei.
      destruct (index_of_Some _ _ _ Ei) as [l Hl]. eexists s, _. split; [done|].
      exists n, l. rewrite Hl. split; [done|].
      pose proof (walk_snoc path a n Hw He) as Hwn.
      rewrite <- (take_drop i (path ++ [a])), <- app_assoc in Hwn. apply walk_app_r in Hwn.
      by rewrite Hl in Hwn.
    + by apply Hrest.
  - destruct (Hdfs n s Hi Hv HU) as (s' & o & -> & Ho); [by apply walk_snoc | done |].
    destruct o as [c|]; [by exists s', (Some c)|]. destruct Ho as (? & ? & ?). by apply Hrest.
Qed.

(** Entering a project keeps the invariant, and so does leaving it once its
    dependencies are finished. *)
Lemma dfs_inv_enter path n s :
  dfs_inv path s -> n ∉ visited s ->
  dfs_inv (path ++ [n]) (mkDfs ({[n]} ∪ visited s) ({[n]} ∪ inStack s)).
Proof.
  intros [Hs Hsub Hc Ha] Hn.
  assert (forall d, finished (mkDfs ({[n]} ∪ visited s) ({[n]} ∪ inStack s)) d <-> finished s d) as Hfin.
  { intros d. unfold finished; simpl. set_solver. }
  split; simpl.
  - rewrite Hs, list_to_set_app_L. set_solver.
  - set_solver.
  - intros d b Hd He. apply Hfin. apply Hfin in Hd. by eapply Hc.
  - intros d Hd. apply Ha. by apply Hfin.
Qed.

Lemma dfs_inv_leave path n s :
  dfs_inv (path ++ [n]) s -> n ∉ path -> (forall b, edge g n b -> finished s b) ->
  dfs_inv path (mkDfs (visited s) (inStack s ∖ {[n]})) /\
  finished (mkDfs (visited s) (inStack s ∖ {[n]})) n.
Proof.
  intros Hi Hn Hdeps. pose proof Hi as [Hs Hsub Hc Ha].
  assert (n ∈ inStack s) as Hin by (rewrite Hs; set_solver).
  assert (forall d, finished (mkDfs (visited s) (inStack s ∖ {[n]})) d <-> finished s d \/ d = n) as Hfin.
  { intros d. unfold finished; simpl. destruct (decide (d = n)); set_solver. }
  split; [|apply Hfin; by right]. split; simpl.
  - rewrite Hs, list_to_set_app_L. set_solver.
  - set_solver.
  - intros d b [Hd| ->]%Hfin He; apply Hfin; left; [by eapply Hc | by apply Hdeps].
  - intros d [Hd| ->]%Hfin; [by apply Ha|]. intros Ht.
    assert (exists b, edge g n b /\ rtc (edge g) b n) as (b & He & Hr).
    { inversion Ht; subst; eauto using tc_rtc, rtc_refl. }
    destruct (closed_rtc _ _ _ _ Hi (Hdeps b He) Hr). done.
Qed.

Lemma detectCycleDFS_ok fuel path : dfs_ok fuel (detectCycleDFS fuel g path) path.
Proof.
  revert path. induction fuel as [|fuel IH]; intros path n s Hi Hv HU Hw Hf.
  { exfalso. assert (size (U ∖ visited s) = 0%nat) as E%size_empty_inv by lia. set_solver. }
  cbn [detectCycleDFS]. cbv zeta. pose proof (dfs_inv_enter path n s Hi Hv) as Hi1.
  set (s1 := mkDfs _ _) in *.
  assert (n ∉ path) as Hnp.
  { intros Hin. apply Hv, (inv_sub _ _ Hi). rewrite (inv_stack _ _ Hi). set_solver. }
  assert (size (U ∖ visited s1) <= fuel)%nat as Hf1.
  { assert (U ∖ visited s = {[n]} ∪ U ∖ visited s1) as E.
    { unfold s1; simpl. apply set_eq. intros x. destruct (decide (x = n)); set_solver. }
    rewrite E, size_union, size_singleton in Hf by (unfold s1; simpl; set_solver). lia. }
  destruct (visit_neighbors_ok fuel (detectCycleDFS fuel g (path ++ [n])) path n (deps_of g n) s1)
    as (s' & o & -> & Ho); [apply IH | done | done | | done |].
  { intros m Hm. split; [done|]. by eapply U_closed. }
  destruct o as [c|]; [by exists s', (Some c)|]. destruct Ho as (Hi' & Hsub & Hall).
  destruct (dfs_inv_leave path n s' Hi' Hnp Hall) as [? ?].
  eexists _, None. split; [done|]. split_and!; [done | | done]. simpl. unfold s1 in Hsub; simpl in Hsub.
  set_solver.
Qed.

Lemma validate_loop_ok fuel projects s :
  dfs_inv [] s -> (size U <= fuel)%nat -> (forall p, p ∈ projects -> p ∈ U) ->
  exists o, validate_loop fuel g projects s = Some o /\
    match o with
    | Some c => is_cycle g c
    | None => forall p, p ∈ projects \/ p ∈ visited s -> ~ tc (edge g) p p
    end.
Proof.
  revert s. induction projects as [|p ps IH]; intros s Hi Hf Hin; simpl.
  { exists None. split; [done|]. intros q [?%elem_of_nil|Hq]; [done|].
    apply (inv_acyclic _ _ Hi). split; [done|]. rewrite (inv_stack _ _ Hi). set_solver. }
  assert (forall q, q ∈ ps -> q ∈ U) as Hin' by (intros; apply Hin; by right).
  destruct (decide (p ∈ visited s)) as [Hp|Hp].
  - destruct (IH s Hi Hf Hin') as (o & -> & Ho). exists o. split; [done|].
    destruct o; [done|]. intros q Hq. apply Ho. set_solver.
  - destruct (detectCycleDFS_ok fuel [] p s Hi Hp) as (s' & o & -> & Ho); [by apply Hin; left | done | |].
    { etrans; [|exact Hf]. apply subseteq_size. set_solver. }
    destruct o as [c|]; [by exists (Some c)|]. destruct Ho as (Hi' & Hsub & Hfin).
    destruct (IH s' Hi' Hf Hin') as (o & -> & Ho). exists o. split; [done|].
    destruct o; [done|]. intros q Hq. apply Ho. destruct Hfin. set_solver.
Qed.
End Search.

Lemma walk_tc g a b l : walk g (a :: l ++ [b]) -> tc (edge g) a b.
Proof.
  revert a. induction l as [|c l IH]; intros a; simpl.
  - intros [He _]. by apply tc_once.
  - intros [He Hw]. eapply tc_l; [exact He | by apply IH].
Qed.
Lemma is_cycle_not_acyclic g c : is_cycle g c -> ~ acyclic g.
Proof. intros (a & l & -> & Hw) Hac. by apply (Hac a), (walk_tc g a a l). Qed.

(** The projects a configuration names. *)
Definition all_projects (config : gmap string (list string)) : gset string :=
  dom config ∪ ⋃ ((list_to_set <$> (map_to_list config).*2) : list (gset string)).

Lemma elem_of_all_projects config p :
  p ∈ all_projects config <-> p ∈ dom config \/ exists q, edge config q p.
Proof.
  unfold all_projects. rewrite elem_of_union, elem_of_union_list. apply or_iff_compat_l. split.
  - intros (X & HX & Hp). apply list_elem_of_fmap in HX as (deps & -> & HX).
    apply list_elem_of_fmap in HX as ([q deps'] & -> & HX). apply elem_of_map_to_list in HX.
    exists q. unfold edge, deps_of. rewrite HX. simpl in *. set_solver.
  - intros (q & Hq). unfold edge, deps_of in Hq.
    destruct (config !! q) as [deps|] eqn:E; [|by apply elem_of_nil in Hq]. simpl in Hq.
    exists (list_to_set deps). split; [|set_solver]. apply list_elem_of_fmap. exists deps. split; [done|].
    apply list_elem_of_fmap. exists (q, deps). split; [done|]. by apply elem_of_map_to_list.
Qed.

Lemma add_projects_graph order dg :
  NoDup order.*1 ->
  graph (foldl add_project dg order) = list_to_map order ∪ graph dg /\
  reverseGraph (foldl add_project dg order) = reverseGraph dg /\
  forall p, p ∈ allProjects (foldl add_project dg order) <->
    p ∈ allProjects dg \/ exists q deps, (q, deps) ∈ order /\ (p = q \/ p ∈ deps).
Proof.
  revert dg. induction order as [|[q deps] order IH]; intros dg Hnd; cbn [foldl].
  - split_and!; [by simpl; rewrite map_empty_union | done |]. intros p. set_solver.
  - apply NoDup_cons in Hnd as [Hq Hnd]. destruct (IH (add_project dg (q, deps)) Hnd) as (-> & -> & Hall).
    simpl in *. split_and!; [|done|].
    + rewrite <- insert_union_l, <- insert_union_r; [done|]. by apply not_elem_of_list_to_map.
    + intros p. rewrite Hall. set_solver.
Qed.

Lemma add_dependents_spec rg q deps p x :
  x ∈ deps_of (add_dependents rg (q, deps)) p <-> x ∈ deps_of rg p \/ (x = q /\ p ∈ deps).
Proof.
  unfold add_dependents. revert rg. induction deps as [|d deps IH]; intros rg; simpl; [set_solver|].
  rewrite IH. unfold deps_of at 1. destruct (decide (d = p)) as [->|Hne].
  - rewrite lookup_insert_eq. simpl. set_solver.
  - rewrite lookup_insert_ne by done. fold (deps_of rg p). set_solver.
Qed.

Lemma dependents_spec order rg p x :
  x ∈ deps_of (foldl add_dependents rg order) p <->
  x ∈ deps_of rg p \/ exists deps, (x, deps) ∈ order /\ p ∈ deps.
Proof.
  revert rg. induction order as [|[q deps] order IH]; intros rg; cbn [foldl]; [set_solver|].
  rewrite IH, add_dependents_spec. set_solver.
Qed.

(** What the constructor returns, for every order of its maps. *)
Lemma NewDependencyGraph_spec config order_config order_graph order_all :
  range_order config order_config -> range_order config order_graph ->
  key_order (all_projects config) order_all ->
  exists r, NewDependencyGraph order_config order_graph order_all = Some r /\
    match r with
    | Err e => exists c, e = cycle_error c /\ is_cycle config c
    | Ok dg => acyclic config /\ graph dg = config /\
        forall p x, x ∈ GetDependents dg p <-> edge config x p
    end.
Proof.
  intros Hc Hg Ha. unfold NewDependencyGraph.
  destruct (add_projects_graph order_config (mkGraph ∅ ∅ ∅)) as (Egr & _ & Hall);
    [by eapply range_order_NoDup|].
  set (dg0 := foldl add_project _ order_config) in *. cbv zeta. simpl in Egr, Hall.
  assert (graph dg0 = config) as Eg.
  { rewrite Egr, map_union_empty. apply map_eq. intros k. apply option_eq. intros deps.
    rewrite <- elem_of_list_to_map by (by eapply range_order_NoDup).
    by apply range_order_elem. }
  assert (allProjects dg0 = all_projects config) as Eall.
  { apply set_eq. intros p. rewrite Hall, elem_of_all_projects. unfold edge, deps_of.
    setoid_rewrite (range_order_elem config order_config _ _ Hc). split.
    - intros [?|(q & deps & E & [->|Hp])]; [set_solver | left; by apply elem_of_dom_2 in E|].
      right. exists q. by rewrite E.
    - intros [[deps E]%elem_of_dom|[q Hq]]; right; [by exists p, deps; auto|].
      destruct (config !! q) as [deps|] eqn:E; [|by apply elem_of_nil in Hq]. eauto 6. }
  rewrite Eg. set (dg := mkGraph config _ (allProjects dg0)).
  unfold Validate. simpl. rewrite Eall.
  destruct (validate_loop_ok config (all_projects config)) with
    (fuel := size (all_projects config)) (projects := order_all) (s := mkDfs ∅ ∅) as (o & -> & Ho).
  - intros a b _ Hb. apply elem_of_all_projects. eauto.
  - split; [done | done | |]; intros d; unfold finished; simpl; set_solver.
  - done.
  - intros p. by rewrite (key_order_elem _ _ _ Ha).
  - destruct o as [c|]; (eexists; split; [done|]); [by exists c|]. split_and!; [|done|].
    + intros p Hp. assert (exists b, edge config p b) as [b Hb] by (inversion Hp; eauto).
      apply (Ho p); [|done]. left. rewrite (key_order_elem _ _ _ Ha), elem_of_all_projects. left.
      unfold edge, deps_of in Hb. apply elem_of_dom.
      destruct (config !! p); [eauto | by apply elem_of_nil in Hb].
    + intros p x. unfold GetDependents. simpl. rewrite dependents_spec. unfold edge, deps_of.
      rewrite lookup_empty. simpl. setoid_rewrite (range_order_elem config order_graph _ _ Hg).
      destruct (config !! x) as [deps|]; set_solver.
Qed.

Lemma hasCompletedSession_true p sessions :
  hasCompletedSession p (Some sessions) = true <->
  exists k s, (k, s) ∈ sessions /\ ses_Project s = p /\
    ses_Status s <> SessionStatusError /\ ses_Status s <> SessionStatusUnreachable.
Proof.
  simpl. rewrite existsb_exists. unfold Tracker.GetSessionsByProject. split.
  - intros (s & Hin%list_elem_of_In & Hs). apply list_elem_of_filter in Hin as [Hp Hin].
    apply list_elem_of_fmap in Hin as ([k s'] & -> & Hin). exists k, s'.
    apply andb_true_iff in Hs as [H1%negb_true_iff%String.eqb_neq H2%negb_true_iff%String.eqb_neq]. done.
  - intros (k & s & Hin & Hp & H1 & H2). exists s. split.
    + apply list_elem_of_In, list_elem_of_filter. split; [done|]. apply list_elem_of_fmap. by exists (k, s).
    + apply andb_true_iff. by split; apply negb_true_iff, String.eqb_neq.
Qed.
End DepFacts.

(** ** Properties *)
Section Properties.
Import Dep DepFacts.

(** C10: whatever the orders in which its maps are ranged over, building the
    dependency graph terminates, and it succeeds exactly when no project
    depends on itself through any number of steps; the graph is then the
    configuration. *)
Theorem graph_built_iff_acyclic (config : gmap string (list string))
    (order_config order_graph : list (string * list string)) (order_all : list string) :
  range_order config order_config -> range_order config order_graph ->
  key_order (all_projects config) order_all ->
  exists r, NewDependencyGraph order_config order_graph order_all = Some r /\
    (is_Ok r = true <-> acyclic config) /\ (forall dg, r = Ok dg -> graph dg = config).
Proof.
  intros Hc Hg Ha. destruct (NewDependencyGraph_spec _ _ _ _ Hc Hg Ha) as (r & -> & Hr).
  exists r. split; [done|]. destruct r as [dg|e].
  - destruct Hr as (? & ? & _). split; [done|]. by intros ? [= <-].
  - destruct Hr as (c & _ & Hcyc). split; [|done]. split; [done|].
    intros Hac. by destruct (is_cycle_not_acyclic _ _ Hcyc).
Qed.

(** The error of a refused configuration prints an actual cycle: its
    projects start and end with the same one and each depends on the next. *)
Theorem cycle_error_names_a_cycle (config : gmap string (list string))
    (order_config order_graph : list (string * list string)) (order_all : list string) (e : string) :
  range_order config order_config -> range_order config order_graph ->
  key_order (all_projects config) order_all ->
  NewDependencyGraph order_config order_graph order_all = Some (Err e) ->
  exists first l, e = cycle_error (first :: l ++ [first]) /\ walk config (first :: l ++ [first]).
Proof.
  intros Hc Hg Ha Hnew. destruct (NewDependencyGraph_spec _ _ _ _ Hc Hg Ha) as (r & Hr & Hspec).
  rewrite Hnew in Hr. injection Hr as <-. destruct Hspec as (c & -> & a & l & -> & Hw). eauto.
Qed.

(** Finishing a project triggers exactly the projects that name it as a
    dependency and each of whose dependencies has a session that is neither in
    error nor unreachable; a session that is still running counts. *)
Theorem trigger_dependents_exact (config : gmap string (list string))
    (order_config order_graph : list (string * list string)) (order_all : list string)
    (dg : DependencyGraph) (p x : string) (sessions : list (string * TrackedSession)) (ready : list string) :
  range_order config order_config -> range_order config order_graph ->
  key_order (all_projects config) order_all ->
  NewDependencyGraph order_config order_graph order_all = Some (Ok dg) ->
  TriggerDependents dg p (Some sessions) = Ok ready ->
  (x ∈ ready <->
   p ∈ deps_of config x /\
   forall dep, dep ∈ deps_of config x -> exists k s, (k, s) ∈ sessions /\ ses_Project s = dep /\
     ses_Status s <> SessionStatusError /\ ses_Status s <> SessionStatusUnreachable).
Proof.
  intros Hc Hg Ha Hnew. destruct (NewDependencyGraph_spec _ _ _ _ Hc Hg Ha) as (r & Hr & Hspec).
  rewrite Hnew in Hr. injection Hr as <-. destruct Hspec as (_ & Egr & Hdep).
  unfold TriggerDependents. destruct (str_empty p); [done|]. intros [= <-].
  rewrite list_elem_of_filter, Hdep. unfold edge. rewrite (and_comm (IsReady _ _ _ = true)).
  apply and_iff_compat_l. unfold IsReady, GetDependencies. rewrite Egr.
  destruct (Nat.eqb_spec (length (deps_of config x)) 0) as [E|_].
  - apply length_zero_iff_nil in E. rewrite E. split; [by intros _ ? ?%elem_of_nil | done].
  - rewrite forallb_forall. split.
    + intros Hall dep Hin. by apply hasCompletedSession_true, Hall, list_elem_of_In.
    + intros Hall dep Hin. by apply hasCompletedSession_true, Hall, list_elem_of_In.
Qed.
End Properties.

(** ** Witnesses *)
Module DepWitness.
Import Dep DepFacts.

Definition config : gmap string (list string) := {[ "web" := ["api"]; "api" := ["db"] ]}%string.
Definition cyclic : gmap string (list string) := {[ "a" := ["b"]; "b" := ["c"]; "c" := ["b"] ]}%string.

Lemma graph_built_iff_acyclic_witness :
  exists r, NewDependencyGraph (map_to_list config) (map_to_list config)
              (elements (all_projects config)) = Some r /\
    (is_Ok r = true <-> acyclic config) /\ (forall dg, r = Ok dg -> graph dg = config).
Proof.
  apply (graph_built_iff_acyclic config); [apply range_order_self.. | apply key_order_self].
Defined.

Example cyclic_refused :
  NewDependencyGraph (map_to_list cyclic) (map_to_list cyclic) ["a"; "b"; "c"]%string =
  Some (Err "cycle detected: b -> c -> b"%string).
Proof. vm_compute. reflexivity. Qed.

Lemma cyclic_order : key_order (all_projects cyclic) ["a"; "b"; "c"]%string.
Proof. unfold key_order. apply (bool_decide_unpack _). vm_compute. exact I. Qed.
Lemma cycle_error_names_a_cycle_witness :
  exists first l, "cycle detected: b -> c -> b"%string = cycle_error (first :: l ++ [first]) /\
    walk cyclic (first :: l ++ [first]).
Proof.
  apply (cycle_error_names_a_cycle cyclic (map_to_list cyclic) (map_to_list cyclic) ["a"; "b"; "c"]%string);
    [apply range_order_self.. | exact cyclic_order | vm_compute; reflexivity].
Defined.

Definition dg : DependencyGraph :=
  mkGraph config {[ "db" := ["api"]; "api" := ["web"] ]}%string {[ "web"; "api"; "db" ]}%string.
Definition running : TrackedSession :=
  mkSession "s1" "n1" "db" "running" (mkTokenUsage 0 0 0) 0 ε 0 Float64.zero ε 0.
Lemma trigger_dependents_exact_witness :
  "api"%string ∈ ["api"%string] <->
  "db"%string ∈ deps_of config "api" /\
  forall dep, dep ∈ deps_of config "api" -> exists k s, (k, s) ∈ [("s1"%string, running)] /\
    ses_Project s = dep /\ ses_Status s <> SessionStatusError /\ ses_Status s <> SessionStatusUnreachable.
Proof.
  apply (trigger_dependents_exact config (map_to_list config) (map_to_list config)
    (elements (all_projects config)) dg "db" "api" [("s1"%string, running)]);
    [apply range_order_self.. | apply key_order_self | vm_compute; reflexivity | vm_compute; reflexivity].
Defined.
End DepWitness.
