(* ===== verification/Commands.v ===== *)
(** * Commands

    internal/shared/protocol.go and types.go (the message envelope),
    internal/shared/auth_types.go ([CredentialPushPayload.Validate]) and
    internal/supervisor/command_types.go (commands, their intents and timeouts).
    [encoding/json] is the class [Json]. *)

From S2P Require Import Prelude GoStd.

(** ** JSON values of type [A] as [encoding/json] writes and reads them;
    [json_plain] holds of the values that survive a round trip (a string that is
    not UTF-8, for instance, does not). *)
Class Json (A : Type) := {
  json_marshal : A -> res string string;
  json_unmarshal : string -> res string A;
}.
Class JsonLaws (A : Type) `{Json A} := {
  json_plain : A -> Prop;
  json_round_trip a s : json_plain a -> json_marshal a = Ok s -> json_unmarshal s = Ok a;
}.

(** A dynamically typed value, [interface{}] decoded from JSON; an object lists
    its members. *)
Inductive value :=
  | VNil
  | VBool (b : bool)
  | VNum (f : Float64.t)
  | VStr (s : string)
  | VArr (l : list value)
  | VObj (m : list (string * value)).

(** ** The envelope *)
Definition ProtocolVersion : Z := 1.
Definition MessageTypeEvent : string := "event".
Definition MessageTypeCommand : string := "command".
Definition MessageTypeCommandResult : string := "command_result".
Definition MessageTypeHeartbeat : string := "heartbeat".
Definition MessageTypeRegister : string := "register".
Definition MessageTypeCredentialSync : string := "credential_sync".
Definition MessageTypeAuthState : string := "auth_state".
Definition MessageTypeConfigUpdate : string := "config_update".

Record Envelope := mkEnvelope {
  env_Version : Z; env_Type : string; env_RequestID : string;
  env_Timestamp : Z; env_Payload : string }.

Inductive envelope_error :=
  | ErrUnsupportedVersion (got : Z)
  | ErrMissingType
  | ErrMissingTimestamp
  | envelope_json (e : string).

Definition validateEnvelope (env : Envelope) : res envelope_error () :=
  reject (negb (env_Version env =? ProtocolVersion)) with_err (ErrUnsupportedVersion (env_Version env)) in
  reject (str_empty (env_Type env)) with_err ErrMissingType in
  reject (env_Timestamp env =? 0) with_err ErrMissingTimestamp in
  Ok ().

Definition MarshalEnvelope `{Json Envelope} (env : Envelope) : res envelope_error string :=
  let? _ := validateEnvelope env in res_map_err envelope_json (json_marshal env).

Definition UnmarshalEnvelope `{Json Envelope} (data : string) : res envelope_error Envelope :=
  let? env := res_map_err envelope_json (json_unmarshal data) in
  let? _ := validateEnvelope env in Ok env.

(** ** Credential pushes *)
Record CredentialPushPayload := mkCredentialPush {
  cpp_TargetNode : string; cpp_EnvVars : gmap string string; cpp_Version : Z }.
Inductive credential_push_error :=
  | target_node_empty
  | env_vars_empty
  | env_var_value_empty (key : string).

Fixpoint check_env_vars (vars : list (string * string)) : res credential_push_error () :=
  match vars with
  | [] => Ok ()
  | (key, v) :: vars' =>
      reject (str_empty v) with_err (env_var_value_empty key) in check_env_vars vars'
  end.
(** [order] is the order in which the variables are ranged over. *)
Definition CredentialPushPayload_Validate (p : CredentialPushPayload) (order : list (string * string))
    : res credential_push_error () :=
  reject (str_empty (Strings.TrimSpace (cpp_TargetNode p))) with_err target_node_empty in
  reject (size (cpp_EnvVars p) =? 0)%nat with_err env_vars_empty in
  check_env_vars order.

(** ** Commands *)
Definition CommandTypeCreateSession : string := "create_session".
Definition CommandTypePromptSession : string := "prompt_session".
Definition CommandTypeKillSession : string := "kill_session".
Definition CommandTypeRestartSession : string := "restart_session".
Definition CommandTypeSessionStatus : string := "session_status".
Definition CommandTypeHandover : string := "handover".
Definition CommandTypeCredentialPush : string := "credential_push".
Definition CommandTypeOAuthTrigger : string := "oauth_trigger".
Definition CommandTypeEnvCheck : string := "env_check".
Definition CommandTypeEnvProvision : string := "env_provision".
Definition CommandTypeAgentMDDiff : string := "agentmd_diff".
Definition CommandTypeAgentMDSync : string := "agentmd_sync".

Definition CommandStatusSuccess : string := "success".
Definition CommandStatusFailure : string := "failure".
Definition CommandStatusTimeout : string := "timeout".

Definition DefaultCommandTimeout : Z := 30 * Time.Second.
Definition HandoverCommandTimeout : Z := 60 * Time.Second.

Record CommandTarget := mkTarget { tgt_Project : string; tgt_NodeID : string }.
Record Command := mkCommand {
  cmd_CommandID : string; cmd_Type : string; cmd_IdempotencyKey : string;
  cmd_Target : CommandTarget; cmd_Args : gmap string value; cmd_Timeout : Z }.
Record CommandResult := mkResult {
  cr_CommandID : string; cr_Status : string; cr_Output : string; cr_Error : string;
  cr_Timestamp : Time.t }.

(** The cases of [ParseCommandIntent]'s switch. *)
Definition intent_cases : list (list string * string) :=
  [([CommandTypeCreateSession; "start"; "/start"], CommandTypeCreateSession);
   ([CommandTypePromptSession; "inject"; "/inject"; "resume"; "/resume"], CommandTypePromptSession);
   ([CommandTypeKillSession; "kill"; "/kill"], CommandTypeKillSession);
   ([CommandTypeRestartSession; "restart"; "/restart"], CommandTypeRestartSession);
   ([CommandTypeSessionStatus; "status"; "/status"], CommandTypeSessionStatus);
   ([CommandTypeHandover; "/handover"], CommandTypeHandover);
   ([CommandTypeCredentialPush; "push_credentials"; "/push_credentials"], CommandTypeCredentialPush);
   ([CommandTypeOAuthTrigger; "trigger_oauth"; "/trigger_oauth"], CommandTypeOAuthTrigger);
   ([CommandTypeEnvCheck; "check_env"; "/check_env"], CommandTypeEnvCheck);
   ([CommandTypeEnvProvision; "provision_env"; "/provision_env"], CommandTypeEnvProvision);
   ([CommandTypeAgentMDDiff; "diff_agentmd"; "/diff_agentmd"], CommandTypeAgentMDDiff);
   ([CommandTypeAgentMDSync; "sync_agentmd"; "/sync_agentmd"], CommandTypeAgentMDSync)]%string.

Fixpoint switch (cases : list (list string * string)) (x : string) : option string :=
  match cases with
  | [] => None
  | (labels, t) :: cases' => if existsb (String.eqb x) labels then Some t else switch cases' x
  end.

Definition normalize_intent (intent : string) : string := Strings.TrimSpace (Strings.ToLower intent).

(** The error names the intent. *)
Definition ParseCommandIntent (intent : string) : res string string :=
  match switch intent_cases (normalize_intent intent) with
  | Some t => Ok t
  | None => Err intent
  end.

Definition IsSupportedCommandType (t : string) : bool :=
  existsb (String.eqb t)
    [CommandTypeCreateSession; CommandTypePromptSession; CommandTypeKillSession;
     CommandTypeRestartSession; CommandTypeSessionStatus; CommandTypeHandover;
     CommandTypeCredentialPush; CommandTypeOAuthTrigger; CommandTypeEnvCheck;
     CommandTypeEnvProvision; CommandTypeAgentMDDiff; CommandTypeAgentMDSync].

Definition EffectiveTimeout (c : Command) : Z :=
  if 0 <? cmd_Timeout c then cmd_Timeout c
  else if String.eqb (cmd_Type c) CommandTypeHandover then HandoverCommandTimeout
  else DefaultCommandTimeout.

(** What the idempotency hash covers. *)
Record canonical := mkCanonical {
  can_Type : string; can_Target : CommandTarget; can_Args : gmap string value; can_Timeout : Z }.
Definition canonical_of (c : Command) : canonical :=
  mkCanonical (cmd_Type c) (cmd_Target c) (cmd_Args c) (Time.Milliseconds (EffectiveTimeout c)).
Definition canonicalPayload `{Json canonical} (c : Command) : res string string :=
  json_marshal (canonical_of c).

Definition set_id_type (id t : string) (c : Command) : Command :=
  mkCommand id t (cmd_IdempotencyKey c) (cmd_Target c) (cmd_Args c) (cmd_Timeout c).

(** ** Lemmas *)
Module CommandFacts.

Lemma EffectiveTimeout_pos c : 0 < EffectiveTimeout c.
Proof.
  unfold EffectiveTimeout. destruct (Z.ltb_spec 0 (cmd_Timeout c)); [done|].
  by destruct (String.eqb _ _).
Qed.

Lemma switch_Some cases x t :
  switch cases x = Some t -> exists labels, (labels, t) ∈ cases /\ x ∈ labels.
Proof.
  induction cases as [|[labels t'] cases IH]; simpl; [done|].
  destruct (existsb (String.eqb x) labels) eqn:E.
  - intros [= ->]. exists labels. split; [by left|].
    apply existsb_exists in E as (y & Hy & ->%String.eqb_eq). by apply list_elem_of_In.
  - intros (ls & ? & ?)%IH. exists ls. split; [by right | done].
Qed.

Lemma parse_result_supported intent t :
  ParseCommandIntent intent = Ok t -> IsSupportedCommandType t = true /\ ParseCommandIntent t = Ok t.
Proof.
  unfold ParseCommandIntent. destruct (switch _ _) as [t'|] eqn:E; [|done]. intros [= ->].
  apply switch_Some in E as (labels & Hin & _). unfold intent_cases in Hin.
  repeat (apply elem_of_cons in Hin as [Hin|Hin]; [injection Hin as -> ->; by vm_compute|]).
  by apply elem_of_nil in Hin.
Qed.

Lemma check_env_vars_ok vars :
  check_env_vars vars = Ok () <-> forall k v, (k, v) ∈ vars -> v <> ε.
Proof.
  induction vars as [|[k v] vars IH]; simpl.
  - split; [by intros _ ? ? ?%elem_of_nil | done].
  - destruct (str_empty v) eqn:Ev.
    + apply str_empty_true in Ev as ->. split; [done|]. intros H. by destruct (H k ε); [left|].
    + apply str_empty_false in Ev. rewrite IH. split.
      * intros H k' v' [[= -> ->]|?]%elem_of_cons; [done | by eapply H].
      * intros H k' v' ?. apply (H k' v'). by right.
Qed.

Lemma validateEnvelope_ok env :
  validateEnvelope env = Ok () <->
  env_Version env = ProtocolVersion /\ env_Type env <> ε /\ env_Timestamp env <> 0.
Proof.
  unfold validateEnvelope. destruct (Z.eqb_spec (env_Version env) ProtocolVersion); simpl; [|naive_solver].
  destruct (str_empty (env_Type env)) eqn:Et.
  - apply str_empty_true in Et. naive_solver.
  - apply str_empty_false in Et. destruct (Z.eqb_spec (env_Timestamp env) 0); naive_solver.
Qed.

(** What one side sends the other reads back. *)
Lemma marshal_read `{JsonLaws Envelope} env text :
  json_plain env -> MarshalEnvelope env = Ok text -> UnmarshalEnvelope text = Ok env.
Proof.
  intros Hp. unfold MarshalEnvelope, UnmarshalEnvelope. destruct (validateEnvelope env) eqn:Ev; [|done]. simpl.
  destruct (json_marshal env) eqn:Ej; [|done]. intros [= <-]. rewrite (json_round_trip _ _ Hp Ej). simpl. by rewrite Ev.
Qed.
End CommandFacts.

(** ** Properties *)
Section Properties.
Import CommandFacts.

(** The envelope codec is symmetric: what one side marshals the other
    unmarshals to the same envelope, and both refuse exactly the envelopes of
    another protocol version, without a type or without a time stamp. *)
Theorem envelope_round_trip `{JsonLaws Envelope} (env : Envelope) (data : string) :
  json_plain env -> json_marshal env = Ok data ->
  if bool_decide (env_Version env = ProtocolVersion /\ env_Type env <> ε /\ env_Timestamp env <> 0)
  then MarshalEnvelope env = Ok data /\ UnmarshalEnvelope data = Ok env
  else (exists e, MarshalEnvelope env = Err e /\ UnmarshalEnvelope data = Err e).
Proof.
  intros Hp Hm. unfold MarshalEnvelope, UnmarshalEnvelope.
  rewrite Hm, (json_round_trip env data Hp Hm). simpl.
  pose proof (validateEnvelope_ok env) as Hv. case_bool_decide as Hd.
  - apply Hv in Hd. by rewrite Hd.
  - destruct (validateEnvelope env) as [[]|e]; [naive_solver|]. simpl. eauto.
Qed.

(** A credential push validates exactly when it names a target node other
    than white space and carries at least one variable, none of them empty;
    which map order found the variables does not matter. *)
Theorem credential_push_valid_iff (p : CredentialPushPayload) (order : list (string * string)) :
  range_order (cpp_EnvVars p) order ->
  (CredentialPushPayload_Validate p order = Ok () <->
   Strings.TrimSpace (cpp_TargetNode p) <> ε /\ cpp_EnvVars p <> ∅ /\
   forall k v, cpp_EnvVars p !! k = Some v -> v <> ε).
Proof.
  intros Ho. unfold CredentialPushPayload_Validate.
  destruct (str_empty (Strings.TrimSpace _)) eqn:Et; [apply str_empty_true in Et; naive_solver|].
  apply str_empty_false in Et. destruct (Nat.eqb_spec (size (cpp_EnvVars p)) 0) as [Es|Es].
  - apply map_size_empty_inv in Es. naive_solver.
  - rewrite check_env_vars_ok. rewrite map_size_non_empty_iff in Es.
    setoid_rewrite (range_order_elem _ _ _ _ Ho). naive_solver.
Qed.
End Properties.

(** ** Witnesses *)
Module CommandWitness.
(** An encoding of envelopes: the fields with their lengths, in unary; the payload
    is rewritten the way encoding/json rewrites one. *)
Fixpoint unary (n : nat) : string := match n with O => ":" | S n' => String "1" (unary n') end.
Fixpoint parse_unary (s : string) : option (nat * string) :=
  match s with
  | String c s' =>
      if Ascii.eqb c ":" then Some (O, s')
      else '(n, r) ← parse_unary s'; Some (S n, r)
  | ε => None
  end.
Lemma parse_unary_app n r : parse_unary (unary n +:+ r)%stdpp = Some (n, r).
Proof. induction n; simpl; [done | by rewrite IHn]. Qed.
Definition field_text (s : string) : string := (unary (String.length s) +:+ s)%stdpp.
Definition read_field (s : string) : option (string * string) :=
  '(n, r) ← parse_unary s; Some (Strings.take_bytes n r, Strings.drop_bytes n r).
Lemma read_field_text s r : read_field (field_text s +:+ r)%stdpp = Some (s, r).
Proof.
  unfold read_field, field_text. rewrite StringsFacts.append_assoc, parse_unary_app. simpl.
  by rewrite StringsFacts.take_append, StringsFacts.drop_append.
Qed.
Definition num_text (z : Z) : string :=
  (field_text (if z <? 0 then "-"%string else "+"%string) +:+ unary (Z.abs_nat z))%stdpp.
Definition read_num (s : string) : option (Z * string) :=
  '(sg, r) ← read_field s; '(n, r') ← parse_unary r;
  Some ((if String.eqb sg "-" then - Z.of_nat n else Z.of_nat n), r').
Lemma read_num_text z r : read_num (num_text z +:+ r)%stdpp = Some (z, r).
Proof.
  unfold read_num, num_text. rewrite StringsFacts.append_assoc, read_field_text. simpl.
  rewrite parse_unary_app. simpl. destruct (Z.ltb_spec z 0); simpl; do 2 f_equal; lia.
Qed.

(** What encoding/json writes for a [json.RawMessage]: null for an empty one, and
    otherwise its text without the space between the tokens and with the
    characters of HTML escaped.  (That it also refuses a text that is not JSON
    makes no difference to the payloads below.) *)
Definition is_blank (c : ascii) : bool :=
  let n := nat_of_ascii c in ((n =? 32) || (n =? 9) || (n =? 10) || (n =? 13))%nat.
Definition html_escaped (c : ascii) : string :=
  if Ascii.eqb c "<" then "\u003c" else if Ascii.eqb c ">" then "\u003e"
  else if Ascii.eqb c "&" then "\u0026" else String c ε.
Fixpoint compacted (quoted escaped : bool) (s : string) : string :=
  match s with
  | ε => ε
  | String c s' =>
      if quoted then
        (html_escaped c +:+
         compacted (negb (Ascii.eqb c (ascii_of_nat 34) && negb escaped)) (Ascii.eqb c "\" && negb escaped) s')%stdpp
      else if is_blank c then compacted false false s'
      else (html_escaped c +:+ compacted (Ascii.eqb c (ascii_of_nat 34)) false s')%stdpp
  end.
Definition raw_text (s : string) : string := if str_empty s then "null" else compacted false false s.

(** A text without space and without the characters of HTML is left as it is. *)
Definition tight_char (c : ascii) : bool :=
  negb (is_blank c) && negb (Ascii.eqb c "<" || Ascii.eqb c ">" || Ascii.eqb c "&").
Definition tight (s : string) : bool := Strings.str_forallb tight_char s.
Lemma tight_app s t : tight (s +:+ t)%stdpp = tight s && tight t.
Proof. apply StringsFacts.str_forallb_app. Qed.
Lemma compacted_tight q e s : tight s = true -> compacted q e s = s.
Proof.
  revert q e. induction s as [|c s IH]; intros q e; [done|]. unfold tight. simpl.
  intros [[Hb Hh]%andb_true_iff Hs]%andb_true_iff. apply negb_true_iff in Hb, Hh. rewrite Hb.
  apply orb_false_iff in Hh as [[H1 H2]%orb_false_iff H3]. unfold html_escaped. rewrite H1, H2, H3.
  destruct q; simpl; by rewrite IH.
Qed.
Lemma raw_text_tight s : tight s = true -> s <> ε -> raw_text s = s.
Proof. intros Ht Hs%str_empty_false. unfold raw_text. rewrite Hs. by apply compacted_tight. Qed.
Lemma tight_unary n : tight (unary n) = true.
Proof. by induction n. Qed.
Lemma digit_tight c : Strings.is_digit c = true -> tight_char c = true.
Proof. by destruct c as [[] [] [] [] [] [] [] []]. Qed.
Lemma tight_ZeroPad w n : tight (ZeroPad w n) = true.
Proof. apply NumberFacts.ZeroPad_chars; [done | exact digit_tight]. Qed.
Lemma tight_field s : tight (field_text s) = tight s.
Proof. unfold field_text. by rewrite tight_app, tight_unary. Qed.
Lemma tight_num z : tight (num_text z) = true.
Proof. unfold num_text. rewrite tight_app, tight_field, tight_unary. by destruct (z <? 0). Qed.

#[export] Instance envelope_json : Json Envelope := {
  json_marshal e := Ok (num_text (env_Version e) +:+ (field_text (env_Type e) +:+
    (field_text (env_RequestID e) +:+ (num_text (env_Timestamp e) +:+
    (field_text (raw_text (env_Payload e)) +:+ ε)))))%stdpp;
  json_unmarshal s :=
    match '(v, s) ← read_num s; '(t, s) ← read_field s; '(r, s) ← read_field s;
          '(ts, s) ← read_num s; '(p, s) ← read_field s; Some (mkEnvelope v t r ts p) with
    | Some e => Ok e
    | None => Err "unexpected end of JSON input"%string
    end }.
#[export] Instance envelope_json_laws : JsonLaws Envelope.
Proof.
  refine {| json_plain e := raw_text (env_Payload e) = env_Payload e |}. intros [v t r ts p] s Hp [= <-].
  simpl in *. rewrite Hp.
  rewrite read_num_text; simpl. rewrite read_field_text; simpl. rewrite read_field_text; simpl.
  rewrite read_num_text; simpl. by rewrite read_field_text.
Defined.

Definition env1 : Envelope := mkEnvelope 1 "heartbeat" "r1" 7 "{}".
Definition data1 : string := match json_marshal env1 with Ok s => s | Err _ => ε end.
Lemma envelope_round_trip_witness :
  MarshalEnvelope env1 = Ok data1 /\ UnmarshalEnvelope data1 = Ok env1.
Proof. exact (envelope_round_trip env1 data1 eq_refl eq_refl). Defined.
(** Not every payload survives: [json_plain] excludes some. *)
Example payloads_rewritten :
  raw_text ε = "null"%string /\ raw_text "{ }" = "{}"%string /\ raw_text "[1 , 2]" = "[1,2]"%string /\
  raw_text "<&>" = "\u003c\u0026\u003e"%string.
Proof. vm_compute. done. Qed.

Definition push : CredentialPushPayload :=
  mkCredentialPush " n1 " {[ "API_KEY" := "k"; "TOKEN" := "t" ]}%string 3.
Lemma credential_push_valid_iff_witness :
  CredentialPushPayload_Validate push (map_to_list (cpp_EnvVars push)) = Ok () <->
  Strings.TrimSpace (cpp_TargetNode push) <> ε /\ cpp_EnvVars push <> ∅ /\
  forall k v, cpp_EnvVars push !! k = Some v -> v <> ε.
Proof. apply (credential_push_valid_iff push), range_order_self. Defined.
End CommandWitness.
