(* ===== verification/Dispatcher.v ===== *)
(** * Dispatcher

    internal/supervisor/command_dispatcher.go.  [Dispatch] is the sequential
    part: target resolution, the idempotency table and the composition of a
    dispatch, with what [sendCommand] came back with as an argument.
    [Waiters] is [sendCommand], [waitForResult] and [HandleCommandResult] as
    steps of concurrent callers and deliveries over the shared map of result
    channels: each critical section of [pendingMu] and each channel operation is a
    step, and a send may also fail or panic.  [CommandFlow] cuts the rest of a
    dispatch the same way and joins it to the hub.
    Error texts that end up in a result are arguments ([errtext]), as are uuid
    generation and parsing and the SHA-256 digest in hexadecimal. *)

From S2P Require Import Prelude GoStd SqlStore NodeRegistry SessionTracker Commands.

(** [DELETE ... WHERE key = ?]. *)
Class KeyedDelete (DB E : Type) := delete_row : DB -> string -> res E DB.

(** A row of [command_idempotency]. *)
Record IdemRow := mkIdemRow {
  ir_key_hash : string; ir_command_id : string; ir_result : string; ir_expires_at : string }.
#[export] Instance idem_row_key : RowKey IdemRow := ir_key_hash.

Inductive dispatch_error (E : Type) :=
  | unsupported_intent (intent : string)
  | invalid_command_id (id : string)
  | canonical_payload_failed (e : string)
  | send_failed (e : string)
  | empty_result (id : string)
  | idempotency_unavailable
  | marshal_result_failed (e : string)
  | cache_write_failed (e : E).
Arguments unsupported_intent {E} intent.
Arguments invalid_command_id {E} id.
Arguments canonical_payload_failed {E} e.
Arguments send_failed {E} e.
Arguments empty_result {E} id.
Arguments idempotency_unavailable {E}.
Arguments marshal_result_failed {E} e.
Arguments cache_write_failed {E} e.

Module Dispatch.
Section Defs.
Context {DB IDB E : Type} `{KeyedTable DB NodeRow E} `{TimeText}.
Context `{KeyedTable IDB IdemRow E} `{!KeyedDelete IDB E}.
Context `{Json CommandResult} `{Json canonical}.
Context (uuid_parse : string -> bool) (sha256_hex : string -> string).
Context (errtext : registry_error E -> string).

(** [disp_sessions] is the tracker's sessions in the order they are ranged over,
    or [None] without a tracker; the nil database and registry are [None]. *)
Record CommandDispatcher := mkDispatcher {
  disp_db : option IDB;
  disp_registry : option (Registry.NodeRegistry DB);
  disp_sessions : option (list (string * TrackedSession)) }.

Definition with_registry (d : CommandDispatcher) (r : Registry.NodeRegistry DB) : CommandDispatcher :=
  mkDispatcher (disp_db d) (Some r) (disp_sessions d).
Definition with_db (d : CommandDispatcher) (i : IDB) : CommandDispatcher :=
  mkDispatcher (Some i) (disp_registry d) (disp_sessions d).

(** *** Target resolution *)

(** The loop over the tracked sessions. *)
Fixpoint session_node (r : Registry.NodeRegistry DB) (project : string)
    (sessions : list (string * TrackedSession)) : Registry.NodeRegistry DB * option string :=
  match sessions with
  | [] => (r, None)
  | (_, s) :: sessions' =>
      if negb (String.eqb (ses_Project s) project) then session_node r project sessions'
      else
        match Registry.GetNode r (ses_NodeID s) with
        | (r', Err _) => session_node r' project sessions'
        | (r', Ok node) =>
            if String.eqb (node_Status node) NodeStatusOnline then (r', Some (node_ID node))
            else session_node r' project sessions'
        end
  end.

(** The loop over the registry's nodes. *)
Fixpoint listed_node (project : string) (nodes : list NodeEntry) : option string :=
  match nodes with
  | [] => None
  | node :: nodes' =>
      if negb (String.eqb (node_Status node) NodeStatusOnline) then listed_node project nodes'
      else if existsb (fun p => String.eqb p project) (node_Projects node) then Some (node_ID node)
      else listed_node project nodes'
  end.

(** [order r] is the order in which the nodes of registry [r] are ranged over. *)
Definition resolveTarget (order : Registry.NodeRegistry DB -> list (string * NodeEntry))
    (d : CommandDispatcher) (cmd : Command) : CommandDispatcher * res string string :=
  match disp_registry d with
  | None => (d, Err "node registry unavailable"%string)
  | Some r =>
      let nodeID := tgt_NodeID (cmd_Target cmd) in
      let project := tgt_Project (cmd_Target cmd) in
      if negb (str_empty nodeID) then
        match Registry.GetNode r nodeID with
        | (r', Err ErrNodeNotFound) =>
            (with_registry d r', Err ("target node not found: " +:+ nodeID)%stdpp)
        | (r', Err e) =>
            (with_registry d r', Err ("resolve node " +:+ nodeID +:+ ": " +:+ errtext e)%stdpp)
        | (r', Ok node) =>
            (with_registry d r',
             if negb (String.eqb (node_Status node) NodeStatusOnline)
             then Err ("target node offline: " +:+ nodeID)%stdpp
             else Ok (node_ID node))
        end
      else if str_empty project then (d, Err "target project or node_id is required"%string)
      else
        let '(r', found) :=
          match disp_sessions d with
          | None => (r, None)
          | Some sessions => session_node r project sessions
          end in
        (with_registry d r',
         match found with
         | Some id => Ok id
         | None =>
             match listed_node project (Registry.ListNodes (order r')) with
             | Some id => Ok id
             | None => Err ("no online node found for project: " +:+ project)%stdpp
             end
         end)
  end.

(** *** The idempotency table *)
Definition idempotencyHash (cmd : Command) : res (dispatch_error E) string :=
  match canonicalPayload cmd with
  | Err e => Err (canonical_payload_failed e)
  | Ok payload => Ok (sha256_hex (cmd_IdempotencyKey cmd +:+ ":" +:+ payload)%stdpp)
  end.

(** A failed purge of an expired row is only logged. *)
Definition checkIdempotency (d : CommandDispatcher) (now : Time.t) (key : string)
    : CommandDispatcher * option CommandResult :=
  match disp_db d with
  | None => (d, None)
  | Some i =>
      match select_row i key with
      | Err _ => (d, None)
      | Ok None => (d, None)
      | Ok (Some row) =>
          match parseSQLiteTimestamp (ir_expires_at row) with
          | None => (d, None)
          | Some expiresAt =>
              if Time.After now expiresAt then
                match delete_row i key with
                | Ok i' => (with_db d i', None)
                | Err _ => (d, None)
                end
              else
                match json_unmarshal (ir_result row) with
                | Err _ => (d, None)
                | Ok result => (d, Some result)
                end
          end
      end
  end.

Definition cacheResult (d : CommandDispatcher) (now : Time.t) (key : string) (result : CommandResult)
    : CommandDispatcher * res (dispatch_error E) () :=
  match disp_db d with
  | None => (d, Err idempotency_unavailable)
  | Some i =>
      match json_marshal result with
      | Err e => (d, Err (marshal_result_failed e))
      | Ok text =>
          let expiresAt := Time.Add now (24 * Time.Hour) in
          match upsert_row i (mkIdemRow key (cr_CommandID result) text (Format_RFC3339Nano expiresAt)) with
          | Err e => (d, Err (cache_write_failed e))
          | Ok i' => (with_db d i', Ok ())
          end
      end
  end.

(** *** A dispatch *)

(** A result gets the command's id and a time when it lacks them. *)
Definition completed (cmd : Command) (now : Time.t) (r : CommandResult) : CommandResult :=
  mkResult (if str_empty (cr_CommandID r) then cmd_CommandID cmd else cr_CommandID r)
    (cr_Status r) (cr_Output r) (cr_Error r)
    (if Time.IsZero (cr_Timestamp r) then now else cr_Timestamp r).
(** The result of a command whose target was not resolved. *)
Definition unresolved (cmd : Command) (now : Time.t) (e : string) : CommandResult :=
  mkResult (cmd_CommandID cmd) CommandStatusFailure ε e now.
(** [sent node cmd] is what [sendCommand] returns: an error, or a result
    ([None] for a nil one).  The last component lists the commands handed to
    [sendCommand].  [now] is the clock when the dispatch starts, [now'] after the
    wait. *)
Definition dispatchToTarget (order : Registry.NodeRegistry DB -> list (string * NodeEntry))
    (sent : string -> Command -> res string (option CommandResult)) (now now' : Time.t)
    (d : CommandDispatcher) (cmd : Command)
    : CommandDispatcher * res (dispatch_error E) CommandResult * list (string * Command) :=
  match resolveTarget order d cmd with
  | (d', Err e) => (d', Ok (unresolved cmd now e), [])
  | (d', Ok nodeID) =>
      (d',
       match sent nodeID cmd with
       | Err e => Err (send_failed e)
       | Ok None => Err (empty_result (cmd_CommandID cmd))
       | Ok (Some r) => Ok (completed cmd now' r)
       end, [(nodeID, cmd)])
  end.

Definition DispatchCommand (order : Registry.NodeRegistry DB -> list (string * NodeEntry))
    (sent : string -> Command -> res string (option CommandResult)) (new_uuid : string)
    (now now' : Time.t) (d : CommandDispatcher) (cmd : Command)
    : CommandDispatcher * res (dispatch_error E) CommandResult * list (string * Command) :=
  match ParseCommandIntent (cmd_Type cmd) with
  | Err intent => (d, Err (unsupported_intent intent), [])
  | Ok t =>
      if negb (str_empty (cmd_CommandID cmd)) && negb (uuid_parse (cmd_CommandID cmd)) then
        (d, Err (invalid_command_id (cmd_CommandID cmd)), [])
      else
        let cmd := set_id_type (if str_empty (cmd_CommandID cmd) then new_uuid else cmd_CommandID cmd) t cmd in
        if str_empty (cmd_IdempotencyKey cmd) then dispatchToTarget order sent now now' d cmd
        else
          match idempotencyHash cmd with
          | Err e => (d, Err e, [])
          | Ok key =>
              match checkIdempotency d now key with
              | (d1, Some cached) => (d1, Ok cached, [])
              | (d1, None) =>
                  match dispatchToTarget order sent now now' d1 cmd with
                  | (d2, Err e, sends) => (d2, Err e, sends)
                  | (d2, Ok result, sends) =>
                      match cacheResult d2 now' key result with
                      | (d3, Err e) => (d3, Err e, sends)
                      | (d3, Ok _) => (d3, Ok result, sends)
                      end
                  end
              end
          end
  end.
End Defs.
Arguments CommandDispatcher : clear implicits.
End Dispatch.

(** ** Concurrent callers

    [sendCommand] registers a result channel under the command id, sends, takes
    the channel from the map again and waits on it; every exit that returns deletes
    the map entry of the id.  A channel has room for one result.  Callers that were
    given the same command id share the map entry.

    [pendingMu] is only ever held from one access to the map to the next, never
    over the send, the wait or the delivery.  A step is therefore one critical
    section of it, or one operation outside of it: the send, an exit of the select,
    the send of a result to its channel.  Between any two steps of a goroutine those
    of the others may come. *)
Module Waiters.

Inductive caller :=
  | Sending (cmd : Command)                                 (* registered, before Send has returned *)
  | Sent (cmd : Command)                                    (* before the lookup of waitForResult *)
  | Waiting (cmd : Command) (ch : nat)                      (* in the select *)
  | Leaving (cmd : Command) (r : CommandResult)             (* before the deferred delete *)
  | Failing (cmd : Command) (e : string)                    (* before the delete of a failed send *)
  | Returned (cmd : Command) (r : res string CommandResult)
  | Panicked (cmd : Command).                               (* Send met a closed channel *)

(** [delivering]: the goroutines that found a result's channel in the map and have
    yet to send the result to it. *)
Record state := mkState {
  pending : gmap string nat;
  buffers : gmap nat (option CommandResult);
  next_ch : nat;
  callers : gmap nat caller;
  delivering : gmap nat (nat * CommandResult) }.
Definition init : state := mkState ∅ ∅ 0 ∅ ∅.

Definition with_caller (s : state) (i : nat) (c : caller) : state :=
  mkState (pending s) (buffers s) (next_ch s) (<[i := c]> (callers s)) (delivering s).
Definition delete_pending (s : state) (id : string) : state :=
  mkState (delete id (pending s)) (buffers s) (next_ch s) (callers s) (delivering s).
Definition with_buffer (s : state) (ch : nat) (o : option CommandResult) : state :=
  mkState (pending s) (<[ch := o]> (buffers s)) (next_ch s) (callers s) (delivering s).
Definition with_delivering (s : state) (m : gmap nat (nat * CommandResult)) : state :=
  mkState (pending s) (buffers s) (next_ch s) (callers s) m.

(** The map's channel for a command id, made when there is none. *)
Definition get_or_make (s : state) (id : string) : state * nat :=
  match pending s !! id with
  | Some ch => (s, ch)
  | None =>
      (mkState (<[id := next_ch s]> (pending s)) (<[next_ch s := None]> (buffers s))
         (S (next_ch s)) (callers s) (delivering s), next_ch s)
  end.

Definition stamped (now : Time.t) (r : CommandResult) : CommandResult :=
  if Time.IsZero (cr_Timestamp r)
  then mkResult (cr_CommandID r) (cr_Status r) (cr_Output r) (cr_Error r) now else r.

(** [HandleCommandResult] as far as the end of its critical section, and the send
    that follows, which drops the result when the channel is full. *)
Definition find_waiter (s : state) (now : Time.t) (result : CommandResult) : option (nat * CommandResult) :=
  if str_empty (cr_CommandID result) then None
  else
    let result := stamped now result in
    match pending s !! cr_CommandID result with
    | None => None
    | Some ch => Some (ch, result)
    end.
Definition offer (s : state) (ch : nat) (result : CommandResult) : state * bool :=
  match buffers s !! ch with
  | Some None => (with_buffer s ch (Some result), true)
  | _ => (s, false)
  end.
(** The whole of it, when nothing comes between. *)
Definition HandleCommandResult (s : state) (now : Time.t) (result : CommandResult) : state * bool :=
  match find_waiter s now result with
  | None => (s, false)
  | Some (ch, result) => offer s ch result
  end.

(** The result in an envelope; the id of the envelope stands in for a missing one. *)
Definition result_in `{Json CommandResult} (env : Envelope) : res string CommandResult :=
  let? result := json_unmarshal (env_Payload env) in
  Ok (if str_empty (cr_CommandID result)
      then mkResult (env_RequestID env) (cr_Status result) (cr_Output result)
             (cr_Error result) (cr_Timestamp result)
      else result).
(** [HandleCommandResultEnvelope]: whether there was a waiter is only logged. *)
Definition HandleCommandResultEnvelope `{Json CommandResult} (s : state) (now : Time.t)
    (env : option Envelope) : state * res string () :=
  match env with
  | None => (s, Err "nil command result envelope"%string)
  | Some env =>
      match result_in env with
      | Err e => (s, Err e)
      | Ok result => ((HandleCommandResult s now result).1, Ok ())
      end
  end.

Section Steps.
Context (duration_text : Z -> string).

Definition timeout_result (cmd : Command) (now : Time.t) : CommandResult :=
  mkResult (cmd_CommandID cmd) CommandStatusTimeout ε
    ("command timed out after " +:+ duration_text (EffectiveTimeout cmd))%stdpp now.

(** [i] is a caller, [j] a goroutine that brings results. *)
Inductive label :=
  | LBegin (i : nat) (cmd : Command)
  | LSend (i : nat) (err : option string)
  | LPanic (i : nat)
  | LDrop (i : nat)
  | LLookup (i : nat)
  | LReceive (i : nat)
  | LTimeout (i : nat) (now : Time.t)
  | LReturn (i : nat)
  | LFind (j : nat) (now : Time.t) (r : CommandResult)
  | LOffer (j : nat).

Inductive step : state -> label -> state -> Prop :=
  | step_begin s i cmd :
      callers s !! i = None ->
      step s (LBegin i cmd) (with_caller (get_or_make s (cmd_CommandID cmd)).1 i (Sending cmd))
  | step_send_ok s i cmd :
      callers s !! i = Some (Sending cmd) ->
      step s (LSend i None) (with_caller s i (Sent cmd))
  | step_send_err s i cmd e :
      callers s !! i = Some (Sending cmd) ->
      step s (LSend i (Some e)) (with_caller s i (Failing cmd e))
  | step_panic s i cmd :
      callers s !! i = Some (Sending cmd) ->
      step s (LPanic i) (with_caller s i (Panicked cmd))
  | step_drop s i cmd e :
      callers s !! i = Some (Failing cmd e) ->
      step s (LDrop i) (with_caller (delete_pending s (cmd_CommandID cmd)) i (Returned cmd (Err e)))
  | step_lookup s i cmd s' ch :
      callers s !! i = Some (Sent cmd) ->
      get_or_make s (cmd_CommandID cmd) = (s', ch) ->
      step s (LLookup i) (with_caller s' i (Waiting cmd ch))
  | step_receive s i cmd ch r :
      callers s !! i = Some (Waiting cmd ch) ->
      buffers s !! ch = Some (Some r) ->
      step s (LReceive i) (with_caller (with_buffer s ch None) i (Leaving cmd r))
  | step_timeout s i cmd ch now :
      callers s !! i = Some (Waiting cmd ch) ->
      step s (LTimeout i now) (with_caller s i (Leaving cmd (timeout_result cmd now)))
  | step_return s i cmd r :
      callers s !! i = Some (Leaving cmd r) ->
      step s (LReturn i) (with_caller (delete_pending s (cmd_CommandID cmd)) i (Returned cmd (Ok r)))
  | step_find s j now r :
      delivering s !! j = None ->
      step s (LFind j now r)
        (match find_waiter s now r with
         | Some x => with_delivering s (<[j := x]> (delivering s))
         | None => s
         end)
  | step_offer s j ch r :
      delivering s !! j = Some (ch, r) ->
      step s (LOffer j) (with_delivering (offer s ch r).1 (delete j (delivering s))).

(** The states reached, with the labels of the way. *)
Inductive reached : list label -> state -> Prop :=
  | reached_init : reached [] init
  | reached_step ls s l s' : reached ls s -> step s l s' -> reached (ls ++ [l]) s'.
End Steps.
End Waiters.

(** ** Lemmas *)
Module WaiterFacts.
Import Waiters.
Section Facts.
Context (duration_text : Z -> string).

(** A result the callers of [HandleCommandResult] brought. *)
Definition brought (ls : list label) (r : CommandResult) : Prop :=
  exists j now r0, LFind j now r0 ∈ ls /\ r = stamped now r0.
(** A result that is the command's own: brought for its id, or its timeout. *)
Definition own_result (ls : list label) (cmd : Command) (r : CommandResult) : Prop :=
  cr_CommandID r = cmd_CommandID cmd /\
  (brought ls r \/ exists now, r = timeout_result duration_text cmd now).

Definition caller_command (c : caller) : option Command :=
  match c with
  | Sending cmd | Sent cmd | Waiting cmd _ | Leaving cmd _ | Failing cmd _ | Panicked cmd => Some cmd
  | Returned _ _ => None
  end.

(** [owner] is the command id each channel was made for. *)
Record waiters_inv (ls : list label) (owner : nat -> string) (s : state) : Prop := {
  wi_pending : forall id ch, pending s !! id = Some ch -> owner ch = id /\ (ch < next_ch s)%nat;
  wi_waiting : forall i cmd ch, callers s !! i = Some (Waiting cmd ch) ->
    owner ch = cmd_CommandID cmd /\ (ch < next_ch s)%nat;
  wi_buffer : forall ch r, buffers s !! ch = Some (Some r) ->
    owner ch = cr_CommandID r /\ (ch < next_ch s)%nat /\ brought ls r;
  wi_delivering : forall j ch r, delivering s !! j = Some (ch, r) ->
    owner ch = cr_CommandID r /\ (ch < next_ch s)%nat /\ brought ls r;
  wi_result : forall i cmd r,
    callers s !! i = Some (Leaving cmd r) \/ callers s !! i = Some (Returned cmd (Ok r)) ->
    own_result ls cmd r;
  wi_active : forall id ch, pending s !! id = Some ch ->
    exists i c cmd, callers s !! i = Some c /\ caller_command c = Some cmd /\ cmd_CommandID cmd = id }.

Lemma brought_mono ls l r : brought ls r -> brought (ls ++ [l]) r.
Proof. intros (j & now & r0 & ? & ?). exists j, now, r0. split; [|done]. apply elem_of_app. by left. Qed.
Lemma own_result_mono ls l cmd r : own_result ls cmd r -> own_result (ls ++ [l]) cmd r.
Proof. intros [? [?|?]]; split; auto using brought_mono. Qed.

Lemma stamped_id now r : cr_CommandID (stamped now r) = cr_CommandID r.
Proof. unfold stamped. by case_match. Qed.

Lemma inv_label ls l owner s : waiters_inv ls owner s -> waiters_inv (ls ++ [l]) owner s.
Proof.
  intros [H1 H2 H3 Hd H4 H5]. split; eauto using own_result_mono.
  - intros ch r Hb. destruct (H3 ch r Hb) as (? & ? & ?). auto using brought_mono.
  - intros j ch r Hb. destruct (Hd j ch r Hb) as (? & ? & ?). auto using brought_mono.
Qed.

(** A caller moves on without finishing, on an unchanged map of channels. *)
Lemma inv_move ls owner s i c c' cmd :
  waiters_inv ls owner s -> callers s !! i = Some c ->
  caller_command c = Some cmd -> caller_command c' = Some cmd ->
  (forall ch, c' = Waiting cmd ch -> owner ch = cmd_CommandID cmd /\ (ch < next_ch s)%nat) ->
  (forall r, c' = Leaving cmd r -> own_result ls cmd r) ->
  waiters_inv ls owner (with_caller s i c').
Proof.
  intros [H1 H2 H3 Hd H4 H5] Hc Hcmd Hcmd' Hw Hl. split; simpl; auto.
  - intros j cmd' ch [[<- E]|[_ ?]]%lookup_insert_Some; [|eauto]. subst c'. simpl in Hcmd'.
    injection Hcmd' as ->. by apply Hw.
  - intros j cmd' r [Hr|Hr]; apply lookup_insert_Some in Hr as [[<- E]|[_ ?]]; eauto; subst c'; simpl in Hcmd'.
    + injection Hcmd' as ->. by apply Hl.
    + done.
  - intros id ch Hp. destruct (H5 id ch Hp) as (j & cj & cmdj & Hj & ? & ?).
    destruct (decide (j = i)) as [->|Hne].
    + exists i, c', cmd. rewrite lookup_insert_eq. split_and!; [done | done | congruence].
    + exists j, cj, cmdj. by rewrite lookup_insert_ne.
Qed.

(** A caller finishes: the entry of its id goes with it. *)
Lemma inv_finish ls owner s i cmd res :
  waiters_inv ls owner s ->
  (forall c cmd', callers s !! i = Some c -> caller_command c = Some cmd' -> cmd' = cmd) ->
  (forall r, res = Ok r -> own_result ls cmd r) ->
  waiters_inv ls owner (with_caller (delete_pending s (cmd_CommandID cmd)) i (Returned cmd res)).
Proof.
  intros [H1 H2 H3 Hd H4 H5] Hc Hr. split; simpl; auto.
  - intros id ch [_ ?]%lookup_delete_Some. auto.
  - intros j cmd' ch [[_ [=]]|[_ ?]]%lookup_insert_Some. eauto.
  - intros j cmd' r [Hj|Hj]; apply lookup_insert_Some in Hj as [[<- E]|[_ ?]]; eauto; [done|].
    injection E as -> ->. by apply Hr.
  - intros id ch [Hne Hp]%lookup_delete_Some. destruct (H5 id ch Hp) as (j & cj & cmdj & Hj & Hcj & <-).
    exists j, cj, cmdj. rewrite lookup_insert_ne; [done|]. intros <-. by rewrite (Hc _ _ Hj Hcj) in Hne.
Qed.

(** Taking or making the channel of an id. *)
Lemma inv_get_or_make ls owner s id i c cmd :
  waiters_inv ls owner s -> caller_command c = Some cmd -> cmd_CommandID cmd = id ->
  (forall c0 cmd0, callers s !! i = Some c0 -> caller_command c0 = Some cmd0 -> cmd0 = cmd) ->
  (forall r, c <> Leaving cmd r) -> (forall ch, c = Waiting cmd ch -> ch = (get_or_make s id).2) ->
  exists owner', waiters_inv ls owner' (with_caller (get_or_make s id).1 i c).
Proof.
  intros [H1 H2 H3 Hd H4 H5] Hc Hid Hold Hl Hw. unfold get_or_make in *.
  destruct (pending s !! id) as [ch|] eqn:Ep; simpl in *.
  - exists owner. split; simpl; auto.
    + intros j cmd' ch' [[<- E]|[_ ?]]%lookup_insert_Some; [|eauto]. subst c. injection Hc as ->.
      rewrite (Hw ch' eq_refl), Hid. by apply H1.
    + intros j cmd' r [Hj|Hj]; apply lookup_insert_Some in Hj as [[<- E]|[_ ?]]; eauto; subst c.
      * injection Hc as ->. by destruct (Hl r).
      * done.
    + intros id' ch' Hp. destruct (H5 id' ch' Hp) as (j & cj & cmdj & Hj & Hcj & Hidj).
      destruct (decide (j = i)) as [->|Hne].
      * exists i, c, cmd. rewrite lookup_insert_eq. split_and!; [done | done |].
        by rewrite <- (Hold _ _ Hj Hcj).
      * exists j, cj, cmdj. by rewrite lookup_insert_ne.
  - exists (fun ch => if decide (ch = next_ch s) then id else owner ch). split; simpl.
    + intros id' ch [[<- <-]|[Hne Hp]]%lookup_insert_Some; [rewrite decide_True by done; split; [done|lia]|].
      destruct (H1 id' ch Hp). rewrite decide_False by lia. split; [done|lia].
    + intros j cmd' ch [[<- E]|[_ Hj]]%lookup_insert_Some.
      * subst c. injection Hc as ->. rewrite (Hw ch eq_refl), decide_True by done. split; [done|lia].
      * destruct (H2 j cmd' ch Hj). rewrite decide_False by lia. split; [done|lia].
    + intros ch r [[_ [=]]|[_ Hb]]%lookup_insert_Some. destruct (H3 ch r Hb) as (? & ? & ?).
      rewrite decide_False by lia. split_and!; [done|lia|done].
    + intros j ch r Hb. destruct (Hd j ch r Hb) as (? & ? & ?).
      rewrite decide_False by lia. split_and!; [done|lia|done].
    + intros j cmd' r [Hj|Hj]; apply lookup_insert_Some in Hj as [[<- E]|[_ ?]]; eauto; subst c.
      * injection Hc as ->. by destruct (Hl r).
      * done.
    + intros id' ch [[<- <-]|[Hne Hp]]%lookup_insert_Some.
      { exists i, c, cmd. by rewrite lookup_insert_eq. }
      destruct (H5 id' ch Hp) as (j & cj & cmdj & Hj & Hcj & Hidj).
      destruct (decide (j = i)) as [->|Hne'].
      * exists i, c, cmd. rewrite lookup_insert_eq. split_and!; [done | done |].
        by rewrite <- (Hold _ _ Hj Hcj).
      * exists j, cj, cmdj. by rewrite lookup_insert_ne.
Qed.

(** A result is found its channel, and put into it. *)
Lemma inv_find ls owner s j now r :
  waiters_inv ls owner s ->
  waiters_inv (ls ++ [LFind j now r]) owner
    (match find_waiter s now r with Some x => with_delivering s (<[j := x]> (delivering s)) | None => s end).
Proof.
  intros Hi. apply (inv_label _ (LFind j now r)) in Hi. unfold find_waiter.
  destruct (str_empty _); [done|]. cbv zeta. destruct (pending s !! _) as [ch|] eqn:Ep; [|done].
  destruct Hi as [H1 H2 H3 Hd H4 H5]. split; simpl; auto.
  intros j' ch' r' [[<- [= <- <-]]|[_ ?]]%lookup_insert_Some; [|by apply (Hd j')].
  destruct (H1 _ _ Ep) as [-> ?]. split_and!; [done | done |]. exists j, now, r.
  split; [|done]. apply elem_of_app. right. by left.
Qed.
Lemma inv_offer ls owner s j ch r :
  waiters_inv ls owner s -> delivering s !! j = Some (ch, r) ->
  waiters_inv ls owner (with_delivering (offer s ch r).1 (delete j (delivering s))).
Proof.
  intros [H1 H2 H3 Hd H4 H5] Hj.
  assert (forall j' ch' r', delete j (delivering s) !! j' = Some (ch', r') ->
    owner ch' = cr_CommandID r' /\ (ch' < next_ch s)%nat /\ brought ls r') as Hd'.
  { intros j' ch' r' [_ ?]%lookup_delete_Some. by apply (Hd j'). }
  unfold offer. destruct (buffers s !! ch) as [[r0|]|]; split; simpl; auto.
  intros ch' r' [[<- [= <-]]|[_ ?]]%lookup_insert_Some; [by apply (Hd j) | auto].
Qed.

Lemma step_inv ls owner s l s' :
  waiters_inv ls owner s -> step duration_text s l s' -> exists owner', waiters_inv (ls ++ [l]) owner' s'.
Proof.
  intros Hi Hs. destruct Hs as [s i cmd Hn|s i cmd Hc|s i cmd e Hc|s i cmd Hc|s i cmd e Hc|s i cmd s' ch Hc Hg
    |s i cmd ch r Hc Hb|s i cmd ch now Hc|s i cmd r Hc|s j now r Hj|s j ch r Hj].
  10: { exists owner. by apply inv_find. }
  all: match goal with |- context [_ ++ [?l]] => apply (inv_label _ l) in Hi end.
  - apply (inv_get_or_make _ owner s _ i (Sending cmd) cmd); [done | done | done | by intros ? ? ?; simplify_eq | done | done].
  - exists owner. apply (inv_move _ _ _ _ _ (Sent cmd) cmd Hi Hc); done.
  - exists owner. apply (inv_move _ _ _ _ _ (Failing cmd e) cmd Hi Hc); done.
  - exists owner. apply (inv_move _ _ _ _ _ (Panicked cmd) cmd Hi Hc); done.
  - exists owner. apply inv_finish; [done | | done]. intros c cmd'. rewrite Hc. by intros [= <-] [= <-].
  - destruct (inv_get_or_make (ls ++ [LLookup i]) owner s (cmd_CommandID cmd) i (Waiting cmd ch) cmd)
      as [owner' Ho]; [done | done | done | | done | | by rewrite Hg in Ho; eauto].
    + intros c0 cmd0. rewrite Hc. by intros [= <-] [= <-].
    + intros ch' [= ->]. by rewrite Hg.
  - exists owner. pose proof (wi_buffer _ _ _ Hi ch r Hb) as (Ho & Hlt & Hbr).
    pose proof (wi_waiting _ _ _ Hi i cmd ch Hc) as [Ho' _].
    assert (waiters_inv (ls ++ [LReceive i]) owner (with_caller s i (Leaving cmd r))) as [J1 J2 J3 Jd J4 J5].
    { apply (inv_move _ _ _ _ _ (Leaving cmd r) cmd Hi Hc); [done | done | done |].
      intros r' [= <-]. split; [congruence | by left]. }
    split; simpl in *; auto. intros ch' r' [[_ [=]]|[_ ?]]%lookup_insert_Some. auto.
  - exists owner. apply (inv_move _ _ _ _ _ (Leaving cmd (timeout_result duration_text cmd now)) cmd Hi Hc);
      [done | done | done |]. intros r [= <-]. split; [done | right; eauto].
  - exists owner. apply inv_finish; [done | |].
    + intros c cmd'. rewrite Hc. by intros [= <-] [= <-].
    + intros r' [= <-]. eapply wi_result; [done | left; exact Hc].
  - exists owner. by apply inv_offer.
Qed.

Lemma reached_inv ls s : reached duration_text ls s -> exists owner, waiters_inv ls owner s.
Proof.
  induction 1 as [|ls s l s' _ [owner Hi] Hs]; [|by eapply step_inv].
  exists (fun _ => ε). split; simpl; intros *; rewrite ?lookup_empty; naive_solver.
Qed.
End Facts.

End WaiterFacts.

Module DispatchFacts.
Import Dispatch Registry RegistryFacts.
Section Facts.
Context {DB E : Type} `{KeyedTable DB NodeRow E} `{!KeyedTableLaws DB NodeRow E} `{TimeTextLaws}.
Implicit Types r : NodeRegistry DB.

Lemma GetNode_spec r id :
  registry_inv r ->
  let '(r', res) := GetNode r id in
  registry_inv r' /\
  (forall k, k <> id -> nodes r' !! k = nodes r !! k) /\
  match res with
  | Ok n => nodes r' !! id = Some n /\ node_ID n = id
  | Err _ => nodes r' !! id = None
  end.
Proof.
  intros Hinv. unfold GetNode. destruct (nodes r !! id) as [n|] eqn:En.
  - split_and!; [done | done | done |]. by apply (proj1 Hinv).
  - destruct (readNode (db r) id) as [n|e] eqn:Er; [|done].
    split_and!; [by apply readNode_fill_inv | | simpl; by rewrite lookup_insert_eq |].
    + intros k Hk. simpl. by rewrite lookup_insert_ne.
    + by apply readNode_ok in Er as (? & _ & _ & ?).
Qed.

Definition online_at r (id : string) : Prop :=
  exists n, nodes r !! id = Some n /\ node_ID n = id /\ node_Status n = NodeStatusOnline.

Lemma GetNode_not_online r id n_done (seen_ids : list string) :
  registry_inv r -> (forall k, k ∈ seen_ids -> ~ online_at r k) ->
  GetNode r id = n_done -> (forall n, n_done.2 = Ok n -> node_Status n <> NodeStatusOnline) ->
  forall k, k ∈ id :: seen_ids -> ~ online_at n_done.1 k.
Proof.
  intros Hinv Hseen Hg Hoff k Hk (n & Hn & Hid & Hs). pose proof (GetNode_spec r id Hinv) as Hsp.
  rewrite Hg in Hsp. destruct n_done as [r' [m|]]; destruct Hsp as (_ & Hother & Hm); simpl in *;
    (destruct (decide (k = id)) as [->|Hne]; [|apply (Hseen k); [set_solver|]; exists n; by rewrite <- Hother]).
  - destruct Hm as [Hm _]. apply (Hoff m); [done|congruence].
  - congruence.
Qed.

Lemma session_node_spec project sessions (seen_ids : list string) r :
  registry_inv r -> (forall id, id ∈ seen_ids -> ~ online_at r id) ->
  let '(r', o) := session_node r project sessions in
  registry_inv r' /\
  match o with
  | Some id => online_at r' id /\ exists k s, (k, s) ∈ sessions /\ ses_Project s = project /\ ses_NodeID s = id
  | None => forall id, id ∈ seen_ids \/
      (exists k s, (k, s) ∈ sessions /\ ses_Project s = project /\ ses_NodeID s = id) -> ~ online_at r' id
  end.
Proof.
  revert seen_ids r. induction sessions as [|[k s] sessions IH]; intros seen_ids r Hinv Hseen; simpl.
  { split; [done|]. intros id [?|(? & ? & ?%elem_of_nil & _)]; [by apply Hseen | done]. }
  destruct (String.eqb_spec (ses_Project s) project) as [Hp|Hp]; simpl.
  2:{ specialize (IH seen_ids r Hinv Hseen). destruct (session_node r project sessions) as [r' [id|]];
        destruct IH as [Hi Ho]; (split; [done|]); set_solver. }
  pose proof (GetNode_spec r (ses_NodeID s) Hinv) as Hg.
  pose proof (GetNode_not_online r (ses_NodeID s) _ seen_ids Hinv Hseen eq_refl) as Hoff.
  assert (forall r1, registry_inv r1 -> (forall id, id ∈ ses_NodeID s :: seen_ids -> ~ online_at r1 id) ->
    let '(r', o) := session_node r1 project sessions in
    registry_inv r' /\
    match o with
    | Some id => online_at r' id /\
        exists k0 s0, (k0, s0) ∈ (k, s) :: sessions /\ ses_Project s0 = project /\ ses_NodeID s0 = id
    | None => forall id, id ∈ seen_ids \/ (exists k0 s0, (k0, s0) ∈ (k, s) :: sessions /\
        ses_Project s0 = project /\ ses_NodeID s0 = id) -> ~ online_at r' id
    end) as Hrest.
  { intros r1 Hinv1 Hr1. specialize (IH (ses_NodeID s :: seen_ids) r1 Hinv1 Hr1).
    destruct (session_node r1 project sessions) as [r' [id|]]; destruct IH as [Hi Ho]; (split; [done|]).
    - destruct Ho as (? & k0 & s0 & ? & ? & ?). split; [done|]. exists k0, s0. split; [by right | done].
    - intros id [Hin|(k0 & s0 & [[= -> ->]|Hin]%elem_of_cons & ? & Hid)]; apply Ho.
      + left. by right.
      + left. rewrite <- Hid. by left.
      + right. eauto. }
  destruct (GetNode r (ses_NodeID s)) as [r1 [n|e]]; destruct Hg as (Hinv1 & _ & Hn); simpl in Hoff.
  - destruct Hn as [Hn Hid]. destruct (String.eqb_spec (node_Status n) NodeStatusOnline) as [Hs|Hs].
    + split; [done|]. split; [rewrite Hid; by exists n|]. exists k, s. split_and!; [by left | done | done].
    + apply Hrest; [done|]. apply Hoff. by intros ? [= <-].
  - apply Hrest; [done|]. by apply Hoff.
Qed.

Lemma listed_node_spec project ns :
  match listed_node project ns with
  | Some id => exists n, n ∈ ns /\ node_ID n = id /\ node_Status n = NodeStatusOnline /\ project ∈ node_Projects n
  | None => forall n, n ∈ ns -> node_Status n = NodeStatusOnline -> project ∉ node_Projects n
  end.
Proof.
  induction ns as [|n ns IH]; simpl; [by intros ? ?%elem_of_nil|].
  destruct (String.eqb_spec (node_Status n) NodeStatusOnline) as [Hs|Hs]; simpl.
  - destruct (existsb _ (node_Projects n)) eqn:Ex.
    + exists n. split_and!; [by left | done | done |]. apply existsb_exists in Ex as (p & Hp & ->%String.eqb_eq).
      by apply list_elem_of_In.
    + assert (project ∉ node_Projects n) as Hnot.
      { intros Hin%list_elem_of_In. apply not_true_iff_false in Ex. apply Ex, existsb_exists.
        exists project. by rewrite String.eqb_refl. }
      destruct (listed_node project ns); [destruct IH as (m & ? & ?); exists m; split; [by right | done]|].
      intros m [->|Hm]%elem_of_cons; [done | by apply IH].
  - destruct (listed_node project ns); [destruct IH as (m & ? & ?); exists m; split; [by right | done]|].
    intros m [->|Hm]%elem_of_cons; [done | by apply IH].
Qed.
End Facts.
End DispatchFacts.

(** ** Properties *)
Section WaiterProperties.
Import Waiters WaiterFacts.
Context (duration_text : Z -> string).

(** However concurrent callers, arriving results and timeouts interleave,
    and also when callers share a command id, a caller only ever returns a
    result of its own command: one brought for its id, or its own timeout. *)
Theorem dispatch_returns_own_result (ls : list label) (s : state) (i : nat) (cmd : Command)
    (r : CommandResult) :
  reached duration_text ls s -> callers s !! i = Some (Returned cmd (Ok r)) ->
  cr_CommandID r = cmd_CommandID cmd /\
  ((exists j now r0, LFind j now r0 ∈ ls /\ r = stamped now r0) \/
   (exists now, r = timeout_result duration_text cmd now)).
Proof. intros [owner Hi]%reached_inv Hc. apply (wi_result _ _ _ _ Hi i). by right. Qed.

(** C31: the map of waiting commands does not leak: once every caller has
    returned, by a result, a timeout or a failed send, no entry is left. *)
Theorem no_pending_leak (ls : list label) (s : state) :
  reached duration_text ls s ->
  (forall i c, callers s !! i = Some c -> exists cmd r, c = Returned cmd r) ->
  pending s = ∅.
Proof.
  intros [owner Hi]%reached_inv Hall. apply map_empty. intros id.
  destruct (pending s !! id) as [ch|] eqn:Ep; [|done]. exfalso.
  destruct (wi_active _ _ _ _ Hi id ch Ep) as (i & c & cmd & Hc & Hcmd & _).
  by destruct (Hall i c Hc) as (? & ? & ->).
Qed.

End WaiterProperties.

Section DispatchProperties.
Import Dispatch Registry RegistryFacts DispatchFacts.
Context {DB IDB E : Type} `{KeyedTable DB NodeRow E} `{!KeyedTableLaws DB NodeRow E} `{TimeTextLaws}.
Context `{KeyedTable IDB IdemRow E} `{!KeyedTableLaws IDB IdemRow E} `{!KeyedDelete IDB E}.
Context `{JsonLaws CommandResult} `{Json canonical}.
Context (uuid_parse : string -> bool) (sha256_hex : string -> string).
Context (errtext : registry_error E -> string).

(** A resolved target is a registered node that is online: the node the
    command names or, for a project, a node with a session of the project or
    one that lists it.  A project is refused only when no online node has a
    session of it and none lists it. *)
Theorem resolve_target_exact (order : NodeRegistry DB -> list (string * NodeEntry))
    (d d' : CommandDispatcher DB IDB) (r : NodeRegistry DB) (cmd : Command) (result : res string string) :
  disp_registry d = Some r -> registry_inv r -> (forall r, range_order (nodes r) (order r)) ->
  resolveTarget errtext order d cmd = (d', result) ->
  let project := tgt_Project (cmd_Target cmd) in
  let has_session id := exists k s, (k, s) ∈ default [] (disp_sessions d) /\
    ses_Project s = project /\ ses_NodeID s = id in
  exists r', disp_registry d' = Some r' /\
  match result with
  | Ok id => online_at r' id /\
      (if str_empty (tgt_NodeID (cmd_Target cmd))
       then has_session id \/ exists n, nodes r' !! id = Some n /\ project ∈ node_Projects n
       else id = tgt_NodeID (cmd_Target cmd))
  | Err _ =>
      tgt_NodeID (cmd_Target cmd) = ε -> project <> ε ->
      forall id n, nodes r' !! id = Some n -> node_Status n = NodeStatusOnline ->
        ~ has_session id /\ project ∉ node_Projects n
  end.
Proof.
  intros Hr Hinv Hord. unfold resolveTarget. rewrite Hr. cbv zeta.
  destruct (str_empty (tgt_NodeID (cmd_Target cmd))) eqn:En; simpl.
  - destruct (str_empty (tgt_Project (cmd_Target cmd))) eqn:Ep.
    { intros [= <- <-]. exists r. split; [done|]. apply str_empty_true in Ep. done. }
    set (ss := default [] (disp_sessions d)).
    assert (match disp_sessions d with
            | None => (r, None)
            | Some sessions => session_node r (tgt_Project (cmd_Target cmd)) sessions
            end = session_node r (tgt_Project (cmd_Target cmd)) ss) as ->
      by (unfold ss; by destruct (disp_sessions d)).
    pose proof (session_node_spec (tgt_Project (cmd_Target cmd)) ss [] r Hinv) as Hs.
    destruct (session_node r _ ss) as [r' found].
    destruct Hs as [Hinv' Hs]; [by intros ? ?%elem_of_nil|].
    assert (forall n, n ∈ ListNodes (order r') <-> exists k, nodes r' !! k = Some n) as Hlist.
    { intros n. unfold ListNodes. rewrite list_elem_of_fmap. split.
      - intros ([k n'] & -> & Hin). exists k. by apply (range_order_elem _ _ k n' (Hord r')).
      - intros [k Hk]. exists (k, n). split; [done|]. by apply (range_order_elem _ _ k n (Hord r')). }
    destruct found as [id|]; [intros [= <- <-]; exists r'; split; [done|]; destruct Hs; auto|].
    pose proof (listed_node_spec (tgt_Project (cmd_Target cmd)) (ListNodes (order r'))) as Hl.
    destruct (listed_node _ _) as [id|]; intros [= <- <-]; exists r'; (split; [done|]).
    + destruct Hl as (n & [k Hk]%Hlist & <- & Hst & Hproj).
      destruct (proj1 Hinv' k n Hk) as [Hid _]. rewrite Hid. split; [by exists n | right; eauto].
    + intros _ _ id n Hn Hst. split; [|apply Hl; [|done]; apply Hlist; eauto].
      intros Hses. apply (Hs id); [by right|]. exists n. split_and!; [done | by apply (proj1 Hinv') | done].
  - pose proof (GetNode_spec r (tgt_NodeID (cmd_Target cmd)) Hinv) as Hg.
    destruct (GetNode r _) as [r' [n|e]].
    + destruct Hg as (Hinv' & _ & Hn & Hid). intros [= <- <-]. exists r'. split; [done|].
      destruct (String.eqb_spec (node_Status n) NodeStatusOnline) as [Hs|Hs]; simpl.
      * rewrite Hid. split; [by exists n | done].
      * intros E'. by rewrite E' in En.
    + intros Hres. exists r'. assert (d' = with_registry d r' /\ is_Ok result = false) as [-> Hbad]
        by (destruct e; injection Hres as <- <-; done).
      split; [done|]. destruct result; [done|]. intros E'. by rewrite E' in En.
Qed.

(** The idempotency key of a request, which the command id does not enter. *)
Definition request_key (cmd : Command) : res (dispatch_error E) string :=
  match ParseCommandIntent (cmd_Type cmd) with
  | Err intent => Err (unsupported_intent intent)
  | Ok t => idempotencyHash sha256_hex (set_id_type ε t cmd)
  end.

(** C39: a command with an idempotency key runs once: after a dispatch that
    answered [r] (a success, a failure or a timeout alike), another command with
    the same request key, served within 24 hours from a table that still has the
    row, answers the same [r] and hands nothing to the transport. *)
Theorem idempotent_replay (order : NodeRegistry DB -> list (string * NodeEntry))
    (sent sent2 : string -> Command -> res string (option CommandResult)) (uuid uuid2 : string)
    (now now' now2 now2' : Time.t) (d d1 d2 : CommandDispatcher DB IDB) (i1 i2 : IDB)
    (cmd cmd2 : Command) (key : string) (r : CommandResult) (sends : list (string * Command)) :
  cmd_IdempotencyKey cmd <> ε -> cmd_IdempotencyKey cmd2 <> ε ->
  request_key cmd = Ok key -> request_key cmd2 = Ok key ->
  cmd_CommandID cmd2 = ε \/ uuid_parse (cmd_CommandID cmd2) = true ->
  (checkIdempotency d now key).2 = None ->
  DispatchCommand uuid_parse sha256_hex errtext order sent uuid now now' d cmd = (d1, Ok r, sends) ->
  json_plain r -> printable_time (now' + 24 * Time.Hour) ->
  disp_db d1 = Some i1 -> disp_db d2 = Some i2 -> contents i2 !! key = contents i1 !! key ->
  is_Ok (select_row i2 key) = true -> now2 <= now' + 24 * Time.Hour ->
  DispatchCommand uuid_parse sha256_hex errtext order sent2 uuid2 now2 now2' d2 cmd2 = (d2, Ok r, []).
Proof.
  intros Hk1 Hk2 Hkey Hkey2 Hid Hmiss Hdis Hplain Htime Hi1 Hi2 Hsame Hsel Hnow.
  assert (exists i text, json_marshal r = Ok text /\
    upsert_row i (mkIdemRow key (cr_CommandID r) text (Format_RFC3339Nano (now' + 24 * Time.Hour))) = Ok i1)
    as (i & text & Htext & Hup).
  { unfold DispatchCommand, request_key in *. destruct (ParseCommandIntent (cmd_Type cmd)) as [t|]; [|done].
    destruct (negb (str_empty _) && _); [done|]. cbv zeta in Hdis. simpl in Hdis.
    rewrite (proj2 (str_empty_false _) Hk1) in Hdis. change (idempotencyHash sha256_hex
      (set_id_type (if str_empty (cmd_CommandID cmd) then uuid else cmd_CommandID cmd) t cmd))
      with (idempotencyHash (E:=E) sha256_hex (set_id_type ε t cmd)) in Hdis.
    rewrite Hkey in Hdis. destruct (checkIdempotency d now key) as [d0 o]. simpl in Hmiss. subst o.
    destruct (dispatchToTarget _ _ _ _ _ _ _) as [[d3 [r3|]] sends3]; [|done].
    unfold cacheResult in Hdis. destruct (disp_db d3) as [i|]; [|done].
    destruct (json_marshal r3) as [text|] eqn:Et; [|done].
    destruct (upsert_row i _) as [i'|] eqn:Eu; [|done]. injection Hdis as <- -> _.
    simpl in Hi1. injection Hi1 as ->. by exists i, text. }
  apply upsert_row_ok in Hup. unfold request_key in Hkey2. unfold DispatchCommand.
  destruct (ParseCommandIntent (cmd_Type cmd2)) as [t2|]; [|done].
  assert (negb (str_empty (cmd_CommandID cmd2)) && negb (uuid_parse (cmd_CommandID cmd2)) = false) as ->
    by (destruct Hid as [->| ->]; [done | by rewrite andb_false_r]).
  cbv zeta. simpl. rewrite (proj2 (str_empty_false _) Hk2). change (idempotencyHash sha256_hex
      (set_id_type (if str_empty (cmd_CommandID cmd2) then uuid2 else cmd_CommandID cmd2) t2 cmd2))
      with (idempotencyHash (E:=E) sha256_hex (set_id_type ε t2 cmd2)). rewrite Hkey2.
  unfold checkIdempotency. rewrite Hi2. destruct (select_row i2 key) as [o|] eqn:Es; [|done].
  apply select_row_ok in Es. rewrite Hsame, Hup in Es. simpl in Es. rewrite lookup_insert_eq in Es.
  subst o. simpl. rewrite parse_stored by done. unfold Time.After.
  rewrite (proj2 (Z.ltb_ge _ _) Hnow). by rewrite (json_round_trip r text Hplain Htext).
Qed.
End DispatchProperties.

(** ** Witnesses *)
Module DispatcherWitness.
Import Waiters WaiterFacts Dispatch Registry RegistryFacts DispatchFacts CommandWitness.

Definition dur (d : Z) : string := Itoa d.
Definition the_cmd : Command :=
  mkCommand "c1" "start" "k1" (mkTarget ε "n1") ∅ 0.
Definition the_result : CommandResult := mkResult "c1" "success" "ok" ε 7.

(** One caller gets its result. *)
Definition labels1 : list label :=
  [LBegin 0 the_cmd; LSend 0 None; LLookup 0; LFind 3 5 the_result; LOffer 3; LReceive 0; LReturn 0].
Definition s1 : state := with_caller (get_or_make init "c1").1 0 (Sending the_cmd).
Definition s2 : state := with_caller s1 0 (Sent the_cmd).
Definition s3 : state := with_caller s2 0 (Waiting the_cmd 0).
Definition s4 : state := with_delivering s3 {[ 3%nat := (0%nat, the_result) ]}.
Definition s5 : state := with_delivering (with_buffer s3 0 (Some the_result)) ∅.
Definition s6 : state := with_caller (with_buffer s5 0 None) 0 (Leaving the_cmd the_result).
Definition final : state :=
  with_caller (delete_pending s6 "c1") 0 (Returned the_cmd (Ok the_result)).

Lemma final_reached : reached dur labels1 final.
Proof.
  assert (reached dur [LBegin 0 the_cmd] s1) as R1.
  { apply (reached_step dur [] init _ _ (reached_init dur)).
    by apply (step_begin dur init 0 the_cmd). }
  assert (reached dur [LBegin 0 the_cmd; LSend 0 None] s2) as R2
    by by apply (reached_step dur _ s1 _ _ R1), step_send_ok.
  assert (reached dur [LBegin 0 the_cmd; LSend 0 None; LLookup 0] s3) as R3.
  { apply (reached_step dur _ s2 _ _ R2). by apply (step_lookup dur s2 0 the_cmd s2 0). }
  assert (reached dur [LBegin 0 the_cmd; LSend 0 None; LLookup 0; LFind 3 5 the_result] s4) as R4.
  { apply (reached_step dur _ s3 _ _ R3). by apply (step_find dur s3 3 5 the_result). }
  assert (reached dur [LBegin 0 the_cmd; LSend 0 None; LLookup 0; LFind 3 5 the_result; LOffer 3] s5) as R5.
  { apply (reached_step dur _ s4 _ _ R4). by apply (step_offer dur s4 3 0 the_result). }
  assert (reached dur [LBegin 0 the_cmd; LSend 0 None; LLookup 0; LFind 3 5 the_result; LOffer 3; LReceive 0] s6) as R6.
  { apply (reached_step dur _ s5 _ _ R5). by apply (step_receive dur s5 0 the_cmd 0 the_result). }
  apply (reached_step dur _ s6 _ _ R6). by apply (step_return dur s6 0 the_cmd the_result).
Qed.
(** A send that panics leaves its entry behind. *)
Example panic_leaves_its_entry :
  reached dur [LBegin 0 the_cmd; LPanic 0] (with_caller s1 0 (Panicked the_cmd)) /\
  pending (with_caller s1 0 (Panicked the_cmd)) !! "c1"%string = Some 0%nat.
Proof.
  split; [|reflexivity]. apply (reached_step dur [LBegin 0 the_cmd] s1); [|by apply step_panic].
  apply (reached_step dur [] init _ _ (reached_init dur)). by apply (step_begin dur init 0 the_cmd).
Qed.

Lemma dispatch_returns_own_result_witness :
  cr_CommandID the_result = cmd_CommandID the_cmd /\
  ((exists j now r0, LFind j now r0 ∈ labels1 /\ the_result = stamped now r0) \/
   (exists now, the_result = timeout_result dur the_cmd now)).
Proof.
  apply (dispatch_returns_own_result dur labels1 final 0 the_cmd the_result);
    [exact final_reached | vm_compute; reflexivity].
Defined.

Lemma no_pending_leak_witness : pending final = ∅.
Proof.
  apply (no_pending_leak dur labels1 final); [exact final_reached|].
  intros i c.
  assert (callers final = {[ 0%nat := Returned the_cmd (Ok the_result) ]}) as -> by (vm_compute; reflexivity).
  intros [<- <-]%lookup_singleton_Some. eauto.
Defined.

(** An idempotency table in memory. *)
Lemma mem_delete_keyed {Row} `{RowKey Row} k (m : gmap string Row) :
  bool_decide (map_Forall (fun k r => the_key r = k) m) ->
  bool_decide (map_Forall (fun k r => the_key r = k) (delete k m)).
Proof. intros Hm%bool_decide_unpack. apply bool_decide_pack. by apply map_Forall_delete. Qed.
#[export] Instance mem_delete {Row} `{RowKey Row} : KeyedDelete (mem_table Row) string :=
  fun db k =>
    if mt_open db then Ok (mkMem true _ (mem_delete_keyed k _ (mt_keyed db)))
    else Err "sql: database is closed"%string.

#[export] Instance result_json : Json CommandResult := {
  json_marshal r := Ok (field_text (cr_CommandID r) +:+ (field_text (cr_Status r) +:+
    (field_text (cr_Output r) +:+ (field_text (cr_Error r) +:+ (num_text (cr_Timestamp r) +:+ ε)))))%stdpp;
  json_unmarshal s :=
    match '(i, s) ← read_field s; '(st, s) ← read_field s; '(o, s) ← read_field s;
          '(e, s) ← read_field s; '(t, s) ← read_num s; Some (mkResult i st o e t) with
    | Some r => Ok r
    | None => Err "unexpected end of JSON input"%string
    end }.
#[export] Instance result_json_laws : JsonLaws CommandResult.
Proof.
  refine {| json_plain _ := True |}. intros [i st o e t] s _ [= <-]. simpl.
  rewrite read_field_text; simpl. rewrite read_field_text; simpl. rewrite read_field_text; simpl.
  rewrite read_field_text; simpl. by rewrite read_num_text.
Defined.
#[export] Instance canonical_json : Json canonical := {
  json_marshal c := Ok (can_Type c +:+ "," +:+ tgt_Project (can_Target c) +:+ "," +:+
    tgt_NodeID (can_Target c) +:+ "," +:+ Itoa (can_Timeout c))%stdpp;
  json_unmarshal _ := Err ε }.

Definition reg : NodeRegistry (mem_table NodeRow) :=
  (Register (NewNodeRegistry mem_empty) 7000 (mkNodeEntry "n1" "h" ε ["p"] [] ε 0 0 ε 0 None 0)).1.
Definition d0 : CommandDispatcher (mem_table NodeRow) (mem_table IdemRow) :=
  mkDispatcher (Some mem_empty) (Some reg) None.
Definition order (r : NodeRegistry (mem_table NodeRow)) := map_to_list (nodes r).
Definition errtext (e : registry_error string) : string := "error".
Definition all_ids (_ : string) : bool := true.
Definition sent (_ : string) (c : Command) : res string (option CommandResult) :=
  Ok (Some (mkResult (cmd_CommandID c) "timeout" ε "late" 7)).
Definition refuse (_ : string) (_ : Command) : res string (option CommandResult) := Err "down"%string.
Definition replayed : CommandResult := mkResult "c1" "timeout" ε "late" 7.

Lemma reg_inv : registry_inv reg.
Proof.
  apply Register_inv; [|vm_compute; split; congruence..].
  apply (booted_inv mem_empty); [|by left]. intros k row h s hb ca. simpl. by rewrite lookup_empty.
Qed.

Definition cmd_project : Command := mkCommand "c2" "status" ε (mkTarget "p" ε) ∅ 0.
Lemma resolve_target_exact_witness :
  exists r', disp_registry (resolveTarget errtext order d0 cmd_project).1 = Some r' /\
    online_at r' "n1" /\
    ((exists k s, (k, s) ∈ ([] : list (string * TrackedSession)) /\ ses_Project s = "p"%string /\
        ses_NodeID s = "n1"%string) \/
     exists n, nodes r' !! "n1"%string = Some n /\ "p"%string ∈ node_Projects n).
Proof.
  apply (resolve_target_exact errtext order d0 (resolveTarget errtext order d0 cmd_project).1 reg cmd_project
    (Ok "n1"%string)); [reflexivity | exact reg_inv | intros r; apply range_order_self |].
  vm_compute. reflexivity.
Defined.

Definition cmd2 : Command := mkCommand ε "/start" "k1" (mkTarget ε "n1") ∅ 0.
Definition key1 : string := "k1:create_session,,n1,30000".
Definition d1 := (DispatchCommand all_ids id errtext order sent "u1" 7000 8000 d0 the_cmd).1.1.
Definition i1 : mem_table IdemRow := default mem_empty (disp_db d1).

Lemma idempotent_replay_witness :
  DispatchCommand all_ids id errtext order refuse "u2" 9000 9500 d1 cmd2 = (d1, Ok replayed, []).
Proof.
  apply (idempotent_replay all_ids id errtext order sent refuse "u1" "u2" 7000 8000 9000 9500
    d0 d1 d1 i1 i1 the_cmd cmd2 key1 replayed [("n1"%string, set_id_type "c1" "create_session" the_cmd)]);
    try done; try (vm_compute; reflexivity).
  by left.
Defined.
End DispatcherWitness.
