(* ===== verification/Config.v ===== *)
(** * Config

    internal/config: the validation and the defaults of the supervisor's and the
    agent's configuration and of the environment manifest.  Reading the file and
    decoding its JSON come before; the parts of the supervisor's configuration
    that validation does not look at are kept as JSON values. *)

From S2P Require Import Prelude GoStd Commands.

(** ** supervisor.go *)
Record CostPolicyConfig := mkCostPolicy {
  kp_Enabled : bool; kp_CostThresholdUSD : Float64.t; kp_MaxRetries : Z; kp_RetryResetSeconds : Z }.
Record CompactionPolicyConfig := mkCompactionPolicy {
  cp_Enabled : bool; cp_TokenThreshold : Z; cp_MaxRetries : Z; cp_RetryResetSeconds : Z }.
Record IdlePolicyConfig := mkIdlePolicy {
  ip_Enabled : bool; ip_IdleThresholdSec : Z; ip_MaxRetries : Z; ip_RetryResetSeconds : Z }.
Record PolicyConfig := mkPolicies {
  pc_ResumeOnIdle : IdlePolicyConfig; pc_RestartOnCompaction : CompactionPolicyConfig;
  pc_KillOnCost : CostPolicyConfig; pc_CheckIntervalSec : Z }.

Record ModelRate := mkRate { rate_Input : Float64.t; rate_Output : Float64.t }.
(** The nil map is the empty one; [cpc_Enabled] is a pointer. *)
Record CostProviderConfig := mkProvider {
  cpc_APIKey : string; cpc_Enabled : option bool; cpc_ModelRates : gmap string ModelRate;
  cpc_BaseURL : string; cpc_AdminAPIKey : string; cpc_OrgAPIKey : string }.
Record CostConfig := mkCost {
  cc_PollIntervalMinutes : Z; cc_Anthropic : CostProviderConfig; cc_OpenAI : CostProviderConfig;
  cc_RequestTimeoutSec : Z; cc_MaxRetries : Z; cc_BackoffBaseMS : Z }.

Record CredentialDistributionConfig := mkCredentials {
  cd_Version : Z; cd_Defaults : gmap string string; cd_Agents : gmap string (gmap string string) }.
Record TLSConfig := mkTLS { tls_Enabled : bool; tls_CertPath : string; tls_KeyPath : string }.
Record SecurityConfig := mkSecurity {
  sec_TLS : TLSConfig; sec_OriginAllowlist : list string;
  sec_RotationEnabled : bool; sec_RotationCheckIntervalSeconds : Z;
  sec_AuditEnabled : bool; sec_AuditRetentionDays : Z }.
Record ServerConfig := mkServer {
  srv_Port : Z; srv_HTTPPort : Z; srv_AuthToken : string; srv_HeartbeatIntervalSec : Z;
  srv_HeartbeatTimeoutCount : Z; srv_AllowedOrigins : list string }.
Record SupervisorConfig := mkSupervisor {
  sc_Server : ServerConfig; sc_Channels : value; sc_DatabasePath : string; sc_Cost : CostConfig;
  sc_Routes : value; sc_Policies : PolicyConfig; sc_Dependencies : value;
  sc_Security : SecurityConfig; sc_Credentials : CredentialDistributionConfig }.

Inductive config_error :=
  | bad_port (got : Z)
  | bad_http_port (got : Z)
  | server_auth_token_required
  | bad_heartbeat_interval (got : Z)
  | bad_heartbeat_timeout_count (got : Z)
  | provider_api_key_required (provider : string)
  | model_rates_key_empty (provider : string)
  | model_rates_negative (provider model : string)
  | policy_not_positive (path : string)
  | tls_cert_path_required
  | tls_key_path_required
  | credentials_version_negative (got : Z)
  | credentials_default_empty (key : string)
  | credentials_agent_empty (agent key : string).

Definition EffectiveAPIKey (p : CostProviderConfig) : string :=
  if negb (str_empty (cpc_APIKey p)) then cpc_APIKey p
  else if negb (str_empty (cpc_AdminAPIKey p)) then cpc_AdminAPIKey p
  else cpc_OrgAPIKey p.
Definition IsEnabled (p : CostProviderConfig) : bool :=
  match cpc_Enabled p with
  | Some b => b
  | None => negb (str_empty (EffectiveAPIKey p))
  end.

(** [if x <= 0 { x = dflt }]. *)
Definition positive_or (dflt x : Z) : Z := if x <=? 0 then dflt else x.

(** *** The defaults *)
Definition defaultPolicyCheckIntervalSec : Z := 30.
Definition defaultResumeIdleThresholdSec : Z := 300.
Definition defaultResumeMaxRetries : Z := 3.
Definition defaultResumeRetryResetSec : Z := 3600.
Definition defaultCompactionTokenThreshold : Z := 180000.
Definition defaultCompactionMaxRetries : Z := 2.
Definition defaultCompactionRetryResetSec : Z := 3600.
Definition defaultKillMaxRetries : Z := 1.
Definition defaultKillRetryResetSec : Z := 86400.
Definition defaultCostPollIntervalMinutes : Z := 60.
Definition defaultCostRequestTimeoutSec : Z := 15.
Definition defaultCostMaxRetries : Z := 3.
Definition defaultCostBackoffBaseMS : Z := 500.
Definition defaultTokenRotationCheckIntervalSec : Z := 300.
Definition defaultAuditRetentionDays : Z := 90.
Definition defaultKillCostThresholdUSD : Float64.t := Float64.of_Z 10.

Definition applyPolicyDefaults (p : PolicyConfig) : PolicyConfig :=
  let i := pc_ResumeOnIdle p in
  let c := pc_RestartOnCompaction p in
  let k := pc_KillOnCost p in
  mkPolicies
    (mkIdlePolicy (ip_Enabled i) (positive_or defaultResumeIdleThresholdSec (ip_IdleThresholdSec i))
       (positive_or defaultResumeMaxRetries (ip_MaxRetries i))
       (positive_or defaultResumeRetryResetSec (ip_RetryResetSeconds i)))
    (mkCompactionPolicy (cp_Enabled c) (positive_or defaultCompactionTokenThreshold (cp_TokenThreshold c))
       (positive_or defaultCompactionMaxRetries (cp_MaxRetries c))
       (positive_or defaultCompactionRetryResetSec (cp_RetryResetSeconds c)))
    (mkCostPolicy (kp_Enabled k)
       (if Float64.leb (kp_CostThresholdUSD k) Float64.zero then defaultKillCostThresholdUSD else kp_CostThresholdUSD k)
       (positive_or defaultKillMaxRetries (kp_MaxRetries k))
       (positive_or defaultKillRetryResetSec (kp_RetryResetSeconds k)))
    (positive_or defaultPolicyCheckIntervalSec (pc_CheckIntervalSec p)).

Definition applySecurityDefaults (s : SecurityConfig) : SecurityConfig :=
  mkSecurity (sec_TLS s) (sec_OriginAllowlist s) (sec_RotationEnabled s)
    (positive_or defaultTokenRotationCheckIntervalSec (sec_RotationCheckIntervalSeconds s)) (sec_AuditEnabled s)
    (positive_or defaultAuditRetentionDays (sec_AuditRetentionDays s)).

Definition applyCostDefaults (c : CostConfig) : CostConfig :=
  mkCost (positive_or defaultCostPollIntervalMinutes (cc_PollIntervalMinutes c)) (cc_Anthropic c) (cc_OpenAI c)
    (positive_or defaultCostRequestTimeoutSec (cc_RequestTimeoutSec c)) (positive_or defaultCostMaxRetries (cc_MaxRetries c))
    (positive_or defaultCostBackoffBaseMS (cc_BackoffBaseMS c)).

Section Validate.
Context `{MapRange}.

Definition validateCostProviderConfig (provider : string) (cfg : CostProviderConfig)
    : res config_error () :=
  if negb (IsEnabled cfg) then Ok ()
  else
    reject (str_empty (EffectiveAPIKey cfg)) with_err (provider_api_key_required provider) in
    first_error (fun '(model, rates) =>
      reject (str_empty model) with_err (model_rates_key_empty provider) in
      reject (Float64.ltb (rate_Input rates) Float64.zero || Float64.ltb (rate_Output rates) Float64.zero)
        with_err (model_rates_negative provider model) in Ok ()) (range_of (cpc_ModelRates cfg)).

Definition validateCredentialDistributionConfig (cfg : CredentialDistributionConfig)
    : res config_error () :=
  reject (cd_Version cfg <? 0) with_err (credentials_version_negative (cd_Version cfg)) in
  let? _ := first_error (fun '(key, v) =>
      reject (str_empty v) with_err (credentials_default_empty key) in Ok ()) (range_of (cd_Defaults cfg)) in
  first_error (fun '(agent, env) =>
    first_error (fun '(key, v) =>
      reject (str_empty v) with_err (credentials_agent_empty agent key) in Ok ()) (range_of env))
    (range_of (cd_Agents cfg)).

Definition check_policies (p : PolicyConfig) : res config_error () :=
  let i := pc_ResumeOnIdle p in
  let c := pc_RestartOnCompaction p in
  let k := pc_KillOnCost p in
  reject (pc_CheckIntervalSec p <=? 0) with_err (policy_not_positive "check_interval_seconds") in
  reject (ip_IdleThresholdSec i <=? 0) with_err (policy_not_positive "resume_on_idle.idle_threshold_seconds") in
  reject (ip_MaxRetries i <=? 0) with_err (policy_not_positive "resume_on_idle.max_retries") in
  reject (ip_RetryResetSeconds i <=? 0) with_err (policy_not_positive "resume_on_idle.retry_reset_seconds") in
  reject (cp_TokenThreshold c <=? 0) with_err (policy_not_positive "restart_on_compaction.token_threshold") in
  reject (cp_MaxRetries c <=? 0) with_err (policy_not_positive "restart_on_compaction.max_retries") in
  reject (cp_RetryResetSeconds c <=? 0) with_err (policy_not_positive "restart_on_compaction.retry_reset_seconds") in
  reject (Float64.leb (kp_CostThresholdUSD k) Float64.zero)
    with_err (policy_not_positive "kill_on_cost.cost_threshold_usd") in
  reject (kp_MaxRetries k <=? 0) with_err (policy_not_positive "kill_on_cost.max_retries") in
  reject (kp_RetryResetSeconds k <=? 0) with_err (policy_not_positive "kill_on_cost.retry_reset_seconds") in
  Ok ().

(** The defaults [validateSupervisorConfig] writes into the configuration. *)
Definition with_defaults (cfg : SupervisorConfig) : SupervisorConfig :=
  mkSupervisor (sc_Server cfg) (sc_Channels cfg)
    (if str_empty (sc_DatabasePath cfg) then "./supervisor.db"%string else sc_DatabasePath cfg)
    (applyCostDefaults (sc_Cost cfg)) (sc_Routes cfg) (applyPolicyDefaults (sc_Policies cfg))
    (sc_Dependencies cfg) (applySecurityDefaults (sc_Security cfg)) (sc_Credentials cfg).

(** Validates, and returns the configuration with its defaults. *)
Definition validateSupervisorConfig (cfg : SupervisorConfig) : res config_error SupervisorConfig :=
  let srv := sc_Server cfg in
  let cfg' := with_defaults cfg in
  let tls := sec_TLS (sc_Security cfg') in
  reject ((srv_Port srv <=? 0) || (65535 <? srv_Port srv)) with_err (bad_port (srv_Port srv)) in
  reject ((srv_HTTPPort srv <? 0) || (65535 <? srv_HTTPPort srv)) with_err (bad_http_port (srv_HTTPPort srv)) in
  reject (str_empty (srv_AuthToken srv)) with_err server_auth_token_required in
  reject (srv_HeartbeatIntervalSec srv <=? 0)
    with_err (bad_heartbeat_interval (srv_HeartbeatIntervalSec srv)) in
  reject (srv_HeartbeatTimeoutCount srv <=? 0)
    with_err (bad_heartbeat_timeout_count (srv_HeartbeatTimeoutCount srv)) in
  let? _ := validateCostProviderConfig "anthropic" (cc_Anthropic (sc_Cost cfg')) in
  let? _ := validateCostProviderConfig "openai" (cc_OpenAI (sc_Cost cfg')) in
  let? _ := check_policies (sc_Policies cfg') in
  reject (tls_Enabled tls && str_empty (tls_CertPath tls)) with_err tls_cert_path_required in
  reject (tls_Enabled tls && str_empty (tls_KeyPath tls)) with_err tls_key_path_required in
  let? _ := validateCredentialDistributionConfig (sc_Credentials cfg') in
  Ok cfg'.

(** [LoadSupervisorConfig]: [read] is the file's contents and [decode] the JSON
    decoder. *)
Inductive load_error (E : Type) := load_read (e : string) | load_parse (e : string) | load_invalid (e : E).
Arguments load_read {E} e.
Arguments load_parse {E} e.
Arguments load_invalid {E} e.
Definition LoadSupervisorConfig (read : string -> res string string)
    (decode : string -> res string SupervisorConfig) (path : string)
    : res (load_error config_error) SupervisorConfig :=
  let? data := res_map_err load_read (read path) in
  let? cfg := res_map_err load_parse (decode data) in
  res_map_err load_invalid (validateSupervisorConfig cfg).
End Validate.
Arguments load_read {E} e.
Arguments load_parse {E} e.
Arguments load_invalid {E} e.

(** ** agent.go *)
Record ProjectDir := mkProjectDir { pd_Name : string; pd_Directory : string }.
Record ToolPathsConfig := mkToolPaths { tp_Opencode : string; tp_Claude : string; tp_Codex : string }.
Record AgentConfig := mkAgent {
  ac_SupervisorURL : string; ac_AuthToken : string; ac_OpencodePort : Z;
  ac_AuthReportIntervalSec : Z; ac_ToolPaths : ToolPathsConfig; ac_Projects : list ProjectDir }.

Inductive agent_config_error :=
  | supervisor_url_required
  | agent_auth_token_required
  | bad_opencode_port (got : Z)
  | project_name_required (i : nat)
  | project_directory_required (i : nat).

Definition validateAgentConfig (cfg : AgentConfig) : res agent_config_error AgentConfig :=
  let cfg' := mkAgent (ac_SupervisorURL cfg) (ac_AuthToken cfg) (ac_OpencodePort cfg)
                (positive_or 30 (ac_AuthReportIntervalSec cfg)) (ac_ToolPaths cfg) (ac_Projects cfg) in
  reject (str_empty (ac_SupervisorURL cfg)) with_err supervisor_url_required in
  reject (str_empty (ac_AuthToken cfg)) with_err agent_auth_token_required in
  reject ((ac_OpencodePort cfg <=? 0) || (65535 <? ac_OpencodePort cfg))
    with_err (bad_opencode_port (ac_OpencodePort cfg)) in
  let? _ := first_error_at (fun i proj =>
      reject (str_empty (pd_Name proj)) with_err (project_name_required i) in
      reject (str_empty (pd_Directory proj)) with_err (project_directory_required i) in Ok ())
    0 (ac_Projects cfg) in
  Ok cfg'.

Definition LoadAgentConfig (read : string -> res string string)
    (decode : string -> res string AgentConfig) (path : string)
    : res (load_error agent_config_error) AgentConfig :=
  let? data := res_map_err load_read (read path) in
  let? cfg := res_map_err load_parse (decode data) in
  res_map_err load_invalid (validateAgentConfig cfg).

(** ** env_manifest.go *)
Record AgentConfigRequirements := mkAgentReq { acr_Model : string; acr_Temperature : Float64.t }.
Record ContextRequirements := mkContextReq { ctx_Files : list string; ctx_Directories : list string }.
Record GitRequirements := mkGitReq { git_Hooks : list string; git_Config : gmap string string }.
Record DocsRequirements := mkDocsReq { docs_Required : list string; docs_Recommended : list string }.
(** Nil maps are empty ones; the other parts are pointers. *)
Record ManifestRequirements := mkRequirements {
  mr_Runtime : gmap string string; mr_Tools : gmap string string; mr_EnvVars : gmap string string;
  mr_AgentConfig : option AgentConfigRequirements; mr_Context : option ContextRequirements;
  mr_Git : option GitRequirements; mr_Docs : option DocsRequirements }.
(** A project is a pointer to a configuration whose requirements are one. *)
Record EnvManifest := mkManifest {
  em_Version : string; em_Requirements : option ManifestRequirements;
  em_Projects : gmap string (option (option ManifestRequirements)) }.

Inductive manifest_error :=
  | version_required
  | version_format (got : string)
  | requirements_required
  | project_name_empty
  | project_null (name : string)
  | req_key_empty (path : string)
  | req_version_empty (path : string)
  | req_version_invalid (path got : string)
  | env_var_status_invalid (path got : string)
  | agent_model_empty (prefix : string)
  | agent_temperature_range (prefix : string)
  | context_empty (prefix : string)
  | list_entry_empty (path : string) (i : nat)
  | git_hook_invalid (path : string) (i : nat) (got : string)
  | git_config_value_empty (path : string)
  | docs_empty (prefix : string).

Definition dot : ascii := ".".
Definition all_digits (s : string) : bool := negb (str_empty s) && Strings.str_forallb Strings.is_digit s.

Definition isValidVersionFormat (version : string) : bool :=
  let parts := Strings.SplitByte version dot in
  (length parts =? 2)%nat && forallb all_digits parts.

Definition constraint_operators : list string := [">="; "<="; ">"; "<"; "^"; "~"; "="]%string.
(** The pattern [^\d+(\.\d+)?(\.\d+)?$]: one to three numbers between dots. *)
Definition semver_match (v : string) : bool :=
  let parts := Strings.SplitByte v dot in
  (1 <=? length parts)%nat && (length parts <=? 3)%nat && forallb all_digits parts.
Definition isValidSemverConstraint (version : string) : bool :=
  semver_match (foldl Strings.TrimPrefix version constraint_operators).

Definition validHooks : list string :=
  ["pre-commit"; "prepare-commit-msg"; "commit-msg"; "post-commit"; "pre-rebase"; "post-rewrite";
   "post-checkout"; "post-merge"; "pre-push"; "pre-auto-gc"]%string.
Definition isValidGitHook (hook : string) : bool := existsb (String.eqb hook) validHooks.

Section Manifest.
Context `{MapRange}.

Definition check_versions (path : string) (m : gmap string string) : res manifest_error () :=
  first_error (fun '(name, version) =>
    reject (str_empty name) with_err (req_key_empty path) in
    reject (str_empty version) with_err (req_version_empty (path +:+ "." +:+ name)%stdpp) in
    reject (negb (isValidSemverConstraint version))
      with_err (req_version_invalid (path +:+ "." +:+ name)%stdpp version) in Ok ()) (range_of m).

Definition check_entries (path : string) (l : list string) : res manifest_error () :=
  first_error_at (fun i s => reject (str_empty s) with_err (list_entry_empty path i) in Ok ()) 0 l.

Definition when {A} (o : option A) (k : A -> res manifest_error ()) : res manifest_error () :=
  match o with None => Ok () | Some a => k a end.

Definition validateRequirements (prefix : string) (reqs : ManifestRequirements) : res manifest_error () :=
  let? _ := check_versions (prefix +:+ ".runtime")%stdpp (mr_Runtime reqs) in
  let? _ := check_versions (prefix +:+ ".tools")%stdpp (mr_Tools reqs) in
  let? _ := first_error (fun '(envVar, status) =>
      reject (str_empty envVar) with_err (req_key_empty (prefix +:+ ".env_vars")%stdpp) in
      reject (negb (String.eqb status "required") && negb (String.eqb status "optional"))
        with_err (env_var_status_invalid (prefix +:+ ".env_vars." +:+ envVar)%stdpp status) in Ok ())
    (range_of (mr_EnvVars reqs)) in
  let? _ := when (mr_AgentConfig reqs) (fun a =>
      reject (str_empty (acr_Model a)) with_err (agent_model_empty prefix) in
      reject (Float64.ltb (acr_Temperature a) Float64.zero || Float64.ltb (Float64.of_Z 1) (acr_Temperature a))
        with_err (agent_temperature_range prefix) in Ok ()) in
  let? _ := when (mr_Context reqs) (fun c =>
      reject ((length (ctx_Files c) =? 0)%nat && (length (ctx_Directories c) =? 0)%nat)
        with_err (context_empty prefix) in
      let? _ := check_entries (prefix +:+ ".context.files")%stdpp (ctx_Files c) in
      check_entries (prefix +:+ ".context.directories")%stdpp (ctx_Directories c)) in
  let? _ := when (mr_Git reqs) (fun g =>
      let? _ := first_error_at (fun i hook =>
          reject (str_empty hook) with_err (list_entry_empty (prefix +:+ ".git.hooks")%stdpp i) in
          reject (negb (isValidGitHook hook))
            with_err (git_hook_invalid (prefix +:+ ".git.hooks")%stdpp i hook) in Ok ()) 0 (git_Hooks g) in
      first_error (fun '(key, v) =>
        reject (str_empty key) with_err (req_key_empty (prefix +:+ ".git.config")%stdpp) in
        reject (str_empty v) with_err (git_config_value_empty (prefix +:+ ".git.config." +:+ key)%stdpp) in
        Ok ()) (range_of (git_Config g))) in
  when (mr_Docs reqs) (fun d =>
    reject ((length (docs_Required d) =? 0)%nat && (length (docs_Recommended d) =? 0)%nat)
      with_err (docs_empty prefix) in
    let? _ := check_entries (prefix +:+ ".docs.required")%stdpp (docs_Required d) in
    check_entries (prefix +:+ ".docs.recommended")%stdpp (docs_Recommended d)).

Definition validateEnvManifest (manifest : EnvManifest) : res manifest_error () :=
  reject (str_empty (em_Version manifest)) with_err version_required in
  reject (negb (isValidVersionFormat (em_Version manifest))) with_err (version_format (em_Version manifest)) in
  match em_Requirements manifest with
  | None => Err requirements_required
  | Some reqs =>
      let? _ := validateRequirements "requirements" reqs in
      first_error (fun '(projectName, projectCfg) =>
        reject (str_empty projectName) with_err project_name_empty in
        match projectCfg with
        | None => Err (project_null projectName)
        | Some None => Ok ()
        | Some (Some reqs) => validateRequirements ("projects." +:+ projectName +:+ ".requirements")%stdpp reqs
        end) (range_of (em_Projects manifest))
  end.

Definition LoadEnvManifest (read : string -> res string string)
    (decode : string -> res string EnvManifest) (path : string)
    : res (load_error manifest_error) EnvManifest :=
  let? data := res_map_err load_read (read path) in
  let? manifest := res_map_err load_parse (decode data) in
  let? _ := res_map_err load_invalid (validateEnvManifest manifest) in
  Ok manifest.
End Manifest.

(** ** Specifications *)

(** What a loaded supervisor configuration satisfies. *)
Record supervisor_ok (cfg : SupervisorConfig) : Prop := {
  ok_port : 0 < srv_Port (sc_Server cfg) <= 65535;
  ok_http_port : 0 <= srv_HTTPPort (sc_Server cfg) <= 65535;
  ok_token : srv_AuthToken (sc_Server cfg) <> ε;
  ok_heartbeat : 0 < srv_HeartbeatIntervalSec (sc_Server cfg) /\ 0 < srv_HeartbeatTimeoutCount (sc_Server cfg);
  ok_database : sc_DatabasePath cfg <> ε;
  ok_cost : 0 < cc_PollIntervalMinutes (sc_Cost cfg) /\ 0 < cc_RequestTimeoutSec (sc_Cost cfg) /\
    0 < cc_MaxRetries (sc_Cost cfg) /\ 0 < cc_BackoffBaseMS (sc_Cost cfg);
  ok_providers : forall p, p = cc_Anthropic (sc_Cost cfg) \/ p = cc_OpenAI (sc_Cost cfg) ->
    IsEnabled p = true ->
    EffectiveAPIKey p <> ε /\ forall model rate, cpc_ModelRates p !! model = Some rate ->
      model <> ε /\ Float64.ltb (rate_Input rate) Float64.zero = false /\
      Float64.ltb (rate_Output rate) Float64.zero = false;
  ok_policies : applyPolicyDefaults (sc_Policies cfg) = sc_Policies cfg;
  ok_security : 0 < sec_RotationCheckIntervalSeconds (sc_Security cfg) /\
    0 < sec_AuditRetentionDays (sc_Security cfg);
  ok_tls : tls_Enabled (sec_TLS (sc_Security cfg)) = true ->
    tls_CertPath (sec_TLS (sc_Security cfg)) <> ε /\ tls_KeyPath (sec_TLS (sc_Security cfg)) <> ε;
  ok_credentials : 0 <= cd_Version (sc_Credentials cfg) /\
    (forall k v, cd_Defaults (sc_Credentials cfg) !! k = Some v -> v <> ε) /\
    (forall a env k v, cd_Agents (sc_Credentials cfg) !! a = Some env -> env !! k = Some v -> v <> ε) }.

(** What requirements satisfy, wherever they stand in the manifest. *)
Definition versions_ok (m : gmap string string) : Prop :=
  forall k v, m !! k = Some v -> k <> ε /\ isValidSemverConstraint v = true.
Record requirements_ok (r : ManifestRequirements) : Prop := {
  ok_runtime : versions_ok (mr_Runtime r);
  ok_tools : versions_ok (mr_Tools r);
  ok_env_vars : forall k v, mr_EnvVars r !! k = Some v -> k <> ε /\ (v = "required" \/ v = "optional")%string;
  ok_agent : forall a, mr_AgentConfig r = Some a -> acr_Model a <> ε /\
    Float64.ltb (acr_Temperature a) Float64.zero = false /\
    Float64.ltb (Float64.of_Z 1) (acr_Temperature a) = false;
  ok_context : forall c, mr_Context r = Some c ->
    (ctx_Files c <> [] \/ ctx_Directories c <> []) /\ not (ε ∈ ctx_Files c) /\ not (ε ∈ ctx_Directories c);
  ok_git : forall g, mr_Git r = Some g -> (forall h, h ∈ git_Hooks g -> h ∈ validHooks) /\
    forall k v, git_Config g !! k = Some v -> k <> ε /\ v <> ε;
  ok_docs : forall d, mr_Docs r = Some d ->
    (docs_Required d <> [] \/ docs_Recommended d <> []) /\ not (ε ∈ docs_Required d) /\ not (ε ∈ docs_Recommended d) }.
Record manifest_ok (m : EnvManifest) : Prop := {
  ok_version : exists x y, em_Version m = (x +:+ "." +:+ y)%stdpp /\ all_digits x = true /\ all_digits y = true;
  ok_requirements : exists r, em_Requirements m = Some r /\ requirements_ok r;
  ok_projects : forall name p, em_Projects m !! name = Some p ->
    name <> ε /\ exists reqs, p = Some reqs /\ forall r, reqs = Some r -> requirements_ok r }.

(** ** Lemmas *)
Module ConfigFacts.
Section Facts.
Context `{MapRange}.

Lemma positive_or_pos d x : 0 < d -> 0 < positive_or d x.
Proof. unfold positive_or. intros. destruct (Z.leb_spec x 0); lia. Qed.
Lemma positive_or_id d x : 0 < x -> positive_or d x = x.
Proof. unfold positive_or. intros. by rewrite (proj2 (Z.leb_gt x 0)). Qed.
Lemma positive_or_idem d x : 0 < d -> positive_or d (positive_or d x) = positive_or d x.
Proof. intros. by apply positive_or_id, positive_or_pos. Qed.

Lemma applyPolicyDefaults_idem p : applyPolicyDefaults (applyPolicyDefaults p) = applyPolicyDefaults p.
Proof.
  unfold applyPolicyDefaults. simpl. rewrite !positive_or_idem by done. do 2 f_equal.
  destruct (Float64.leb (kp_CostThresholdUSD (pc_KillOnCost p)) Float64.zero) eqn:E; [done | by rewrite E].
Qed.
Lemma check_policies_default p : check_policies (applyPolicyDefaults p) = Ok ().
Proof.
  unfold check_policies, applyPolicyDefaults. simpl.
  rewrite !(proj2 (Z.leb_gt _ 0)) by (by apply positive_or_pos).
  destruct (Float64.leb (kp_CostThresholdUSD (pc_KillOnCost p)) Float64.zero) eqn:E; [done | by rewrite E].
Qed.

Lemma validateCostProviderConfig_Ok name p :
  validateCostProviderConfig name p = Ok () <->
  (IsEnabled p = true -> EffectiveAPIKey p <> ε /\
    forall model rate, cpc_ModelRates p !! model = Some rate ->
      model <> ε /\ Float64.ltb (rate_Input rate) Float64.zero = false /\
      Float64.ltb (rate_Output rate) Float64.zero = false).
Proof.
  unfold validateCostProviderConfig. destruct (IsEnabled p); simpl; [|by split].
  rewrite reject_Ok, str_empty_false, first_error_Ok. split.
  - intros [Hk Hall] _. split; [done|]. intros model rate Hm.
    specialize (Hall (model, rate) (proj2 (elem_of_range _ _ _) Hm)). simpl in Hall.
    apply reject_Ok in Hall as [Hm'%str_empty_false [[? ?]%orb_false_iff _]%reject_Ok]. done.
  - intros Himp. destruct (Himp eq_refl) as [Hk Hall]. split; [done|]. intros [model rate] Hin%elem_of_range.
    destruct (Hall _ _ Hin) as (Hm & Hi & Ho). apply reject_Ok. rewrite str_empty_false. split; [done|].
    by rewrite Hi, Ho.
Qed.

Lemma validateCredentials_Ok c :
  validateCredentialDistributionConfig c = Ok () <->
  0 <= cd_Version c /\ (forall k v, cd_Defaults c !! k = Some v -> v <> ε) /\
  (forall a env k v, cd_Agents c !! a = Some env -> env !! k = Some v -> v <> ε).
Proof.
  unfold validateCredentialDistributionConfig.
  rewrite reject_Ok, res_unit_bind, !first_error_Ok, Z.ltb_ge. apply and_iff_compat_l.
  assert (forall (m : gmap string string) (e : string -> config_error),
    (forall a, a ∈ range_of m -> (let '(key, v) := a in if str_empty v then Err (e key) else Ok ()) = Ok ()) <->
    (forall k v, m !! k = Some v -> v <> ε)) as Hm.
  { intros m e. split.
    - intros Hall k v Hk. specialize (Hall (k, v) (proj2 (elem_of_range _ _ _) Hk)). simpl in Hall.
      by apply reject_Ok in Hall as [?%str_empty_false _].
    - intros Hall [k v] Hin%elem_of_range. apply Hall, str_empty_false in Hin. by rewrite Hin. }
  rewrite Hm. apply and_iff_compat_l. split.
  - intros Hall a env k v Ha. specialize (Hall (a, env) (proj2 (elem_of_range _ _ _) Ha)). simpl in Hall.
    rewrite first_error_Ok in Hall. by apply (Hm env (credentials_agent_empty a)).
  - intros Hall [a env] Ha%elem_of_range. rewrite first_error_Ok.
    apply (Hm env (credentials_agent_empty a)). intros k v. by apply (Hall a env k v Ha).
Qed.

Lemma with_defaults_idem cfg : with_defaults (with_defaults cfg) = with_defaults cfg.
Proof.
  unfold with_defaults, applyCostDefaults, applySecurityDefaults. simpl.
  rewrite !positive_or_idem, applyPolicyDefaults_idem by done. do 2 f_equal.
  destruct (str_empty (sc_DatabasePath cfg)) eqn:E; [done | by rewrite E].
Qed.
Lemma validate_with_defaults cfg :
  validateSupervisorConfig (with_defaults cfg) = validateSupervisorConfig cfg.
Proof. unfold validateSupervisorConfig. by rewrite with_defaults_idem. Qed.

Lemma validateSupervisorConfig_ret cfg cfg' :
  validateSupervisorConfig cfg = Ok cfg' -> cfg' = with_defaults cfg.
Proof.
  unfold validateSupervisorConfig. cbv zeta. do 5 (case_match; [done|]).
  intros (? & _ & (? & _ & (? & _ & Hr)%res_bind_Ok)%res_bind_Ok)%res_bind_Ok.
  do 2 (case_match; [done|]). by apply res_bind_Ok in Hr as (? & _ & [= <-]).
Qed.

Lemma validateSupervisorConfig_Ok cfg :
  validateSupervisorConfig cfg = Ok (with_defaults cfg) <-> supervisor_ok (with_defaults cfg).
Proof.
  unfold validateSupervisorConfig. cbv zeta.
  change (sc_Policies (with_defaults cfg)) with (applyPolicyDefaults (sc_Policies cfg)).
  rewrite (check_policies_default (sc_Policies cfg)).
  assert (forall (b : bool) (e : config_error) (k : res config_error SupervisorConfig),
    (if b then Err e else k) = Ok (with_defaults cfg) <-> b = false /\ k = Ok (with_defaults cfg)) as Hrej
    by (intros [] ??; naive_solver).
  assert (forall (m : res config_error ()) (k : res config_error SupervisorConfig),
    res_bind m (fun _ => k) = Ok (with_defaults cfg) <-> m = Ok () /\ k = Ok (with_defaults cfg)) as Hbind
    by (intros [[]|] ?; simpl; naive_solver).
  rewrite !Hrej, !Hbind, !Hrej, !Hbind, !validateCostProviderConfig_Ok, validateCredentials_Ok.
  rewrite !orb_false_iff, !Z.leb_gt, !Z.ltb_ge, str_empty_false. split.
  - intros (? & ? & ? & ? & ? & ? & ? & _ & Hc & Hk & ? & _). constructor; simpl; try done.
    + destruct (str_empty (sc_DatabasePath cfg)) eqn:E; [done | by apply str_empty_false].
    + split_and!; by apply positive_or_pos.
    + intros p [->| ->]; simpl; auto.
    + apply applyPolicyDefaults_idem.
    + split; by apply positive_or_pos.
    + intros Ht. simpl in *. rewrite Ht in Hc, Hk. simpl in *. by rewrite str_empty_false in Hc, Hk.
  - intros [? ? ? [? ?] ? ? Hprov ? ? Htls ?]. simpl in *. split_and!; try lia; try done; auto.
    + destruct (tls_Enabled _); [|done]. simpl. by apply str_empty_false, Htls.
    + destruct (tls_Enabled _); [|done]. simpl. by apply str_empty_false, Htls.
    + naive_solver.
    + naive_solver.
Qed.

Lemma check_entries_Ok path l : check_entries path l = Ok () <-> ε ∉ l.
Proof.
  unfold check_entries. rewrite (first_error_at_Ok _ (fun s => s <> ε)).
  - split; [by intros Hall Hin; apply (Hall ε) | by intros Hnot s Hin ->].
  - intros i s. rewrite reject_Ok, str_empty_false. naive_solver.
Qed.

Lemma check_versions_Ok path m : check_versions path m = Ok () <-> versions_ok m.
Proof.
  unfold check_versions, versions_ok. rewrite first_error_Ok. split.
  - intros Hall k v Hk. specialize (Hall (k, v) (proj2 (elem_of_range _ _ _) Hk)). simpl in Hall.
    apply reject_Ok in Hall as [?%str_empty_false [_ [?%negb_false_iff _]%reject_Ok]%reject_Ok]. done.
  - intros Hall [k v] Hk%elem_of_range. destruct (Hall k v Hk) as [Hk' Hv].
    rewrite (proj2 (str_empty_false k) Hk'). destruct (str_empty v) eqn:Ev; [|by rewrite Hv].
    apply str_empty_true in Ev as ->. by vm_compute in Hv.
Qed.

Lemma when_Ok {A} (o : option A) k : when o k = Ok () <-> forall a, o = Some a -> k a = Ok ().
Proof. destruct o; simpl; naive_solver. Qed.

Lemma both_empty {A} (l1 l2 : list A) :
  ((length l1 =? 0)%nat && (length l2 =? 0)%nat) = false <-> l1 <> [] \/ l2 <> [].
Proof. destruct l1, l2; simpl; naive_solver. Qed.

Lemma isValidGitHook_true h : isValidGitHook h = true <-> h ∈ validHooks.
Proof.
  unfold isValidGitHook. rewrite existsb_exists. split.
  - intros (x & Hx & ->%String.eqb_eq). by apply list_elem_of_In.
  - intros Hin%list_elem_of_In. exists h. by rewrite String.eqb_refl.
Qed.

Lemma validateRequirements_Ok prefix r : validateRequirements prefix r = Ok () <-> requirements_ok r.
Proof.
  unfold validateRequirements. rewrite !res_unit_bind, !check_versions_Ok, !when_Ok, first_error_Ok.
  assert ((forall a, a ∈ range_of (mr_EnvVars r) ->
     (let '(envVar, status) := a in
      if str_empty envVar then Err (req_key_empty (prefix +:+ ".env_vars")%stdpp)
      else if negb (String.eqb status "required") && negb (String.eqb status "optional")
           then Err (env_var_status_invalid (prefix +:+ ".env_vars." +:+ envVar)%stdpp status) else Ok ()) = Ok ()) <->
     (forall k v, mr_EnvVars r !! k = Some v -> k <> ε /\ (v = "required" \/ v = "optional")%string)) as ->.
  { split.
    - intros Hall k v Hk. specialize (Hall (k, v) (proj2 (elem_of_range _ _ _) Hk)). simpl in Hall.
      apply reject_Ok in Hall as [?%str_empty_false [Hs _]%reject_Ok]. split; [done|].
      apply andb_false_iff in Hs as [Hs|Hs]; apply negb_false_iff, String.eqb_eq in Hs; auto.
    - intros Hall [k v] Hk%elem_of_range. destruct (Hall k v Hk) as [Hk' Hv].
      rewrite (proj2 (str_empty_false k) Hk'). by destruct Hv as [->| ->]. }
  assert (forall a, (if str_empty (acr_Model a) then Err (agent_model_empty prefix)
      else if Float64.ltb (acr_Temperature a) Float64.zero || Float64.ltb (Float64.of_Z 1) (acr_Temperature a)
           then Err (agent_temperature_range prefix) else Ok ()) = Ok () <->
    acr_Model a <> ε /\ Float64.ltb (acr_Temperature a) Float64.zero = false /\
    Float64.ltb (Float64.of_Z 1) (acr_Temperature a) = false) as Ha.
  { intros a. rewrite !reject_Ok, str_empty_false, orb_false_iff. naive_solver. }
  setoid_rewrite Ha. setoid_rewrite reject_Ok. setoid_rewrite both_empty.
  setoid_rewrite res_unit_bind. setoid_rewrite check_entries_Ok. setoid_rewrite first_error_Ok.
  assert (forall g, first_error_at (fun i hook =>
      if str_empty hook then Err (list_entry_empty (prefix +:+ ".git.hooks")%stdpp i)
      else if negb (isValidGitHook hook) then Err (git_hook_invalid (prefix +:+ ".git.hooks")%stdpp i hook)
      else Ok ()) 0 (git_Hooks g) = Ok () <-> forall h, h ∈ git_Hooks g -> h ∈ validHooks) as Hg.
  { intros g. apply first_error_at_Ok. intros i h. rewrite !reject_Ok, str_empty_false, negb_false_iff,
      isValidGitHook_true. split; [naive_solver|]. intros Hh. split_and!; [|done|done]. intros ->.
    repeat (apply elem_of_cons in Hh as [Hh|Hh]; [done|]). by apply elem_of_nil in Hh. }
  assert (forall g, (forall a, a ∈ range_of (git_Config g) -> (let '(key, v) := a in
      if str_empty key then Err (req_key_empty (prefix +:+ ".git.config")%stdpp)
      else if str_empty v then Err (git_config_value_empty (prefix +:+ ".git.config." +:+ key)%stdpp) else Ok ()) = Ok ()) <->
      forall k v, git_Config g !! k = Some v -> k <> ε /\ v <> ε) as Hc.
  { intros g. split.
    - intros Hall k v Hk. specialize (Hall (k, v) (proj2 (elem_of_range _ _ _) Hk)). simpl in Hall.
      by apply reject_Ok in Hall as [?%str_empty_false [?%str_empty_false _]%reject_Ok].
    - intros Hall [k v] Hk%elem_of_range. destruct (Hall k v Hk) as [Hk' Hv].
      by rewrite (proj2 (str_empty_false k) Hk'), (proj2 (str_empty_false v) Hv). }
  setoid_rewrite Hg. setoid_rewrite Hc.
  split; [intros (? & ? & ? & ? & ? & ? & ?); by constructor | intros []; tauto].
Qed.

(** Splitting at dots. *)
Lemma digits_no_dot s : all_digits s = true -> Strings.str_forallb (fun c => negb (Ascii.eqb c dot)) s = true.
Proof.
  intros [_ Hs]%andb_true_iff. induction s as [|c s IH]; simpl in *; [done|].
  apply andb_true_iff in Hs as [Hc Hs]. rewrite IH by done. rewrite andb_true_r.
  apply negb_true_iff, Ascii.eqb_neq. intros ->. by vm_compute in Hc.
Qed.

Lemma isValidVersionFormat_true v :
  isValidVersionFormat v = true <->
  exists x y, v = (x +:+ "." +:+ y)%stdpp /\ all_digits x = true /\ all_digits y = true.
Proof.
  unfold isValidVersionFormat. split.
  - intros [Hl Hd]%andb_true_iff. pose proof (StringsFacts.SplitByte_join v dot) as Hj.
    destruct (Strings.SplitByte v dot) as [|x [|y [|]]]; try done. simpl in *.
    apply andb_true_iff in Hd as [? [? _]%andb_true_iff]. exists x, y. by rewrite <- Hj.
  - intros (x & y & -> & Hx & Hy). simpl. rewrite StringsFacts.SplitByte_app by (by apply digits_no_dot).
    rewrite StringsFacts.SplitByte_no_sep by (by apply digits_no_dot). simpl. by rewrite Hx, Hy.
Qed.
End Facts.
End ConfigFacts.

(** ** Properties *)
Section Properties.
Import ConfigFacts.
Context `{MapRange}.

(** Validation accepts a supervisor configuration exactly when the one
    with its defaults filled in is usable (ports in range, a token, positive
    intervals, keys and non-negative rates for enabled providers, positive
    policy values, certificate paths with TLS, no empty credential), whatever
    order its maps are ranged over; what it returns is that configuration, and
    defaulting and validating it again changes nothing. *)
Theorem supervisor_config_valid_iff (cfg : SupervisorConfig) :
  (is_Ok (validateSupervisorConfig cfg) = true <-> supervisor_ok (with_defaults cfg)) /\
  (forall cfg', validateSupervisorConfig cfg = Ok cfg' ->
     cfg' = with_defaults cfg /\ validateSupervisorConfig cfg' = Ok cfg').
Proof.
  pose proof (validateSupervisorConfig_Ok cfg) as HP. split.
  - rewrite <- HP. split; [|by intros ->]. destruct (validateSupervisorConfig cfg) as [cfg'|] eqn:E; [|done].
    by rewrite (validateSupervisorConfig_ret cfg cfg' E).
  - intros cfg' E. pose proof (validateSupervisorConfig_ret cfg cfg' E) as ->. split; [done|].
    by rewrite validate_with_defaults.
Qed.

(** The environment manifest validates exactly when its version is two
    numbers around a dot, it has requirements, and the requirements and those of
    every named project are well formed; map orders do not matter. *)
Theorem env_manifest_valid_iff (m : EnvManifest) :
  validateEnvManifest m = Ok () <-> manifest_ok m.
Proof.
  unfold validateEnvManifest. rewrite !reject_Ok, str_empty_false, negb_false_iff, isValidVersionFormat_true.
  destruct (em_Requirements m) as [r|] eqn:Er.
  - rewrite res_unit_bind, validateRequirements_Ok, first_error_Ok. split.
    + intros (_ & Hv & Hr & Hp). constructor; [done | eauto |]. intros name p Hn.
      specialize (Hp (name, p) (proj2 (elem_of_range _ _ _) Hn)). simpl in Hp.
      apply reject_Ok in Hp as [?%str_empty_false Hp]. split; [done|].
      destruct p as [reqs|]; [|done]. exists reqs. split; [done|]. intros r' ->.
      by eapply validateRequirements_Ok.
    + intros [Hv (r' & Hr & Hok) Hp]. rewrite Er in Hr. injection Hr as <-. split_and!; [|done|done|].
      { destruct Hv as (x & y & -> & _). by destruct x. }
      intros [name p] Hn%elem_of_range. destruct (Hp name p Hn) as (Hne & reqs & -> & Hall).
      rewrite (proj2 (str_empty_false name) Hne). destruct reqs; [|done]. by apply validateRequirements_Ok, Hall.
  - split; [by intros (_ & _ & ?)|]. intros [_ (r' & Hr & _) _]. by rewrite Er in Hr.
Qed.
End Properties.

(** ** Witnesses *)
Module ConfigWitness.
#[local] Existing Instance sorted_range.

Definition no_provider : CostProviderConfig := mkProvider ε None ∅ ε ε ε.
Definition cfg : SupervisorConfig :=
  mkSupervisor (mkServer 8420 8421 "secret-token" 30 3 []) VNil ε
    (mkCost 0 (mkProvider "k" None {[ "opus" := mkRate (Float64.of_Z 15) (Float64.of_Z 75) ]}%string ε ε ε)
       no_provider 0 0 0) VNil
    (mkPolicies (mkIdlePolicy true 0 0 0) (mkCompactionPolicy true 0 0 0)
       (mkCostPolicy true Float64.zero 0 0) 0) VNil
    (mkSecurity (mkTLS true "cert.pem" "key.pem") [] false 0 false 0)
    (mkCredentials 1 {[ "API_KEY" := "k" ]}%string ∅).

Lemma supervisor_config_valid_iff_witness :
  (is_Ok (validateSupervisorConfig cfg) = true <-> supervisor_ok (with_defaults cfg)) /\
  (forall cfg', validateSupervisorConfig cfg = Ok cfg' ->
     cfg' = with_defaults cfg /\ validateSupervisorConfig cfg' = Ok cfg').
Proof. apply (supervisor_config_valid_iff cfg). Defined.
Example cfg_valid : is_Ok (validateSupervisorConfig cfg) = true.
Proof. vm_compute. reflexivity. Qed.

Definition manifest : EnvManifest :=
  mkManifest "1.0" (Some (mkRequirements {[ "node" := ">=18.0.0" ]}%string {[ "git" := "^2.30" ]}%string
    {[ "API_KEY" := "required" ]}%string None (Some (mkContextReq ["AGENT.md"%string] []))
    (Some (mkGitReq ["pre-commit"%string] ∅)) None)) {[ "web" := Some None ]}%string.
Lemma env_manifest_valid_iff_witness : validateEnvManifest manifest = Ok () <-> manifest_ok manifest.
Proof. apply (env_manifest_valid_iff manifest). Defined.
Example manifest_valid : validateEnvManifest manifest = Ok ().
Proof. vm_compute. reflexivity. Qed.
(** A bare major version and stacked operators pass as constraints. *)
Example lenient_constraints :
  isValidSemverConstraint "18" = true /\ isValidSemverConstraint ">=<=1.0" = true.
Proof. vm_compute. split; reflexivity. Qed.
End ConfigWitness.
