(* ===== verification/PolicyEngine.v ===== *)
(** * PolicyEngine

    internal/supervisor/policy_engine.go: the periodic checks that resume,
    restart or kill sessions, with a retry count per session and policy.  The
    dispatcher is an argument (what [DispatchCommand] answers for a command), the
    events handed to the pipeline are returned, and [clock] gives the instants
    read with [time.Now()]. *)

From S2P Require Import Prelude GoStd SessionTracker Commands Config EventPipeline.

Definition policyEngineAgentID : string := "policy-engine".

Record retryState := mkRetry {
  rs_count : Z; rs_lastAttempt : Time.t; rs_lastSuccess : Time.t }.
Definition no_retry : retryState := mkRetry 0 Time.zero Time.zero.

(** What the engine does outside its state. *)
Inductive policy_effect :=
  | Dispatched (cmd : Command)
  | Emitted (event : Event).

Module Policy.

Record PolicyEngine := mkEngine {
  pe_config : PolicyConfig;
  pe_interval : Z;
  pe_has_events : bool;
  pe_retries : gmap string (gmap string retryState);
  pe_eventSeq : Z }.

(** [withPolicyDefaults], written out again in this file of the source. *)
Definition withPolicyDefaults (p : PolicyConfig) : PolicyConfig :=
  let i := pc_ResumeOnIdle p in
  let c := pc_RestartOnCompaction p in
  let k := pc_KillOnCost p in
  mkPolicies
    (mkIdlePolicy (ip_Enabled i) (if ip_IdleThresholdSec i <=? 0 then 300 else ip_IdleThresholdSec i)
       (if ip_MaxRetries i <=? 0 then 3 else ip_MaxRetries i)
       (if ip_RetryResetSeconds i <=? 0 then 3600 else ip_RetryResetSeconds i))
    (mkCompactionPolicy (cp_Enabled c) (if cp_TokenThreshold c <=? 0 then 180000 else cp_TokenThreshold c)
       (if cp_MaxRetries c <=? 0 then 2 else cp_MaxRetries c)
       (if cp_RetryResetSeconds c <=? 0 then 3600 else cp_RetryResetSeconds c))
    (mkCostPolicy (kp_Enabled k)
       (if Float64.leb (kp_CostThresholdUSD k) Float64.zero then Float64.of_Z 10 else kp_CostThresholdUSD k)
       (if kp_MaxRetries k <=? 0 then 1 else kp_MaxRetries k)
       (if kp_RetryResetSeconds k <=? 0 then 86400 else kp_RetryResetSeconds k))
    (if pc_CheckIntervalSec p <=? 0 then 30 else pc_CheckIntervalSec p).

Definition NewPolicyEngine (policyConfig : PolicyConfig) (has_events : bool) : PolicyEngine :=
  let cfg := withPolicyDefaults policyConfig in
  mkEngine cfg (Time.mul_duration (pc_CheckIntervalSec cfg) Time.Second) has_events ∅ 0.

(** The ticker's period in [Start]. *)
Definition ticker_interval (p : PolicyEngine) : Z :=
  if pe_interval p <=? 0 then 30 * Time.Second else pe_interval p.

(** *** Retry counts *)
Definition getRetryState (p : PolicyEngine) (sessionID policyName : string) : retryState :=
  match pe_retries p !! sessionID with
  | None => no_retry
  | Some byPolicy => default no_retry (byPolicy !! policyName)
  end.
Definition setRetryState (p : PolicyEngine) (sessionID policyName : string) (s : retryState) : PolicyEngine :=
  mkEngine (pe_config p) (pe_interval p) (pe_has_events p)
    (<[sessionID := <[policyName := s]> (default ∅ (pe_retries p !! sessionID))]> (pe_retries p))
    (pe_eventSeq p).

Definition canAttempt (p : PolicyEngine) (sessionID policyName : string)
    (maxRetries retryResetWindow : Z) (now : Time.t) : PolicyEngine * bool * Z :=
  let s := getRetryState p sessionID policyName in
  if (0 <? maxRetries) && (maxRetries <=? rs_count s) then
    if (0 <? retryResetWindow) && (retryResetWindow <=? Time.Sub now (rs_lastAttempt s)) then
      (setRetryState p sessionID policyName (mkRetry 0 (rs_lastAttempt s) (rs_lastSuccess s)), true, 0)
    else (p, false, rs_count s)
  else (p, true, rs_count s).

Definition markFailure (p : PolicyEngine) (sessionID policyName : string) (now : Time.t)
    : PolicyEngine * Z :=
  let s := getRetryState p sessionID policyName in
  let count := i64 (rs_count s + 1) in
  (setRetryState p sessionID policyName (mkRetry count now (rs_lastSuccess s)), count).

Definition markSuccess (p : PolicyEngine) (sessionID policyName : string) (now : Time.t) : PolicyEngine :=
  let s := getRetryState p sessionID policyName in
  setRetryState p sessionID policyName (mkRetry 0 (rs_lastAttempt s) now).

Definition RetryCount (p : PolicyEngine) (sessionID policyName : string) : Z :=
  rs_count (getRetryState p sessionID policyName).

(** *** Events and interventions *)
Section Engine.
Context (marshal : list (string * value) -> string).

Definition emitPolicyEvent (p : PolicyEngine) (now : Time.t) (eventType sessionID : string)
    (payload : list (string * value)) : PolicyEngine * list policy_effect :=
  if negb (pe_has_events p) then (p, [])
  else
    let seq := u64 (pe_eventSeq p + 1) in
    (mkEngine (pe_config p) (pe_interval p) (pe_has_events p) (pe_retries p) seq,
     [Emitted (mkEvent ("policy-" +:+ Itoa seq)%stdpp sessionID eventType (marshal payload) now seq)]).

Definition emitPolicyAction (p : PolicyEngine) (now : Time.t) (sessionID policyName action result : string)
    (retryCount : Z) (lastError : string) : PolicyEngine * list policy_effect :=
  emitPolicyEvent p now "policy.action" sessionID
    ([("policy", VStr policyName); ("session_id", VStr sessionID); ("action", VStr action);
      ("result", VStr result); ("retry_count", VNum (Float64.of_Z retryCount))]%string ++
     (if str_empty lastError then [] else [("last_error", VStr lastError)]%string)).

Definition emitRetryCapAlert (p : PolicyEngine) (now : Time.t) (sessionID policyName : string)
    (retryCount : Z) (lastError : string) : PolicyEngine * list policy_effect :=
  let payload := [("policy", VStr policyName); ("session_id", VStr sessionID);
    ("reason", VStr "max_retries_reached"); ("retry_count", VNum (Float64.of_Z retryCount));
    ("last_error", VStr lastError)]%string in
  let '(p, e1) := emitPolicyEvent p now "policy.alert" sessionID payload in
  let '(p, e2) := emitPolicyEvent p now "policy.retry_cap" sessionID payload in
  (p, e1 ++ e2).

(** The failure branches of [tryIntervention]. *)
Definition intervention_failed (p : PolicyEngine) (now : Time.t) (sessionID policyName commandType : string)
    (maxRetries : Z) (errorMsg : string) : PolicyEngine * list policy_effect :=
  let '(p, retries) := markFailure p sessionID policyName now in
  let '(p, e1) := emitPolicyAction p now sessionID policyName commandType "failure" retries errorMsg in
  if maxRetries <=? retries then
    let '(p, e2) := emitRetryCapAlert p now sessionID policyName retries errorMsg in (p, e1 ++ e2)
  else (p, e1).

Definition intervention_command (session : TrackedSession) (policyName commandType : string) : Command :=
  mkCommand ε commandType ε (mkTarget (ses_Project session) (ses_NodeID session))
    {[ "session_id" := VStr (ses_SessionID session); "policy" := VStr policyName ]}%string
    (2 * Time.Second).

(** [answer cmd] is what the dispatcher answers; the part of [tryIntervention]
    after the check. *)
Definition intervene (answer : Command -> res string (option CommandResult)) (p : PolicyEngine)
    (now : Time.t) (session : TrackedSession) (policyName : string) (maxRetries : Z)
    (commandType : string) (retries : Z) : PolicyEngine * list policy_effect :=
  let id := ses_SessionID session in
  let cmd := intervention_command session policyName commandType in
  let failed msg := intervention_failed p now id policyName commandType maxRetries msg in
  let '(p, effs) :=
    match answer cmd with
    | Err e => failed e
    | Ok None => failed "command returned non-success status"%string
    | Ok (Some r) =>
        if negb (String.eqb (cr_Status r) CommandStatusSuccess) then
          failed (if str_empty (cr_Error r) then "command returned non-success status"%string else cr_Error r)
        else emitPolicyAction (markSuccess p id policyName now) now id policyName commandType "success" retries ε
    end in
  (p, Dispatched cmd :: effs).

Definition tryIntervention (answer : Command -> res string (option CommandResult)) (p : PolicyEngine)
    (now : Time.t) (session : TrackedSession) (policyName : string) (maxRetries retryResetWindow : Z)
    (commandType : string) : PolicyEngine * list policy_effect :=
  match canAttempt p (ses_SessionID session) policyName maxRetries retryResetWindow now with
  | (p, false, _) => (p, [])
  | (p, true, retries) => intervene answer p now session policyName maxRetries commandType retries
  end.

(** [clock] is the instant at which each policy's intervention reads the clock. *)
Section Checks.
Context (answer : Command -> res string (option CommandResult)) (clock : string -> Time.t).

Definition evaluateResumeOnIdle (p : PolicyEngine) (session : TrackedSession) (now : Time.t)
    : PolicyEngine * list policy_effect :=
  let policy := pc_ResumeOnIdle (pe_config p) in
  if negb (ip_Enabled policy) then (p, [])
  else if Time.IsZero (ses_LastActivity session)
          || (Time.Sub now (ses_LastActivity session) <? Time.mul_duration (ip_IdleThresholdSec policy) Time.Second)
  then (p, [])
  else tryIntervention answer p (clock "resume_on_idle"%string) session "resume_on_idle" (ip_MaxRetries policy)
         (Time.mul_duration (ip_RetryResetSeconds policy) Time.Second) CommandTypePromptSession.

Definition evaluateRestartOnCompaction (p : PolicyEngine) (session : TrackedSession)
    : PolicyEngine * list policy_effect :=
  let policy := pc_RestartOnCompaction (pe_config p) in
  if negb (cp_Enabled policy) then (p, [])
  else if tu_Total (ses_TokenUsage session) <? cp_TokenThreshold policy then (p, [])
  else tryIntervention answer p (clock "restart_on_compaction"%string) session "restart_on_compaction"
         (cp_MaxRetries policy) (Time.mul_duration (cp_RetryResetSeconds policy) Time.Second)
         CommandTypeRestartSession.

Definition evaluateKillOnCost (p : PolicyEngine) (session : TrackedSession)
    : PolicyEngine * list policy_effect :=
  let policy := pc_KillOnCost (pe_config p) in
  if negb (kp_Enabled policy) then (p, [])
  else if Float64.ltb (ses_SessionCost session) (kp_CostThresholdUSD policy) then (p, [])
  else tryIntervention answer p (clock "kill_on_cost"%string) session "kill_on_cost" (kp_MaxRetries policy)
         (Time.mul_duration (kp_RetryResetSeconds policy) Time.Second) CommandTypeKillSession.

Definition evaluate_session (p : PolicyEngine) (now : Time.t) (session : TrackedSession)
    : PolicyEngine * list policy_effect :=
  let '(p, e1) := evaluateResumeOnIdle p session now in
  let '(p, e2) := evaluateRestartOnCompaction p session in
  let '(p, e3) := evaluateKillOnCost p session in
  (p, e1 ++ e2 ++ e3).
End Checks.

Fixpoint check_sessions (answer : Command -> res string (option CommandResult))
    (clock : TrackedSession -> string -> Time.t) (p : PolicyEngine) (now : Time.t)
    (sessions : list TrackedSession) : PolicyEngine * list policy_effect :=
  match sessions with
  | [] => (p, [])
  | s :: sessions' =>
      let '(p, e1) := evaluate_session answer (clock s) p now s in
      let '(p, e2) := check_sessions answer clock p now sessions' in
      (p, e1 ++ e2)
  end.

(** [runChecks] with a tracker and a dispatcher; [reached] is how many sessions
    it comes to before the context is done. *)
Definition runChecks (answer : Command -> res string (option CommandResult))
    (clock : TrackedSession -> string -> Time.t) (reached : nat) (p : PolicyEngine) (now : Time.t)
    (sessions : list TrackedSession) : PolicyEngine * list policy_effect :=
  check_sessions answer clock p now (take reached sessions).

(** A run of the ticker. *)
Record tick := mkTick {
  tick_answer : Command -> res string (option CommandResult);
  tick_clock : TrackedSession -> string -> Time.t;
  tick_reached : nat;
  tick_now : Time.t;
  tick_sessions : list TrackedSession }.
Fixpoint run_ticks (p : PolicyEngine) (ticks : list tick) : PolicyEngine * list policy_effect :=
  match ticks with
  | [] => (p, [])
  | t :: ticks' =>
      let '(p, e1) := runChecks (tick_answer t) (tick_clock t) (tick_reached t) p (tick_now t) (tick_sessions t) in
      let '(p, e2) := run_ticks p ticks' in
      (p, e1 ++ e2)
  end.
End Engine.
End Policy.

(** ** Lemmas *)
Module PolicyFacts.
Import Policy ConfigFacts.

Lemma withPolicyDefaults_eq p : withPolicyDefaults p = applyPolicyDefaults p.
Proof. done. Qed.

(** *** Event numbers *)
Definition emitted (effs : list policy_effect) : list Event :=
  omap (fun x => match x with Emitted e => Some e | Dispatched _ => None end) effs.

(** The effects of going from [p] to [p'] number their events on from [p]'s. *)
Definition emits (p : PolicyEngine) (effs : list policy_effect) (p' : PolicyEngine) : Prop :=
  pe_config p' = pe_config p /\ pe_has_events p' = pe_has_events p /\
  pe_eventSeq p' = u64 (pe_eventSeq p + Z.of_nat (length (emitted effs))) /\
  forall i e, emitted effs !! i = Some e ->
    ev_Seq e = u64 (pe_eventSeq p + 1 + Z.of_nat i) /\ ev_ID e = ("policy-" +:+ Itoa (ev_Seq e))%stdpp.

Lemma u64_add_u64 a b : u64 (u64 a + b) = u64 (a + b).
Proof. unfold u64. by rewrite Zplus_mod_idemp_l. Qed.

Lemma emits_nil p : is_u64 (pe_eventSeq p) -> emits p [] p.
Proof. intros Hp. split_and!; [done | done | simpl; rewrite Z.add_0_r; by rewrite u64_small | done]. Qed.

Lemma emits_set p id name st : is_u64 (pe_eventSeq p) -> emits p [] (setRetryState p id name st).
Proof. intros Hp. split_and!; [done | done | simpl; rewrite Z.add_0_r; by rewrite u64_small | done]. Qed.

Lemma emits_app p e1 p1 e2 p2 : emits p e1 p1 -> emits p1 e2 p2 -> emits p (e1 ++ e2) p2.
Proof.
  intros (C1 & H1 & S1 & N1) (C2 & H2 & S2 & N2). unfold emits. unfold emitted in *. rewrite omap_app.
  split_and!; [congruence | congruence | |].
  - rewrite S2, S1, u64_add_u64, length_app. f_equal. lia.
  - intros i e [Hi|[Hl Hi]]%lookup_app_Some; [by apply N1|]. destruct (N2 _ _ Hi) as [-> ->]. split; [|done].
    rewrite S1. rewrite <- Z.add_assoc, u64_add_u64. f_equal. lia.
Qed.

Lemma emits_u64 p e p' : emits p e p' -> is_u64 (pe_eventSeq p').
Proof. intros (_ & _ & -> & _). apply u64_range. Qed.

Lemma emits_dispatched p cmd e p' : emits p e p' -> emits p (Dispatched cmd :: e) p'.
Proof. done. Qed.

Lemma emits_retries p m p' e :
  emits (mkEngine (pe_config p) (pe_interval p) (pe_has_events p) m (pe_eventSeq p)) e p' -> emits p e p'.
Proof. done. Qed.

(** *** Dispatches for a session and policy *)
Definition is_for (id name : string) (x : policy_effect) : bool :=
  match x with
  | Dispatched cmd =>
      match cmd_Args cmd !! "session_id"%string, cmd_Args cmd !! "policy"%string with
      | Some (VStr i), Some (VStr n) => String.eqb i id && String.eqb n name
      | _, _ => false
      end
  | Emitted _ => false
  end.
Definition dispatches_for (id name : string) (effs : list policy_effect) : nat :=
  length (filter (fun x => is_for id name x = true) effs).

Lemma dispatches_app id name e1 e2 :
  dispatches_for id name (e1 ++ e2) = (dispatches_for id name e1 + dispatches_for id name e2)%nat.
Proof. unfold dispatches_for. by rewrite filter_app, length_app. Qed.
Lemma dispatches_emitted id name es :
  Forall (fun x => exists e, x = Emitted e) es -> dispatches_for id name es = 0%nat.
Proof.
  unfold dispatches_for. induction 1 as [|x es [e ->] _ IH]; [done|].
  by rewrite filter_cons_False.
Qed.
Lemma is_for_command id name s policy t :
  is_for id name (Dispatched (intervention_command s policy t)) =
  String.eqb (ses_SessionID s) id && String.eqb policy name.
Proof. done. Qed.
Lemma dispatches_command id name s policy t es :
  dispatches_for id name (Dispatched (intervention_command s policy t) :: es) =
  ((if String.eqb (ses_SessionID s) id && String.eqb policy name then 1 else 0) + dispatches_for id name es)%nat.
Proof.
  unfold dispatches_for. pose proof (is_for_command id name s policy t) as E.
  destruct (String.eqb (ses_SessionID s) id && String.eqb policy name).
  - by rewrite filter_cons_True.
  - rewrite filter_cons_False; [done|]. by rewrite E.
Qed.

Lemma getRetry_set p id name s id' name' :
  getRetryState (setRetryState p id name s) id' name' =
  if String.eqb id id' && String.eqb name name' then s else getRetryState p id' name'.
Proof.
  unfold getRetryState, setRetryState. simpl. destruct (String.eqb_spec id id') as [<-|]; simpl.
  - rewrite lookup_insert_eq. destruct (String.eqb_spec name name') as [<-|].
    + by rewrite lookup_insert_eq.
    + rewrite lookup_insert_ne by done. by destruct (pe_retries p !! id); simpl.
  - by rewrite lookup_insert_ne.
Qed.

Section Engine.
Context (marshal : list (string * value) -> string).

(** The engine's state between two points, seen from one session and policy:
    its retry state is as it was, and the events are numbered on. *)
Lemma emitPolicyEvent_spec p now ty id payload :
  is_u64 (pe_eventSeq p) ->
  let '(p', effs) := emitPolicyEvent marshal p now ty id payload in
  emits p effs p' /\ pe_retries p' = pe_retries p /\ Forall (fun x => exists e, x = Emitted e) effs.
Proof.
  intros Hu. unfold emitPolicyEvent. destruct (pe_has_events p) eqn:E; simpl.
  - split_and!; [|done | constructor; eauto]. split_and!; [done | done | done |].
    intros [|i] e; simpl; [|done]. intros [= <-]. simpl. by rewrite Z.add_0_r.
  - split_and!; [by apply emits_nil | done | constructor].
Qed.

(** All of [effs] are events. *)
Definition only_events (effs : list policy_effect) : Prop := Forall (fun x => exists e, x = Emitted e) effs.

Lemma intervention_failed_spec p now id name t m msg :
  is_u64 (pe_eventSeq p) ->
  let '(p', effs) := intervention_failed marshal p now id name t m msg in
  emits p effs p' /\ pe_retries p' = pe_retries (markFailure p id name now).1 /\ only_events effs.
Proof.
  intros Hu. unfold intervention_failed. destruct (markFailure p id name now) as [p1 c] eqn:Em.
  assert (emits p [] p1) as N0 by (injection Em as <- _; by apply emits_set).
  assert (is_u64 (pe_eventSeq p1)) as Hu1 by (by injection Em as <- _). clear Em.
  unfold emitPolicyAction. match goal with |- context [emitPolicyEvent marshal p1 ?a ?b ?c ?d] =>
    pose proof (emitPolicyEvent_spec p1 a b c d Hu1) as H1; destruct (emitPolicyEvent marshal p1 a b c d) as [p2 e1] end.
  destruct H1 as (N1 & R1 & F1). pose proof (emits_app _ _ _ _ _ N0 N1) as N01. simpl in N01.
  destruct (m <=? c); [|done].
  unfold emitRetryCapAlert. cbv zeta.
  match goal with |- context [emitPolicyEvent marshal p2 ?a ?b ?c ?d] =>
    pose proof (emitPolicyEvent_spec p2 a b c d (emits_u64 _ _ _ N1)) as H2;
    destruct (emitPolicyEvent marshal p2 a b c d) as [p3 e2] end.
  destruct H2 as (N2 & R2 & F2).
  match goal with |- context [emitPolicyEvent marshal p3 ?a ?b ?c ?d] =>
    pose proof (emitPolicyEvent_spec p3 a b c d (emits_u64 _ _ _ N2)) as H3;
    destruct (emitPolicyEvent marshal p3 a b c d) as [p4 e3] end.
  destruct H3 as (N3 & R3 & F3). simpl. split_and!.
  - apply (emits_app _ _ p2); [done|]. by apply (emits_app _ _ p3).
  - congruence.
  - by repeat apply Forall_app_2.
Qed.

(** The dispatcher never succeeds for the session and policy. *)
Definition failing (id name : string) (answer : Command -> res string (option CommandResult)) : Prop :=
  forall cmd r, is_for id name (Dispatched cmd) = true -> answer cmd = Ok (Some r) ->
    cr_Status r <> CommandStatusSuccess.

Lemma intervene_spec answer p now s policy m t k :
  is_u64 (pe_eventSeq p) ->
  let '(p', effs) := intervene marshal answer p now s policy m t k in
  emits p effs p' /\
  (exists st, pe_retries p' = pe_retries (setRetryState p (ses_SessionID s) policy st) /\
     (failing (ses_SessionID s) policy answer ->
      rs_count st = i64 (RetryCount p (ses_SessionID s) policy + 1) /\ rs_lastAttempt st = now)) /\
  exists es, effs = Dispatched (intervention_command s policy t) :: es /\ only_events es.
Proof.
  intros Hu. unfold intervene. cbv zeta. set (cmd := intervention_command s policy t).
  assert (forall msg, let '(p', effs) := intervention_failed marshal p now (ses_SessionID s) policy t m msg in
    emits p effs p' /\ (exists st, pe_retries p' = pe_retries (setRetryState p (ses_SessionID s) policy st) /\
      rs_count st = i64 (RetryCount p (ses_SessionID s) policy + 1) /\ rs_lastAttempt st = now) /\
    only_events effs) as Hf.
  { intros msg. pose proof (intervention_failed_spec p now (ses_SessionID s) policy t m msg Hu) as Hs.
    destruct (intervention_failed _ _ _ _ _ _ _ _) as [p' es]. destruct Hs as (? & Hr & ?).
    split_and!; [done | eexists; split; [exact Hr | done] | done]. }
  assert (forall msg, let '(p', effs) := (let '(p', effs) :=
      intervention_failed marshal p now (ses_SessionID s) policy t m msg in (p', Dispatched cmd :: effs)) in
    emits p effs p' /\ (exists st, pe_retries p' = pe_retries (setRetryState p (ses_SessionID s) policy st) /\
      (failing (ses_SessionID s) policy answer ->
       rs_count st = i64 (RetryCount p (ses_SessionID s) policy + 1) /\ rs_lastAttempt st = now)) /\
    exists es, effs = Dispatched cmd :: es /\ only_events es) as Hgo.
  { intros msg. specialize (Hf msg). destruct (intervention_failed _ _ _ _ _ _ _ _) as [p' es].
    destruct Hf as (? & (st & ? & ?) & ?). split_and!; [done | by exists st | by exists es]. }
  destruct (answer cmd) as [[r|]|e] eqn:Ea; [|apply Hgo | apply Hgo].
  destruct (String.eqb_spec (cr_Status r) CommandStatusSuccess) as [Hok|Hbad]; simpl; [|apply Hgo].
  unfold emitPolicyAction, markSuccess. cbv zeta. unfold setRetryState at 1.
  match goal with |- context [emitPolicyEvent marshal ?a ?b ?c ?d ?e] =>
    pose proof (emitPolicyEvent_spec a b c d e Hu) as Hs;
    destruct (emitPolicyEvent marshal a b c d e) as [p' es] end.
  destruct Hs as (? & Hr & ?). split_and!; [done | | by exists es]. eexists. split; [exact Hr|].
  intros Hfail. exfalso. apply (Hfail cmd r); [|done|done].
  unfold cmd. by rewrite is_for_command, !String.eqb_refl.
Qed.

(** One intervention, seen from a session and policy whose dispatches fail. *)
Definition within (a w : Z) (now : Time.t) : Prop := a <= now < a + w.
(** The count of a session and policy is within its cap, and its last attempt
    not before [a]. *)
Definition counted (p : PolicyEngine) (id name : string) (a m : Z) : Prop :=
  0 <= RetryCount p id name <= m /\
  (0 < RetryCount p id name -> a <= rs_lastAttempt (getRetryState p id name)).

Lemma tryIntervention_spec answer p now s policy m w t :
  is_u64 (pe_eventSeq p) ->
  let '(p', effs) := tryIntervention marshal answer p now s policy m w t in
  emits p effs p' /\
  (effs = [] \/ exists es, effs = Dispatched (intervention_command s policy t) :: es /\ only_events es) /\
  (forall id name, String.eqb (ses_SessionID s) id && String.eqb policy name = false ->
     getRetryState p' id name = getRetryState p id name) /\
  (forall a, failing (ses_SessionID s) policy answer -> 0 < m -> is_i64 m -> within a w now ->
     w <= Time.maxDuration -> counted p (ses_SessionID s) policy a m ->
     counted p' (ses_SessionID s) policy a m /\
     RetryCount p' (ses_SessionID s) policy = RetryCount p (ses_SessionID s) policy +
       (match effs with [] => 0 | _ => 1 end)).
Proof.
  intros Hu. unfold tryIntervention, canAttempt. cbv zeta. set (id := ses_SessionID s).
  set (st := getRetryState p id policy).
  destruct ((0 <? m) && (m <=? rs_count st)) eqn:Ec.
  - destruct ((0 <? w) && (w <=? Time.Sub now (rs_lastAttempt st))) eqn:Ew.
    + set (q := setRetryState p id policy _).
      pose proof (intervene_spec answer q now s policy m t 0 Hu) as Hs.
      destruct (intervene _ _ _ _ _ _ _ _ _) as [p' effs].
      destruct Hs as (Hem & (st' & Hr & _) & es & -> & Hes). split_and!; [by apply (emits_app p [] q (Dispatched (intervention_command s policy t) :: es) p'); [apply emits_set|] | right; eauto | |].
      * intros id' name' Hne. assert (getRetryState p' id' name' = getRetryState (setRetryState q id policy st') id' name')
          as -> by (unfold getRetryState; by rewrite Hr).
        unfold q. fold id in Hne. by rewrite !getRetry_set, Hne.
      * intros a _ Hm _ [Ha Hn] Hw [Hc1 Hc2]. exfalso. bool_props.
        unfold RetryCount in *. fold st in Hc1, Hc2. assert (0 < rs_count st) as Hpos by lia.
        specialize (Hc2 Hpos). pose proof (TimeFacts.Sub_lt now (rs_lastAttempt st) w) as Hlt.
        unfold Time.minDuration in Hlt. lia.
    + split_and!; [by apply emits_nil | by left | done |]. intros a _ _ _ _ _ Hc. split; [done|lia].
  - pose proof (intervene_spec answer p now s policy m t (rs_count st) Hu) as Hs.
    destruct (intervene _ _ _ _ _ _ _ _ _) as [p' effs].
    destruct Hs as (Hem & (st' & Hr & Hst) & es & -> & Hes). fold id in Hr, Hst.
    assert (forall id' name', getRetryState p' id' name' = getRetryState (setRetryState p id policy st') id' name')
      as Hget by (intros; unfold getRetryState; by rewrite Hr).
    split_and!; [done | right; eauto | intros id' name' Hne; by rewrite Hget, getRetry_set, Hne |].
    intros a Hfail Hm Hm64 [Ha _] _ [Hc1 Hc2]. destruct (Hst Hfail) as [Hcount Hlast].
    unfold counted, RetryCount in *. rewrite Hget, getRetry_set, !String.eqb_refl. simpl. fold st in Hc1, Hc2, Hcount |- *.
    apply andb_false_iff in Ec as [Ec|Ec]; bool_props; [lia|].
    rewrite Hcount, i64_small by (unfold is_i64 in *; lia). split; [|done]. split; lia.
Qed.

(** *** Whole runs, for one session and policy *)
Definition limits (cfg : PolicyConfig) (name : string) : Z * Z :=
  if String.eqb name "resume_on_idle" then
    (ip_MaxRetries (pc_ResumeOnIdle cfg),
     Time.mul_duration (ip_RetryResetSeconds (pc_ResumeOnIdle cfg)) Time.Second)
  else if String.eqb name "restart_on_compaction" then
    (cp_MaxRetries (pc_RestartOnCompaction cfg),
     Time.mul_duration (cp_RetryResetSeconds (pc_RestartOnCompaction cfg)) Time.Second)
  else
    (kp_MaxRetries (pc_KillOnCost cfg),
     Time.mul_duration (kp_RetryResetSeconds (pc_KillOnCost cfg)) Time.Second).

(** Why a command is due for a session. *)
Definition due (cfg : PolicyConfig) (now : Time.t) (s : TrackedSession) (name type : string) : Prop :=
  (name = "resume_on_idle"%string /\ type = CommandTypePromptSession /\
   ip_Enabled (pc_ResumeOnIdle cfg) = true /\ ses_LastActivity s <> Time.zero /\
   Time.mul_duration (ip_IdleThresholdSec (pc_ResumeOnIdle cfg)) Time.Second <= Time.Sub now (ses_LastActivity s)) \/
  (name = "restart_on_compaction"%string /\ type = CommandTypeRestartSession /\
   cp_Enabled (pc_RestartOnCompaction cfg) = true /\
   cp_TokenThreshold (pc_RestartOnCompaction cfg) <= tu_Total (ses_TokenUsage s)) \/
  (name = "kill_on_cost"%string /\ type = CommandTypeKillSession /\
   kp_Enabled (pc_KillOnCost cfg) = true /\
   Float64.ltb (ses_SessionCost s) (kp_CostThresholdUSD (pc_KillOnCost cfg)) = false).
Definition justified (cfg : PolicyConfig) (now : Time.t) (sessions : list TrackedSession)
    (effs : list policy_effect) : Prop :=
  forall cmd, Dispatched cmd ∈ effs -> exists s name type, s ∈ sessions /\
    cmd = intervention_command s name type /\ due cfg now s name type.

Section OnePolicy.
Context (cfg : PolicyConfig) (id name : string) (a : Time.t).
Definition cap : Z := (limits cfg name).1.
Definition window : Z := (limits cfg name).2.

(** A piece of a run: the events are numbered on, and while the dispatches for
    the session and policy fail, the count grows by their number. *)
Definition piece (fails : Prop) (p : PolicyEngine) (effs : list policy_effect) (p' : PolicyEngine) : Prop :=
  emits p effs p' /\
  (fails -> counted p id name a cap ->
   counted p' id name a cap /\ RetryCount p' id name = RetryCount p id name + Z.of_nat (dispatches_for id name effs)).

Lemma piece_nil fails p : is_u64 (pe_eventSeq p) -> piece fails p [] p.
Proof. intros. split; [by apply emits_nil|]. intros _ Hc. split; [done|]. unfold dispatches_for. simpl. lia. Qed.
Lemma piece_app fails p e1 p1 e2 p2 :
  piece fails p e1 p1 -> piece fails p1 e2 p2 -> piece fails p (e1 ++ e2) p2.
Proof.
  intros [N1 H1] [N2 H2]. split; [by eapply emits_app|]. intros Hf Hc. destruct (H1 Hf Hc) as [Hc1 E1].
  destruct (H2 Hf Hc1) as [Hc2 E2]. split; [done|]. rewrite E2, E1, dispatches_app. lia.
Qed.
Lemma piece_weaken (f f' : Prop) p e p' : (f' -> f) -> piece f p e p' -> piece f' p e p'.
Proof. intros Hff [? H]. split; [done|]. intros Hf. apply H. auto. Qed.
Lemma piece_u64 fails p e p' : piece fails p e p' -> is_u64 (pe_eventSeq p').
Proof. intros [? _]. by eapply emits_u64. Qed.
Lemma piece_config fails p e p' : piece fails p e p' -> pe_config p' = pe_config p.
Proof. intros [(? & _) _]. done. Qed.

Lemma try_piece answer p now s policy m w t :
  is_u64 (pe_eventSeq p) -> (policy = name -> (m, w) = limits cfg name) ->
  let '(p', effs) := tryIntervention marshal answer p now s policy m w t in
  piece (failing id name answer /\ 0 < cap /\ is_i64 cap /\ window <= Time.maxDuration /\
         (ses_SessionID s = id -> policy = name -> within a window now)) p effs p' /\
  (forall cmd, Dispatched cmd ∈ effs -> cmd = intervention_command s policy t).
Proof.
  intros Hu Hlim. pose proof (tryIntervention_spec answer p now s policy m w t Hu) as Hs.
  destruct (tryIntervention _ _ _ _ _ _ _ _ _) as [p' effs]. destruct Hs as (Hem & Hshape & Hother & Hmine).
  split.
  - split; [done|]. intros (Hfail & Hcap & Hcap64 & Hw & Hin) Hc.
    destruct (String.eqb (ses_SessionID s) id && String.eqb policy name) eqn:E.
    + apply andb_true_iff in E as [E1%String.eqb_eq E2%String.eqb_eq].
      specialize (Hlim E2). assert (m = cap /\ w = window) as [-> ->] by (unfold cap, window; by rewrite <- Hlim).
      subst policy. rewrite E1 in *. destruct (Hmine a) as [Hc' Hn]; auto.
      split; [done|]. rewrite Hn. destruct Hshape as [->|(es & -> & Hes)]; [done|].
      rewrite dispatches_command, E1, !String.eqb_refl, dispatches_emitted by done. done.
    + unfold counted, RetryCount in *. rewrite (Hother id name E).
      assert (dispatches_for id name effs = 0%nat) as ->.
      { destruct Hshape as [->|(es & -> & Hes)]; [done|]. by rewrite dispatches_command, E, dispatches_emitted. }
      split; [done|lia].
  - destruct Hshape as [->|(es & -> & Hes)]; [by intros ? ?%elem_of_nil|].
    intros cmd [[= ->]|Hin]%elem_of_cons; [done|].
    by destruct (proj1 (Forall_forall _ _) Hes _ Hin).
Qed.

Definition fails_now (answer : Command -> res string (option CommandResult)) (clock : string -> Time.t)
    (s : TrackedSession) : Prop :=
  failing id name answer /\ 0 < cap /\ is_i64 cap /\ window <= Time.maxDuration /\
  (ses_SessionID s = id -> within a window (clock name)).

Lemma evaluate_session_piece answer clock p now s :
  is_u64 (pe_eventSeq p) -> pe_config p = cfg ->
  let '(p', effs) := evaluate_session marshal answer clock p now s in
  piece (fails_now answer clock s) p effs p' /\ justified cfg now [s] effs.
Proof.
  intros Hu Hcfg. unfold evaluate_session.
  assert (let '(p1, e1) := evaluateResumeOnIdle marshal answer clock p s now in
    piece (fails_now answer clock s) p e1 p1 /\ justified cfg now [s] e1) as H1.
  { unfold evaluateResumeOnIdle. rewrite Hcfg. destruct (ip_Enabled _) eqn:Een; simpl;
      [|split; [by apply piece_nil | by intros ? ?%elem_of_nil]].
    destruct (Time.IsZero _ || _) eqn:Edue; [split; [by apply piece_nil | by intros ? ?%elem_of_nil]|].
    apply orb_false_iff in Edue as [Ez%Z.eqb_neq Et%Z.ltb_ge].
    match goal with |- context [tryIntervention marshal ?x1 ?x2 ?x3 ?x4 ?x5 ?x6 ?x7 ?x8] =>
      pose proof (try_piece x1 x2 x3 x4 x5 x6 x7 x8 Hu) as Hs;
      destruct (tryIntervention marshal x1 x2 x3 x4 x5 x6 x7 x8) as [p1 e1] end.
    destruct Hs as [Hp Hd]; [by intros <-|]. split.
    - eapply piece_weaken; [|exact Hp]. intros (? & ? & ? & ? & Hc). split_and!; try done. intros ? Hn. rewrite Hn. auto.
    - intros cmd ->%Hd. exists s, "resume_on_idle"%string, CommandTypePromptSession. split; [by left|]. split; [done|].
      left. done. }
  destruct (evaluateResumeOnIdle _ _ _ _ _ _) as [p1 e1]. destruct H1 as [P1 J1].
  pose proof (piece_u64 _ _ _ _ P1) as Hu1. pose proof (piece_config _ _ _ _ P1) as Hc1. rewrite Hcfg in Hc1.
  assert (let '(p2, e2) := evaluateRestartOnCompaction marshal answer clock p1 s in
    piece (fails_now answer clock s) p1 e2 p2 /\ justified cfg now [s] e2) as H2.
  { unfold evaluateRestartOnCompaction. rewrite Hc1. destruct (cp_Enabled _) eqn:Een; simpl;
      [|split; [by apply piece_nil | by intros ? ?%elem_of_nil]].
    destruct (_ <? _) eqn:Edue; [split; [by apply piece_nil | by intros ? ?%elem_of_nil]|]. apply Z.ltb_ge in Edue.
    match goal with |- context [tryIntervention marshal ?x1 ?x2 ?x3 ?x4 ?x5 ?x6 ?x7 ?x8] =>
      pose proof (try_piece x1 x2 x3 x4 x5 x6 x7 x8 Hu1) as Hs;
      destruct (tryIntervention marshal x1 x2 x3 x4 x5 x6 x7 x8) as [p2 e2] end.
    destruct Hs as [Hp Hd]; [by intros <-|]. split.
    - eapply piece_weaken; [|exact Hp]. intros (? & ? & ? & ? & Hc). split_and!; try done. intros ? Hn. rewrite Hn. auto.
    - intros cmd ->%Hd. exists s, "restart_on_compaction"%string, CommandTypeRestartSession. split; [by left|].
      split; [done|]. right. left. done. }
  destruct (evaluateRestartOnCompaction _ _ _ _ _) as [p2 e2]. destruct H2 as [P2 J2].
  pose proof (piece_u64 _ _ _ _ P2) as Hu2. pose proof (piece_config _ _ _ _ P2) as Hc2. rewrite Hc1 in Hc2.
  assert (let '(p3, e3) := evaluateKillOnCost marshal answer clock p2 s in
    piece (fails_now answer clock s) p2 e3 p3 /\ justified cfg now [s] e3) as H3.
  { unfold evaluateKillOnCost. rewrite Hc2. destruct (kp_Enabled _) eqn:Een; simpl;
      [|split; [by apply piece_nil | by intros ? ?%elem_of_nil]].
    destruct (Float64.ltb _ _) eqn:Edue; [split; [by apply piece_nil | by intros ? ?%elem_of_nil]|].
    match goal with |- context [tryIntervention marshal ?x1 ?x2 ?x3 ?x4 ?x5 ?x6 ?x7 ?x8] =>
      pose proof (try_piece x1 x2 x3 x4 x5 x6 x7 x8 Hu2) as Hs;
      destruct (tryIntervention marshal x1 x2 x3 x4 x5 x6 x7 x8) as [p3 e3] end.
    destruct Hs as [Hp Hd]; [by intros <-|]. split.
    - eapply piece_weaken; [|exact Hp]. intros (? & ? & ? & ? & Hc). split_and!; try done. intros ? Hn. rewrite Hn. auto.
    - intros cmd ->%Hd. exists s, "kill_on_cost"%string, CommandTypeKillSession. split; [by left|].
      split; [done|]. right. right. done. }
  destruct (evaluateKillOnCost _ _ _ _ _) as [p3 e3]. destruct H3 as [P3 J3]. split.
  - eapply piece_app; [exact P1|]. by eapply piece_app.
  - intros cmd [?|[?|?]%elem_of_app]%elem_of_app; auto.
Qed.

Lemma check_sessions_piece answer clock p now sessions :
  is_u64 (pe_eventSeq p) -> pe_config p = cfg ->
  let '(p', effs) := check_sessions marshal answer clock p now sessions in
  piece (forall s, s ∈ sessions -> fails_now answer (clock s) s) p effs p' /\ justified cfg now sessions effs.
Proof.
  revert p. induction sessions as [|s ss IH]; intros p Hu Hcfg; simpl.
  { split; [by apply piece_nil | by intros ? ?%elem_of_nil]. }
  pose proof (evaluate_session_piece answer (clock s) p now s Hu Hcfg) as H1.
  destruct (evaluate_session _ _ _ _ _ _) as [p1 e1]. destruct H1 as [P1 J1].
  specialize (IH p1 (piece_u64 _ _ _ _ P1)). rewrite (piece_config _ _ _ _ P1) in IH. specialize (IH Hcfg).
  destruct (check_sessions _ _ _ _ _ _) as [p2 e2]. destruct IH as [P2 J2]. split.
  - eapply piece_app.
    + eapply piece_weaken; [|exact P1]. intros Hall. apply Hall. by left.
    + eapply piece_weaken; [|exact P2]. intros Hall s' ?. apply Hall. by right.
  - intros cmd [(s' & n & ty & Hs' & ?)%J1|(s' & n & ty & Hs' & ?)%J2]%elem_of_app; exists s', n, ty;
      (split; [|done]); [|by right]. apply list_elem_of_singleton in Hs' as ->. by left.
Qed.

Lemma run_ticks_piece p ticks :
  is_u64 (pe_eventSeq p) -> pe_config p = cfg ->
  let '(p', effs) := run_ticks marshal p ticks in
  piece (forall tk s, tk ∈ ticks -> s ∈ tick_sessions tk -> fails_now (tick_answer tk) (tick_clock tk s) s) p effs p' /\
  (forall cmd, Dispatched cmd ∈ effs -> exists tk s n ty, tk ∈ ticks /\ s ∈ tick_sessions tk /\
     cmd = intervention_command s n ty /\ due cfg (tick_now tk) s n ty).
Proof.
  revert p. induction ticks as [|tk ticks IH]; intros p Hu Hcfg; simpl.
  { split; [by apply piece_nil | by intros ? ?%elem_of_nil]. }
  unfold runChecks.
  pose proof (check_sessions_piece (tick_answer tk) (tick_clock tk) p (tick_now tk)
    (take (tick_reached tk) (tick_sessions tk)) Hu Hcfg) as H1.
  destruct (check_sessions _ _ _ _ _ _) as [p1 e1]. destruct H1 as [P1 J1].
  specialize (IH p1 (piece_u64 _ _ _ _ P1)). rewrite (piece_config _ _ _ _ P1) in IH. specialize (IH Hcfg).
  destruct (run_ticks _ _ _) as [p2 e2]. destruct IH as [P2 J2].
  assert (forall s, s ∈ take (tick_reached tk) (tick_sessions tk) -> s ∈ tick_sessions tk) as Htake.
  { intros s (i & Hi & _)%elem_of_take. by eapply list_elem_of_lookup_2. }
  split.
  - eapply piece_app.
    + eapply piece_weaken; [|exact P1]. intros Hall s Hs. apply Hall; [by left | by apply Htake].
    + eapply piece_weaken; [|exact P2]. intros Hall tk' s ??. apply Hall; [by right | done].
  - intros cmd [(s & n & ty & Hs & ?)%J1|(tk' & s & n & ty & ? & ?)%J2]%elem_of_app.
    + exists tk, s, n, ty. split; [by left|]. split; [by apply Htake | done].
    + exists tk', s, n, ty. split; [by right | done].
Qed.
End OnePolicy.

Lemma cap_pos p name : 0 < (limits (withPolicyDefaults p) name).1.
Proof.
  unfold limits. repeat case_match; simpl; match goal with |- context [?x <=? 0] => destruct (Z.leb_spec x 0) end; lia.
Qed.
End Engine.
End PolicyFacts.

(** ** Properties *)
Section Properties.
Import Policy PolicyFacts.
Context (marshal : list (string * value) -> string).

(** C15: the retry cap holds: while the commands of a policy for a session keep
    failing, no run of the engine, over any sessions and ticks, sends more than
    the policy's maximum of them within one reset window, and the retry count
    is the number sent. *)
Theorem retry_cap_bounds_dispatches (policyConfig : PolicyConfig) (events : bool) (ticks : list tick)
    (id name : string) (a : Time.t) (p : PolicyEngine) (effs : list policy_effect) :
  let cfg := withPolicyDefaults policyConfig in
  is_i64 (cap cfg name) ->
  (forall tk s, tk ∈ ticks -> s ∈ tick_sessions tk ->
     failing id name (tick_answer tk) /\
     (ses_SessionID s = id -> within a (window cfg name) (tick_clock tk s name))) ->
  run_ticks marshal (NewPolicyEngine policyConfig events) ticks = (p, effs) ->
  Z.of_nat (dispatches_for id name effs) <= cap cfg name /\
  RetryCount p id name = Z.of_nat (dispatches_for id name effs).
Proof.
  intros cfg Hcap Hall Hrun.
  pose proof (run_ticks_piece marshal cfg id name a (NewPolicyEngine policyConfig events) ticks) as Hp.
  rewrite Hrun in Hp. destruct Hp as [[_ Hp] _]; [done | done |].
  assert (RetryCount (NewPolicyEngine policyConfig events) id name = 0) as E0 by done.
  assert (0 < cap cfg name) as Hpos by apply cap_pos.
  destruct Hp as [[Hc _] Hn].
  - intros tk s Htk Hs. destruct (Hall tk s Htk Hs). split_and!; try done.
    unfold window, limits. repeat (destruct (String.eqb _ _); [apply TimeFacts.mul_duration_le|]).
    apply TimeFacts.mul_duration_le.
  - split; rewrite E0; lia.
  - rewrite E0 in Hn. lia.
Qed.

(** The events of an engine's run are numbered 1, 2, 3, ... without gap,
    as the event pipeline expects of one agent, and their ids are distinct; the
    numbering starts at 1 again with every new engine. *)
Theorem policy_events_numbered (policyConfig : PolicyConfig) (events : bool) (ticks : list tick)
    (p : PolicyEngine) (effs : list policy_effect) :
  run_ticks marshal (NewPolicyEngine policyConfig events) ticks = (p, effs) ->
  Z.of_nat (length (emitted effs)) < 2 ^ 64 ->
  Pipeline.consecutive 1 (emitted effs) /\
  (forall e, e ∈ emitted effs -> ev_ID e = ("policy-" +:+ Itoa (ev_Seq e))%stdpp) /\
  NoDup (ev_ID <$> emitted effs).
Proof.
  intros Hrun Hlen.
  pose proof (run_ticks_piece marshal (withPolicyDefaults policyConfig) ε ε 0
    (NewPolicyEngine policyConfig events) ticks) as Hp.
  rewrite Hrun in Hp. destruct Hp as [[(_ & _ & _ & Hnum) _] _]; [done | done |]. simpl in Hnum.
  assert (forall i e, emitted effs !! i = Some e -> ev_Seq e = 1 + Z.of_nat i) as Hseq.
  { intros i e Hi. destruct (Hnum i e Hi) as [-> _]. apply lookup_lt_Some in Hi.
    rewrite u64_small; unfold is_u64; lia. }
  assert (forall e, e ∈ emitted effs -> ev_ID e = ("policy-" +:+ Itoa (ev_Seq e))%stdpp) as Hid.
  { intros e [i Hi]%list_elem_of_lookup. by apply (Hnum i e Hi). }
  split_and!; [|done|].
  - unfold Pipeline.consecutive. apply list_eq. intros i. rewrite list_lookup_fmap.
    destruct (emitted effs !! i) as [e|] eqn:Ei; simpl.
    + symmetry. apply lookup_seqZ. pose proof (lookup_lt_Some _ _ _ Ei).
      rewrite (Hseq i e Ei). lia.
    + symmetry. apply lookup_ge_None. apply lookup_ge_None in Ei. rewrite length_seqZ. lia.
  - apply NoDup_alt. intros i j x Hi Hj. rewrite list_lookup_fmap in Hi, Hj.
    apply fmap_Some in Hi as (e1 & He1 & ->), Hj as (e2 & He2 & Heq).
    rewrite (Hid e1), (Hid e2) in Heq by (by eapply list_elem_of_lookup_2).
    apply (inj (String.append "policy-")) in Heq. apply (inj pretty) in Heq.
    rewrite (Hseq _ _ He1), (Hseq _ _ He2) in Heq. lia.
Qed.

(** The engine only intervenes with cause: every command it sends goes to
    the node and project of a session it was given, with the command of an
    enabled policy whose threshold the session has reached. *)
Theorem interventions_are_due (policyConfig : PolicyConfig) (events : bool) (ticks : list tick)
    (p : PolicyEngine) (effs : list policy_effect) (cmd : Command) :
  run_ticks marshal (NewPolicyEngine policyConfig events) ticks = (p, effs) ->
  Dispatched cmd ∈ effs ->
  exists tk s name type, tk ∈ ticks /\ s ∈ tick_sessions tk /\
    cmd = intervention_command s name type /\
    due (withPolicyDefaults policyConfig) (tick_now tk) s name type.
Proof.
  intros Hrun Hcmd.
  pose proof (run_ticks_piece marshal (withPolicyDefaults policyConfig) ε ε 0
    (NewPolicyEngine policyConfig events) ticks) as Hp.
  rewrite Hrun in Hp. destruct Hp as [_ Hp]; [done | done |]. by apply Hp.
Qed.
End Properties.

(** ** Witnesses *)
Module PolicyWitness.
Import Policy PolicyFacts.

Definition no_text (_ : list (string * value)) : string := "{}".
(** Only kill_on_cost is enabled, at its defaults: one retry per day. *)
Definition pcfg : PolicyConfig :=
  mkPolicies (mkIdlePolicy false 0 0 0) (mkCompactionPolicy false 0 0 0)
    (mkCostPolicy true Float64.zero 0 0) 0.
Definition costly : TrackedSession :=
  mkSession "s1" "n1" "p" "running" (mkTokenUsage 0 0 0) 0 ε 0 (Float64.of_Z 20) ε 0.
Definition refuse (_ : Command) : res string (option CommandResult) := Err "down"%string.
Definition clock (now : Time.t) (_ : TrackedSession) (_ : string) : Time.t := now.
Definition ticks : list tick :=
  [mkTick refuse (clock 1000) 5 1000 [costly]; mkTick refuse (clock 2000) 5 2000 [costly]].
Definition final := run_ticks no_text (NewPolicyEngine pcfg true) ticks.

Lemma retry_cap_bounds_dispatches_witness :
  Z.of_nat (dispatches_for "s1" "kill_on_cost" final.2) <= 1 /\
  RetryCount final.1 "s1" "kill_on_cost" = Z.of_nat (dispatches_for "s1" "kill_on_cost" final.2).
Proof.
  apply (retry_cap_bounds_dispatches no_text pcfg true ticks "s1" "kill_on_cost" 1000 final.1 final.2).
  - vm_compute. split; congruence.
  - intros tk s Htk _. split.
    + intros cmd r _ Ha. unfold ticks in Htk.
      apply elem_of_cons in Htk as [->|[->|?%elem_of_nil]%elem_of_cons]; done.
    + intros _. unfold ticks in Htk.
      apply elem_of_cons in Htk as [->|[->|?%elem_of_nil]%elem_of_cons]; [| |done]; vm_compute; split; congruence.
  - apply surjective_pairing.
Defined.

Lemma policy_events_numbered_witness :
  Pipeline.consecutive 1 (emitted final.2) /\
  (forall e, e ∈ emitted final.2 -> ev_ID e = ("policy-" +:+ Itoa (ev_Seq e))%stdpp) /\
  NoDup (ev_ID <$> emitted final.2).
Proof.
  apply (policy_events_numbered no_text pcfg true ticks final.1 final.2);
    [apply surjective_pairing | vm_compute; reflexivity].
Defined.
Example events_of_run : length (emitted final.2) = 3%nat.
Proof. vm_compute. reflexivity. Qed.

Definition kill : Command := intervention_command costly "kill_on_cost" CommandTypeKillSession.
Lemma interventions_are_due_witness :
  exists tk s name type, tk ∈ ticks /\ s ∈ tick_sessions tk /\
    kill = intervention_command s name type /\ due (withPolicyDefaults pcfg) (tick_now tk) s name type.
Proof.
  apply (interventions_are_due no_text pcfg true ticks final.1 final.2 kill); [apply surjective_pairing|].
  vm_compute. left.
Defined.
End PolicyWitness.
