(* ===== verification/Security.v ===== *)
(** * Security

    internal/supervisor/security.go: which origins a pattern admits, and the
    redaction of secrets in the arguments of commands before they are written
    to the audit log.  [LoadTLSConfig] reads certificates and is left out. *)

From S2P Require Import Prelude GoStd Commands.

Module Security.

(** ** Origins *)
Definition matchOriginWildcard (origin pattern : string) : bool :=
  if Strings.HasSuffix pattern ":*" then
    let prefix := Strings.TrimSuffix pattern ":*" in
    let idx := Strings.LastIndex origin ":" in
    let originNoPort :=
      if Strings.Index origin "//" <? idx then Strings.take_bytes (Z.to_nat idx) origin else origin in
    String.eqb originNoPort prefix
  else if Strings.HasPrefix pattern "https://*." then
    let suffix := Strings.TrimPrefix pattern "https://*" in
    if negb (Strings.HasPrefix origin "https://") then false
    else
      let host := Strings.TrimPrefix origin "https://" in
      Strings.HasSuffix host suffix && negb (Strings.HasPrefix host "*")
  else if Strings.HasPrefix pattern "http://*." then
    let suffix := Strings.TrimPrefix pattern "http://*" in
    if negb (Strings.HasPrefix origin "http://") then false
    else
      let host := Strings.TrimPrefix origin "http://" in
      Strings.HasSuffix host suffix && negb (Strings.HasPrefix host "*")
  else false.

Definition MatchOrigin (origin pattern : string) : bool :=
  if String.eqb pattern "*" then true
  else if Strings.Contains pattern "*" then matchOriginWildcard origin pattern
  else String.eqb origin pattern.

(** ** Secrets *)
Definition secretKeys : list string :=
  ["token"; "password"; "secret"; "key"; "api_key"; "auth"; "credential"]%string.

Definition IsSecretKey (key : string) : bool :=
  let lower := Strings.ToLower key in
  existsb (fun sk => Strings.Contains lower sk) secretKeys.

Definition REDACTED : value := VStr "[REDACTED]".

Fixpoint sanitizeValue (v : value) : value :=
  match v with
  | VObj m => VObj (map (fun kv => (kv.1, if IsSecretKey kv.1 then REDACTED else sanitizeValue kv.2)) m)
  | VArr l => VArr (map sanitizeValue l)
  | _ => v
  end.
Definition sanitizeMap (m : list (string * value)) : list (string * value) :=
  map (fun kv => (kv.1, if IsSecretKey kv.1 then REDACTED else sanitizeValue kv.2)) m.

(** [None] is the nil map; [marshal] is [json.Marshal]. *)
Definition SanitizeArgs (marshal : value -> res string string) (args : option (list (string * value)))
    : string :=
  match args with
  | None => "{}"%string
  | Some m => match marshal (VObj (sanitizeMap m)) with Ok data => data | Err _ => "{}"%string end
  end.

End Security.

(** ** Lemmas *)
Module SecurityFacts.
Import Security Strings StringsFacts.

(** A place inside a value. *)
Inductive at_step := Key (k : string) | Index (i : nat).

Fixpoint member (k : string) (m : list (string * value)) : option value :=
  match m with
  | [] => None
  | (k', v) :: m' => if String.eqb k k' then Some v else member k m'
  end.
Definition child (v : value) (s : at_step) : option value :=
  match v, s with
  | VObj m, Key k => member k m
  | VArr l, Index i => l !! i
  | _, _ => None
  end.
Fixpoint walk (v : value) (path : list at_step) : option value :=
  match path with
  | [] => Some v
  | s :: path' => match child v s with Some w => walk w path' | None => None end
  end.
Definition is_secret_step (s : at_step) : bool :=
  match s with Key k => IsSecretKey k | Index _ => false end.

(** What should be found at a place after redaction: below the first secret key
    nothing, at it the marker, elsewhere what was there, redacted. *)
Fixpoint redacted_at (v : value) (path : list at_step) : option value :=
  match path with
  | [] => Some (sanitizeValue v)
  | s :: path' =>
      match child v s with
      | None => None
      | Some w =>
          if is_secret_step s then match path' with [] => Some REDACTED | _ => None end
          else redacted_at w path'
      end
  end.

Lemma member_sanitize k m :
  member k (sanitizeMap m) =
  (fun v => if IsSecretKey k then REDACTED else sanitizeValue v) <$> member k m.
Proof.
  induction m as [|[k' v] m IH]; simpl; [done|]. destruct (String.eqb_spec k k') as [->|]; done.
Qed.

Lemma child_sanitize v s :
  child (sanitizeValue v) s =
  (fun w => if is_secret_step s then REDACTED else sanitizeValue w) <$> child v s.
Proof.
  destruct v, s; simpl; try done; [apply (list_lookup_fmap sanitizeValue) | apply member_sanitize].
Qed.

Lemma walk_sanitize v path : walk (sanitizeValue v) path = redacted_at v path.
Proof.
  revert v. induction path as [|s path IH]; intros v; [done|]. cbn [walk redacted_at].
  rewrite child_sanitize. destruct (child v s) as [w|]; simpl; [|done].
  destruct (is_secret_step s) eqn:Es; [|by rewrite IH].
  destruct path as [|s' path]; [done|]. simpl. by destruct s'.
Qed.

(** *** Positions in strings *)
Definition no_byte (c : ascii) (s : string) : bool := str_forallb (fun x => negb (Ascii.eqb x c)) s.
Definition str1 (c : ascii) : string := String c ε.

Lemma HasPrefix_byte x s c : HasPrefix (String x s) (str1 c) = Ascii.eqb c x.
Proof. unfold HasPrefix, str1. simpl. destruct (Ascii.eqb_spec c x); simpl; [by destruct s | done]. Qed.

Lemma no_byte_cons c x s : no_byte c (String x s) = negb (Ascii.eqb x c) && no_byte c s.
Proof. done. Qed.

Lemma no_byte_app c a b : no_byte c (a +:+ b)%stdpp = no_byte c a && no_byte c b.
Proof. unfold no_byte. induction a; simpl; [done|]. by rewrite IHa, andb_assoc. Qed.

(** [LastIndex] finds the last occurrence of a byte. *)
Lemma last_index_byte s c n :
  last_index_nat s (str1 c) = Some n <->
  exists a b, s = (a +:+ String c b)%stdpp /\ no_byte c b = true /\ String.length a = n.
Proof.
  revert n. induction s as [|x s IH]; intros n.
  { simpl. split; [done|]. intros (a & b & E & _). by destruct a. }
  cbn [last_index_nat]. destruct (last_index_nat s (str1 c)) as [m|] eqn:El.
  - split.
    + intros [= <-]. destruct (proj1 (IH m) eq_refl) as (a & b & -> & Hb & <-). by exists (String x a), b.
    + intros (a & b & E & Hb & <-). destruct (proj1 (IH m) eq_refl) as (a' & b' & -> & Hb' & <-).
      destruct a as [|y a]; simpl in E.
      * injection E as -> <-. rewrite no_byte_app, no_byte_cons, Ascii.eqb_refl, andb_false_r in Hb. done.
      * injection E as -> E. f_equal. simpl. f_equal.
        assert (Some (String.length a') = Some (String.length a)) as [= ->]; [|done].
        apply IH. by exists a, b.
  - rewrite HasPrefix_byte. destruct (Ascii.eqb_spec c x) as [->|Hne].
    + split.
      * intros [= <-]. exists ε, s. split; [done|]. split; [|done].
        clear IH. induction s as [|y s IHs]; [done|]. rewrite no_byte_cons. cbn [last_index_nat] in El.
        destruct (last_index_nat s (str1 x)); [done|]. rewrite HasPrefix_byte, Ascii.eqb_sym in El.
        destruct (Ascii.eqb y x); [done|]. by apply IHs.
      * intros ([|y a] & b & E & Hb & <-); [done|]. injection E as -> ->.
        assert (@None nat = Some (String.length a)) by (apply IH; eauto). done.
    + split; [done|]. intros ([|y a] & b & E & Hb & <-); [by injection E|]. injection E as -> ->.
      assert (@None nat = Some (String.length a)) by (apply IH; eauto). done.
Qed.

Lemma last_index_byte_None s c : last_index_nat s (str1 c) = None -> no_byte c s = true.
Proof.
  induction s as [|x s IH]; [done|]. cbn [last_index_nat]. rewrite no_byte_cons, HasPrefix_byte.
  destruct (last_index_nat s (str1 c)); [done|]. rewrite Ascii.eqb_sym.
  destruct (Ascii.eqb x c); [done|]. intros _. by apply IH.
Qed.

(** The first ["//"] after a scheme without a slash. *)
Lemma index_slashes scheme r :
  no_byte "/" scheme = true ->
  index_nat (scheme +:+ "://" +:+ r)%stdpp "//" = Some (S (String.length scheme)).
Proof.
  induction scheme as [|x s IH]; intros Hn; [done|]. rewrite no_byte_cons in Hn.
  apply andb_true_iff in Hn as [Hx Hs]. apply negb_true_iff in Hx.
  change (index_nat (String x (s +:+ "://" +:+ r)%stdpp) "//" = Some (S (S (String.length s)))).
  cbn [index_nat]. unfold HasPrefix. cbn [CutPrefix]. rewrite Ascii.eqb_sym, Hx. by rewrite IH.
Qed.
End SecurityFacts.

(** ** Properties *)
Section Properties.
Import Security SecurityFacts Strings StringsFacts.

(** What reaches the audit log holds no secret: at every place inside the
    redacted arguments, below the first key that looks like a secret there is
    nothing, at such a key only the marker, and every other place shows what the
    arguments held there. *)
Theorem redaction_exact (v : value) (path : list at_step) :
  walk (sanitizeValue v) path = redacted_at v path.
Proof. apply walk_sanitize. Qed.

(** A pattern [scheme://host:*] admits exactly the origins of that scheme
    and host, without a port or with one. *)
Theorem any_port_pattern_exact (scheme host origin : string) :
  no_byte "/" scheme = true -> no_byte ":" scheme = true -> no_byte ":" host = true ->
  let site := (scheme +:+ "://" +:+ host)%stdpp in
  MatchOrigin origin (site +:+ ":*")%stdpp = true <->
  origin = site \/ exists port, no_byte ":" port = true /\ origin = (site +:+ ":" +:+ port)%stdpp.
Proof.
  intros Hslash Hcolon Hhost site.
  assert (HasSuffix (site +:+ ":*")%stdpp ":*" = true) as Hsuf by (apply HasSuffix_true; eauto).
  assert (Contains (site +:+ ":*")%stdpp "*" = true) as Hstar.
  { apply Contains_true. exists (site +:+ ":")%stdpp, ε. by rewrite append_assoc. }
  unfold MatchOrigin. destruct (String.eqb_spec (site +:+ ":*")%stdpp "*") as [E|_].
  { apply (f_equal String.length) in E. rewrite length_append in E. simpl in E. lia. }
  rewrite Hstar. unfold matchOriginWildcard. rewrite Hsuf, TrimSuffix_append, String.eqb_eq.
  assert (no_byte ":" ("//" +:+ host)%stdpp = true) as Htail by (by rewrite no_byte_app, Hhost).
  assert (index_nat site "//" = Some (S (String.length scheme))) as Hidx by (by apply index_slashes).
  assert (forall r, index_nat (site +:+ r)%stdpp "//" = Some (S (String.length scheme))) as Hidxr.
  { intros r. unfold site. rewrite !append_assoc. by apply index_slashes. }
  split.
  - case_match eqn:Elt; [|by left]. intros Hsite. right. unfold LastIndex in *.
    destruct (last_index_nat origin ":") as [n|] eqn:En; simpl in *.
    + apply (proj1 (last_index_byte _ _ _)) in En as (a & b & -> & Hb & <-).
      rewrite Nat2Z.id, take_append in Hsite. subst a. exists b. done.
    + exfalso. apply Z.ltb_lt in Elt. unfold Index in Elt.
      destruct (index_nat origin "//"); simpl in Elt; lia.
  - unfold LastIndex, Index. intros [->|(port & Hport & ->)].
    + assert (last_index_nat site ":" = Some (String.length scheme)) as ->.
      { apply (last_index_byte site ":"). by exists scheme, ("//" +:+ host)%stdpp. }
      rewrite Hidx. simpl. case_match eqn:Elt; [|done]. apply Z.ltb_lt in Elt. lia.
    + assert (last_index_nat (site +:+ ":" +:+ port)%stdpp ":" = Some (String.length site)) as ->.
      { apply (last_index_byte _ ":"). by exists site, port. }
      rewrite Hidxr. simpl. case_match eqn:Elt; [by rewrite Nat2Z.id, take_append|].
      apply Z.ltb_ge in Elt. unfold site in Elt. rewrite length_append in Elt. simpl in Elt. lia.
Qed.

(** A pattern [https://*.domain] admits exactly the https origins whose host
    ends in [.domain] and does not begin with a star: every subdomain at any
    depth, never the domain itself. *)
Theorem subdomain_pattern_exact (domain origin : string) :
  no_byte ":" domain = true ->
  MatchOrigin origin ("https://*." +:+ domain)%stdpp = true <->
  exists sub, HasPrefix (sub +:+ "." +:+ domain)%stdpp "*" = false /\
    origin = ("https://" +:+ sub +:+ "." +:+ domain)%stdpp.
Proof.
  intros Hd. unfold MatchOrigin.
  destruct (String.eqb_spec ("https://*." +:+ domain)%stdpp "*") as [E|_]; [done|].
  assert (Contains ("https://*." +:+ domain)%stdpp "*" = true) as ->.
  { apply Contains_true. by exists "https://"%string, ("." +:+ domain)%stdpp. }
  unfold matchOriginWildcard.
  assert (HasSuffix ("https://*." +:+ domain)%stdpp ":*" = false) as ->.
  { apply not_true_is_false. intros (r & E)%HasSuffix_true.
    assert (last_index_nat ("https://*." +:+ domain)%stdpp ":" = Some (String.length r)) as E1.
    { apply (last_index_byte _ ":"). by exists r, "*"%string. }
    assert (last_index_nat ("https://*." +:+ domain)%stdpp ":" = Some 5%nat) as E2.
    { apply (last_index_byte _ ":"). exists "https"%string, ("//*." +:+ domain)%stdpp. by rewrite no_byte_app, Hd. }
    rewrite E2 in E1. injection E1 as E1. apply (f_equal String.length) in E.
    rewrite !length_append in E. simpl in E. lia. }
  assert (HasPrefix ("https://*." +:+ domain)%stdpp "https://*." = true) as -> by (apply HasPrefix_true; eauto).
  change ("https://*." +:+ domain)%stdpp with ("https://*" +:+ ("." +:+ domain))%stdpp.
  rewrite TrimPrefix_append.
  destruct (HasPrefix origin "https://") eqn:Eo; simpl.
  - apply HasPrefix_true in Eo as [host ->]. rewrite TrimPrefix_append, andb_true_iff, negb_true_iff, HasSuffix_true.
    split.
    + intros [[sub ->] Hp]. by exists sub.
    + intros (sub & Hp & E). apply (inj (String.append "https://")) in E as ->. eauto.
  - split; [done|]. intros (sub & _ & ->).
    exfalso. apply not_true_iff_false in Eo. apply Eo, HasPrefix_true. by eexists.
Qed.
End Properties.

(** ** Witnesses *)
Module SecurityWitness.
Import Security SecurityFacts.

Lemma any_port_pattern_exact_witness :
  MatchOrigin "http://localhost:3000" "http://localhost:*" = true <->
  "http://localhost:3000"%string = "http://localhost"%string \/
  exists port, no_byte ":" port = true /\ "http://localhost:3000"%string = ("http://localhost" +:+ ":" +:+ port)%stdpp.
Proof. apply (any_port_pattern_exact "http" "localhost" "http://localhost:3000"); reflexivity. Defined.

Lemma subdomain_pattern_exact_witness :
  MatchOrigin "https://a.b.example.com" "https://*.example.com" = true <->
  exists sub, Strings.HasPrefix (sub +:+ "." +:+ "example.com")%stdpp "*" = false /\
    "https://a.b.example.com"%string = ("https://" +:+ sub +:+ "." +:+ "example.com")%stdpp.
Proof. apply (subdomain_pattern_exact "example.com" "https://a.b.example.com"); reflexivity. Defined.

Definition args : value :=
  VObj [("prompt", VStr "hi"); ("env", VObj [("API_KEY", VStr "sk-1"); ("MODE", VStr "x")])]%string.
Example nested_secret : walk (sanitizeValue args) [Key "env"; Key "API_KEY"] = Some REDACTED.
Proof. vm_compute. reflexivity. Qed.
Example nested_plain : walk (sanitizeValue args) [Key "env"; Key "MODE"] = Some (VStr "x").
Proof. vm_compute. reflexivity. Qed.
End SecurityWitness.
