(* ===== verification/AuditLog.v ===== *)
(** * AuditLog

    internal/supervisor/audit.go: the audit log.  The table is the class
    [AuditTable]; its rows hold the time stamp as text, and texts are compared
    byte by byte, as SQLite compares them.  [json.Marshal], which writes the
    members of a map in the order of their keys, is an argument. *)

From S2P Require Import Prelude GoStd SqlStore Commands Security.

Record AuditEntry := mkAuditEntry {
  ae_ID : string; ae_Timestamp : Time.t; ae_Actor : string; ae_Action : string; ae_Target : string;
  ae_Args : string; ae_Result : string; ae_Error : string; ae_DurationMs : Z; ae_IPAddress : string }.
(** A row; the columns that may be NULL are options. *)
Record AuditRow := mkAuditRow {
  aw_id : string; aw_timestamp : option string; aw_actor : string; aw_action : string; aw_target : string;
  aw_args : option string; aw_result : string; aw_error : option string; aw_duration_ms : Z;
  aw_ip_address : option string }.

(** [by_actor] and [by_action] are the two queries: newest first by the text of
    the time stamp, at most [limit] rows. *)
Class AuditTable (DB E : Type) := {
  insert_audit : DB -> AuditRow -> res E DB;
  by_actor : DB -> string -> Z -> res E (list AuditRow);
  by_action : DB -> string -> Z -> res E (list AuditRow);
  delete_before : DB -> string -> res E (DB * Z);
}.

(** The text [a] comes before the text [b]; NULL compares with nothing. *)
Definition text_before (a : option string) (b : string) : bool :=
  match a with Some s => String.ltb s b | None => false end.
Class AuditTableLaws (DB E : Type) `{AuditTable DB E} := {
  audit_rows : DB -> list AuditRow;
  audit_inserted d row d' : insert_audit d row = Ok d' -> audit_rows d' = audit_rows d ++ [row];
  audit_deleted d cutoff d' n : delete_before d cutoff = Ok (d', n) ->
    audit_rows d' = filter (fun r => text_before (aw_timestamp r) cutoff = false) (audit_rows d) /\
    n = Z.of_nat (length (audit_rows d)) - Z.of_nat (length (audit_rows d'));
}.

Module Audit.
Section Defs.
Context {DB E : Type} `{AuditTable DB E} `{TimeText} (marshal : value -> res string string).

(** The nil database is [None]. *)
Definition AuditLogger := option DB.

(** A nil map and an empty one are written alike. *)
Definition sanitized (args : gmap string value) : string :=
  Security.SanitizeArgs marshal (if decide (args = ∅) then None else Some (members args)).

Definition entry_of (uuid : string) (now : Time.t) (cmd : Command) (result : option CommandResult)
    (actor ipAddr : string) (duration : Z) : AuditEntry :=
  let project := tgt_Project (cmd_Target cmd) in
  let node := tgt_NodeID (cmd_Target cmd) in
  let target := if str_empty project then node else project in
  mkAuditEntry uuid now actor (cmd_Type cmd) (if str_empty target then "unknown"%string else target)
    (sanitized (cmd_Args cmd))
    (match result with Some r => cr_Status r | None => "failure"%string end)
    (match result with Some r => cr_Error r | None => ε end)
    (Time.Milliseconds duration) ipAddr.

Definition row_of (entry : AuditEntry) : AuditRow :=
  mkAuditRow (ae_ID entry) (Some (Format_RFC3339Nano (ae_Timestamp entry))) (ae_Actor entry)
    (ae_Action entry) (ae_Target entry) (Some (ae_Args entry)) (ae_Result entry) (Some (ae_Error entry))
    (ae_DurationMs entry) (Some (ae_IPAddress entry)).
Definition insertEntry (d : DB) (entry : AuditEntry) : res E DB := insert_audit d (row_of entry).

(** A failed write is only logged. *)
Definition LogCommand (a : AuditLogger) (uuid : string) (now : Time.t) (cmd : Command)
    (result : option CommandResult) (actor ipAddr : string) (duration : Z) : AuditLogger :=
  match a with
  | None => None
  | Some d =>
      match insertEntry d (entry_of uuid now cmd result actor ipAddr duration) with
      | Ok d' => Some d'
      | Err _ => Some d
      end
  end.

Definition scan_entry (row : AuditRow) : AuditEntry :=
  mkAuditEntry (aw_id row)
    (match aw_timestamp row with Some ts => default 0 (Parse RFC3339Nano ts) | None => 0 end)
    (aw_actor row) (aw_action row) (aw_target row) (default ε (aw_args row)) (aw_result row)
    (default ε (aw_error row)) (aw_duration_ms row) (default ε (aw_ip_address row)).
Definition query_limit (limit : Z) : Z := if limit <=? 0 then 100 else limit.
(** [None]: the nil database is dereferenced, a panic. *)
Definition QueryByActor (a : AuditLogger) (actor : string) (limit : Z) : option (res E (list AuditEntry)) :=
  d ← a; Some (let? rows := by_actor d actor (query_limit limit) in Ok (scan_entry <$> rows)).
Definition QueryByAction (a : AuditLogger) (action : string) (limit : Z) : option (res E (list AuditEntry)) :=
  d ← a; Some (let? rows := by_action d action (query_limit limit) in Ok (scan_entry <$> rows)).

Definition retention_cutoff (now : Time.t) (retentionDays : Z) : Time.t :=
  Time.Add now (- (retentionDays * 24 * Time.Hour)).
Definition PurgeOlderThan (a : AuditLogger) (now : Time.t) (retentionDays : Z) : AuditLogger * res E Z :=
  match a with
  | None => (None, Ok 0)
  | Some d =>
      match delete_before d (Format_RFC3339Nano (retention_cutoff now retentionDays)) with
      | Ok (d', n) => (Some d', Ok n)
      | Err e => (Some d, Err e)
      end
  end.
End Defs.
End Audit.

(** ** Specification: values that differ in their secrets only *)
Fixpoint agree (v w : value) : Prop :=
  match v, w with
  | VArr l, VArr l' =>
      (fix go (l l' : list value) : Prop :=
         match l, l' with
         | [], [] => True
         | x :: l, y :: l' => agree x y /\ go l l'
         | _, _ => False
         end) l l'
  | VObj m, VObj m' =>
      (fix go (m m' : list (string * value)) : Prop :=
         match m, m' with
         | [], [] => True
         | x :: m, y :: m' => x.1 = y.1 /\ (Security.IsSecretKey x.1 = true \/ agree x.2 y.2) /\ go m m'
         | _, _ => False
         end) m m'
  | VNil, VNil => True
  | VBool b, VBool b' => b = b'
  | VNum f, VNum f' => f = f'
  | VStr s, VStr s' => s = s'
  | _, _ => False
  end.
Definition same_args (a b : gmap string value) : Prop :=
  forall k, option_relation (fun v w => Security.IsSecretKey k = true \/ agree v w)
    (fun _ => False) (fun _ => False) (a !! k) (b !! k).

(** ** Lemmas *)
Module AuditFacts.
Import Audit Security.

Definition str_le (s t : string) : Prop := String.leb s t = true.
Lemma str_le_cons c d s t :
  str_le (String c s) (String d t) <->
  (N_of_ascii c < N_of_ascii d)%N \/ (N_of_ascii c = N_of_ascii d /\ str_le s t).
Proof.
  unfold str_le, String.leb. simpl. unfold Ascii.compare.
  destruct (N.compare_spec (N_of_ascii c) (N_of_ascii d)); split; intros; try lia; try done; naive_solver lia.
Qed.
#[export] Instance str_le_trans : Transitive str_le.
Proof.
  intros s. induction s as [|c s IH]; intros [|d t] [|e u]; try done. rewrite !str_le_cons.
  intros [?|[? ?]] [?|[? ?]]; [left; lia.. | right]. split; [congruence | by eapply IH].
Qed.
#[export] Instance str_le_antisym : AntiSymm (=) str_le.
Proof. intros s t. apply String.leb_antisym. Qed.
#[export] Instance key_le_total {A} : Total (@key_le A).
Proof. intros x y. apply String.leb_total. Qed.

Lemma members_perm {A} (m : gmap string A) : members m ≡ₚ map_to_list m.
Proof. apply merge_sort_Permutation. Qed.
Lemma members_elem {A} (m : gmap string A) k a : (k, a) ∈ members m <-> m !! k = Some a.
Proof. rewrite members_perm. apply elem_of_map_to_list. Qed.
Lemma members_keys {A B} (m : gmap string A) (n : gmap string B) : dom m = dom n -> (members m).*1 = (members n).*1.
Proof.
  intros Hd. apply (Sorted_unique str_le).
  - apply (Sorted_fmap fst (@key_le A)); [done | apply Sorted_merge_sort, _].
  - apply (Sorted_fmap fst (@key_le B)); [done | apply Sorted_merge_sort, _].
  - rewrite !members_perm. apply NoDup_Permutation; [apply NoDup_fst_map_to_list..|]. intros k.
    rewrite !list_elem_of_fmap. split.
    + intros ([k' a] & -> & Hin%elem_of_map_to_list). simpl.
      assert (k' ∈ dom n) as [b Hb]%elem_of_dom by (rewrite <- Hd; by apply elem_of_dom_2 in Hin).
      exists (k', b). split; [done | by apply elem_of_map_to_list].
    + intros ([k' a] & -> & Hin%elem_of_map_to_list). simpl.
      assert (k' ∈ dom m) as [b Hb]%elem_of_dom by (rewrite Hd; by apply elem_of_dom_2 in Hin).
      exists (k', b). split; [done | by apply elem_of_map_to_list].
Qed.
(** Two maps with the same keys are written member by member. *)
Lemma members_Forall2 {A B} (R : string -> A -> B -> Prop) (m : gmap string A) (n : gmap string B) :
  dom m = dom n -> (forall k a b, m !! k = Some a -> n !! k = Some b -> R k a b) ->
  Forall2 (fun x y => x.1 = y.1 /\ R x.1 x.2 y.2) (members m) (members n).
Proof.
  intros Hd HR. pose proof (members_keys m n Hd) as Hk.
  assert (Hm : forall k a, (k, a) ∈ members m -> m !! k = Some a) by (intros; by apply members_elem).
  assert (Hn : forall k a, (k, a) ∈ members n -> n !! k = Some a) by (intros; by apply members_elem).
  revert Hk Hm Hn. generalize (members m) (members n). intros l. induction l as [|[k a] l IH]; intros [|[k' b] l'] Hk Hm Hn;
    try done. injection Hk as <- Hk. constructor.
  - split; [done|]. apply HR; [apply Hm | apply Hn]; by left.
  - apply IH; [done | intros; apply Hm; by right | intros; apply Hn; by right].
Qed.
Lemma agree_sanitize v w : agree v w -> sanitizeValue v = sanitizeValue w.
Proof.
  revert v w. fix IH 1. intros [|b|f|s|l|m] [|b'|f'|s'|l'|m']; simpl; try done; try (by intros ->).
  - intros Hl. f_equal. revert l' Hl. induction l as [|x l IHl]; intros [|y l']; simpl; try done.
    intros [Hx Hl]. by rewrite (IH _ _ Hx), (IHl _ Hl).
  - intros Hm. f_equal. revert m' Hm. induction m as [|[k v] m IHm]; intros [|[k' w] m']; simpl; try done.
    intros (-> & Hv & Hm). rewrite (IHm _ Hm). f_equal. f_equal.
    destruct Hv as [->|Hv]; [done|]. destruct (IsSecretKey k'); [done | by rewrite (IH _ _ Hv)].
Qed.

Lemma same_args_dom a b : same_args a b -> dom a = dom b.
Proof.
  intros Hs. apply set_eq. intros k. rewrite !elem_of_dom. specialize (Hs k).
  destruct (a !! k), (b !! k); simpl in Hs; split; intros [? ?]; try done; eauto.
Qed.
Lemma sanitizeMap_same a b :
  same_args a b -> sanitizeMap (members a) = sanitizeMap (members b).
Proof.
  intros Hs. pose proof (members_Forall2 (fun k v w => IsSecretKey k = true \/ agree v w) a b (same_args_dom a b Hs)) as Hf.
  unfold sanitizeMap. assert (Hall : Forall2 (fun x y => x.1 = y.1 /\ (IsSecretKey x.1 = true \/ agree x.2 y.2)) (members a) (members b)).
  { apply Hf. intros k v w Ha Hb. specialize (Hs k). by rewrite Ha, Hb in Hs. }
  clear Hf. induction Hall as [|[k v] [k' w] l l' [Hk Hv] _ IH]; [done|]. cbn [map fst snd] in *.
  subst k'. rewrite IH. f_equal. f_equal. destruct (IsSecretKey k); [done|]. destruct Hv as [?|Hv]; [done | by apply agree_sanitize].
Qed.
Lemma sanitized_same marshal a b : same_args a b -> sanitized marshal a = sanitized marshal b.
Proof.
  intros Hs. unfold sanitized, SanitizeArgs. pose proof (sanitizeMap_same a b Hs) as Hm.
  assert (He : a = ∅ <-> b = ∅) by (rewrite <- !dom_empty_iff_L; by rewrite (same_args_dom a b Hs)).
  destruct (decide (a = ∅)), (decide (b = ∅)); [done | tauto | tauto | by rewrite Hm].
Qed.
End AuditFacts.

(** ** Properties *)
Section Properties.
Import Audit AuditFacts.
Context {DB E : Type} `{AuditTable DB E} `{TimeText} (marshal : value -> res string string).

(** C29: the audit log cannot tell two commands apart that differ only in the
    values under keys that look like secrets, at whatever depth: the log after
    one is the log after the other. *)
Theorem audit_hides_secrets (a : AuditLogger) (uuid : string) (now : Time.t) (c1 c2 : Command)
    (result : option CommandResult) (actor ipAddr : string) (duration : Z) :
  cmd_Type c1 = cmd_Type c2 -> cmd_Target c1 = cmd_Target c2 -> same_args (cmd_Args c1) (cmd_Args c2) ->
  LogCommand marshal a uuid now c1 result actor ipAddr duration =
  LogCommand marshal a uuid now c2 result actor ipAddr duration.
Proof.
  intros Ht Hg Ha. unfold LogCommand, entry_of. by rewrite Ht, Hg, (sanitized_same marshal _ _ Ha).
Qed.

(** A purge keeps exactly the entries whose time stamp, as a text, is not before
    the cut-off's, and says how many went. *)
Theorem purge_exact `{!AuditTableLaws DB E} (d d' : DB) (now : Time.t) (days n : Z) :
  PurgeOlderThan (Some d) now days = (Some d', Ok n) ->
  audit_rows d' = filter (fun r => text_before (aw_timestamp r)
      (Format_RFC3339Nano (retention_cutoff now days)) = false) (audit_rows d) /\
  n = Z.of_nat (length (filter (fun r => text_before (aw_timestamp r)
      (Format_RFC3339Nano (retention_cutoff now days)) = true) (audit_rows d))).
Proof.
  unfold PurgeOlderThan. destruct (delete_before d _) as [[d1 n1]|e] eqn:Ed; [|done]. intros [= <- <-].
  apply audit_deleted in Ed as [Hr ->]. split; [done|]. rewrite Hr. clear Hr.
  induction (audit_rows d) as [|r l IH]; [done|]. rewrite !filter_cons.
  destruct (text_before _ _); repeat case_decide; cbn [length]; try congruence; lia.
Qed.
End Properties.

(** ** Witness: a table that is a list *)
Module AuditWitness.
Import Audit.

#[export] Instance list_audit : AuditTable (list AuditRow) string := {
  insert_audit d row := Ok (d ++ [row]);
  by_actor d a n := Ok (take (Z.to_nat n) (reverse (filter (fun r => aw_actor r = a) d)));
  by_action d a n := Ok (take (Z.to_nat n) (reverse (filter (fun r => aw_action r = a) d)));
  delete_before d cutoff :=
    let kept := filter (fun r => text_before (aw_timestamp r) cutoff = false) d in
    Ok (kept, Z.of_nat (length d) - Z.of_nat (length kept)) }.
#[export] Instance list_audit_laws : AuditTableLaws (list AuditRow) string.
Proof.
  refine {| audit_rows d := d |}.
  - by intros d row d' [= <-].
  - by intros d cutoff d' n [= <- <-].
Defined.

(** Shows the strings of a value, one after the other. *)
Fixpoint show (v : value) : string :=
  match v with
  | VStr s => s
  | VObj m => String.concat "," (map (fun kv => (kv.1 +:+ ":" +:+ show kv.2)%stdpp) m)
  | _ => "?"%string
  end.
Definition marshal (v : value) : res string string := Ok (show v).
Definition push (key host : string) : Command :=
  mkCommand "c1" "credential_push" ε (mkTarget ε "n1")
    {[ "env_vars" := VObj [("API_KEY", VStr key); ("HOST", VStr host)]; "password" := VStr key ]}%string 0.
Definition log0 : AuditLogger (DB := list AuditRow) := Some [].

Lemma audit_hides_secrets_witness :
  LogCommand marshal log0 "u" 7 (push "k1" "h") None "api" "::1" 5000000 =
  LogCommand marshal log0 "u" 7 (push "other" "h") None "api" "::1" 5000000.
Proof.
  apply (audit_hides_secrets marshal log0 "u" 7 (push "k1" "h") (push "other" "h")); [done | done |].
  intros k. simpl. destruct (decide (k = "env_vars"%string)) as [->|Hne]; [right; vm_compute; by repeat split; auto|].
  destruct (decide (k = "password"%string)) as [->|Hne']; [left; by vm_compute|].
  by rewrite !lookup_insert_ne, !lookup_singleton_ne by done.
Defined.
Example logged : ae_Args (entry_of marshal "u" 7 (push "k1" "h") None "api" "::1" 5000000) =
  "env_vars:API_KEY:[REDACTED],HOST:h,password:[REDACTED]"%string.
Proof. vm_compute. reflexivity. Qed.
End AuditWitness.
