(* ===== verification/Hub.v ===== *)
(** * Hub

    internal/supervisor/hub.go, agent_conn.go and hubCommandTransport of
    command_dispatcher.go: the connections of the agents.

    A connection is a reference into a store, as [*AgentConn] is: the hub's map
    of clients, the two pumps of a connection and a sender that looked it up hold
    the same one.  Each [case] of [Run]'s select, each pump's turn and each half
    of the transport's [Send] is one action of the step function; the two halves
    of [Send] are apart because the lock is released between them.  A runtime
    panic (closing a closed channel, sending on one) is an outcome.  The sockets,
    the HTTP upgrade and the message decoders are arguments. *)

From S2P Require Import Prelude GoStd SqlStore NodeRegistry Commands Security.

(** ** Data *)
Record HubEvent := mkHubEvent { he_Type : string; he_AgentID : string; he_Time : Time.t }.

(** Where the goroutine that serves a connection's reads stands: blocked on
    [hub.register], reading, blocked on [hub.unregister], or gone. *)
Inductive reader := Registering | Reading | Unregistering | Gone.
#[export] Instance reader_eq_dec : EqDecision reader.
Proof. solve_decision. Defined.

(** [ac_send] is the channel's buffer and [ac_closed] whether it is closed;
    [ac_writing] says that the write pump runs. *)
Record AgentConn := mkConn {
  ac_agentID : string;
  ac_send : list string;
  ac_closed : bool;
  ac_socket_open : bool;
  ac_lastHeartbeat : Time.t;
  ac_reader : reader;
  ac_writing : bool }.

Definition sendBuffer : nat := 256.
Definition broadcastBuffer : nat := 256.
Definition eventsBuffer : nat := 64.

(** What [ServeWS] reads of a request. *)
Record Request := mkRequest {
  rq_Authorization : string; rq_token : string; rq_NodeID : string; rq_Origin : string }.
Inductive serve_result :=
  | Unauthorized
  | UpgradeFailed (e : string)
  | Accepted (agentID : string).

Module Hub.
Section Defs.
Context {DB E : Type} `{KeyedTable DB NodeRow E} `{TimeText}.

(** [nodeRegistry] and [credentialRegistry] are set together, to one registry,
    by [Server.SetRegistry]. *)
Record Hub := mkHub {
  clients : gmap string nat;
  conns : gmap nat AgentConn;
  broadcast : list string;
  events : list HubEvent;
  authToken : string;
  allowedOrigins : list string;
  strictOrigin : bool;
  heartbeatInterval : Z;
  heartbeatTimeout : Z;
  expectedCredVersion : Z;
  registry : option (Registry.NodeRegistry DB);
  cancelled : bool;
  stopped : bool }.

Definition NewHub (authToken : string) (allowedOrigins : list string)
    (heartbeatInterval heartbeatTimeout : Z) : Hub :=
  mkHub ∅ ∅ [] [] authToken allowedOrigins false heartbeatInterval heartbeatTimeout 0 None false false.

(** Field updates. *)
Definition with_clients (m : gmap string nat) (h : Hub) : Hub :=
  mkHub m (conns h) (broadcast h) (events h) (authToken h) (allowedOrigins h) (strictOrigin h)
    (heartbeatInterval h) (heartbeatTimeout h) (expectedCredVersion h) (registry h) (cancelled h) (stopped h).
Definition with_conns (m : gmap nat AgentConn) (h : Hub) : Hub :=
  mkHub (clients h) m (broadcast h) (events h) (authToken h) (allowedOrigins h) (strictOrigin h)
    (heartbeatInterval h) (heartbeatTimeout h) (expectedCredVersion h) (registry h) (cancelled h) (stopped h).
Definition with_broadcast (l : list string) (h : Hub) : Hub :=
  mkHub (clients h) (conns h) l (events h) (authToken h) (allowedOrigins h) (strictOrigin h)
    (heartbeatInterval h) (heartbeatTimeout h) (expectedCredVersion h) (registry h) (cancelled h) (stopped h).
Definition with_events (l : list HubEvent) (h : Hub) : Hub :=
  mkHub (clients h) (conns h) (broadcast h) l (authToken h) (allowedOrigins h) (strictOrigin h)
    (heartbeatInterval h) (heartbeatTimeout h) (expectedCredVersion h) (registry h) (cancelled h) (stopped h).
Definition with_registry (r : option (Registry.NodeRegistry DB)) (h : Hub) : Hub :=
  mkHub (clients h) (conns h) (broadcast h) (events h) (authToken h) (allowedOrigins h) (strictOrigin h)
    (heartbeatInterval h) (heartbeatTimeout h) (expectedCredVersion h) r (cancelled h) (stopped h).
Definition with_flags (c s : bool) (h : Hub) : Hub :=
  mkHub (clients h) (conns h) (broadcast h) (events h) (authToken h) (allowedOrigins h) (strictOrigin h)
    (heartbeatInterval h) (heartbeatTimeout h) (expectedCredVersion h) (registry h) c s.

Definition UpdateAuthToken (newToken : string) (h : Hub) : Hub :=
  mkHub (clients h) (conns h) (broadcast h) (events h) newToken (allowedOrigins h) (strictOrigin h)
    (heartbeatInterval h) (heartbeatTimeout h) (expectedCredVersion h) (registry h) (cancelled h) (stopped h).
Definition SetStrictOrigin (strict : bool) (h : Hub) : Hub :=
  mkHub (clients h) (conns h) (broadcast h) (events h) (authToken h) (allowedOrigins h) strict
    (heartbeatInterval h) (heartbeatTimeout h) (expectedCredVersion h) (registry h) (cancelled h) (stopped h).
Definition SetAllowedOrigins (origins : list string) (h : Hub) : Hub :=
  mkHub (clients h) (conns h) (broadcast h) (events h) (authToken h) origins (strictOrigin h)
    (heartbeatInterval h) (heartbeatTimeout h) (expectedCredVersion h) (registry h) (cancelled h) (stopped h).
(** [ConfigureNodeRegistry] and [ConfigureCredentialReconciliation]. *)
Definition ConfigureRegistry (r : Registry.NodeRegistry DB) (expectedVersion : Z) (h : Hub) : Hub :=
  mkHub (clients h) (conns h) (broadcast h) (events h) (authToken h) (allowedOrigins h) (strictOrigin h)
    (heartbeatInterval h) (heartbeatTimeout h) expectedVersion (Some r) (cancelled h) (stopped h).

Definition ClientCount (h : Hub) : Z := Z.of_nat (size (clients h)).

(** *** Origins and tokens *)
Definition checkOriginStrict (h : Hub) (rq : Request) : bool :=
  if str_empty (rq_Origin rq) then false
  else existsb (fun allowed => Security.MatchOrigin (rq_Origin rq) allowed) (allowedOrigins h).

Definition checkOrigin (h : Hub) (rq : Request) : bool :=
  if strictOrigin h then checkOriginStrict h rq
  else match allowedOrigins h with
       | [] => true
       | _ =>
           if str_empty (rq_Origin rq) then true
           else existsb (fun allowed => String.eqb allowed "*" || String.eqb allowed (rq_Origin rq))
                  (allowedOrigins h)
       end.

Definition request_token (rq : Request) : string :=
  if Strings.HasPrefix (rq_Authorization rq) "Bearer "
  then Strings.TrimPrefix (rq_Authorization rq) "Bearer " else rq_token rq.

(** [ServeWS] up to the new connection; [upgrade] is the upgrader given the
    verdict of [checkOrigin], [uuid] a fresh id. *)
Definition ServeWS (upgrade : Request -> bool -> res string ()) (h : Hub) (rq : Request) (uuid : string)
    : serve_result :=
  if negb (String.eqb (request_token rq) (authToken h)) then Unauthorized
  else
    match upgrade rq (checkOrigin h rq) with
    | Err e => UpgradeFailed e
    | Ok _ =>
        let agentID := Strings.TrimSpace (rq_NodeID rq) in
        Accepted (if str_empty agentID then uuid else agentID)
    end.

Definition newAgentConn (agentID : string) (now : Time.t) : AgentConn :=
  mkConn agentID [] false true now Registering false.

(** *** Connections *)
Definition set_reader (s : reader) (c : AgentConn) : AgentConn :=
  mkConn (ac_agentID c) (ac_send c) (ac_closed c) (ac_socket_open c) (ac_lastHeartbeat c) s (ac_writing c).
Definition set_send (l : list string) (c : AgentConn) : AgentConn :=
  mkConn (ac_agentID c) l (ac_closed c) (ac_socket_open c) (ac_lastHeartbeat c) (ac_reader c) (ac_writing c).
Definition close_chan (c : AgentConn) : AgentConn :=
  mkConn (ac_agentID c) (ac_send c) true (ac_socket_open c) (ac_lastHeartbeat c) (ac_reader c) (ac_writing c).
Definition close_socket (c : AgentConn) : AgentConn :=
  mkConn (ac_agentID c) (ac_send c) (ac_closed c) false (ac_lastHeartbeat c) (ac_reader c) (ac_writing c).
Definition set_heartbeat (now : Time.t) (c : AgentConn) : AgentConn :=
  mkConn (ac_agentID c) (ac_send c) (ac_closed c) (ac_socket_open c) now (ac_reader c) (ac_writing c).
Definition set_writing (b : bool) (c : AgentConn) : AgentConn :=
  mkConn (ac_agentID c) (ac_send c) (ac_closed c) (ac_socket_open c) (ac_lastHeartbeat c) (ac_reader c) b.
Definition upd (i : nat) (f : AgentConn -> AgentConn) (h : Hub) : Hub := with_conns (alter f i (conns h)) h.

(** [close(conn.send)]; [None] is the panic. *)
Definition close_send (h : Hub) (i : nat) : option Hub :=
  c ← conns h !! i; if ac_closed c then None else Some (upd i close_chan h).
(** [select { case conn.send <- msg: ...; default: ... }]: whether it was sent. *)
Definition try_send (h : Hub) (i : nat) (msg : string) : option (Hub * bool) :=
  c ← conns h !! i;
  if ac_closed c then None
  else if (length (ac_send c) <? sendBuffer)%nat then Some (upd i (set_send (ac_send c ++ [msg])) h, true)
  else Some (h, false).

Definition emit (ev : HubEvent) (h : Hub) : Hub :=
  if (length (events h) <? eventsBuffer)%nat then with_events (events h ++ [ev]) h else h.

Definition registerNodeOnline (h : Hub) (now : Time.t) (agentID : string) : Hub :=
  match registry h with
  | None => h
  | Some r =>
      if str_empty agentID then h
      else with_registry (Some (Registry.Register r now
             (mkNodeEntry agentID agentID ε [] [] ε Time.zero Time.zero ε 0 None Time.zero)).1) h
  end.
Definition registerNodeOffline (h : Hub) (now : Time.t) (agentID : string) : Hub :=
  match registry h with
  | None => h
  | Some r =>
      if str_empty agentID then h
      else with_registry (Some (Registry.MarkOffline r now agentID).1) h
  end.

(** *** The cases of [Run]; [None] is a panic *)
Definition run_register (h : Hub) (i : nat) (now : Time.t) : option Hub :=
  conn ← conns h !! i;
  h ← match clients h !! ac_agentID conn with
      | Some existing =>
          if bool_decide (existing = i) then Some h else upd existing close_socket <$> close_send h existing
      | None => Some h
      end;
  let h := with_clients (<[ac_agentID conn := i]> (clients h)) h in
  let h := registerNodeOnline h now (ac_agentID conn) in
  Some (emit (mkHubEvent "node.online" (ac_agentID conn) now) h).

Definition run_unregister (h : Hub) (i : nat) (now : Time.t) : option Hub :=
  conn ← conns h !! i;
  if bool_decide (clients h !! ac_agentID conn = Some i) then
    h ← close_send (with_clients (delete (ac_agentID conn) (clients h)) h) i;
    Some (registerNodeOffline h now (ac_agentID conn))
  else Some h.

(** The loop over the clients, in the order they are met. *)
Fixpoint broadcast_loop (h : Hub) (msg : string) (order : list (string * nat)) : option Hub :=
  match order with
  | [] => Some h
  | (id, i) :: order' =>
      '(h, sent) ← try_send h i msg;
      if (sent : bool) then broadcast_loop h msg order'
      else
        h ← close_send h i;
        broadcast_loop (with_clients (delete id (clients h)) h) msg order'
  end.

Fixpoint close_loop (h : Hub) (order : list (string * nat)) : option Hub :=
  match order with
  | [] => Some h
  | (id, i) :: order' =>
      h ← close_send h i;
      close_loop (with_clients (delete id (clients h)) (upd i close_socket h)) order'
  end.

Definition heartbeat_expired (h : Hub) (now : Time.t) (conn : AgentConn) : bool :=
  Time.mul_duration (heartbeatTimeout h) (heartbeatInterval h) <? Time.Sub now (ac_lastHeartbeat conn).
Definition timed_out (h : Hub) (now : Time.t) (order : list (string * nat)) : list (nat * AgentConn) :=
  omap (fun '(_, i) =>
    c ← conns h !! i; if heartbeat_expired h now c then Some (i, c) else None) order.
Definition expire (now : Time.t) (h : Hub) (x : nat * AgentConn) : Hub :=
  let id := ac_agentID x.2 in
  upd x.1 close_socket (emit (mkHubEvent "node.offline" id now) (registerNodeOffline h now id)).
Definition checkHeartbeats (h : Hub) (now : Time.t) (order : list (string * nat)) : Hub :=
  foldl (expire now) h (timed_out h now order).

(** *** Messages of an agent *)
Definition reconcileCredentialSync (decode : string -> res string CredentialSyncPayload) (h : Hub)
    (payload : string) : Hub :=
  match registry h with
  | None => h
  | Some r => with_registry (Some (Registry.HandleCredentialSyncMessage decode r payload (expectedCredVersion h)).1) h
  end.
Definition reconcileAuthState (decode : string -> res string (list AuthStateReport)) (h : Hub) (now : Time.t)
    (nodeID payload : string) : Hub :=
  match registry h with
  | None => h
  | Some r => with_registry (Some (Registry.HandleAuthStateMessage decode r now nodeID payload).1) h
  end.

(** The new hub, and the envelope handed to the command dispatcher. *)
Definition handleEnvelope (decode_sync : string -> res string CredentialSyncPayload)
    (decode_auth : string -> res string (list AuthStateReport))
    (h : Hub) (i : nat) (now : Time.t) (env : Envelope) : Hub * option Envelope :=
  let agentID := match conns h !! i with Some c => ac_agentID c | None => ε end in
  let h := upd i (set_heartbeat now) h in
  if String.eqb (env_Type env) MessageTypeHeartbeat then (h, None)
  else if String.eqb (env_Type env) MessageTypeCredentialSync then
    (reconcileCredentialSync decode_sync h (env_Payload env), None)
  else if String.eqb (env_Type env) MessageTypeRegister then (h, None)
  else if String.eqb (env_Type env) MessageTypeAuthState then
    (reconcileAuthState decode_auth h now agentID (env_Payload env), None)
  else if String.eqb (env_Type env) MessageTypeCommandResult then (h, Some env)
  else (h, None).

(** A turn of [writePump] that takes from the channel; [ok] is whether the
    socket took the message.  [None]: it would block. *)
Definition write_turn (h : Hub) (i : nat) (ok : bool) : option Hub :=
  c ← conns h !! i;
  match ac_send c with
  | msg :: rest =>
      let h := upd i (set_send rest) h in
      Some (if ok then h else upd i (fun c => close_socket (set_writing false c)) h)
  | [] => if ac_closed c then Some (upd i (fun c => close_socket (set_writing false c)) h) else None
  end.

(** *** hubCommandTransport.Send *)
Inductive send_error :=
  | send_marshal_payload (e : string)
  | send_marshal_envelope (e : envelope_error)
  | send_not_connected (nodeID : string)
  | send_saturated (nodeID : string).

Definition command_message `{Json Command, Json Envelope} (now : Time.t) (cmd : Command) : res send_error string :=
  let? payload := res_map_err send_marshal_payload (json_marshal cmd) in
  res_map_err send_marshal_envelope
    (MarshalEnvelope (mkEnvelope ProtocolVersion MessageTypeCommand (cmd_CommandID cmd) (Time.Unix now) payload)).
Definition send_lookup (h : Hub) (nodeID : string) : res send_error nat :=
  match clients h !! nodeID with Some i => Ok i | None => Err (send_not_connected nodeID) end.
Definition send_push (h : Hub) (nodeID : string) (i : nat) (data : string) : option (Hub * res send_error ()) :=
  '(h, sent) ← try_send h i data; Some (h, if (sent : bool) then Ok () else Err (send_saturated nodeID)).

(** The whole of [Send], when nothing comes between its halves. *)
Definition Send `{Json Command, Json Envelope} (h : Hub) (now : Time.t) (nodeID : string) (cmd : Command)
    : option (Hub * res send_error ()) :=
  match command_message now cmd with
  | Err e => Some (h, Err e)
  | Ok data =>
      match send_lookup h nodeID with
      | Err e => Some (h, Err e)
      | Ok i => send_push h nodeID i data
      end
  end.

(** *** The goroutines together *)
Record System := mkSystem {
  hub : Hub;
  inflight : list (string * nat * string);
  results : list Envelope }.
Inductive action :=
  | AConnect (rq : Request) (uuid : string) (now : Time.t)
  | ARegister (i : nat) (now : Time.t)
  | AUnregister (i : nat) (now : Time.t)
  | APost (msg : string)
  | ABroadcast (order : list (string * nat))
  | ATick (now : Time.t) (order : list (string * nat))
  | ACancel
  | ADone (order : list (string * nat))
  | AReceive (i : nat) (now : Time.t) (env : Envelope)
  | AReadError (i : nat)
  | AAbandon (i : nat)
  | AWrite (i : nat) (ok : bool)
  | APingFails (i : nat)
  | ALookup (nodeID data : string)
  | APush (k : nat).
Inductive outcome := Next (s : System) | Blocked | Panic.

Context (upgrade : Request -> bool -> res string ())
  (decode_sync : string -> res string CredentialSyncPayload)
  (decode_auth : string -> res string (list AuthStateReport)).

Definition in_state (h : Hub) (i : nat) (st : reader) : bool :=
  match conns h !! i with Some c => bool_decide (ac_reader c = st) | None => false end.
Definition pumping (h : Hub) (i : nat) : bool :=
  match conns h !! i with Some c => ac_writing c | None => false end.
Definition after (s : System) (h : option Hub) : outcome :=
  match h with Some h => Next (mkSystem h (inflight s) (results s)) | None => Panic end.
Definition when (b : bool) (o : outcome) : outcome := if b then o else Blocked.

Definition exec (s : System) (a : action) : outcome :=
  let h := hub s in
  match a with
  | AConnect rq uuid now =>
      match ServeWS upgrade h rq uuid with
      | Accepted agentID => after s (Some (with_conns (<[fresh (dom (conns h)) := newAgentConn agentID now]> (conns h)) h))
      | _ => Next s
      end
  | ARegister i now =>
      when (negb (stopped h) && in_state h i Registering)
        (after s (upd i (fun c => set_writing true (set_reader Reading c)) <$> run_register h i now))
  | AUnregister i now =>
      when (negb (stopped h) && in_state h i Unregistering)
        (after s (upd i (fun c => close_socket (set_reader Gone c)) <$> run_unregister h i now))
  | APost msg =>
      when (length (broadcast h) <? broadcastBuffer)%nat (after s (Some (with_broadcast (broadcast h ++ [msg]) h)))
  | ABroadcast order =>
      when (negb (stopped h) && bool_decide (order ≡ₚ map_to_list (clients h)))
        match broadcast h with
        | msg :: rest => after s (broadcast_loop (with_broadcast rest h) msg order)
        | [] => Blocked
        end
  | ATick now order =>
      when (negb (stopped h) && bool_decide (order ≡ₚ map_to_list (clients h)))
        (after s (Some (checkHeartbeats h now order)))
  | ACancel => after s (Some (with_flags true (stopped h) h))
  | ADone order =>
      when (cancelled h && negb (stopped h) && bool_decide (order ≡ₚ map_to_list (clients h)))
        (after s (with_flags true true <$> close_loop h order))
  | AReceive i now env =>
      when (in_state h i Reading)
        (let '(h, r) := handleEnvelope decode_sync decode_auth h i now env in
         Next (mkSystem h (inflight s) (results s ++ option_list r)))
  | AReadError i => when (in_state h i Reading) (after s (Some (upd i (set_reader Unregistering) h)))
  | AAbandon i =>
      when (cancelled h && in_state h i Unregistering)
        (after s (Some (upd i (fun c => close_socket (set_reader Gone c)) h)))
  | AWrite i ok =>
      when (pumping h i) match write_turn h i ok with Some h => after s (Some h) | None => Blocked end
  | APingFails i =>
      when (pumping h i) (after s (Some (upd i (fun c => close_socket (set_writing false c)) h)))
  | ALookup nodeID data =>
      match send_lookup h nodeID with
      | Ok i => Next (mkSystem h (inflight s ++ [(nodeID, i, data)]) (results s))
      | Err _ => Next s
      end
  | APush k =>
      match inflight s !! k with
      | None => Blocked
      | Some (nodeID, i, data) =>
          match send_push h nodeID i data with
          | Some (h, _) => Next (mkSystem h (delete k (inflight s)) (results s))
          | None => Panic
          end
      end
  end.

Inductive reachable (s0 : System) : System -> Prop :=
  | reach_start : reachable s0 s0
  | reach_step s a s' : reachable s0 s -> exec s a = Next s' -> reachable s0 s'.

Fixpoint exec_all (s : System) (l : list action) : outcome :=
  match l with
  | [] => Next s
  | a :: l' => match exec s a with Next s' => exec_all s' l' | o => o end
  end.
End Defs.
Arguments Hub : clear implicits.
Arguments System : clear implicits.
Arguments outcome : clear implicits.
End Hub.

(** ** Lemmas *)
Module HubFacts.
Import Hub.
Section Facts.
Context {DB E : Type} `{KT : KeyedTable DB NodeRow E} `{TT : TimeText}.
Context (upgrade : Request -> bool -> res string ())
  (decode_sync : string -> res string CredentialSyncPayload)
  (decode_auth : string -> res string (list AuthStateReport)).
Implicit Types h : Hub DB.
Implicit Types s : System DB.

(** The hub's map is the set of open connections: every client is a connection
    past its registration, filed under its agent, and of those connections the
    open ones are the clients.  A connection that waits to register is open. *)
Record conns_ok (cl : gmap string nat) (cs : gmap nat AgentConn) : Prop := {
  ok_client a i : cl !! a = Some i ->
    exists c, cs !! i = Some c /\ ac_agentID c = a /\ ac_reader c <> Registering;
  ok_open i c : cs !! i = Some c -> ac_reader c <> Registering ->
    (ac_closed c = false <-> cl !! ac_agentID c = Some i);
  ok_waiting i c : cs !! i = Some c -> ac_reader c = Registering -> ac_closed c = false }.
Definition hub_ok h : Prop := conns_ok (clients h) (conns h).

(** Updates that concern neither the channel's closing nor the registration. *)
Definition quiet (f : AgentConn -> AgentConn) : Prop :=
  forall c, ac_agentID (f c) = ac_agentID c /\ ac_closed (f c) = ac_closed c /\
    (ac_reader (f c) = Registering <-> ac_reader c = Registering).

Lemma conns_ok_quiet cl cs i f c :
  conns_ok cl cs -> cs !! i = Some c ->
  ac_agentID (f c) = ac_agentID c -> ac_closed (f c) = ac_closed c ->
  (ac_reader (f c) = Registering <-> ac_reader c = Registering) ->
  conns_ok cl (alter f i cs).
Proof.
  intros [Hc Ho Hw] Hi Ha Hcl Hr. split.
  - intros a j (c' & Hj & <- & Hn)%Hc. destruct (decide (i = j)) as [<-|].
    + exists (f c). rewrite lookup_alter_eq, Hi. simplify_eq. split_and!; [done | done | tauto].
    + exists c'. by rewrite lookup_alter_ne.
  - intros j c'. destruct (decide (i = j)) as [<-|].
    + rewrite lookup_alter_eq, Hi. intros [= <-] ?. rewrite Ha, Hcl. apply Ho; tauto.
    + rewrite lookup_alter_ne by done. apply Ho.
  - intros j c'. destruct (decide (i = j)) as [<-|].
    + rewrite lookup_alter_eq, Hi. intros [= <-] ?. rewrite Hcl. apply (Hw i c Hi); tauto.
    + rewrite lookup_alter_ne by done. apply Hw.
Qed.

Lemma hub_ok_upd h i f : quiet f -> hub_ok h -> hub_ok (upd i f h).
Proof.
  intros Hq Hok. unfold hub_ok, upd. simpl. destruct (conns h !! i) as [c|] eqn:Ei.
  - destruct (Hq c) as (? & ? & ?). by eapply conns_ok_quiet.
  - by rewrite alter_id by congruence.
Qed.

(** A client leaves: its channel is closed and its entry deleted. *)
Lemma conns_ok_drop cl cs a i :
  conns_ok cl cs -> cl !! a = Some i -> conns_ok (delete a cl) (alter close_chan i cs).
Proof.
  intros [Hc Ho Hw] Hi. destruct (Hc a i Hi) as (c & Ec & <- & Hr). split.
  - intros b j [Hne (c' & Hj & <- & Hn)%Hc]%lookup_delete_Some. exists c'.
    rewrite lookup_alter_ne; [done|]. intros <-. by simplify_eq.
  - intros j c'. destruct (decide (i = j)) as [<-|Hij].
    + rewrite lookup_alter_eq, Ec. intros [= <-] _. simpl. by rewrite lookup_delete_eq.
    + rewrite lookup_alter_ne by done. intros Hj Hn. rewrite (Ho j c' Hj Hn), lookup_delete_Some.
      split; [|tauto]. intros Hcl. split; [|done]. intros E0. rewrite <- E0, Hi in Hcl. congruence.
  - intros j c'. destruct (decide (i = j)) as [<-|Hij].
    + rewrite lookup_alter_eq, Ec. by intros [= <-].
    + rewrite lookup_alter_ne by done. apply Hw.
Qed.

Lemma client_open cl cs a i :
  conns_ok cl cs -> cl !! a = Some i ->
  exists c, cs !! i = Some c /\ ac_agentID c = a /\ ac_reader c <> Registering /\ ac_closed c = false.
Proof.
  intros Hok Hi. destruct (ok_client _ _ Hok a i Hi) as (c & Ec & <- & Hr).
  exists c. split_and!; try done. by apply (ok_open _ _ Hok i c).
Qed.

(** A waiting connection takes its agent's place. *)
Lemma conns_ok_register cl cs i c f :
  conns_ok cl cs -> cs !! i = Some c -> ac_reader c = Registering ->
  ac_agentID (f c) = ac_agentID c -> ac_closed (f c) = ac_closed c -> ac_reader (f c) <> Registering ->
  cl !! ac_agentID c = None ->
  conns_ok (<[ac_agentID c := i]> cl) (alter f i cs).
Proof.
  intros [Hc Ho Hw] Hi Hr Ha Hcl Hr' Hnone. split.
  - intros a j. destruct (decide (ac_agentID c = a)) as [<-|Hne].
    + rewrite lookup_insert_eq. intros [= <-]. exists (f c). by rewrite lookup_alter_eq, Hi.
    + rewrite lookup_insert_ne by done. intros (c' & Hj & <- & Hn)%Hc. exists c'.
      rewrite lookup_alter_ne; [done|]. intros <-. by simplify_eq.
  - intros j c'. destruct (decide (i = j)) as [<-|Hij].
    + rewrite lookup_alter_eq, Hi. intros [= <-] _. rewrite Ha, Hcl, lookup_insert_eq.
      rewrite (Hw i c Hi Hr). done.
    + rewrite lookup_alter_ne by done. intros Hj Hn. rewrite (Ho j c' Hj Hn).
      destruct (decide (ac_agentID c = ac_agentID c')) as [E0|Hne].
      * rewrite <- E0, lookup_insert_eq, Hnone. split; [done | by intros [= ->]].
      * by rewrite lookup_insert_ne.
  - intros j c'. destruct (decide (i = j)) as [<-|Hij].
    + rewrite lookup_alter_eq, Hi. by intros [= <-].
    + rewrite lookup_alter_ne by done. apply Hw.
Qed.

(** *** The registry's calls and the events leave the connections alone *)
Lemma registerNodeOnline_conns h now a :
  clients (registerNodeOnline h now a) = clients h /\ conns (registerNodeOnline h now a) = conns h /\
  stopped (registerNodeOnline h now a) = stopped h.
Proof. unfold registerNodeOnline. destruct (registry h); [|done]. by destruct (str_empty a). Qed.
Lemma registerNodeOffline_conns h now a :
  clients (registerNodeOffline h now a) = clients h /\ conns (registerNodeOffline h now a) = conns h.
Proof. unfold registerNodeOffline. destruct (registry h); [|done]. by destruct (str_empty a). Qed.
Lemma emit_conns ev h :
  clients (emit ev h) = clients h /\ conns (emit ev h) = conns h /\ registry (emit ev h) = registry h.
Proof. unfold emit. by destruct (_ <? _)%nat. Qed.
Lemma reconcile_conns h now i env :
  let h' := (handleEnvelope decode_sync decode_auth h i now env).1 in
  clients h' = clients h /\ conns h' = alter (set_heartbeat now) i (conns h).
Proof.
  unfold handleEnvelope, reconcileCredentialSync, reconcileAuthState. simpl.
  repeat (case_match; try done).
Qed.

(** *** Each case of [Run] keeps the invariant and does not panic *)
Lemma close_send_client h a i :
  hub_ok h -> clients h !! a = Some i -> close_send h i = Some (upd i close_chan h).
Proof.
  intros Hok Hi. destruct (client_open _ _ _ _ Hok Hi) as (c & Ec & _ & _ & Hcl).
  unfold close_send. rewrite Ec. simpl. by rewrite Hcl.
Qed.

Lemma try_send_client h a i msg :
  hub_ok h -> clients h !! a = Some i ->
  exists h' b, try_send h i msg = Some (h', b) /\ hub_ok h' /\ clients h' = clients h /\
    dom (conns h') = dom (conns h) /\ (b = false -> h' = h).
Proof.
  intros Hok Hi. destruct (client_open _ _ _ _ Hok Hi) as (c & Ec & _ & _ & Hcl).
  unfold try_send. rewrite Ec. simpl. rewrite Hcl. case_match.
  - eexists _, _. split_and!; [done | by apply hub_ok_upd | done | by apply dom_alter_L | done].
  - by eexists _, _.
Qed.

Lemma run_register_ok h i now c :
  hub_ok h -> conns h !! i = Some c -> ac_reader c = Registering ->
  exists h', run_register h i now = Some h' /\ dom (conns h') = dom (conns h) /\
    hub_ok (upd i (fun c => set_writing true (set_reader Reading c)) h').
Proof.
  intros Hok Ec Hr. unfold run_register. rewrite Ec. simpl.
  assert (exists h0, match clients h !! ac_agentID c with
      | Some existing =>
          if bool_decide (existing = i) then Some h else upd existing close_socket <$> close_send h existing
      | None => Some h end = Some h0 /\
      conns_ok (delete (ac_agentID c) (clients h)) (conns h0) /\ clients h0 = clients h /\
      conns h0 !! i = Some c /\ dom (conns h0) = dom (conns h)) as (h0 & -> & Hok0 & Hcl & Ec0 & Hdom).
  { destruct (clients h !! ac_agentID c) as [j|] eqn:Ej.
    - assert (j <> i) as Hne.
      { intros ->. destruct (client_open _ _ _ _ Hok Ej) as (c' & ? & _ & ? & _). by simplify_eq. }
      rewrite bool_decide_eq_false_2 by done. rewrite (close_send_client h _ j Hok Ej). simpl.
      eexists. split; [done|]. simpl. split_and!; [|done|by rewrite !lookup_alter_ne|by rewrite !dom_alter_L].
      pose proof (conns_ok_drop _ _ _ _ Hok Ej) as Hd.
      destruct (client_open _ _ _ _ Hok Ej) as (c' & Ec' & _).
      eapply (conns_ok_quiet _ _ j close_socket); [done | by rewrite lookup_alter_eq, Ec' | done | done | done].
    - exists h. split; [done|]. split_and!; [|done|done|done]. by rewrite delete_id. }
  simpl. eexists. split; [done|]. unfold hub_ok, upd. cbn [clients conns with_conns].
  destruct (emit_conns (mkHubEvent "node.online" (ac_agentID c) now)
    (registerNodeOnline (with_clients (<[ac_agentID c := i]> (clients h0)) h0) now (ac_agentID c))) as (-> & -> & _).
  destruct (registerNodeOnline_conns (with_clients (<[ac_agentID c := i]> (clients h0)) h0) now (ac_agentID c))
    as (-> & -> & _). simpl. split; [done|]. rewrite Hcl, <- insert_delete_eq.
  eapply (conns_ok_register _ _ i c); try done. by rewrite lookup_delete_eq.
Qed.

Lemma hub_ok_drop h a i :
  hub_ok h -> clients h !! a = Some i ->
  hub_ok (with_clients (delete a (clients h)) (upd i close_chan h)).
Proof. intros Hok Hi. by apply conns_ok_drop. Qed.

Lemma run_unregister_ok h i now c :
  hub_ok h -> conns h !! i = Some c -> ac_reader c = Unregistering ->
  exists h', run_unregister h i now = Some h' /\ hub_ok h' /\ dom (conns h') = dom (conns h) /\
    (exists c', conns h' !! i = Some c' /\ ac_reader c' = Unregistering) /\
    (ac_closed c = true -> h' = h).
Proof.
  intros Hok Ec Hr. unfold run_unregister. rewrite Ec. simpl. case_bool_decide as Hcl.
  - unfold close_send. simpl. rewrite Ec. simpl.
    assert (ac_closed c = false) as Hopen by (apply (ok_open _ _ Hok i c); [done | by rewrite Hr | done]).
    rewrite Hopen. simpl. eexists. split; [done|].
    pose proof (registerNodeOffline_conns (upd i close_chan (with_clients (delete (ac_agentID c) (clients h)) h))
      now (ac_agentID c)) as [E1 E2].
    unfold hub_ok. rewrite E1, E2. simpl. split_and!.
    + by apply conns_ok_drop.
    + by rewrite dom_alter_L.
    + exists (close_chan c). by rewrite lookup_alter_eq, Ec.
    + done.
  - exists h. split_and!; try done. by exists c.
Qed.

Definition listed h (order : list (string * nat)) : Prop :=
  NoDup order.*1 /\ forall a i, (a, i) ∈ order -> clients h !! a = Some i.
Lemma listed_range h order : order ≡ₚ map_to_list (clients h) -> listed h order.
Proof.
  intros Ho. split.
  - apply (range_order_NoDup (clients h)). done.
  - intros a i. rewrite Ho. apply elem_of_map_to_list.
Qed.
Lemma listed_tail h a i order : listed h ((a, i) :: order) -> clients h !! a = Some i /\ listed h order.
Proof.
  intros [Hn Hl]. split; [apply Hl; by left|]. split; [by apply NoDup_cons in Hn as [_ ?]|].
  intros b j ?. apply Hl. by right.
Qed.
Lemma listed_delete h h' a i order :
  listed h ((a, i) :: order) -> clients h' = delete a (clients h) -> listed h' order.
Proof.
  intros [[Ha Hn]%NoDup_cons Hl] E1. split; [done|]. intros b j Hb. rewrite E1, lookup_delete_Some. split.
  - intros ->. apply Ha. apply list_elem_of_fmap. by exists (b, j).
  - apply Hl. by right.
Qed.

Lemma broadcast_loop_ok h msg order :
  hub_ok h -> listed h order ->
  exists h', broadcast_loop h msg order = Some h' /\ hub_ok h' /\ dom (conns h') = dom (conns h).
Proof.
  revert h. induction order as [|[a i] order IH]; intros h Hok Hl; [by exists h|]. cbn [broadcast_loop].
  destruct (listed_tail _ _ _ _ Hl) as [Hi Hl'].
  destruct (try_send_client h a i msg Hok Hi) as (h1 & b & -> & Hok1 & Hc1 & Hd1 & Hsame). simpl.
  destruct b.
  - destruct (IH h1) as (h' & -> & ? & ?); [done| |by exists h'; rewrite <- Hd1].
    destruct Hl' as [? Hin]. split; [done|]. intros ??. rewrite Hc1. apply Hin.
  - rewrite Hsame in * by done. clear Hsame. rewrite (close_send_client h a i Hok Hi). simpl.
    destruct (IH (with_clients (delete a (clients h)) (upd i close_chan h))) as (h' & -> & Hok' & Hd').
    + by apply hub_ok_drop.
    + by eapply listed_delete.
    + exists h'. split_and!; [done | done|]. rewrite Hd'. simpl. by rewrite dom_alter_L.
Qed.

Lemma close_loop_ok h order :
  hub_ok h -> listed h order ->
  exists h', close_loop h order = Some h' /\ hub_ok h' /\ dom (conns h') = dom (conns h).
Proof.
  revert h. induction order as [|[a i] order IH]; intros h Hok Hl; [by exists h|]. cbn [close_loop].
  destruct (listed_tail _ _ _ _ Hl) as [Hi Hl']. rewrite (close_send_client h a i Hok Hi). simpl.
  destruct (IH (with_clients (delete a (clients h)) (upd i close_socket (upd i close_chan h))))
    as (h' & -> & Hok' & Hd').
  - apply (hub_ok_upd (with_clients (delete a (clients h)) (upd i close_chan h)) i close_socket);
      [done | by apply hub_ok_drop].
  - by eapply listed_delete.
  - exists h'. split_and!; [done | done|]. rewrite Hd'. simpl. by rewrite !dom_alter_L.
Qed.

Lemma expire_conns now h x :
  clients (expire now h x) = clients h /\ conns (expire now h x) = alter close_socket x.1 (conns h).
Proof.
  unfold expire, upd. simpl.
  destruct (emit_conns (mkHubEvent "node.offline" (ac_agentID x.2) now)
    (registerNodeOffline h now (ac_agentID x.2))) as (-> & -> & _).
  by destruct (registerNodeOffline_conns h now (ac_agentID x.2)) as [-> ->].
Qed.
Lemma hub_ok_expire now h x : hub_ok h -> hub_ok (expire now h x) /\ dom (conns (expire now h x)) = dom (conns h).
Proof.
  intros Hok. destruct (expire_conns now h x) as [E1 E2]. unfold hub_ok. rewrite E1, E2, dom_alter_L.
  split; [|done]. by apply (hub_ok_upd h x.1 close_socket).
Qed.
Lemma checkHeartbeats_ok now h order :
  hub_ok h -> hub_ok (checkHeartbeats h now order) /\ dom (conns (checkHeartbeats h now order)) = dom (conns h).
Proof.
  unfold checkHeartbeats. generalize (timed_out h now order) as l. intros l. revert h.
  induction l as [|x l IH]; intros h Hok; [done|]. cbn [foldl].
  destruct (hub_ok_expire now h x Hok) as [Hok' Hd]. rewrite <- Hd. by apply IH.
Qed.

(** *** The goroutines together *)
Definition sys_ok (s : System DB) : Prop :=
  hub_ok (hub s) /\ forall n i d, (n, i, d) ∈ inflight s -> i ∈ dom (conns (hub s)).

Lemma sys_ok_same s h r :
  sys_ok s -> hub_ok h -> dom (conns h) = dom (conns (hub s)) -> sys_ok (mkSystem h (inflight s) r).
Proof. intros [_ Hin] Hok Hd. split; [done|]. simpl. rewrite Hd. apply Hin. Qed.

Lemma in_state_Some h i st : in_state h i st = true -> exists c, conns h !! i = Some c /\ ac_reader c = st.
Proof.
  unfold in_state. destruct (conns h !! i) as [c|]; [|done]. intros ?%bool_decide_eq_true_1. by exists c.
Qed.

(** The update of a connection that is past its registration. *)
Lemma sys_ok_conn s r i f st :
  sys_ok s -> in_state (hub s) i st = true -> st <> Registering ->
  (forall c, ac_agentID (f c) = ac_agentID c /\ ac_closed (f c) = ac_closed c) ->
  (forall c, ac_reader c = st -> ac_reader (f c) <> Registering) ->
  sys_ok (mkSystem (upd i f (hub s)) (inflight s) r).
Proof.
  intros Hs (c & Ec & Hr)%in_state_Some Hst Hf Hfr. apply sys_ok_same; [done | |by apply dom_alter_L].
  destruct (Hf c) as [Ha Hcl]. eapply conns_ok_quiet; [apply Hs | done | done | done |].
  pose proof (Hfr c Hr). split; [done | by rewrite Hr].
Qed.
Lemma sys_ok_quiet s r i f : sys_ok s -> quiet f -> sys_ok (mkSystem (upd i f (hub s)) (inflight s) r).
Proof. intros Hs Hq. apply sys_ok_same; [done | apply hub_ok_upd; [done | apply Hs] | by apply dom_alter_L]. Qed.

Lemma write_turn_ok h i ok h' :
  hub_ok h -> write_turn h i ok = Some h' -> hub_ok h' /\ dom (conns h') = dom (conns h).
Proof.
  intros Hok. unfold write_turn. destruct (conns h !! i) as [c|]; [|done]. simpl.
  destruct (ac_send c) as [|m rest].
  - destruct (ac_closed c); [|done]. intros [= <-]. split; [by apply hub_ok_upd | by apply dom_alter_L].
  - destruct ok; intros [= <-].
    + split; [by apply hub_ok_upd | by apply dom_alter_L].
    + split; [by apply hub_ok_upd, hub_ok_upd |]. simpl. by rewrite !dom_alter_L.
Qed.

Lemma conns_ok_connect cl cs agentID now :
  conns_ok cl cs -> conns_ok cl (<[fresh (dom cs) := newAgentConn agentID now]> cs).
Proof.
  intros [Hc Ho Hw]. assert (cs !! fresh (dom cs) = None) as Hf by (apply not_elem_of_dom, is_fresh). split.
  - intros a i (c & Hi & ? & ?)%Hc. exists c. rewrite lookup_insert_ne by congruence. done.
  - intros i c. destruct (decide (fresh (dom cs) = i)) as [<-|].
    + rewrite lookup_insert_eq. by intros [= <-].
    + rewrite lookup_insert_ne by done. apply Ho.
  - intros i c. destruct (decide (fresh (dom cs) = i)) as [<-|].
    + rewrite lookup_insert_eq. by intros [= <-].
    + rewrite lookup_insert_ne by done. apply Hw.
Qed.

(** What may panic: a send to a connection that was closed after the lookup. *)
Definition push_on_closed (s : System DB) (a : action) : Prop :=
  exists k nodeID i data c, a = APush k /\ inflight s !! k = Some (nodeID, i, data) /\
    conns (hub s) !! i = Some c /\ ac_closed c = true.
Definition fine (s : System DB) (a : action) (o : outcome DB) : Prop :=
  match o with Next s' => sys_ok s' | Blocked => True | Panic => push_on_closed s a end.

Lemma fine_when s a b o : (b = true -> fine s a o) -> fine s a (when b o).
Proof. destruct b; simpl; auto. Qed.

Lemma exec_push_fine s k : sys_ok s -> fine s (APush k) (exec upgrade decode_sync decode_auth s (APush k)).
Proof.
  intros [Hok Hin]. simpl. destruct (inflight s !! k) as [[[n i] d]|] eqn:Ek; [|done].
  destruct (conns (hub s) !! i) as [c|] eqn:Ec.
  2:{ apply not_elem_of_dom in Ec. destruct Ec. eapply Hin. by eapply list_elem_of_lookup_2. }
  unfold send_push, try_send. rewrite Ec. simpl. destruct (ac_closed c) eqn:Ecl; simpl.
  { by exists k, n, i, d, c. }
  assert (forall n' i' d', (n', i', d') ∈ delete k (inflight s) -> i' ∈ dom (conns (hub s))) as Hin'.
  { intros ??? Hel. eapply Hin. by eapply sublist_subseteq; [apply sublist_delete|]. }
  destruct (_ <? _)%nat; simpl; split; try done.
  - by apply hub_ok_upd.
  - simpl. rewrite dom_alter_L. done.
Qed.

Lemma exec_fine s a : sys_ok s -> fine s a (exec upgrade decode_sync decode_auth s a).
Proof.
  intros Hs. pose proof Hs as [Hok Hin]. destruct a as [rq uuid now|i now|i now|msg|order|now order| |order|i now env|i|i|i ok|i|n d|k]; [.. | by apply exec_push_fine]; simpl.
  - destruct (ServeWS _ _ _ _) as [| |agentID]; [done | done |]. split; [by apply conns_ok_connect|].
    simpl. rewrite dom_insert_L. set_solver.
  - apply fine_when. intros [_ (c & Ec & Hr)%in_state_Some]%andb_true_iff.
    destruct (run_register_ok (hub s) i now c Hok Ec Hr) as (h' & -> & Hd & Hok'). simpl.
    apply sys_ok_same; [done | done | simpl; by rewrite dom_alter_L].
  - apply fine_when. intros [_ (c & Ec & Hr)%in_state_Some]%andb_true_iff.
    destruct (run_unregister_ok (hub s) i now c Hok Ec Hr) as (h' & -> & Hok' & Hd & (c' & Ec' & Hr') & _). simpl.
    apply sys_ok_same; [done | | simpl; by rewrite dom_alter_L].
    eapply (conns_ok_quiet _ _ i _ c'); try done. by rewrite Hr'.
  - apply fine_when. intros _. by apply sys_ok_same.
  - apply fine_when. intros [_ Ho%bool_decide_eq_true_1]%andb_true_iff. destruct (broadcast (hub s)) as [|m rest]; [done|].
    destruct (broadcast_loop_ok (with_broadcast rest (hub s)) m order Hok) as (h' & -> & Hok' & Hd);
      [by apply (listed_range (hub s))|]. by apply sys_ok_same.
  - apply fine_when. intros _. destruct (checkHeartbeats_ok now (hub s) order Hok). by apply sys_ok_same.
  - by apply sys_ok_same.
  - apply fine_when. intros [_ Ho%bool_decide_eq_true_1]%andb_true_iff.
    destruct (close_loop_ok (hub s) order Hok) as (h' & -> & Hok' & Hd); [by apply listed_range|].
    by apply sys_ok_same.
  - apply fine_when. intros _. pose proof (reconcile_conns (hub s) now i env) as [E1 E2].
    destruct (handleEnvelope _ _ _ _ _ _) as [h' r]. simpl in *. apply sys_ok_same; [done | |].
    + unfold hub_ok. rewrite E1, E2. by apply (hub_ok_upd (hub s) i (set_heartbeat now)).
    + rewrite E2. by apply dom_alter_L.
  - apply fine_when. intros Hst. by apply (sys_ok_conn s _ i _ Reading).
  - apply fine_when. intros [_ Hst]%andb_true_iff. by apply (sys_ok_conn s _ i _ Unregistering).
  - apply fine_when. intros _. destruct (write_turn _ _ _) as [h'|] eqn:Ew; [|done].
    destruct (write_turn_ok _ _ _ _ Hok Ew). by apply sys_ok_same.
  - apply fine_when. intros _. by apply sys_ok_quiet.
  - unfold send_lookup. destruct (clients (hub s) !! n) as [i|] eqn:Ei; simpl; [|done]. split; [done|].
    simpl. intros n' i' d' [?|[= -> -> ->]%list_elem_of_singleton]%elem_of_app; [by eapply Hin|].
    destruct (ok_client _ _ Hok _ _ Ei) as (c & Ec & _). apply elem_of_dom. by exists c.
Qed.

(** A hub as it is configured before it runs. *)
Definition idle (s : System DB) : Prop :=
  clients (hub s) = ∅ /\ conns (hub s) = ∅ /\ inflight s = [].
Lemma idle_ok s : idle s -> sys_ok s.
Proof.
  intros (Hc & Hn & Hi). split; [|by rewrite Hi; intros ??? ?%elem_of_nil].
  unfold hub_ok. rewrite Hc, Hn. by split.
Qed.

Lemma reachable_ok s0 s : sys_ok s0 -> reachable upgrade decode_sync decode_auth s0 s -> sys_ok s.
Proof.
  intros H0. induction 1 as [|s a s' _ IH He]; [done|].
  pose proof (exec_fine s a IH) as Hf. by rewrite He in Hf.
Qed.

(** *** Heartbeats *)
(** The database accepts writes, and goes on doing so. *)
Definition writable (good : DB -> Prop) : Prop :=
  forall d row, good d -> exists d', upsert_row d row = Ok d' /\ good d'.

Lemma expire_conns_lookup now l h i :
  conns (foldl (expire now) h l) !! i =
  (fun c => if bool_decide (i ∈ l.*1) then close_socket c else c) <$> conns h !! i.
Proof.
  revert h. induction l as [|x l IH]; intros h; cbn [foldl].
  { destruct (conns h !! i); [|done]. simpl. f_equal. }
  rewrite IH. destruct (expire_conns now h x) as [_ ->]. destruct (decide (x.1 = i)) as [<-|Hne].
  - rewrite lookup_alter_eq. destruct (conns h !! x.1) as [c|]; [|done]. simpl. f_equal.
    rewrite (bool_decide_eq_true_2 (x.1 ∈ x.1 :: _)) by (by left). by case_bool_decide.
  - rewrite lookup_alter_ne by done. destruct (conns h !! i); [|done]. simpl. f_equal.
    erewrite bool_decide_ext; [done|]. rewrite elem_of_cons. naive_solver.
Qed.

Lemma MarkOffline_other (r : Registry.NodeRegistry DB) now id a :
  id <> a -> Registry.nodes (Registry.MarkOffline r now id).1 !! a = Registry.nodes r !! a.
Proof.
  intros Hne. unfold Registry.MarkOffline. destruct (Registry.lookup_or_read r id); [|done].
  simpl. destruct (Registry.upsertNode _ _); [|done]. simpl. by rewrite lookup_insert_ne.
Qed.
Lemma MarkOffline_good good (r : Registry.NodeRegistry DB) now id :
  writable good -> good (Registry.db r) -> good (Registry.db (Registry.MarkOffline r now id).1).
Proof.
  intros Hw Hg. unfold Registry.MarkOffline. destruct (Registry.lookup_or_read r id) as [node|]; [|done].
  unfold Registry.upsertNode.
  match goal with |- context [upsert_row ?d ?row] => destruct (Hw d row) as (d' & -> & Hg') end; done.
Qed.
Lemma MarkOffline_known good (r : Registry.NodeRegistry DB) now id node :
  writable good -> good (Registry.db r) -> Registry.nodes r !! id = Some node ->
  exists node', Registry.nodes (Registry.MarkOffline r now id).1 !! id = Some node' /\
    node_Status node' = NodeStatusOffline.
Proof.
  intros Hw Hg Hn. unfold Registry.MarkOffline, Registry.lookup_or_read. rewrite Hn. simpl.
  unfold Registry.upsertNode.
  match goal with |- context [upsert_row ?d ?row] => destruct (Hw d row) as (d' & -> & _) end; [done|].
  simpl. rewrite lookup_insert_eq. by eexists.
Qed.

Lemma expire_registry now h x r :
  registry h = Some r ->
  registry (expire now h x) = Some (if str_empty (ac_agentID x.2) then r else (Registry.MarkOffline r now (ac_agentID x.2)).1).
Proof.
  intros Hr. unfold expire, upd. simpl.
  destruct (emit_conns (mkHubEvent "node.offline" (ac_agentID x.2) now)
    (registerNodeOffline h now (ac_agentID x.2))) as (_ & _ & ->).
  unfold registerNodeOffline. rewrite Hr. by destruct (str_empty _).
Qed.

Lemma expire_all_registry good now l h r a :
  writable good -> good (Registry.db r) -> registry h = Some r -> a <> ε ->
  exists r', registry (foldl (expire now) h l) = Some r' /\
    (a ∉ (ac_agentID ∘ snd) <$> l -> Registry.nodes r' !! a = Registry.nodes r !! a) /\
    (forall node, Registry.nodes r !! a = Some node ->
       a ∈ (ac_agentID ∘ snd) <$> l \/ node_Status node = NodeStatusOffline ->
       exists node', Registry.nodes r' !! a = Some node' /\ node_Status node' = NodeStatusOffline).
Proof.
  intros Hw. revert h r. induction l as [|x l IH]; intros h r Hg Hr Ha; cbn [foldl].
  { exists r. split_and!; [done | done|]. intros node Hn [?%elem_of_nil|?]; [done|]. by exists node. }
  assert (good (Registry.db (if str_empty (ac_agentID x.2) then r else (Registry.MarkOffline r now (ac_agentID x.2)).1))) as Hg'
    by (destruct (str_empty _); [done | by apply MarkOffline_good]).
  destruct (IH _ _ Hg' (expire_registry now h x r Hr) Ha) as (r' & Hr' & Hout & Hin). exists r'.
  split; [done|]. set (r1 := if str_empty _ then _ else _) in *.
  assert (ac_agentID x.2 <> a -> Registry.nodes r1 !! a = Registry.nodes r !! a) as Hother.
  { intros. unfold r1. destruct (str_empty _); [done|]. by apply MarkOffline_other. }
  split.
  - rewrite fmap_cons, not_elem_of_cons. intros [Hne Hnl]. rewrite Hout by done. apply Hother. by intros <-.
  - intros node Hn Hel. destruct (decide (ac_agentID x.2 = a)) as [<-|Hne].
    + assert (str_empty (ac_agentID x.2) = false) as He by (by apply str_empty_false).
      destruct (MarkOffline_known good r now (ac_agentID x.2) node Hw Hg Hn) as (n1 & Hn1 & Hst).
      apply (Hin n1); [|by right]. unfold r1. by rewrite He.
    + apply (Hin node); [by rewrite Hother|]. rewrite fmap_cons, elem_of_cons in Hel.
      destruct Hel as [[Heq|?]|?]; [|by left|by right]. by destruct Hne.
Qed.

Lemma elem_of_timed_out h now order i c :
  (i, c) ∈ timed_out h now order <->
  exists a, (a, i) ∈ order /\ conns h !! i = Some c /\ heartbeat_expired h now c = true.
Proof.
  unfold timed_out. rewrite list_elem_of_omap. split.
  - intros ([a j] & Hel & Hf). destruct (conns h !! j) as [c'|] eqn:Ej; [|done]. simpl in Hf.
    destruct (heartbeat_expired h now c') eqn:Ex; [|done]. simplify_eq. eauto.
  - intros (a & Hel & Hc & Hx). exists (a, i). split; [done|]. rewrite Hc. simpl. by rewrite Hx.
Qed.
End Facts.
(** *** What the registry goes through

    The hub touches its registry by four calls only; a predicate of the registry
    that these keep holds as long as the hub runs. *)
Section Keeps.
Context {DB E : Type} `{KT : KeyedTable DB NodeRow E} `{TT : TimeText}.
Context (upgrade : Request -> bool -> res string ())
  (decode_sync : string -> res string CredentialSyncPayload)
  (decode_auth : string -> res string (list AuthStateReport)).
Context (P : Registry.NodeRegistry DB -> Prop) (e : Z) (good_sync : string -> Prop).
Implicit Types (r : Registry.NodeRegistry DB) (h : Hub DB).

Record closed_under_hub : Prop := {
  cl_register r now id : P r ->
    P (Registry.Register r now (mkNodeEntry id id ε [] [] ε Time.zero Time.zero ε 0 None Time.zero)).1;
  cl_offline r now id : P r -> P (Registry.MarkOffline r now id).1;
  cl_auth r now id payload : P r -> P (Registry.HandleAuthStateMessage decode_auth r now id payload).1;
  cl_sync r payload : P r -> good_sync payload -> P (Registry.HandleCredentialSyncMessage decode_sync r payload e).1 }.
Definition hub_keeps h : Prop :=
  expectedCredVersion h = e /\ forall r, registry h = Some r -> P r.
Context (Hcl : closed_under_hub).

(** Steps that leave the registry and the expected version alone. *)
Definition same_registry h h' : Prop :=
  registry h' = registry h /\ expectedCredVersion h' = expectedCredVersion h.
Lemma same_keeps h h' : same_registry h h' -> hub_keeps h -> hub_keeps h'.
Proof. intros [Hr He] [He0 Hok]. split; [congruence|]. intros r. rewrite Hr. apply Hok. Qed.
Lemma same_registry_trans h1 h2 h3 : same_registry h1 h2 -> same_registry h2 h3 -> same_registry h1 h3.
Proof. intros [] []. split; congruence. Qed.
Lemma same_registry_emit ev h : same_registry h (emit ev h).
Proof. unfold emit. by destruct (_ <? _)%nat. Qed.
Lemma same_registry_close h i h' : close_send h i = Some h' -> same_registry h h'.
Proof. unfold close_send. destruct (conns h !! i) as [c|]; [|done]. simpl. destruct (ac_closed c); [done|]. by intros [= <-]. Qed.
Lemma same_registry_try h i msg h' b : try_send h i msg = Some (h', b) -> same_registry h h'.
Proof.
  unfold try_send. destruct (conns h !! i) as [c|]; [|done]. simpl. destruct (ac_closed c); [done|].
  by case_match; intros [= <- _].
Qed.
Lemma same_registry_broadcast h msg order h' : broadcast_loop h msg order = Some h' -> same_registry h h'.
Proof.
  revert h. induction order as [|[id i] order IH]; intros h; cbn [broadcast_loop]; [by intros [= <-]|].
  destruct (try_send h i msg) as [[h1 b]|] eqn:Et; [|done]. apply same_registry_try in Et. simpl. destruct b.
  - intros ?%IH. by eapply same_registry_trans.
  - destruct (close_send h1 i) as [h2|] eqn:Ec; [|done]. apply same_registry_close in Ec. simpl.
    intros Hl%IH. eapply same_registry_trans; [|exact Hl]. by eapply same_registry_trans.
Qed.
Lemma same_registry_close_all h order h' : close_loop h order = Some h' -> same_registry h h'.
Proof.
  revert h. induction order as [|[id i] order IH]; intros h; cbn [close_loop]; [by intros [= <-]|].
  destruct (close_send h i) as [h1|] eqn:Ec; [|done]. apply same_registry_close in Ec. simpl.
  intros Hl%IH. by eapply same_registry_trans.
Qed.
Lemma same_registry_write h i ok h' : write_turn h i ok = Some h' -> same_registry h h'.
Proof.
  unfold write_turn. destruct (conns h !! i) as [c|]; [|done]. simpl. destruct (ac_send c).
  - destruct (ac_closed c); [|done]. by intros [= <-].
  - destruct ok; by intros [= <-].
Qed.

(** Steps that touch the registry. *)
Lemma hub_keeps_online h now id : hub_keeps h -> hub_keeps (registerNodeOnline h now id).
Proof.
  intros [He Hr]. unfold registerNodeOnline. destruct (registry h) as [r|] eqn:Er; [|by split; rewrite ?Er].
  destruct (str_empty id); [by split; rewrite ?Er|]. split; [done|]. intros r' [= <-]. by apply (cl_register Hcl), Hr.
Qed.
Lemma hub_keeps_offline h now id : hub_keeps h -> hub_keeps (registerNodeOffline h now id).
Proof.
  intros [He Hr]. unfold registerNodeOffline. destruct (registry h) as [r|] eqn:Er; [|by split; rewrite ?Er].
  destruct (str_empty id); [by split; rewrite ?Er|]. split; [done|]. intros r' [= <-]. by apply (cl_offline Hcl), Hr.
Qed.
Lemma run_register_mid h i now h' :
  run_register h i now = Some h' ->
  exists c h0 cl ev, conns h !! i = Some c /\ same_registry h h0 /\
    h' = emit ev (registerNodeOnline (with_clients cl h0) now (ac_agentID c)).
Proof.
  unfold run_register. destruct (conns h !! i) as [c|]; [|done]. cbn [mbind option_bind].
  assert (Hclose : forall h0, match clients h !! ac_agentID c with
      | Some existing => if bool_decide (existing = i) then Some h else upd existing close_socket <$> close_send h existing
      | None => Some h end = Some h0 -> same_registry h h0).
  { intros h0. destruct (clients h !! ac_agentID c) as [j|]; [|by intros [= <-]].
    case_bool_decide; [by intros [= <-]|]. intros (h1 & Hc & ->)%fmap_Some. by apply same_registry_close in Hc. }
  destruct (match clients h !! ac_agentID c with Some _ => _ | None => _ end) as [h0|]; [|done].
  simpl. intros [= <-]. eexists c, h0, _, _. split_and!; [done | by apply Hclose | done].
Qed.
Lemma hub_keeps_register h i now h' : hub_keeps h -> run_register h i now = Some h' -> hub_keeps h'.
Proof.
  intros Hok (c & h0 & cl & ev & _ & Hs & ->)%run_register_mid. eapply same_keeps; [apply same_registry_emit|].
  apply hub_keeps_online. apply (same_keeps h0); [done|]. by eapply same_keeps.
Qed.
Lemma hub_keeps_unregister h i now h' : hub_keeps h -> run_unregister h i now = Some h' -> hub_keeps h'.
Proof.
  intros Hok. unfold run_unregister. destruct (conns h !! i) as [c|]; [|done]. cbn [mbind option_bind].
  case_bool_decide; [|by intros [= <-]].
  destruct (close_send _ i) as [h1|] eqn:Ec; [|done]. apply same_registry_close in Ec. simpl. intros [= <-].
  apply hub_keeps_offline. eapply same_keeps; [exact Ec|]. by apply (same_keeps h).
Qed.
Lemma hub_keeps_heartbeats h now order : hub_keeps h -> hub_keeps (checkHeartbeats h now order).
Proof.
  unfold checkHeartbeats. generalize (timed_out h now order) as l. intros l. revert h.
  induction l as [|x l IH]; intros h Hok; [done|]. simpl. apply IH.
  eapply (same_keeps (emit _ (registerNodeOffline h now (ac_agentID x.2)))); [done|].
  eapply same_keeps; [apply same_registry_emit|]. by apply hub_keeps_offline.
Qed.
Lemma hub_keeps_envelope h i now env :
  hub_keeps h ->
  (env_Type env = MessageTypeCredentialSync -> good_sync (env_Payload env)) ->
  hub_keeps (handleEnvelope decode_sync decode_auth h i now env).1.
Proof.
  intros [He Hr] Hs. unfold handleEnvelope. destruct (String.eqb _ _); [by split|].
  destruct (String.eqb_spec (env_Type env) MessageTypeCredentialSync) as [Ht|].
  { unfold reconcileCredentialSync. simpl. destruct (registry h) as [r|] eqn:Er; [|by split; simpl; rewrite ?Er].
    split; [done|]. intros r' [= <-]. rewrite He. apply (cl_sync Hcl); auto. }
  destruct (String.eqb _ _); [by split|].
  destruct (String.eqb (env_Type env) MessageTypeAuthState); [|case_match; by split].
  unfold reconcileAuthState. simpl. destruct (registry h) as [r|] eqn:Er; [|by split; simpl; rewrite ?Er].
  split; [done|]. intros r' [= <-]. by apply (cl_auth Hcl), Hr.
Qed.
(** Every action of the hub's goroutines. *)
Definition honest_action (a : action) : Prop :=
  match a with
  | AReceive _ _ env =>
      env_Type env = MessageTypeCredentialSync -> good_sync (env_Payload env)
  | _ => True
  end.
Lemma when_Next b (o : outcome DB) s' : when b o = Next s' -> b = true /\ o = Next s'.
Proof. by destruct b. Qed.
Lemma after_Next (s : System DB) o s' : after s o = Next s' -> o = Some (hub s').
Proof. destruct o; [by intros [= <-] | done]. Qed.
Lemma exec_keeps (s : System DB) a s' :
  hub_keeps (hub s) -> honest_action a ->
  exec upgrade decode_sync decode_auth s a = Next s' -> hub_keeps (hub s').
Proof.
  intros Hok Ha. destruct a as [rq uuid now|i now|i now|msg|order|now order| |order|i now env|i|i|i ok|i|n d|k];
    cbn [exec].
  - destruct (ServeWS _ _ _ _); intros Hn; [by injection Hn as <-..|]. apply after_Next in Hn as [= <-].
    by apply (same_keeps (hub s)).
  - intros [_ Hn%after_Next]%when_Next. apply fmap_Some in Hn as (h1 & Hn & ->).
    by eapply (same_keeps h1), hub_keeps_register.
  - intros [_ Hn%after_Next]%when_Next. apply fmap_Some in Hn as (h1 & Hn & ->).
    by eapply (same_keeps h1), hub_keeps_unregister.
  - intros [_ [= <-]%after_Next]%when_Next. by apply (same_keeps (hub s)).
  - intros [_ Hn]%when_Next. destruct (broadcast (hub s)); [done|].
    apply after_Next, same_registry_broadcast in Hn. eapply same_keeps; [exact Hn|].
    by apply (same_keeps (hub s)).
  - intros [_ [= <-]%after_Next]%when_Next. by apply hub_keeps_heartbeats.
  - intros [= <-]%after_Next. by apply (same_keeps (hub s)).
  - intros [_ Hn%after_Next]%when_Next. apply fmap_Some in Hn as (h1 & Hn & ->).
    apply (same_keeps h1); [done|]. eapply same_keeps; [by eapply same_registry_close_all | done].
  - intros [_ Hn]%when_Next. pose proof (hub_keeps_envelope (hub s) i now env Hok Ha) as He.
    destruct (handleEnvelope _ _ _ _ _ _) as [h r]. by injection Hn as <-.
  - intros [_ [= <-]%after_Next]%when_Next. by apply (same_keeps (hub s)).
  - intros [_ [= <-]%after_Next]%when_Next. by apply (same_keeps (hub s)).
  - intros [_ Hn]%when_Next. destruct (write_turn _ _ _) as [h1|] eqn:Ew; [|done].
    apply after_Next in Hn as [= <-]. eapply same_keeps; [by eapply same_registry_write | done].
  - intros [_ [= <-]%after_Next]%when_Next. by apply (same_keeps (hub s)).
  - destruct (send_lookup _ _); by intros [= <-].
  - destruct (inflight s !! k) as [[[n i] d]|]; [|done]. unfold send_push.
    destruct (try_send _ _ _) as [[h1 b]|] eqn:Et; [|done]. simpl. intros [= <-].
    eapply same_keeps; [by eapply same_registry_try | done].
Qed.
End Keeps.
(** *** The queues of the connections

    Nothing in the program posts a broadcast; then the hub's own steps only take
    from the queues, and a connection stays its agent's. *)
Section Queues.
Context {DB E : Type} `{KT : KeyedTable DB NodeRow E} `{TT : TimeText}.
Context (upgrade : Request -> bool -> res string ())
  (decode_sync : string -> res string CredentialSyncPayload)
  (decode_auth : string -> res string (list AuthStateReport)).
Implicit Types (h : Hub DB) (s : System DB).

Definition kept (c c' : AgentConn) : Prop :=
  ac_agentID c' = ac_agentID c /\ ac_send c' `suffix_of` ac_send c /\ (ac_closed c = true -> ac_closed c' = true).
Definition drained h h' : Prop :=
  broadcast h' = broadcast h /\
  (forall i c, conns h !! i = Some c -> exists c', conns h' !! i = Some c' /\ kept c c') /\
  (forall i c', conns h !! i = None -> conns h' !! i = Some c' -> ac_send c' = []).
Lemma drained_refl h h' : broadcast h' = broadcast h -> conns h' = conns h -> drained h h'.
Proof. intros Hb Hc. split_and!; [done| |]; rewrite Hc; intros i c Hi; [exists c; by repeat split | by rewrite Hi]. Qed.
Lemma drained_trans h1 h2 h3 : drained h1 h2 -> drained h2 h3 -> drained h1 h3.
Proof.
  intros (Hb & Hk & Hn) (Hb' & Hk' & Hn'). split_and!; [congruence| |].
  - intros i c (c1 & Hc1 & Ha & Hs & Hcl)%Hk. destruct (Hk' i c1 Hc1) as (c2 & ? & ? & ? & ?). exists c2. split; [done|].
    split; [congruence|]. split; [by etrans | auto].
  - intros i c' Hi Hc'. destruct (conns h2 !! i) as [c|] eqn:Ec; [|by eapply Hn'].
    destruct (Hk' i c Ec) as (c2 & Hc2 & _ & Hs & _). simplify_eq. rewrite (Hn i c Hi Ec) in Hs. by apply suffix_nil_inv.
Qed.
Lemma drained_upd i f h : (forall c, kept c (f c)) -> drained h (upd i f h).
Proof.
  intros Hf. split_and!; [done| |]; simpl; intros j c Hj; destruct (decide (i = j)) as [<-|].
  - exists (f c). by rewrite lookup_alter_eq, Hj.
  - exists c. rewrite lookup_alter_ne by done. by repeat split.
  - by rewrite lookup_alter_eq, Hj.
  - rewrite lookup_alter_ne by done. congruence.
Qed.
Lemma drained_close h i h' : close_send h i = Some h' -> drained h h'.
Proof.
  unfold close_send. destruct (conns h !! i) as [c|]; [|done]. simpl. destruct (ac_closed c); [done|].
  intros [= <-]. by apply drained_upd.
Qed.
Lemma drained_close_all h order h' : close_loop h order = Some h' -> drained h h'.
Proof.
  revert h. induction order as [|[id i] order IH]; intros h; cbn [close_loop]; [intros [= <-]; by apply drained_refl|].
  destruct (close_send h i) as [h1|] eqn:Ec; [|done]. apply drained_close in Ec. simpl.
  intros Hl%IH. eapply drained_trans; [exact Ec|]. eapply drained_trans; [|exact Hl].
  eapply drained_trans; [by apply (drained_upd i close_socket)|]. by apply drained_refl.
Qed.
Lemma drained_emit ev h : drained h (emit ev h).
Proof. unfold emit. by destruct (_ <? _)%nat; apply drained_refl. Qed.
Lemma drained_online h now id : drained h (registerNodeOnline h now id).
Proof. unfold registerNodeOnline. destruct (registry h); [destruct (str_empty id)|]; by apply drained_refl. Qed.
Lemma drained_offline h now id : drained h (registerNodeOffline h now id).
Proof. unfold registerNodeOffline. destruct (registry h); [destruct (str_empty id)|]; by apply drained_refl. Qed.
Lemma drained_register h i now h' : run_register h i now = Some h' -> drained h h'.
Proof.
  unfold run_register. destruct (conns h !! i) as [c|]; [|done]. cbn [mbind option_bind].
  assert (Hclose : forall h0, match clients h !! ac_agentID c with
      | Some existing => if bool_decide (existing = i) then Some h else upd existing close_socket <$> close_send h existing
      | None => Some h end = Some h0 -> drained h h0).
  { intros h0. destruct (clients h !! ac_agentID c) as [j|]; [|intros [= <-]; by apply drained_refl].
    case_bool_decide; [intros [= <-]; by apply drained_refl|]. intros (h1 & Hc & ->)%fmap_Some.
    eapply drained_trans; [by eapply drained_close | by apply drained_upd]. }
  destruct (match clients h !! ac_agentID c with Some _ => _ | None => _ end) as [h0|]; [|done].
  simpl. intros [= <-]. eapply drained_trans; [by apply Hclose|]. eapply drained_trans; [|apply drained_emit].
  eapply drained_trans; [|apply drained_online]. by apply drained_refl.
Qed.
Lemma drained_unregister h i now h' : run_unregister h i now = Some h' -> drained h h'.
Proof.
  unfold run_unregister. destruct (conns h !! i) as [c|]; [|done]. cbn [mbind option_bind].
  case_bool_decide; [|intros [= <-]; by apply drained_refl].
  destruct (close_send _ i) as [h1|] eqn:Ec; [|done]. simpl. intros [= <-].
  eapply drained_trans; [|apply drained_offline]. eapply drained_trans; [|by eapply drained_close]. by apply drained_refl.
Qed.
Lemma drained_heartbeats h now order : drained h (checkHeartbeats h now order).
Proof.
  unfold checkHeartbeats. generalize (timed_out h now order) as l. intros l. revert h.
  induction l as [|x l IH]; intros h; [by apply drained_refl|]. simpl. eapply drained_trans; [|apply IH].
  eapply drained_trans; [apply (drained_offline h now (ac_agentID x.2))|].
  eapply drained_trans; [apply drained_emit|]. by apply drained_upd.
Qed.
Lemma drained_envelope h i now env : drained h (handleEnvelope decode_sync decode_auth h i now env).1.
Proof.
  eapply drained_trans; [by apply (drained_upd i (set_heartbeat now))|].
  destruct (reconcile_conns decode_sync decode_auth h now i env) as [_ Hc]. apply drained_refl; [|exact Hc].
  unfold handleEnvelope. repeat case_match; try done; unfold reconcileCredentialSync, reconcileAuthState; by case_match.
Qed.
Lemma drained_write h i ok h' : write_turn h i ok = Some h' -> drained h h'.
Proof.
  unfold write_turn. destruct (conns h !! i) as [c|] eqn:Ec; [|done]. simpl. destruct (ac_send c) as [|m l] eqn:Es.
  - destruct (ac_closed c); [|done]. intros [= <-]. by apply drained_upd.
  - assert (drained h (upd i (set_send l) h)) as Hd.
    { split_and!; [done| |]; simpl; intros j c' Hj; destruct (decide (i = j)) as [<-|].
      - simplify_eq. eexists. rewrite lookup_alter_eq, Ec. split; [done|]. split; [done|]. split; [|done]. rewrite Es. by exists [m].
      - exists c'. rewrite lookup_alter_ne by done. by repeat split.
      - congruence.
      - rewrite lookup_alter_ne by done. congruence. }
    destruct ok; intros [= <-]; [done|]. eapply drained_trans; [exact Hd | by apply drained_upd].
Qed.

(** What the program's own goroutines do: everything but posts and sends. *)
Definition hub_own (a : action) : bool := match a with APost _ | ALookup _ _ | APush _ => false | _ => true end.
Lemma exec_drained s a s' :
  broadcast (hub s) = [] -> hub_own a = true ->
  exec upgrade decode_sync decode_auth s a = Next s' -> drained (hub s) (hub s').
Proof.
  intros Hb Ha. destruct a as [rq uuid now|i now|i now|msg|order|now order| |order|i now env|i|i|i ok|i|n d|k];
    try done; cbn [exec]; clear Ha.
  - destruct (ServeWS _ _ _ _); intros Hn; [injection Hn as <-; by apply drained_refl..|].
    apply after_Next in Hn as [= <-]. pose proof (is_fresh (dom (conns (hub s)))) as Hf. apply not_elem_of_dom in Hf.
    split_and!; [done| |]; simpl; intros j c Hj; destruct (decide (fresh (dom (conns (hub s))) = j)) as [<-|].
    + congruence.
    + exists c. rewrite lookup_insert_ne by done. by repeat split.
    + rewrite lookup_insert_eq. by intros [= <-].
    + rewrite lookup_insert_ne by done. congruence.
  - intros [_ Hn%after_Next]%when_Next. apply fmap_Some in Hn as (h1 & Hn & ->).
    eapply drained_trans; [by eapply drained_register | by apply drained_upd].
  - intros [_ Hn%after_Next]%when_Next. apply fmap_Some in Hn as (h1 & Hn & ->).
    eapply drained_trans; [by eapply drained_unregister | by apply drained_upd].
  - intros [_ Hn]%when_Next. by rewrite Hb in Hn.
  - intros [_ [= <-]%after_Next]%when_Next. apply drained_heartbeats.
  - intros [= <-]%after_Next. by apply drained_refl.
  - intros [_ Hn%after_Next]%when_Next. apply fmap_Some in Hn as (h1 & Hn & ->).
    eapply drained_trans; [by eapply drained_close_all | by apply drained_refl].
  - intros [_ Hn]%when_Next. pose proof (drained_envelope (hub s) i now env) as He.
    destruct (handleEnvelope _ _ _ _ _ _) as [h r]. by injection Hn as <-.
  - intros [_ [= <-]%after_Next]%when_Next. by apply drained_upd.
  - intros [_ [= <-]%after_Next]%when_Next. by apply drained_upd.
  - intros [_ Hn]%when_Next. destruct (write_turn _ _ _) as [h1|] eqn:Ew; [|done].
    apply after_Next in Hn as [= <-]. by eapply drained_write.
  - intros [_ [= <-]%after_Next]%when_Next. by apply drained_upd.
Qed.
End Queues.
End HubFacts.

(** ** Properties *)
Section Properties.
Import Hub HubFacts.
Context {DB E : Type} `{KT : KeyedTable DB NodeRow E} `{TT : TimeText}.
Context (upgrade : Request -> bool -> res string ())
  (decode_sync : string -> res string CredentialSyncPayload)
  (decode_auth : string -> res string (list AuthStateReport)).

(** C5: whatever the goroutines of the hub, of the connections and of the
    senders do, in any order, the only step that can panic is a send to a
    connection that was looked up before the hub closed it: no channel is closed
    twice, and no broadcast meets a closed channel. *)
Theorem only_stale_send_panics (s0 s : System DB) (a : action) :
  idle s0 -> reachable upgrade decode_sync decode_auth s0 s ->
  exec upgrade decode_sync decode_auth s a = Panic -> push_on_closed s a.
Proof.
  intros H0 Hs Hp. apply idle_ok in H0. pose proof (reachable_ok _ _ _ _ _ H0 Hs) as Hok.
  pose proof (exec_fine upgrade decode_sync decode_auth s a Hok) as Hf. by rewrite Hp in Hf.
Qed.


(** The leaving of a connection that is closed already, replaced by a newer
    one of its agent or dropped for being slow, changes neither the clients nor
    the registry; so a dropped agent's node is not marked offline. *)
Theorem closed_connection_leaves_silently (s0 s s' : System DB) (i : nat) (c : AgentConn) (now : Time.t) :
  idle s0 -> reachable upgrade decode_sync decode_auth s0 s ->
  conns (hub s) !! i = Some c -> ac_closed c = true ->
  exec upgrade decode_sync decode_auth s (AUnregister i now) = Next s' ->
  clients (hub s') = clients (hub s) /\ registry (hub s') = registry (hub s).
Proof.
  intros H0 Hs Hc Hcl He. apply idle_ok in H0. pose proof (reachable_ok _ _ _ _ _ H0 Hs) as [Hok _].
  cbn [exec] in He. unfold when in He. destruct (_ && _) eqn:Eb; [|done].
  apply andb_true_iff in Eb as [_ (c' & Hc' & Hr)%in_state_Some]. simplify_eq.
  destruct (run_unregister_ok (hub s) i now c Hok Hc Hr) as (h' & Hrun & _ & _ & _ & Hsame).
  rewrite Hrun, (Hsame Hcl) in He. by injection He as <-.
Qed.

(** A heartbeat check closes the sockets of exactly the clients whose last
    message is older than the timeout and marks exactly their nodes offline. *)
Theorem dead_agents_go_offline (good : DB -> Prop) (h : Hub DB) (r : Registry.NodeRegistry DB) (now : Time.t)
    (order : list (string * nat)) (i : nat) (c : AgentConn) :
  hub_ok h -> registry h = Some r -> range_order (clients h) order -> writable good -> good (Registry.db r) ->
  clients h !! ac_agentID c = Some i -> conns h !! i = Some c -> ac_agentID c <> ε ->
  exists r' c', registry (checkHeartbeats h now order) = Some r' /\
    conns (checkHeartbeats h now order) !! i = Some c' /\
    if heartbeat_expired h now c
    then ac_socket_open c' = false /\
         (forall node, Registry.nodes r !! ac_agentID c = Some node ->
            exists node', Registry.nodes r' !! ac_agentID c = Some node' /\ node_Status node' = NodeStatusOffline)
    else c' = c /\ Registry.nodes r' !! ac_agentID c = Registry.nodes r !! ac_agentID c.
Proof.
  intros Hok Hr Ho Hw Hg Hcl Hc Ha. unfold checkHeartbeats.
  destruct (expire_all_registry good now (timed_out h now order) h r (ac_agentID c) Hw Hg Hr Ha) as (r' & -> & Hout & Hin).
  eexists r', _. split; [done|]. rewrite expire_conns_lookup, Hc. simpl. split; [done|].
  assert ((ac_agentID c, i) ∈ order) as Hio by (by apply (range_order_elem _ _ _ _ Ho)).
  destruct (heartbeat_expired h now c) eqn:Ex.
  - assert ((i, c) ∈ timed_out h now order) as Hel by (apply elem_of_timed_out; eauto).
    split.
    + rewrite bool_decide_eq_true_2; [done|]. apply list_elem_of_fmap. by exists (i, c).
    + intros node Hn. apply (Hin node Hn). left. apply list_elem_of_fmap. by exists (i, c).
  - split.
    + rewrite bool_decide_eq_false_2; [done|]. intros ([j c'] & -> & Hel)%list_elem_of_fmap.
      apply elem_of_timed_out in Hel as (a & _ & Hc' & Hx). simpl in *. congruence.
    + apply Hout. intros ([j c'] & Heq & Hel)%list_elem_of_fmap. simpl in Heq.
      apply elem_of_timed_out in Hel as (a & Hao & Hc' & Hx).
      apply (range_order_elem _ _ _ _ Ho) in Hao. destruct (ok_client _ _ Hok _ _ Hao) as (c2 & Hc2 & Ha2 & _).
      assert (a = ac_agentID c) as -> by congruence. rewrite Hcl in Hao. injection Hao as <-. congruence.
Qed.

(** [ServeWS] lets an agent in exactly when it shows the hub's token and the
    upgrade succeeds; an upgrader that refuses what the origin check refuses
    admits allowed origins only, and the agent is filed under a non-empty id. *)
Theorem serve_accepts_iff (h : Hub DB) (rq : Request) (uuid agentID : string) :
  (forall rq, exists m, upgrade rq false = Err m) -> uuid <> ε ->
  ServeWS upgrade h rq uuid = Accepted agentID <->
  request_token rq = authToken h /\ checkOrigin h rq = true /\ upgrade rq true = Ok () /\
  agentID <> ε /\
  agentID = (if str_empty (Strings.TrimSpace (rq_NodeID rq)) then uuid else Strings.TrimSpace (rq_NodeID rq)).
Proof.
  clear decode_sync decode_auth. intros Hup Hu. unfold ServeWS. destruct (String.eqb_spec (request_token rq) (authToken h)) as [->|Hne]; simpl.
  2:{ split; [done|]. by intros [? _]. }
  destruct (checkOrigin h rq).
  - destruct (upgrade rq true) as [[]|e]; [|naive_solver]. split.
    + intros [= <-]. split_and!; try done. destruct (str_empty _) eqn:Ee; [done | by apply str_empty_false].
    + by intros (_ & _ & _ & _ & ->).
  - destruct (Hup rq) as [m ->]. naive_solver.
Qed.
End Properties.

(** ** Witnesses *)
Module HubWitness.
Import Hub HubFacts.

Definition no_sync (_ : string) : res string CredentialSyncPayload := Err ε.
Definition no_auth (_ : string) : res string (list AuthStateReport) := Err ε.
Definition upgrade (_ : Request) (ok : bool) : res string () := if ok then Ok () else Err "403"%string.
Definition reg0 : Registry.NodeRegistry (mem_table NodeRow) := Registry.NewNodeRegistry mem_empty.
Definition hub0 : Hub (mem_table NodeRow) := ConfigureRegistry reg0 1 (NewHub "t" [] 30 3).
Definition s0 : System (mem_table NodeRow) := mkSystem hub0 [] [].
Definition rq : Request := mkRequest "Bearer t" ε "n1" ε.
Definition outcome_state (o : outcome (mem_table NodeRow)) : System (mem_table NodeRow) :=
  match o with Next s => s | _ => s0 end.
Definition go (l : list action) : outcome (mem_table NodeRow) := exec_all upgrade no_sync no_auth s0 l.

Lemma go_reachable l s s' :
  reachable upgrade no_sync no_auth s0 s ->
  exec_all upgrade no_sync no_auth s l = Next s' -> reachable upgrade no_sync no_auth s0 s'.
Proof.
  revert s. induction l as [|a l IH]; intros s Hs; cbn [exec_all]; [by intros [= <-]|].
  destruct (exec _ _ _ s a) as [s1| |] eqn:E1; [|done|done]. apply IH. by eapply reach_step.
Defined.

(** An agent connects, a command is about to be sent to it, and it leaves. *)
Definition schedule : list action :=
  [AConnect rq "u" 1; ARegister 0 2; ALookup "n1" "cmd"; AReadError 0; AUnregister 0 3].
Definition late : System (mem_table NodeRow) := outcome_state (go schedule).

Lemma only_stale_send_panics_witness : push_on_closed late (APush 0).
Proof.
  apply (only_stale_send_panics upgrade no_sync no_auth s0 late (APush 0)).
  - by split_and!.
  - apply (go_reachable schedule s0); [apply reach_start | vm_compute; reflexivity].
  - vm_compute. reflexivity.
Defined.

(** The agent connects again before its first connection has left. *)
Definition again : System (mem_table NodeRow) :=
  outcome_state (go [AConnect rq "u" 1; ARegister 0 2; AConnect rq "u" 3; ARegister 1 4; AReadError 0]).
Lemma again_reachable : reachable upgrade no_sync no_auth s0 again.
Proof.
  apply (go_reachable [AConnect rq "u" 1; ARegister 0 2; AConnect rq "u" 3; ARegister 1 4; AReadError 0] s0);
    [apply reach_start | vm_compute; reflexivity].
Defined.
Definition new_conn : AgentConn := mkConn "n1" [] false true 3 Reading true.
Definition old_conn : AgentConn := mkConn "n1" [] true false 1 Unregistering true.


Definition left : System (mem_table NodeRow) := outcome_state (exec upgrade no_sync no_auth again (AUnregister 0 5)).
Lemma closed_connection_leaves_silently_witness :
  clients (hub left) = clients (hub again) /\ registry (hub left) = registry (hub again).
Proof.
  apply (closed_connection_leaves_silently upgrade no_sync no_auth s0 again left 0 old_conn 5);
    [by split_and! | apply again_reachable | vm_compute; reflexivity | done | vm_compute; reflexivity].
Defined.

Definition order : list (string * nat) := [("n1"%string, 1%nat)].
Lemma dead_agents_go_offline_witness :
  exists r' c', registry (checkHeartbeats (hub again) 1000 order) = Some r' /\
    conns (checkHeartbeats (hub again) 1000 order) !! 1%nat = Some c' /\
    if heartbeat_expired (hub again) 1000 new_conn
    then ac_socket_open c' = false /\
         (forall node, Registry.nodes (default reg0 (registry (hub again))) !! "n1"%string = Some node ->
            exists node', Registry.nodes r' !! "n1"%string = Some node' /\ node_Status node' = NodeStatusOffline)
    else c' = new_conn /\
      Registry.nodes r' !! "n1"%string = Registry.nodes (default reg0 (registry (hub again))) !! "n1"%string.
Proof.
  apply (dead_agents_go_offline (fun d => mt_open d = true) (hub again) (default reg0 (registry (hub again))) 1000 order 1 new_conn).
  - apply (reachable_ok upgrade no_sync no_auth s0 again); [apply idle_ok; by split_and! | apply again_reachable].
  - vm_compute. reflexivity.
  - unfold range_order. vm_compute. reflexivity.
  - intros d row Hd. simpl. rewrite Hd. by eexists.
  - vm_compute. reflexivity.
  - vm_compute. reflexivity.
  - vm_compute. reflexivity.
  - done.
Defined.
Example agent_expired : heartbeat_expired (hub again) 1000 new_conn = true.
Proof. vm_compute. reflexivity. Qed.

Lemma serve_accepts_iff_witness :
  ServeWS upgrade hub0 rq "u" = Accepted "n1" <->
  request_token rq = authToken hub0 /\ checkOrigin hub0 rq = true /\ upgrade rq true = Ok () /\
  "n1"%string <> ε /\
  "n1"%string = (if str_empty (Strings.TrimSpace (rq_NodeID rq)) then "u"%string else Strings.TrimSpace (rq_NodeID rq)).
Proof. apply (serve_accepts_iff upgrade hub0 rq "u" "n1"); [by eexists | done]. Defined.
End HubWitness.
