(* ===== verification/CredentialApplier.v ===== *)
(** * CredentialApplier

    internal/agent/credential_apply.go: the environment an agent is pushed, with
    the ids of the last commands applied, so that a redelivered push is not
    applied again.  The decoder of a command's payload is an argument; what is
    logged of the values is returned. *)

From S2P Require Import Prelude GoStd Commands.

(** The fields of a command that [HandleCredentialPush] decodes. *)
Record push_command := mkPushCommand {
  pc_CommandID : string; pc_Type : string; pc_NodeID : string;
  pc_EnvVars : gmap string string; pc_Version : Z }.
Record CredentialVersionReport := mkVersionReport { cvr_NodeID : string; cvr_CredentialVersion : Z }.

Inductive apply_error :=
  | push_invalid (e : credential_push_error)
  | push_version_negative.
Inductive push_handler_error :=
  | applier_required
  | envelope_required
  | push_unmarshal (e : string)
  | push_unexpected_type (t : string)
  | push_apply (e : apply_error).

Module Applier.
Section Defs.
Context `{MapRange}.

Definition maxAppliedCredentialCommandIDs : nat := 1000.

Record CredentialApplier := mkApplier {
  envVars : gmap string string;
  version : Z;
  appliedCommandIDs : gset string;
  appliedCommandOrder : list string }.
Definition NewCredentialApplier : CredentialApplier := mkApplier ∅ 0 ∅ [].

Definition applyLocked (a : CredentialApplier) (payload : CredentialPushPayload) : CredentialApplier :=
  mkApplier (cpp_EnvVars payload) (cpp_Version payload) (appliedCommandIDs a) (appliedCommandOrder a).

Definition rememberCommandIDLocked (a : CredentialApplier) (commandID : string) : CredentialApplier :=
  let ids := {[commandID]} ∪ appliedCommandIDs a in
  let order := appliedCommandOrder a ++ [commandID] in
  if (length order <=? maxAppliedCredentialCommandIDs)%nat then mkApplier (envVars a) (version a) ids order
  else
    match order with
    | evictedID :: order' => mkApplier (envVars a) (version a) (ids ∖ {[evictedID]}) order'
    | [] => mkApplier (envVars a) (version a) ids order
    end.

Definition check_payload (payload : CredentialPushPayload) : res apply_error () :=
  let? _ := res_map_err push_invalid (CredentialPushPayload_Validate payload (range_of (cpp_EnvVars payload))) in
  reject (cpp_Version payload <? 0) with_err push_version_negative in Ok ().

Definition ApplyIfNew (a : CredentialApplier) (commandID : string) (payload : CredentialPushPayload)
    : CredentialApplier * res apply_error bool :=
  match check_payload payload with
  | Err e => (a, Err e)
  | Ok _ =>
      if negb (str_empty commandID) && bool_decide (commandID ∈ appliedCommandIDs a) then (a, Ok false)
      else
        let a := applyLocked a payload in
        let a := if str_empty commandID then a else rememberCommandIDLocked a commandID in
        (a, Ok true)
  end.
Definition Apply (a : CredentialApplier) (payload : CredentialPushPayload)
    : CredentialApplier * res apply_error () :=
  let '(a, r) := ApplyIfNew a ε payload in (a, let? _ := r in Ok ()).

Definition GetEnv (a : CredentialApplier) : gmap string string := envVars a.
Definition GetVersion (a : CredentialApplier) : Z := version a.
Definition BuildVersionReport (a : CredentialApplier) (nodeID : string) : CredentialVersionReport :=
  mkVersionReport nodeID (GetVersion a).

Definition redacted : string := "[REDACTED]".
Definition MaskValue (a : CredentialApplier) (v : string) : string :=
  if str_empty v then v
  else if existsb (fun kv => String.eqb v kv.2) (range_of (envVars a)) then redacted else v.

Definition push_payload (c : push_command) : CredentialPushPayload :=
  mkCredentialPush (pc_NodeID c) (pc_EnvVars c) (pc_Version c).

(** [None] stands for the nil applier or envelope.  The log entry of an applied
    push carries the version and the masked variables. *)
Definition HandleCredentialPush (decode : string -> res string push_command)
    (applier : option CredentialApplier) (envelope : option Envelope)
    : option CredentialApplier * res push_handler_error (option (Z * gmap string string)) :=
  match applier, envelope with
  | None, _ => (None, Err applier_required)
  | Some a, None => (Some a, Err envelope_required)
  | Some a, Some env =>
      match decode (env_Payload env) with
      | Err e => (Some a, Err (push_unmarshal e))
      | Ok c =>
          if negb (String.eqb (pc_Type c) CommandTypeCredentialPush)
          then (Some a, Err (push_unexpected_type (pc_Type c)))
          else
            let commandID := if str_empty (pc_CommandID c) then env_RequestID env else pc_CommandID c in
            match ApplyIfNew a commandID (push_payload c) with
            | (a, Err e) => (Some a, Err (push_apply e))
            | (a, Ok false) => (Some a, Ok None)
            | (a, Ok true) => (Some a, Ok (Some (GetVersion a, MaskValue a <$> cpp_EnvVars (push_payload c))))
            end
      end
  end.

(** *** Histories: the applier after a sequence of pushes, and those applied *)
Definition push := (string * CredentialPushPayload)%type.
Fixpoint run (a : CredentialApplier) (pushes : list push) : CredentialApplier * list push :=
  match pushes with
  | [] => (a, [])
  | (id, p) :: pushes' =>
      match ApplyIfNew a id p with
      | (a', Ok true) => let '(a'', l) := run a' pushes' in (a'', (id, p) :: l)
      | (a', _) => run a' pushes'
      end
  end.
End Defs.
End Applier.

(** ** Lemmas *)
Module ApplierFacts.
Import Applier.
Section Facts.
Context `{MR : MapRange}.

(** The last [n] elements of a list. *)
Definition last_n {A} (n : nat) (l : list A) : list A := drop (length l - n) l.
Lemma last_n_snoc {A} n (l : list A) x :
  (0 < n)%nat ->
  last_n n (l ++ [x]) =
  if (length (last_n n l ++ [x]) <=? n)%nat then last_n n l ++ [x] else tail (last_n n l ++ [x]).
Proof.
  intros Hn. unfold last_n. rewrite !length_app, length_drop. simpl. destruct (Nat.leb_spec (length l - (length l - n) + 1) n).
  - replace (length l + 1 - n)%nat with 0%nat by lia. replace (length l - n)%nat with 0%nat by lia.
    by rewrite !drop_0.
  - rewrite drop_app_le by lia. destruct (drop (length l - n) l) as [|y r] eqn:Ed.
    + apply (f_equal length) in Ed. rewrite length_drop in Ed. simpl in Ed. lia.
    + simpl. replace (length l + 1 - n)%nat with (S (length l - n)) by lia.
      f_equal. change r with (drop 1 (y :: r)). rewrite <- Ed, drop_drop. f_equal. lia.
Qed.

(** The ids by which the applied pushes may be recognised again. *)
Definition named (l : list push) : list string := filter (fun id => id <> ε) l.*1.
Definition recent (l : list push) : list string := last_n maxAppliedCredentialCommandIDs (named l).

Record applier_ok (a : CredentialApplier) (hist : list push) : Prop := {
  ao_order : appliedCommandOrder a = recent hist;
  ao_ids : appliedCommandIDs a = list_to_set (appliedCommandOrder a);
  ao_nodup : NoDup (appliedCommandOrder a);
  ao_env : (envVars a, version a) =
    match last hist with Some (_, p) => (cpp_EnvVars p, cpp_Version p) | None => (∅, 0) end }.

Lemma named_snoc l id p : named (l ++ [(id, p)]) = named l ++ (if str_empty id then [] else [id]).
Proof.
  unfold named. rewrite fmap_app, filter_app. f_equal. simpl. destruct (str_empty id) eqn:Ee.
  - apply str_empty_true in Ee as ->. by rewrite filter_cons_False by auto.
  - apply str_empty_false in Ee. by rewrite filter_cons_True.
Qed.

Lemma ApplyIfNew_spec a hist id p :
  applier_ok a hist ->
  let '(a', r) := ApplyIfNew a id p in
  match check_payload p with
  | Err e => a' = a /\ r = Err e
  | Ok _ =>
      r = Ok (bool_decide (id = ε \/ id ∉ recent hist)) /\
      if bool_decide (id = ε \/ id ∉ recent hist) then applier_ok a' (hist ++ [(id, p)]) else a' = a
  end.
Proof.
  intros [Ho Hi Hn He]. unfold ApplyIfNew. destruct (check_payload p) as [[]|]; [|done].
  rewrite Hi. destruct (str_empty id) eqn:Ee; simpl.
  - apply str_empty_true in Ee as ->. rewrite bool_decide_eq_true_2 by (by left). split; [done|].
    split; simpl; [|done|done|by rewrite last_snoc].
    unfold recent. by rewrite named_snoc, app_nil_r.
  - pose proof Ee as Hne. apply str_empty_false in Hne. rewrite <- Ho.
    destruct (decide (id ∈ appliedCommandOrder a)) as [Hin|Hin].
    { rewrite (bool_decide_eq_true_2 (id ∈ list_to_set _)) by (by apply elem_of_list_to_set).
      rewrite bool_decide_eq_false_2; [done|]. naive_solver. }
    rewrite (bool_decide_eq_false_2 (id ∈ list_to_set _)) by (by rewrite elem_of_list_to_set).
    rewrite bool_decide_eq_true_2 by (by right). split; [done|].
    assert (NoDup (appliedCommandOrder a ++ [id])) as Hnd.
    { apply NoDup_app. split_and!; [done | | apply NoDup_singleton]. intros x ? ->%list_elem_of_singleton. done. }
    assert (recent (hist ++ [(id, p)]) =
      if (length (appliedCommandOrder a ++ [id]) <=? maxAppliedCredentialCommandIDs)%nat
      then appliedCommandOrder a ++ [id] else tail (appliedCommandOrder a ++ [id])) as Hrec.
    { rewrite Ho. unfold recent. rewrite named_snoc, Ee. apply last_n_snoc. apply Nat.lt_0_succ. }
    unfold rememberCommandIDLocked, applyLocked. simpl. rewrite Hi.
    destruct (_ <=? _)%nat eqn:El; [|destruct (appliedCommandOrder a ++ [id]) as [|old rest] eqn:Eo].
    + split; simpl; [by rewrite Hrec | | done | by rewrite last_snoc].
      rewrite list_to_set_app_L. set_solver.
    + by destruct (appliedCommandOrder a).
    + apply NoDup_cons in Hnd as [Hold Hrest]. split; simpl; [by rewrite Hrec | | done | by rewrite last_snoc].
      assert ({[id]} ∪ list_to_set (appliedCommandOrder a) = list_to_set (old :: rest) :> gset string) as ->.
      { rewrite <- Eo, list_to_set_app_L. set_solver. }
      set_solver.
Qed.

Lemma run_ok a hist pushes :
  applier_ok a hist -> let '(a', l) := run a pushes in applier_ok a' (hist ++ l).
Proof.
  revert a hist. induction pushes as [|[id p] pushes IH]; intros a hist Hok; simpl; [by rewrite app_nil_r|].
  pose proof (ApplyIfNew_spec a hist id p Hok) as Hs. destruct (ApplyIfNew a id p) as [a' r].
  destruct (check_payload p) as [[]|e].
  - destruct Hs as [-> Hs]. case_bool_decide.
    + specialize (IH a' _ Hs). destruct (run a' pushes) as [a'' l]. by rewrite <- app_assoc in IH.
    + subst a'. by apply IH.
  - destruct Hs as [-> ->]. by apply IH.
Qed.

(** A push leaves its values behind, or nothing has changed. *)
Lemma ApplyIfNew_values a id p :
  let '(a', r) := ApplyIfNew a id p in
  match r with
  | Ok true => check_payload p = Ok () /\ envVars a' = cpp_EnvVars p /\ version a' = cpp_Version p
  | _ => a' = a
  end.
Proof.
  unfold ApplyIfNew. destruct (check_payload p) as [[]|]; [|done]. destruct (_ && _); [done|].
  destruct (str_empty id); [done|]. unfold rememberCommandIDLocked, applyLocked. simpl.
  destruct (_ <=? _)%nat; [done|]. by destruct (appliedCommandOrder a ++ [id]).
Qed.
(** So does a command, when it is applied. *)
Lemma HandleCredentialPush_values decode a env :
  let '(a', r) := HandleCredentialPush decode (Some a) (Some env) in
  match r with
  | Ok (Some _) =>
      exists b c, a' = Some b /\ decode (env_Payload env) = Ok c /\
        envVars b = pc_EnvVars c /\ version b = pc_Version c
  | _ => a' = Some a
  end.
Proof.
  unfold HandleCredentialPush. destruct (decode (env_Payload env)) as [c|]; [|done]. destruct (negb _); [done|].
  set (id := if str_empty (pc_CommandID c) then _ else _).
  pose proof (ApplyIfNew_values a id (push_payload c)) as Hv.
  destruct (ApplyIfNew a id (push_payload c)) as [b [[]|]]; [|congruence..].
  destruct Hv as (_ & He & Hv). by exists b, c.
Qed.

Lemma new_ok : applier_ok NewCredentialApplier [].
Proof. split; try done. apply NoDup_nil_2. Qed.
End Facts.
End ApplierFacts.

(** ** Properties *)
Section Properties.
Import Applier ApplierFacts.
Context `{MR : MapRange}.

(** C33: after any sequence of pushes the agent's environment and version are
    those of the last push applied, and a valid push is applied exactly when its
    command id is empty or not among the last thousand ids applied. *)
Theorem credential_push_once (pushes : list push) (id : string) (p : CredentialPushPayload) :
  let '(a, applied) := run NewCredentialApplier pushes in
  (GetEnv a, GetVersion a) =
    match last applied with Some (_, p) => (cpp_EnvVars p, cpp_Version p) | None => (∅, 0) end /\
  (ApplyIfNew a id p).2 =
    match check_payload p with
    | Err e => Err e
    | Ok _ => Ok (bool_decide (id = ε \/ id ∉ recent applied))
    end.
Proof.
  pose proof (run_ok NewCredentialApplier [] pushes new_ok) as Hok. simpl in Hok.
  destruct (run NewCredentialApplier pushes) as [a applied]. split; [apply Hok|].
  pose proof (ApplyIfNew_spec a applied id p Hok) as Hs. destruct (ApplyIfNew a id p) as [a' r]. simpl.
  destruct (check_payload p) as [[]|e]; by destruct Hs.
Qed.

(** A handled push leaves the pushed variables as the environment, and of
    their values the log shows the marker only. *)
Theorem push_log_redacted (decode : string -> res string push_command) (a a' : CredentialApplier)
    (env : Envelope) (c : push_command) (v : Z) (logged : gmap string string) :
  decode (env_Payload env) = Ok c ->
  HandleCredentialPush decode (Some a) (Some env) = (Some a', Ok (Some (v, logged))) ->
  GetEnv a' = pc_EnvVars c /\ v = pc_Version c /\ dom logged = dom (pc_EnvVars c) /\
  forall k x, logged !! k = Some x -> x = redacted.
Proof.
  intros Hd. unfold HandleCredentialPush. rewrite Hd. destruct (negb _); [done|].
  set (id := if str_empty (pc_CommandID c) then _ else _).
  pose proof (ApplyIfNew_values a id (push_payload c)) as Hvals.
  destruct (ApplyIfNew a id (push_payload c)) as [a1 [[]|]]; [|done..]. destruct Hvals as (Ec & He & Hv).
  intros [= <- <- <-]. split_and!; [done | done | by rewrite dom_fmap_L |].
  intros k x. rewrite lookup_fmap. intros (y & Hy & ->)%fmap_Some.
  assert (y <> ε) as Hne.
  { unfold check_payload in Ec. destruct (CredentialPushPayload_Validate _ _) as [[]|] eqn:Ev; [|done].
    clear Ec. unfold CredentialPushPayload_Validate in Ev. destruct (str_empty (Strings.TrimSpace _)); [done|].
    destruct (_ =? 0)%nat; [done|]. eapply (proj1 (CommandFacts.check_env_vars_ok _) Ev). by apply elem_of_range. }
  unfold MaskValue. apply str_empty_false in Hne as ->.
  assert (existsb (fun kv => String.eqb y kv.2) (range_of (envVars a1)) = true) as ->; [|done].
  apply existsb_exists. exists (k, y). split; [|by apply String.eqb_eq].
  apply list_elem_of_In, elem_of_range. by rewrite He.
Qed.
End Properties.

(** ** Witness *)
Module ApplierWitness.
Import Applier ApplierFacts CommandWitness.
#[local] Existing Instance sorted_range.

Definition report_text (r : CredentialVersionReport) : string :=
  (field_text (cvr_NodeID r) +:+ num_text (cvr_CredentialVersion r))%stdpp.
Definition read_report (s : string) : option (string * Z) := '(id, s) ← read_field s; '(v, _) ← read_num s; Some (id, v).
Lemma read_report_text r : read_report (report_text r) = Some (cvr_NodeID r, cvr_CredentialVersion r).
Proof.
  unfold read_report, report_text. rewrite read_field_text. simpl.
  pose proof (read_num_text (cvr_CredentialVersion r) ε) as Hn. rewrite StringsFacts.append_nil_r in Hn.
  by rewrite Hn.
Qed.
#[export] Instance report_json : Json CredentialVersionReport := {
  json_marshal r := Ok (report_text r);
  json_unmarshal s :=
    match read_report s with
    | Some (id, v) => Ok (mkVersionReport id v)
    | None => Err "unexpected end of JSON input"%string
    end }.

Definition cmd : push_command := mkPushCommand "c1" "credential_push" "n1" {[ "API_KEY" := "k1" ]}%string 2.
Definition env : Envelope := mkEnvelope 1 "command" "r1" 7 "payload".
Definition decode (s : string) : res string push_command :=
  if String.eqb s "payload" then Ok cmd else Err "unexpected end of JSON input"%string.
Definition handled := HandleCredentialPush decode (Some NewCredentialApplier) (Some env).
Definition after : CredentialApplier := default NewCredentialApplier handled.1.
Definition log : gmap string string := {[ "API_KEY" := redacted ]}%string.
Lemma push_log_redacted_witness :
  GetEnv after = pc_EnvVars cmd /\ 2 = pc_Version cmd /\ dom log = dom (pc_EnvVars cmd) /\
  forall k x, log !! k = Some x -> x = redacted.
Proof.
  apply (push_log_redacted decode NewCredentialApplier after env cmd 2 log); [reflexivity | vm_compute; reflexivity].
Defined.
Example second_push_ignored : (HandleCredentialPush decode (Some after) (Some env)).2 = Ok None.
Proof. vm_compute. reflexivity. Qed.
End ApplierWitness.
