(* ===== verification/Floats.v ===== *)
(** * Floats

    What the standard library's binary64 arithmetic ([SpecFloat], as [Float64] of
    [GoStd] has it) gives: results are canonical, comparisons compare the values,
    truncation to an integer is monotone, and products and sums of numbers of
    bounded size do not overflow. *)

From S2P Require Import Prelude GoStd.

Notation canonical := (valid_binary 53 1024).
Notation digits := Zdigits2.
Notation exponent_of := (fexp 53 1024).

(** A number's value in units of 2^-1074, the smallest one; 0 for the others. *)
Definition scaled (f : Float64.t) : Z :=
  match f with
  | S754_finite s m e => (if s then -1 else 1) * (Zpos m * 2 ^ (e + 1074))
  | _ => 0
  end.
Definition is_number (f : Float64.t) : bool :=
  match f with S754_finite _ _ _ | S754_zero _ => true | _ => false end.
Definition is_nan (f : Float64.t) : bool := match f with S754_nan => true | _ => false end.

(** The value of a number is less than 2^k. *)
Definition below (k : Z) (f : Float64.t) : Prop :=
  match f with S754_finite _ m e => digits (Zpos m) + e <= k | S754_zero _ => True | _ => False end.

(** The exact sum of two finite floats, on their common exponent. *)
Definition exact_sum (sx sy : bool) (mx my : positive) (ex ey : Z) : Z :=
  let ez := Z.min ex ey in
  (if sx then -1 else 1) * (Zpos mx * 2 ^ (ex - ez)) + (if sy then -1 else 1) * (Zpos my * 2 ^ (ey - ez)).
(** The integer part. *)
Definition unit_scale : Z := 2 ^ 1074.
Definition trunc (f : Float64.t) : Z := Z.quot (scaled f) unit_scale.
(** [if d < lo { d = lo }; if d > hi { d = hi }]. *)
Definition clamp (lo hi d : Float64.t) : Float64.t :=
  let d := if Float64.ltb d lo then lo else d in if Float64.ltb hi d then hi else d.
(** Not negative, and not NaN. *)
Definition nonneg (f : Float64.t) : bool :=
  match f with S754_zero s | S754_infinity s | S754_finite s _ _ => negb s | S754_nan => false end.

Module FloatFacts.

Lemma digits_log2 m : 0 < m -> digits m = Z.log2 m + 1.
Proof.
  intros Hm. destruct m as [|p|]; try lia. cbn [Zdigits2]. induction p as [p IH|p IH|]; cbn [digits2_pos]; [| |done].
  - rewrite Pos2Z.inj_succ, IH by lia. rewrite Pos2Z.inj_xI, Z.log2_succ_double by lia. lia.
  - rewrite Pos2Z.inj_succ, IH by lia. rewrite Pos2Z.inj_xO, Z.log2_double by lia. lia.
Qed.
Lemma digits_pos m : 0 < m -> 0 < digits m.
Proof. intros. rewrite digits_log2 by done. pose proof (Z.log2_nonneg m). lia. Qed.
Lemma digits_bounds m : 0 < m -> 2 ^ (digits m - 1) <= m < 2 ^ digits m.
Proof.
  intros Hm. rewrite digits_log2 by done. pose proof (Z.log2_spec m Hm). rewrite Z.add_simpl_r. by rewrite <- Z.add_1_r in *.
Qed.
(** At most [k] digits. *)
Lemma digits_le m k : 0 < m -> 0 <= k -> digits m <= k <-> m < 2 ^ k.
Proof.
  intros Hm Hk. rewrite digits_log2 by done. split; intros Hl.
  - apply Z.log2_lt_pow2; lia.
  - apply Z.log2_lt_pow2 in Hl; lia.
Qed.
Lemma digits_shiftr m n : 0 < m -> 0 <= n -> 0 < Z.shiftr m n -> digits (Z.shiftr m n) = digits m - n.
Proof.
  intros Hm Hn Hs. rewrite !digits_log2 by done. pose proof (Z.log2_shiftr m n Hm) as E.
  assert (n <= Z.log2 m); [|lia]. destruct (Z.le_gt_cases n (Z.log2 m)) as [|Hlt]; [done|].
  exfalso. rewrite Z.shiftr_div_pow2, Z.div_small in Hs; [lia| |done].
  split; [lia|]. apply Z.log2_lt_pow2; lia.
Qed.

(** *** Rounding *)
Lemma shr_1_m x : 0 <= shr_m x -> shr_m (shr_1 x) = Z.shiftr (shr_m x) 1.
Proof. destruct x as [[|[p|p|]|p] r s]; simpl; done. Qed.
Lemma iter_shr p x : 0 <= shr_m x -> shr_m (SpecFloat.iter_pos shr_1 p x) = Z.shiftr (shr_m x) (Zpos p).
Proof.
  revert x. induction p as [p IH|p IH|]; intros x Hx; cbn [SpecFloat.iter_pos].
  - assert (H1 : 0 <= shr_m (shr_1 x)) by (rewrite shr_1_m by done; by apply Z.shiftr_nonneg).
    rewrite IH; rewrite ?IH by done; [|by apply Z.shiftr_nonneg]. rewrite shr_1_m by done.
    rewrite !Z.shiftr_shiftr by lia. f_equal. lia.
  - rewrite IH; rewrite ?IH by done; [|by apply Z.shiftr_nonneg]. rewrite Z.shiftr_shiftr by lia. f_equal. lia.
  - by rewrite shr_1_m.
Qed.
Lemma shr_fexp_spec m e l : 0 <= m ->
  let n := Z.max 0 (exponent_of (digits m + e) - e) in
  shr_m (shr_fexp 53 1024 m e l).1 = Z.shiftr m n /\ (shr_fexp 53 1024 m e l).2 = e + n.
Proof.
  intros Hm. assert (E : shr_m (shr_record_of_loc m l) = m) by by destruct l as [|[]].
  unfold shr_fexp, shr. destruct (exponent_of (digits m + e) - e) as [|p|p] eqn:En; cbn [fst snd].
  - rewrite Z.max_id, Z.shiftr_0_r, Z.add_0_r. done.
  - rewrite Z.max_r by lia. rewrite iter_shr, E by (by rewrite E). done.
  - rewrite Z.max_l by lia. rewrite Z.shiftr_0_r, Z.add_0_r. done.
Qed.
Lemma round_even_cases m l : round_nearest_even m l = m \/ round_nearest_even m l = m + 1.
Proof. destruct l as [|[]]; simpl; auto. destruct (Z.even m); auto. Qed.

Lemma fexp_max n : exponent_of n = Z.max (n - 53) (-1074).
Proof. done. Qed.

(** The exponent and mantissa before the overflow check. *)
Lemma round_parts m e l : 0 < m -> e <= exponent_of (digits m + e) ->
  let '(mrs, e1) := shr_fexp 53 1024 m e l in
  let '(mrs', e2) := shr_fexp 53 1024 (round_nearest_even (shr_m mrs) (loc_of_shr_record mrs)) e1 loc_Exact in
  0 <= shr_m mrs' /\ (0 < shr_m mrs' -> e2 = exponent_of (digits (shr_m mrs') + e2) /\ digits (shr_m mrs') + e2 <= Z.max (digits m + e) (-1074) + 1).
Proof.
  intros Hm He. destruct (shr_fexp_spec m e l) as [H1 H1e]; [lia|]. rewrite fexp_max in *.
  destruct (shr_fexp 53 1024 m e l) as [mrs e1]. simpl in H1, H1e.
  set (n := Z.max 0 (Z.max (digits m + e - 53) (-1074) - e)) in *. assert (Hn : 0 <= n) by lia.
  assert (H1p : 0 <= shr_m mrs) by (rewrite H1; apply Z.shiftr_nonneg; lia).
  pose proof (digits_pos m Hm) as Hdp.
  (* the mantissa kept is below 2^53, and has 53 digits or the least exponent *)
  assert (Hlt : shr_m mrs < 2 ^ 53).
  { rewrite H1, Z.shiftr_div_pow2 by done. apply Z.div_lt_upper_bound; [apply Z.pow_pos_nonneg; lia|].
    rewrite <- Z.pow_add_r by lia. pose proof (digits_bounds m Hm). apply Z.lt_le_trans with (2 ^ digits m); [lia|].
    apply Z.pow_le_mono_r; lia. }
  assert (Hcan : 0 < shr_m mrs -> digits (shr_m mrs) = digits m - n).
  { rewrite H1. by apply digits_shiftr. }
  assert (Hzero : shr_m mrs = 0 -> e1 = -1074).
  { rewrite H1, Z.shiftr_div_pow2 by done. intros Hz. assert (m < 2 ^ n).
    { apply Z.div_small_iff in Hz; [lia|]. pose proof (Z.pow_pos_nonneg 2 n). lia. }
    assert (digits m <= n) by (apply digits_le; lia). lia. }
  set (m2 := round_nearest_even _ _). destruct (shr_fexp_spec m2 e1 loc_Exact) as [H2 H2e].
  { destruct (round_even_cases (shr_m mrs) (loc_of_shr_record mrs)); unfold m2; lia. }
  rewrite fexp_max in H2, H2e. destruct (shr_fexp 53 1024 m2 e1 loc_Exact) as [mrs' e2]. simpl in H2, H2e.
  set (n2 := Z.max 0 (Z.max (digits m2 + e1 - 53) (-1074) - e1)) in *.
  assert (Hm2 : shr_m mrs <= m2 <= shr_m mrs + 1).
  { unfold m2. destruct (round_even_cases (shr_m mrs) (loc_of_shr_record mrs)); lia. }
  split; [rewrite H2; apply Z.shiftr_nonneg; lia|]. intros Hpos. rewrite fexp_max.
  assert (Hm2p : 0 < m2).
  { destruct (Z.eq_dec m2 0) as [E0|]; [|lia]. rewrite H2, E0, Z.shiftr_0_l in Hpos. lia. }
  assert (Hd2 : digits (shr_m mrs') = digits m2 - n2) by (rewrite H2; apply digits_shiftr; [lia | lia | by rewrite <- H2]).
  assert (Hd2' : 0 < shr_m mrs /\ digits m2 <= 54 /\ digits m2 <= Z.max 0 (digits m - n) + 1 /\ digits (shr_m mrs) <= digits m2 \/ shr_m mrs = 0 /\ digits m2 = 1).
  { destruct (Z.eq_dec (shr_m mrs) 0) as [E0|].
    - right. split; [done|]. assert (m2 = 1) as -> by lia. done.
    - left. pose proof (digits_bounds (shr_m mrs)) as Hb. split_and!.
      + lia.
      + apply digits_le; lia.
      + rewrite <- Hcan by lia. rewrite Z.max_r by (pose proof (digits_pos (shr_m mrs)); lia).
        apply digits_le; [lia | pose proof (digits_pos (shr_m mrs)); lia|]. rewrite Z.pow_add_r by (pose proof (digits_pos (shr_m mrs)); lia).
        pose proof (Z.pow_pos_nonneg 2 (digits (shr_m mrs))). pose proof (digits_pos (shr_m mrs)). lia.
      + apply digits_le; [lia | pose proof (digits_pos m2); lia|]. pose proof (digits_bounds m2). lia. }
  destruct Hd2' as [(Hp & Ha & Hb & Hc)|[Hz Ho]].
  - pose proof (digits_pos _ Hp) as HD. rewrite Hcan in Hc, HD by done. lia.
  - rewrite (Hzero Hz) in *. lia.
Qed.

(** Rounding gives a canonical float, and one of at most the next power of two. *)
Lemma round_canonical s m e l :
  0 < m -> e <= exponent_of (digits m + e) -> canonical (binary_round_aux 53 1024 s m e l) = true.
Proof.
  intros Hm He. pose proof (round_parts m e l Hm He) as Hp. unfold binary_round_aux.
  destruct (shr_fexp 53 1024 m e l) as [mrs e1].
  destruct (shr_fexp 53 1024 (round_nearest_even (shr_m mrs) (loc_of_shr_record mrs)) e1 loc_Exact) as [mrs' e2].
  destruct Hp as [H0 Hp]. destruct (shr_m mrs') as [|p|p]; [done | | done].
  destruct (Z.leb_spec e2 (1024 - 53)); [|done]. destruct Hp as [Hc _]; [done|].
  unfold valid_binary, bounded, canonical_mantissa. apply andb_true_iff. split; [|by apply Z.leb_le].
  apply Z.eqb_eq. symmetry. exact Hc.
Qed.
Lemma round_below k s m e l :
  0 < m -> e <= exponent_of (digits m + e) -> digits m + e <= k -> -1074 <= k <= 1023 ->
  below (k + 1) (binary_round_aux 53 1024 s m e l).
Proof.
  intros Hm He Hk Hk'. pose proof (round_parts m e l Hm He) as Hp. unfold binary_round_aux.
  destruct (shr_fexp 53 1024 m e l) as [mrs e1].
  destruct (shr_fexp 53 1024 (round_nearest_even (shr_m mrs) (loc_of_shr_record mrs)) e1 loc_Exact) as [mrs' e2].
  destruct Hp as [H0 Hp]. destruct (shr_m mrs') as [|p|p] eqn:Em; [done | | lia].
  destruct Hp as [Hc Hd]; [done|]. rewrite fexp_max in Hc.
  destruct (Z.leb_spec e2 (1024 - 53)); [unfold below; lia | lia].
Qed.

Lemma align_value m e e' : e' <= e -> Zpos (shl_align m e e').1 = Zpos m * 2 ^ (e - e') /\ (shl_align m e e').2 = e'.
Proof.
  intros Hle. unfold shl_align. destruct (e' - e) as [|p|p] eqn:Ed; [|lia|].
  - simpl. replace (e - e') with 0 by lia. split; lia.
  - simpl. replace (e - e') with (Zpos p) by lia. split; [|done]. clear. revert m.
    induction p as [|p IH] using Pos.peano_ind; intros m; [simpl; lia|].
    rewrite Pos.iter_succ, Pos2Z.inj_succ, Z.pow_succ_r by lia. rewrite Pos2Z.inj_xO, IH. lia.
Qed.
Lemma digits_shifted m n : 0 <= n -> 0 < m -> digits (m * 2 ^ n) = digits m + n.
Proof.
  intros Hn Hm. pose proof (Z.pow_pos_nonneg 2 n). rewrite !digits_log2 by lia.
  rewrite Z.log2_mul_pow2 by lia. lia.
Qed.

(** [binary_normalize]: shifted left as far as the exponent wants, then rounded. *)
Lemma binary_round_parts s p e :
  exists m' e', binary_round 53 1024 s p e = binary_round_aux 53 1024 s m' e' loc_Exact /\
    0 < m' /\ e' <= exponent_of (digits m' + e') /\ digits m' + e' = digits (Zpos p) + e.
Proof.
  unfold binary_round. set (ex := exponent_of (Zpos (digits2_pos p) + e)).
  destruct (Z.le_gt_cases ex e) as [Hle|Hgt].
  - destruct (align_value p e ex Hle) as [Hv He]. destruct (shl_align p e ex) as [mz ez]. simpl in Hv, He. subst ez.
    exists (Zpos mz), ex. assert (Hd : digits (Zpos mz) = digits (Zpos p) + (e - ex)) by (rewrite Hv; apply digits_shifted; lia).
    split_and!; [done | lia | | lia]. rewrite Hd. replace (digits (Zpos p) + (e - ex) + ex) with (digits (Zpos p) + e) by lia.
    unfold ex. simpl Zdigits2. lia.
  - exists (Zpos p), e. unfold shl_align. destruct (ex - e) eqn:Ed; [lia | | lia].
    split_and!; [done | lia | | done]. unfold ex in Hgt. simpl Zdigits2. lia.
Qed.
Lemma normalize_canonical m e b : canonical (binary_normalize 53 1024 m e b) = true.
Proof.
  destruct m as [|p|p]; [done | |]; simpl.
  - destruct (binary_round_parts false p e) as (m' & e' & -> & ? & ? & _). by apply round_canonical.
  - destruct (binary_round_parts true p e) as (m' & e' & -> & ? & ? & _). by apply round_canonical.
Qed.
Lemma normalize_below k m e b :
  (m <> 0 -> digits (Z.abs m) + e <= k) -> -1074 <= k <= 1023 -> below (k + 1) (binary_normalize 53 1024 m e b).
Proof.
  intros Hd Hk. destruct m as [|p|p]; [done | |]; simpl; specialize (Hd ltac:(done)); unfold Z.abs in Hd.
  - destruct (binary_round_parts false p e) as (m' & e' & -> & ? & ? & ?). apply round_below; lia.
  - destruct (binary_round_parts true p e) as (m' & e' & -> & ? & ? & ?). apply round_below; lia.
Qed.

(** *** The operations *)
Lemma canonical_exponent s m e : canonical (S754_finite s m e) = true ->
  e = Z.max (digits (Zpos m) + e - 53) (-1074) /\ e <= 971.
Proof.
  unfold valid_binary, bounded, canonical_mantissa. intros [Hc%Z.eqb_eq He%Z.leb_le]%andb_true_iff.
  split; [|done]. rewrite <- Hc at 1. apply fexp_max.
Qed.
Lemma digits_mul a b : 0 < a -> 0 < b -> digits a + digits b - 1 <= digits (a * b) <= digits a + digits b.
Proof.
  intros Ha Hb. rewrite !digits_log2 by nia. pose proof (Z.log2_mul_below a b Ha Hb). pose proof (Z.log2_mul_above a b). lia.
Qed.

Lemma mul_canonical x y : canonical x = true -> canonical y = true -> canonical (Float64.mul x y) = true.
Proof.
  destruct x as [sx|sx| |sx mx ex], y as [sy|sy| |sy my ey]; try done. intros Hx Hy.
  destruct (canonical_exponent _ _ _ Hx) as [Ex _], (canonical_exponent _ _ _ Hy) as [Ey _].
  unfold Float64.mul, SFmul. apply round_canonical; [done|]. rewrite fexp_max, Pos2Z.inj_mul.
  pose proof (digits_mul (Zpos mx) (Zpos my)). pose proof (digits_pos (Zpos mx)). pose proof (digits_pos (Zpos my)). lia.
Qed.
Lemma mul_below j k x y : canonical x = true -> canonical y = true -> below j x -> below k y -> -1074 <= j + k <= 1023 ->
  below (j + k + 1) (Float64.mul x y).
Proof.
  destruct x as [sx|sx| |sx mx ex], y as [sy|sy| |sy my ey]; try done. intros Hx Hy Hj Hk Hr.
  destruct (canonical_exponent _ _ _ Hx) as [Ex _], (canonical_exponent _ _ _ Hy) as [Ey _]. unfold below in Hj, Hk.
  pose proof (digits_mul (Zpos mx) (Zpos my)). pose proof (digits_pos (Zpos mx)). pose proof (digits_pos (Zpos my)).
  unfold Float64.mul, SFmul. apply round_below; [done | rewrite fexp_max, Pos2Z.inj_mul; lia | rewrite Pos2Z.inj_mul; lia | lia].
Qed.

Lemma add_exact sx sy mx my ex ey :
  Float64.add (S754_finite sx mx ex) (S754_finite sy my ey) =
  binary_normalize 53 1024 (exact_sum sx sy mx my ex ey) (Z.min ex ey) false.
Proof.
  unfold Float64.add, SFadd, exact_sum. destruct (align_value mx ex (Z.min ex ey)) as [-> _]; [lia|].
  destruct (align_value my ey (Z.min ex ey)) as [-> _]; [lia|]. f_equal. unfold cond_Zopp. destruct sx, sy; lia.
Qed.
Lemma sub_exact sx sy mx my ex ey :
  Float64.sub (S754_finite sx mx ex) (S754_finite sy my ey) =
  binary_normalize 53 1024 (exact_sum sx (negb sy) mx my ex ey) (Z.min ex ey) false.
Proof.
  unfold Float64.sub, SFsub, exact_sum. destruct (align_value mx ex (Z.min ex ey)) as [-> _]; [lia|].
  destruct (align_value my ey (Z.min ex ey)) as [-> _]; [lia|]. f_equal. unfold cond_Zopp. destruct sx, sy; simpl negb; lia.
Qed.
Lemma exact_sum_digits k sx sy mx my ex ey :
  digits (Zpos mx) + ex <= k -> digits (Zpos my) + ey <= k -> exact_sum sx sy mx my ex ey <> 0 ->
  digits (Z.abs (exact_sum sx sy mx my ex ey)) + Z.min ex ey <= k + 1.
Proof.
  intros Hx Hy Hn. set (ez := Z.min ex ey). pose proof (digits_pos (Zpos mx)). pose proof (digits_pos (Zpos my)).
  assert (Hb : forall m e, digits (Zpos m) + e <= k -> ez <= e -> Zpos m * 2 ^ (e - ez) < 2 ^ (k - ez)).
  { intros m e Hd He. apply digits_le; [pose proof (Z.pow_pos_nonneg 2 (e - ez)); lia | pose proof (digits_pos (Zpos m)); lia|].
    rewrite digits_shifted by lia. lia. }
  pose proof (Hb mx ex Hx ltac:(lia)). pose proof (Hb my ey Hy ltac:(lia)).
  assert (digits (Z.abs (exact_sum sx sy mx my ex ey)) <= k - ez + 1); [|lia].
  apply digits_le; [lia | lia|]. rewrite Z.pow_add_r by lia. unfold exact_sum. fold ez.
  pose proof (Z.pow_pos_nonneg 2 (ex - ez)). pose proof (Z.pow_pos_nonneg 2 (ey - ez)). destruct sx, sy; lia.
Qed.
Lemma add_canonical x y : canonical x = true -> canonical y = true -> canonical (Float64.add x y) = true.
Proof.
  destruct x as [sx|sx| |sx mx ex], y as [sy|sy| |sy my ey]; try done; intros; [by destruct sx, sy.. |].
  rewrite add_exact. apply normalize_canonical.
Qed.
Lemma sub_canonical x y : canonical x = true -> canonical y = true -> canonical (Float64.sub x y) = true.
Proof.
  destruct x as [sx|sx| |sx mx ex], y as [sy|sy| |sy my ey]; try done; intros; [by destruct sx, sy.. |].
  rewrite sub_exact. apply normalize_canonical.
Qed.
Lemma add_below k x y : below k x -> below k y -> -1074 <= k <= 1021 -> below (k + 2) (Float64.add x y).
Proof.
  destruct x as [sx|sx| |sx mx ex], y as [sy|sy| |sy my ey]; try done; intros Hx Hy Hk; simpl in Hx, Hy.
  - by destruct sx, sy.
  - simpl. lia.
  - simpl. lia.
  - rewrite add_exact. replace (k + 2) with (k + 1 + 1) by lia. apply normalize_below; [|lia].
    intros Hn. by apply exact_sum_digits.
Qed.
Lemma sub_below k x y : below k x -> below k y -> -1074 <= k <= 1021 -> below (k + 2) (Float64.sub x y).
Proof.
  destruct x as [sx|sx| |sx mx ex], y as [sy|sy| |sy my ey]; try done; intros Hx Hy Hk; simpl in Hx, Hy.
  - by destruct sx, sy.
  - simpl. lia.
  - simpl. lia.
  - rewrite sub_exact. replace (k + 2) with (k + 1 + 1) by lia. apply normalize_below; [|lia].
    intros Hn. by apply exact_sum_digits.
Qed.
Lemma of_Z_canonical n : canonical (Float64.of_Z n) = true.
Proof. apply normalize_canonical. Qed.
Lemma below_mono j k x : below j x -> j <= k -> below k x.
Proof. destruct x; simpl; lia || done. Qed.
Lemma below_number k x : below k x -> is_number x = true.
Proof. by destruct x. Qed.

(** *** Comparisons *)
Lemma canonical_ge s m e : canonical (S754_finite s m e) = true -> -1074 <= e.
Proof. intros [-> _]%canonical_exponent. lia. Qed.
Lemma lower_exponent s1 s2 m1 m2 e1 e2 :
  canonical (S754_finite s1 m1 e1) = true -> canonical (S754_finite s2 m2 e2) = true -> e1 < e2 ->
  Zpos m1 * 2 ^ (e1 + 1074) < Zpos m2 * 2 ^ (e2 + 1074).
Proof.
  intros [H1 _]%canonical_exponent [H2 _]%canonical_exponent Hlt.
  assert (Hd1 : Zpos m1 < 2 ^ 53) by (apply digits_le; lia).
  pose proof (digits_bounds (Zpos m2) ltac:(lia)) as [Hd2 _]. replace (digits (Zpos m2)) with 53 in Hd2 by lia.
  set (a := e1 + 1074) in *. replace (e2 + 1074) with (a + (e2 - e1)) by lia. rewrite Z.pow_add_r by lia.
  assert (Ha : 0 < 2 ^ a) by (apply Z.pow_pos_nonneg; lia).
  assert (Hb : 2 ^ 1 <= 2 ^ (e2 - e1)) by (apply Z.pow_le_mono_r; lia).
  change (2 ^ 53) with (2 * 2 ^ (53 - 1)) in Hd1. change (2 ^ 1) with 2 in Hb.
  generalize dependent (2 ^ (53 - 1)). generalize dependent (2 ^ (e2 - e1)). generalize dependent (2 ^ a).
  intros x Hx y Hy k Hk1 Hk2. apply Z.lt_le_trans with (2 * k * x); [nia|].
  replace (Zpos m2 * (x * y)) with (Zpos m2 * y * x) by ring. apply Z.mul_le_mono_nonneg_r; [lia|]. nia.
Qed.
Lemma compare_finite s1 s2 m1 m2 e1 e2 :
  canonical (S754_finite s1 m1 e1) = true -> canonical (S754_finite s2 m2 e2) = true ->
  match e1 ?= e2 with Lt => Lt | Gt => Gt | Eq => Pos.compare_cont Eq m1 m2 end =
  (Zpos m1 * 2 ^ (e1 + 1074) ?= Zpos m2 * 2 ^ (e2 + 1074)).
Proof.
  intros H1 H2. destruct (Z.compare_spec e1 e2) as [<-|Hlt|Hgt].
  - pose proof (canonical_ge _ _ _ H1). pose proof (Z.pow_pos_nonneg 2 (e1 + 1074)).
    rewrite <- Zmult_compare_compat_r by lia. done.
  - symmetry. apply Z.compare_lt_iff. by eapply lower_exponent.
  - symmetry. apply Z.compare_gt_iff. by eapply lower_exponent.
Qed.
Lemma magnitude_pos m e : -1074 <= e -> 0 < Zpos m * 2 ^ (e + 1074).
Proof. intros. pose proof (Z.pow_pos_nonneg 2 (e + 1074)). lia. Qed.
Lemma compare_scaled x y :
  canonical x = true -> canonical y = true -> is_number x = true -> is_number y = true ->
  SFcompare x y = Some (scaled x ?= scaled y).
Proof.
  destruct x as [sx|sx| |sx mx ex], y as [sy|sy| |sy my ey]; try done; intros Hx Hy _ _; unfold SFcompare, scaled; f_equal.
  - pose proof (magnitude_pos my ey (canonical_ge _ _ _ Hy)). symmetry.
    destruct sy; [apply Z.compare_gt_iff | apply Z.compare_lt_iff]; lia.
  - pose proof (magnitude_pos mx ex (canonical_ge _ _ _ Hx)). symmetry.
    destruct sx; [apply Z.compare_lt_iff | apply Z.compare_gt_iff]; lia.
  - pose proof (magnitude_pos mx ex (canonical_ge _ _ _ Hx)). pose proof (magnitude_pos my ey (canonical_ge _ _ _ Hy)).
    pose proof (compare_finite _ _ _ _ _ _ Hx Hy) as Hc. destruct sx, sy.
    + replace (-1 * (Zpos mx * 2 ^ (ex + 1074))) with (- (Zpos mx * 2 ^ (ex + 1074))) by lia.
      replace (-1 * (Zpos my * 2 ^ (ey + 1074))) with (- (Zpos my * 2 ^ (ey + 1074))) by lia.
      rewrite Z.compare_opp, (Z.compare_antisym (Zpos mx * 2 ^ (ex + 1074)) (Zpos my * 2 ^ (ey + 1074))), <- Hc. by destruct (ex ?= ey).
    + symmetry. apply Z.compare_lt_iff. lia.
    + symmetry. apply Z.compare_gt_iff. lia.
    + rewrite !Z.mul_1_l. exact Hc.
Qed.
Lemma ltb_scaled x y :
  canonical x = true -> canonical y = true -> is_number x = true -> is_number y = true ->
  Float64.ltb x y = (scaled x <? scaled y).
Proof. intros. unfold Float64.ltb, SFltb. rewrite compare_scaled by done. unfold Z.ltb. by destruct (_ ?= _). Qed.
Lemma leb_scaled x y :
  canonical x = true -> canonical y = true -> is_number x = true -> is_number y = true ->
  Float64.leb x y = (scaled x <=? scaled y).
Proof. intros. unfold Float64.leb, SFleb. rewrite compare_scaled by done. unfold Z.leb. by destruct (_ ?= _). Qed.

(** *** Truncation to an integer *)
Lemma unit_scale_pos : 0 < unit_scale.
Proof. by apply Z.pow_pos_nonneg. Qed.
Lemma magnitude_trunc m e : -1074 <= e ->
  (if 0 <=? e then Zpos m * 2 ^ e else Zpos m / 2 ^ (- e)) = Z.quot (Zpos m * 2 ^ (e + 1074)) unit_scale.
Proof.
  intros He. pose proof unit_scale_pos. pose proof (magnitude_pos m e He). rewrite Z.quot_div_nonneg by lia. unfold unit_scale.
  destruct (Z.leb_spec 0 e).
  - assert (E : 2 ^ (e + 1074) = 2 ^ e * 2 ^ 1074) by (apply Z.pow_add_r; lia).
    rewrite E, Z.mul_assoc, Z.div_mul; [done | by apply Z.pow_nonzero].
  - assert (E : 2 ^ 1074 = 2 ^ (- e) * 2 ^ (e + 1074)) by (rewrite <- Z.pow_add_r by lia; f_equal; lia).
    rewrite E, Z.div_mul_cancel_r; [done | apply Z.pow_nonzero; lia..].
Qed.
Lemma to_i64_trunc f : canonical f = true -> is_number f = true -> - 2 ^ 63 <= trunc f < 2 ^ 63 -> Float64.to_i64 f = trunc f.
Proof.
  destruct f as [s|s| |s m e]; [done | done | done |]. intros Hc _. pose proof (canonical_ge _ _ _ Hc) as He.
  unfold Float64.to_i64, trunc, scaled. rewrite magnitude_trunc by done.
  assert (Hs : (if s then - Z.quot (Zpos m * 2 ^ (e + 1074)) unit_scale else Z.quot (Zpos m * 2 ^ (e + 1074)) unit_scale) =
    Z.quot ((if s then -1 else 1) * (Zpos m * 2 ^ (e + 1074))) unit_scale).
  { pose proof unit_scale_pos. destruct s; [|by rewrite Z.mul_1_l]. rewrite <- Z.quot_opp_l by lia. f_equal. }
  cbv zeta. rewrite Hs. intros [Hl Hr]. by rewrite (proj2 (Z.leb_le _ _) Hl), (proj2 (Z.ltb_lt _ _) Hr).
Qed.
Lemma trunc_mono x y : scaled x <= scaled y -> trunc x <= trunc y.
Proof. intros. apply Z.quot_le_mono; [exact unit_scale_pos | done]. Qed.
Lemma to_i64_between lo d hi :
  canonical lo = true -> canonical d = true -> canonical hi = true ->
  is_number lo = true -> is_number d = true -> is_number hi = true ->
  scaled lo <= scaled d <= scaled hi -> - 2 ^ 63 <= trunc lo -> trunc hi < 2 ^ 63 ->
  Float64.to_i64 lo <= Float64.to_i64 d <= Float64.to_i64 hi.
Proof.
  intros ? ? ? ? ? ? [Hl%trunc_mono Hh%trunc_mono] ? ?. rewrite !to_i64_trunc by (done || lia). lia.
Qed.

Lemma clamp_between lo hi d :
  canonical lo = true -> canonical d = true -> canonical hi = true -> is_number lo = true -> is_number hi = true ->
  is_nan d = false -> scaled lo <= scaled hi ->
  let c := clamp lo hi d in canonical c = true /\ is_number c = true /\ scaled lo <= scaled c <= scaled hi.
Proof.
  intros Hcl Hcd Hch Hl Hh Hd Hle. unfold clamp. destruct (is_number d) eqn:Hn.
  - rewrite (ltb_scaled d lo) by done. destruct (Z.ltb_spec (scaled d) (scaled lo)).
    + rewrite ltb_scaled by done. by rewrite (proj2 (Z.ltb_ge _ _)) by lia.
    + rewrite ltb_scaled by done. destruct (Z.ltb_spec (scaled hi) (scaled d)); split_and!; done || lia.
  - destruct d as [sd|sd| |sd md ed]; try done.
    assert (Hlt : Float64.ltb (S754_infinity sd) lo = sd /\ Float64.ltb hi (S754_infinity sd) = negb sd).
    { by destruct lo as [|[]| |], hi as [|[]| |], sd. }
    destruct Hlt as [-> Hlt]. destruct sd; simpl in Hlt.
    + rewrite ltb_scaled by done. by rewrite (proj2 (Z.ltb_ge _ _)) by lia.
    + rewrite Hlt. split_and!; done || lia.
Qed.

(** *** Signs and powers of two *)
Lemma round_sign s m e l : 0 < m -> e <= exponent_of (digits m + e) ->
  nonneg (binary_round_aux 53 1024 s m e l) = negb s.
Proof.
  intros Hm He. pose proof (round_parts m e l Hm He) as Hp. unfold binary_round_aux.
  destruct (shr_fexp 53 1024 m e l) as [mrs e1].
  destruct (shr_fexp 53 1024 (round_nearest_even (shr_m mrs) (loc_of_shr_record mrs)) e1 loc_Exact) as [mrs' e2].
  destruct Hp as [H0 _]. destruct (shr_m mrs') as [|p|p]; [done | | lia]. by destruct (e2 <=? 1024 - 53).
Qed.
(** The product with a positive number. *)
Lemma mul_nonneg x m e : canonical x = true -> nonneg x = true -> canonical (S754_finite false m e) = true ->
  nonneg (Float64.mul x (S754_finite false m e)) = true.
Proof.
  intros Hx Hn Hy. destruct x as [[]|[]| |[] mx ex]; try done. unfold Float64.mul, SFmul. apply round_sign; [done|].
  destruct (canonical_exponent _ _ _ Hx) as [Ex _], (canonical_exponent _ _ _ Hy) as [Ey _].
  rewrite fexp_max, Pos2Z.inj_mul. pose proof (digits_mul (Zpos mx) (Zpos m)).
  pose proof (digits_pos (Zpos mx)). pose proof (digits_pos (Zpos m)). lia.
Qed.
Lemma half_value : Math.half = S754_finite false 4503599627370496 (-53).
Proof. vm_compute. reflexivity. Qed.
Lemma half_step : Float64.ltb (Float64.mul Math.half Math.half) Math.half = true /\
  Float64.add (Float64.mul Math.half Math.half) (Float64.mul Math.half Math.half) = Math.half.
Proof. vm_compute. by split. Qed.
Lemma half_mul x : canonical x = true -> nonneg x = true ->
  canonical (Float64.mul x Math.half) = true /\ nonneg (Float64.mul x Math.half) = true.
Proof. intros Hc Hn. rewrite half_value. split; [by apply mul_canonical | by apply mul_nonneg]. Qed.
#[local] Opaque Math.half Float64.mul Float64.add Float64.ltb.
Lemma pow_loop_half i a1 ae xe : canonical a1 = true -> nonneg a1 = true ->
  canonical (Math.pow_loop i a1 ae Math.half xe).1 = true /\ nonneg (Math.pow_loop i a1 ae Math.half xe).1 = true.
Proof.
  destruct half_step as [E1 E2].
  revert a1 ae xe. induction i as [i IH|i IH|]; intros a1 ae xe Hc Hn; cbn [Math.pow_loop];
    (destruct ((xe <? - 2 ^ 12) || (2 ^ 12 <? xe)); [simpl; split; assumption|]); rewrite E1; cbv iota; rewrite ?E2; cbv zeta iota beta.
  - apply IH; by apply half_mul.
  - by apply IH.
  - by apply half_mul.
Qed.
#[local] Transparent Math.half Float64.mul Float64.add Float64.ltb.
Lemma pow_two n : 0 <= n ->
  canonical (Math.Pow (Float64.of_Z 2) n) = true /\ nonneg (Math.Pow (Float64.of_Z 2) n) = true.
Proof.
  intros Hn. unfold Math.Pow. destruct ((n =? 0) || _); [by vm_compute|].
  destruct (n =? 1); [by vm_compute|]. assert (E : Math.Frexp (Float64.of_Z 2) = (Math.half, 2)) by by vm_compute.
  rewrite E. cbv iota beta. pose proof (pow_loop_half (Z.to_pos (Z.abs n)) Math.one 0 2) as Hl.
  specialize (Hl ltac:(by vm_compute) ltac:(by vm_compute)).
  destruct (Math.pow_loop _ _ _ _ _) as [a1 ae]. rewrite (proj2 (Z.ltb_ge n 0) Hn). simpl in Hl.
  destruct Hl as [Hc Hp]. destruct a1 as [[]|[]| |[] m e]; try done. unfold Math.Ldexp, SFldexp.
  destruct (binary_round_parts false m (e + ae)) as (m' & e' & -> & ? & ? & _). split.
  - by apply round_canonical.
  - by apply round_sign.
Qed.
Lemma mul_comm x y : Float64.mul x y = Float64.mul y x.
Proof.
  destruct x as [sx|sx| |sx mx ex], y as [sy|sy| |sy my ey]; try done; unfold Float64.mul, SFmul; try by rewrite xorb_comm.
  by rewrite xorb_comm, Pos.mul_comm, Z.add_comm.
Qed.
Lemma below_scaled k x :
  canonical x = true -> is_number x = true -> -1074 <= k -> Z.abs (scaled x) < 2 ^ (k + 1074) -> below k x.
Proof.
  destruct x as [s|s| |s m e]; try done. intros Hc _ Hk Hs. pose proof (canonical_ge _ _ _ Hc) as He.
  assert (Hv : Zpos m * 2 ^ (e + 1074) < 2 ^ (k + 1074)).
  { unfold scaled in Hs. pose proof (magnitude_pos m e He). destruct s; lia. }
  unfold below. assert (digits (Zpos m) <= k - e); [|lia]. destruct (Z.le_gt_cases e k) as [Hle|Hgt].
  - apply digits_le; [done | lia|]. replace (k + 1074) with (k - e + (e + 1074)) in Hv by lia.
    rewrite (Z.pow_add_r 2 (k - e)) in Hv by lia. pose proof (Z.pow_pos_nonneg 2 (e + 1074)). nia.
  - exfalso. assert (2 ^ (k + 1074) <= 2 ^ (e + 1074)) by (apply Z.pow_le_mono_r; lia). nia.
Qed.
Lemma scaled_below k x : canonical x = true -> -1074 <= k -> below k x -> Z.abs (scaled x) < 2 ^ (k + 1074).
Proof.
  destruct x as [s|s| |s m e]; try done; intros Hc Hk; unfold below.
  - intros _. simpl. by apply Z.pow_pos_nonneg; lia.
  - pose proof (canonical_ge _ _ _ Hc) as He. intros Hd. pose proof (magnitude_pos m e He) as Hm.
    assert (Hv : Zpos m * 2 ^ (e + 1074) < 2 ^ (k + 1074)); [|unfold scaled; destruct s; lia].
    pose proof (digits_pos (Zpos m)). apply digits_le; [lia | lia|]. rewrite digits_shifted by lia. lia.
Qed.
Lemma nonneg_scaled x : canonical x = true -> nonneg x = true -> 0 <= scaled x.
Proof.
  destruct x as [s|s| |[] m e]; try done. intros Hc _. pose proof (magnitude_pos m e (canonical_ge _ _ _ Hc)). unfold scaled. lia.
Qed.
End FloatFacts.
