(* ===== verification/Backoff.v ===== *)
(** * Backoff

    internal/agent/backoff.go: the waits between connection attempts, which grow
    by a factor up to a limit and are spread at random.  The arithmetic is that of
    [float64], as the source does it; the random number is an argument.
    The attempt, an exponent, is taken as the integer it is; as a [float64] it would
    be rounded above 2^53, where the power is long infinite. *)

From S2P Require Import Prelude GoStd Floats.

Module Wait.
Record Backoff := mkBackoff {
  Min : Z; Max : Z; Factor : Float64.t; Jitter : Float64.t; attempt : Z }.
Definition quarter : Float64.t := Float64.div (Float64.of_Z 1) (Float64.of_Z 4).
Definition DefaultBackoff : Backoff :=
  mkBackoff (100 * Time.Millisecond) (60 * Time.Second) (Float64.of_Z 2) quarter 0.

Definition set_attempt (n : Z) (b : Backoff) : Backoff := mkBackoff (Min b) (Max b) (Factor b) (Jitter b) n.

(** Min * Factor^attempt, at most Max. *)
Definition base (b : Backoff) : Float64.t :=
  let d := Float64.mul (Float64.of_Z (Min b)) (Math.Pow (Factor b) (attempt b)) in
  if Float64.ltb (Float64.of_Z (Max b)) d then Float64.of_Z (Max b) else d.
(** [d] with the jitter that [rand.Float64] gives it. *)
Definition spread (b : Backoff) (rand d : Float64.t) : Float64.t :=
  if Float64.ltb Float64.zero (Jitter b) then
    Float64.add d
      (Float64.mul (Float64.mul d (Jitter b))
         (Float64.sub (Float64.mul (Float64.of_Z 2) rand) (Float64.of_Z 1)))
  else d.
Definition Duration (b : Backoff) (rand : Float64.t) : Backoff * Z :=
  (set_attempt (i64 (attempt b + 1)) b,
   Float64.to_i64 (clamp (Float64.of_Z (Min b)) (Float64.of_Z (Max b)) (spread b rand (base b)))).
Definition Reset (b : Backoff) : Backoff := set_attempt 0 b.
Definition Attempt (b : Backoff) : Z := attempt b.

(** A history, and its waits. *)
Inductive op := Next (rand : Float64.t) | Connected.
Fixpoint waits (b : Backoff) (ops : list op) : list Z :=
  match ops with
  | [] => []
  | Next rand :: ops' => let '(b', wait) := Duration b rand in wait :: waits b' ops'
  | Connected :: ops' => waits (Reset b) ops'
  end.

(** What [rand.Float64] returns. *)
Definition is_random (rand : Float64.t) : bool :=
  canonical rand && Float64.leb Float64.zero rand && Float64.ltb rand Math.one.
(** Limits that a [float64] holds exactly, and a jitter of at most the whole
    wait. *)
Definition exact (d : Z) : bool := Float64.to_i64 (Float64.of_Z d) =? d.
Definition limits_ok (b : Backoff) : bool :=
  (0 <? Min b) && (Min b <=? Max b) && (Max b <? 2 ^ 63) && exact (Min b) && exact (Max b) &&
  canonical (Jitter b) && Float64.leb (Jitter b) Math.one.
End Wait.

Module WaitFacts.
Import Wait FloatFacts.

(** A duration of more than nothing that a float holds. *)
Lemma exact_limit d : 0 < d -> exact d = true ->
  is_number (Float64.of_Z d) = true /\ nonneg (Float64.of_Z d) = true /\ 0 < scaled (Float64.of_Z d) /\
  (d < 2 ^ 63 -> trunc (Float64.of_Z d) = d).
Proof.
  intros Hd He%Z.eqb_eq. pose proof (of_Z_canonical d) as Hc. destruct (Float64.of_Z d) as [s|s| |s m e] eqn:Ef;
    unfold Float64.to_i64 in He; [lia | lia | lia |].
  pose proof (canonical_ge _ _ _ Hc). pose proof (magnitude_pos m e H).
  assert (Hs : s = false).
  { destruct s; [|done]. exfalso. rewrite magnitude_trunc in He by done.
    assert (0 <= Z.quot (Zpos m * 2 ^ (e + 1074)) unit_scale) by (apply Z.quot_pos; [lia | pose proof unit_scale_pos; lia]).
    destruct (_ && _) in He; lia. }
  subst s. split_and!; [done | done | unfold scaled; lia |]. intros Hlt.
  rewrite magnitude_trunc in He by done. unfold trunc, scaled. rewrite Z.mul_1_l.
  destruct (_ && _) in He; [done | lia].
Qed.

(** The numbers between nothing and one. *)
Lemma one_value : canonical Math.one = true /\ is_number Math.one = true /\ scaled Math.one < 2 ^ (1 + 1074) /\ 0 <= scaled Math.one.
Proof. split_and!; [by vm_compute.. | by apply Z.leb_le; vm_compute]. Qed.
Lemma at_most_one x : canonical x = true -> Float64.ltb Float64.zero x = true \/ Float64.leb Float64.zero x = true ->
  Float64.leb x Math.one = true \/ Float64.ltb x Math.one = true -> is_number x = true /\ below 1 x.
Proof.
  intros Hc Hlow Hhigh. destruct one_value as (Hoc & Hon & Ho & _). assert (Hn : is_number x = true).
  { destruct x as [s|[]| |s m e]; try done; exfalso; destruct Hlow, Hhigh; done. }
  split; [done|]. assert (scaled x <= scaled Math.one).
  { destruct Hhigh as [Hh|Hh]; [rewrite leb_scaled in Hh by done; lia | rewrite ltb_scaled in Hh by done; lia]. }
  assert (0 <= scaled x).
  { destruct Hlow as [Hl|Hl]; [rewrite ltb_scaled in Hl by done | rewrite leb_scaled in Hl by done]; change (scaled Float64.zero) with 0 in Hl; lia. }
  apply below_scaled; [done | done | lia|]. lia.
Qed.

Lemma base_ok b : limits_ok b = true -> Factor b = Float64.of_Z 2 -> 0 <= attempt b ->
  canonical (base b) = true /\ below 63 (base b).
Proof.
  unfold limits_ok. rewrite !andb_true_iff, !Z.ltb_lt, Z.leb_le. intros ((((((Hmin & Hle) & Hmax) & He1) & He2) & _) & _) Hf Ha.
  destruct (exact_limit (Min b) Hmin He1) as (Hn1 & Hp1 & Hs1 & _).
  destruct (exact_limit (Max b) ltac:(lia) He2) as (Hn2 & Hp2 & Hs2 & Ht2).
  pose proof (of_Z_canonical (Min b)) as Hc1. pose proof (of_Z_canonical (Max b)) as Hc2.
  unfold base. rewrite Hf. destruct (pow_two (attempt b) Ha) as [Hcp Hpp].
  assert (Hc : canonical (Float64.mul (Float64.of_Z (Min b)) (Math.Pow (Float64.of_Z 2) (attempt b))) = true) by by apply mul_canonical.
  assert (Hp : nonneg (Float64.mul (Float64.of_Z (Min b)) (Math.Pow (Float64.of_Z 2) (attempt b))) = true).
  { rewrite mul_comm. destruct (Float64.of_Z (Min b)) as [s|s| |[] m e]; simpl in Hs1; try done. by apply mul_nonneg. }
  assert (Hhi : below 63 (Float64.of_Z (Max b))).
  { apply below_scaled; [done | done | lia|]. specialize (Ht2 Hmax). unfold trunc in Ht2. pose proof unit_scale_pos.
    rewrite Z.quot_div_nonneg in Ht2 by lia. pose proof (Z.mul_succ_div_gt (scaled (Float64.of_Z (Max b))) unit_scale ltac:(lia)) as Hd.
    rewrite Ht2 in Hd. rewrite Z.abs_eq by lia. change (63 + 1074) with (1074 + 63). rewrite Z.pow_add_r by lia.
    fold unit_scale. nia. }
  generalize dependent (Float64.mul (Float64.of_Z (Min b)) (Math.Pow (Float64.of_Z 2) (attempt b))). intros d Hc Hp.
  destruct (is_number d) eqn:Hn.
  - rewrite ltb_scaled by done. destruct (Z.ltb_spec (scaled (Float64.of_Z (Max b))) (scaled d)); [done|]. split; [done|].
    pose proof (nonneg_scaled d Hc Hp). apply below_scaled; [done | done | lia|].
    assert (Hb : Z.abs (scaled (Float64.of_Z (Max b))) < 2 ^ (63 + 1074)) by by apply scaled_below.
    lia.
  - destruct d as [s|[]| |s m e]; try done.
    assert (Float64.ltb (Float64.of_Z (Max b)) (S754_infinity false) = true) as ->; [|done].
    by destruct (Float64.of_Z (Max b)) as [|[]| |].
Qed.

Lemma spread_ok b rand d : canonical d = true -> below 63 d ->
  canonical (Jitter b) = true -> Float64.leb (Jitter b) Math.one = true -> is_random rand = true ->
  canonical (spread b rand d) = true /\ is_number (spread b rand d) = true.
Proof.
  intros Hc Hd Hcj Hj [[Hcr Hr0]%andb_true_iff Hr1]%andb_true_iff. unfold spread.
  destruct (Float64.ltb Float64.zero (Jitter b)) eqn:Hj0; [|split; [done | by eapply below_number]].
  destruct (at_most_one (Jitter b) Hcj (or_introl Hj0) (or_introl Hj)) as [_ Hbj].
  destruct (at_most_one rand Hcr (or_intror Hr0) (or_intror Hr1)) as [_ Hbr].
  pose proof (of_Z_canonical 2) as Hc2. pose proof (of_Z_canonical 1) as Hc1.
  assert (Hb2 : below 2 (Float64.of_Z 2)) by by vm_compute.
  assert (Hb1 : below 4 (Float64.of_Z 1)) by by vm_compute.
  pose proof (mul_canonical _ _ Hc2 Hcr) as Hct. pose proof (mul_below 2 1 _ _ Hc2 Hcr Hb2 Hbr ltac:(lia)) as Hbt.
  pose proof (sub_canonical _ _ Hct Hc1) as Hcs. pose proof (sub_below 4 _ _ Hbt Hb1 ltac:(lia)) as Hbs.
  pose proof (mul_canonical _ _ Hc Hcj) as Hcm. pose proof (mul_below 63 1 _ _ Hc Hcj Hd Hbj ltac:(lia)) as Hbm.
  pose proof (mul_canonical _ _ Hcm Hcs) as Hcp. pose proof (mul_below 65 6 _ _ Hcm Hcs Hbm Hbs ltac:(lia)) as Hbp.
  split; [by apply add_canonical|]. eapply below_number. apply (add_below 72); [|exact Hbp | lia].
  eapply below_mono; [exact Hd | lia].
Qed.

(** A wait is between the limits. *)
Lemma Duration_between b rand : limits_ok b = true -> Factor b = Float64.of_Z 2 -> 0 <= attempt b -> is_random rand = true ->
  Min b <= (Duration b rand).2 <= Max b.
Proof.
  intros Hl Hf Ha Hr. destruct (base_ok b Hl Hf Ha) as [Hc Hb]. unfold limits_ok in Hl.
  rewrite !andb_true_iff, !Z.ltb_lt, Z.leb_le in Hl. destruct Hl as ((((((Hmin & Hle) & Hmax) & He1) & He2) & Hcj) & Hj).
  destruct (spread_ok b rand (base b) Hc Hb Hcj Hj Hr) as [Hcs Hns].
  destruct (exact_limit (Min b) Hmin He1) as (Hn1 & _ & _ & Ht1). destruct (exact_limit (Max b) ltac:(lia) He2) as (Hn2 & _ & _ & Ht2).
  pose proof (of_Z_canonical (Min b)) as Hc1. pose proof (of_Z_canonical (Max b)) as Hc2.
  specialize (Ht1 ltac:(lia)). specialize (Ht2 Hmax).
  assert (Hss : scaled (Float64.of_Z (Min b)) <= scaled (Float64.of_Z (Max b))).
  { destruct (Z.eq_dec (Min b) (Max b)) as [->|]; [done|].
    destruct (Z.le_gt_cases (scaled (Float64.of_Z (Min b))) (scaled (Float64.of_Z (Max b)))) as [|Hgt]; [done|].
    assert (trunc (Float64.of_Z (Max b)) <= trunc (Float64.of_Z (Min b))) by (apply trunc_mono; lia). lia. }
  destruct (clamp_between (Float64.of_Z (Min b)) (Float64.of_Z (Max b)) (spread b rand (base b))) as (Hcc & Hcn & Hcb);
    try done; [by destruct (spread b rand (base b))|].
  apply Z.eqb_eq in He1, He2. unfold Duration. cbn [snd].
  pose proof (to_i64_between (Float64.of_Z (Min b)) (clamp (Float64.of_Z (Min b)) (Float64.of_Z (Max b)) (spread b rand (base b)))
    (Float64.of_Z (Max b)) Hc1 Hcc Hc2 Hn1 Hcn Hn2 Hcb ltac:(lia) ltac:(lia)) as Hb'. lia.
Qed.
End WaitFacts.

(** ** Properties *)
Section Properties.
Import Wait WaitFacts.

(** C11: the agent never waits less than the least or more than the greatest time
    before it connects again, whatever the random numbers, however often it has
    failed and whenever it was connected in between: the growth, the jitter and
    the conversions of the floating point computation stay within the limits. *)
Theorem waits_within_limits (b : Backoff) (ops : list op) :
  limits_ok b = true -> Factor b = Float64.of_Z 2 -> 0 <= attempt b -> attempt b + Z.of_nat (length ops) < 2 ^ 63 ->
  (forall rand, Next rand ∈ ops -> is_random rand = true) ->
  Forall (fun wait => Min b <= wait <= Max b) (waits b ops).
Proof.
  intros Hl Hf. change (limits_ok b) with (limits_ok (set_attempt 0 b)) in Hl.
  change (Factor b) with (Factor (set_attempt 0 b)) in Hf. change (Min b) with (Min (set_attempt 0 b)).
  change (Max b) with (Max (set_attempt 0 b)).
  destruct b as [lo hi factor jitter n]. unfold set_attempt in *. simpl in *.
  revert n. induction ops as [|[rand|] ops IH]; intros n Hn Hlen Hr; cbn [waits]; [constructor | |].
  - destruct (Duration (mkBackoff lo hi factor jitter n) rand) as [b' wait] eqn:Ed.
    pose proof (Duration_between (mkBackoff lo hi factor jitter n) rand Hl Hf Hn ltac:(apply Hr; by left)) as Hb.
    rewrite Ed in Hb. unfold Duration in Ed. injection Ed as <- _. simpl length in Hlen.
    constructor; [exact Hb|]. simpl. rewrite i64_small by (unfold is_i64; lia).
    apply IH; [lia | lia|]. intros r' Hr'. apply Hr. by right.
  - simpl length in Hlen. apply IH; [lia | lia|]. intros r' Hr'. apply Hr. by right.
Qed.
End Properties.

(** ** Witness *)
Module WaitWitness.
Import Wait.

Definition three_quarters : Float64.t := Float64.div (Float64.of_Z 3) (Float64.of_Z 4).
Definition ops : list op :=
  [Next Math.half; Next three_quarters; Next Float64.zero; Connected; Next three_quarters].
Lemma waits_within_limits_witness :
  Forall (fun wait => 100 * Time.Millisecond <= wait <= 60 * Time.Second) (waits DefaultBackoff ops).
Proof.
  apply (waits_within_limits DefaultBackoff ops); [vm_compute; reflexivity | reflexivity | simpl; lia | simpl; lia |].
  intros rand Hr. repeat (apply elem_of_cons in Hr as [Hr|Hr]; [try discriminate; injection Hr as ->; vm_compute; reflexivity|]).
  by apply elem_of_nil in Hr.
Defined.
(** In milliseconds: the wait doubles, is spread by up to a quarter and cut at a
    minute; the first one is never shorter than the least wait. *)
Example some_waits : (fun d => d / Time.Millisecond) <$> waits DefaultBackoff ops = [100; 225; 300; 112].
Proof. vm_compute. reflexivity. Qed.
Example waits_without_jitter :
  (fun n => (Duration (mkBackoff (100 * Time.Millisecond) (60 * Time.Second) (Float64.of_Z 2) Float64.zero n) Float64.zero).2 / Time.Millisecond)
    <$> [0; 1; 5; 9; 10; 1000; 2000] = [100; 200; 3200; 51200; 60000; 60000; 60000].
Proof. vm_compute. reflexivity. Qed.
End WaitWitness.
