(* ===== verification/WSClient.v ===== *)
(** * WSClient

    internal/agent/wsclient.go: the agent's end of the connection, with the
    events it keeps until they are acknowledged and resends on every connection.
    Each operation is one step; what the socket answers to each write is an
    argument, and the envelopes written are returned.  The state snapshot, the
    on-connect hooks and the command handlers are values given by the agent; what
    the hooks' closures refer to, a value of the type [Env], is given to them when
    they run. *)

From Stdlib Require Import Sorted.
From S2P Require Import Prelude GoStd Commands Floats Backoff.

Inductive ws_error :=
  | ws_dial (e : string)
  | ws_marshal_snapshot (e : string)
  | ws_marshal_envelope (e : envelope_error)
  | ws_not_connected
  | ws_write (e : string)
  | ws_send_snapshot (e : ws_error)
  | ws_resend (seq : Z) (e : ws_error)
  | ws_resend_events (e : ws_error)
  | ws_hook (e : string)
  | ws_hooks (e : ws_error).

Record pendingEvent := mkPending { pe_seq : Z; pe_env : Envelope }.

(** How the socket answers the writes it is given, one after the other. *)
Definition writes := list (option string).

Module Client.
Section Defs.
Context `{Json Envelope} {Handler Env : Type}.

Record WSClient := mkClient {
  url : string; authToken : string; nodeID : string;
  connected : bool;
  lastAckedSeq : Z;
  nextSeq : Z;
  pendingEvents : list pendingEvent;
  backoff : Wait.Backoff;
  snapshotProvider : option (unit -> res string string);
  messageHandler : option Handler;
  onConnectHooks : list (Env -> Time.t -> res string Envelope);
  commandHandlers : gmap string Handler }.

Definition set_connected (b : bool) (c : WSClient) : WSClient :=
  mkClient (url c) (authToken c) (nodeID c) b (lastAckedSeq c) (nextSeq c) (pendingEvents c) (backoff c)
    (snapshotProvider c) (messageHandler c) (onConnectHooks c) (commandHandlers c).
Definition set_backoff (b : Wait.Backoff) (c : WSClient) : WSClient :=
  mkClient (url c) (authToken c) (nodeID c) (connected c) (lastAckedSeq c) (nextSeq c) (pendingEvents c) b
    (snapshotProvider c) (messageHandler c) (onConnectHooks c) (commandHandlers c).
Definition set_pending (seq : Z) (l : list pendingEvent) (c : WSClient) : WSClient :=
  mkClient (url c) (authToken c) (nodeID c) (connected c) (lastAckedSeq c) seq l (backoff c)
    (snapshotProvider c) (messageHandler c) (onConnectHooks c) (commandHandlers c).
Definition set_acked (seq : Z) (l : list pendingEvent) (c : WSClient) : WSClient :=
  mkClient (url c) (authToken c) (nodeID c) (connected c) seq (nextSeq c) l (backoff c)
    (snapshotProvider c) (messageHandler c) (onConnectHooks c) (commandHandlers c).

(** *** Construction *)
Definition WSClientOption := WSClient -> WSClient.
Definition WithSnapshotProvider (sp : unit -> res string string) : WSClientOption := fun c =>
  mkClient (url c) (authToken c) (nodeID c) (connected c) (lastAckedSeq c) (nextSeq c) (pendingEvents c) (backoff c)
    (Some sp) (messageHandler c) (onConnectHooks c) (commandHandlers c).
Definition WithMessageHandler (mh : Handler) : WSClientOption := fun c =>
  mkClient (url c) (authToken c) (nodeID c) (connected c) (lastAckedSeq c) (nextSeq c) (pendingEvents c) (backoff c)
    (snapshotProvider c) (Some mh) (onConnectHooks c) (commandHandlers c).
Definition WithOnConnectHook (hook : option (Env -> Time.t -> res string Envelope)) : WSClientOption := fun c =>
  match hook with
  | None => c
  | Some hook =>
      mkClient (url c) (authToken c) (nodeID c) (connected c) (lastAckedSeq c) (nextSeq c) (pendingEvents c) (backoff c)
        (snapshotProvider c) (messageHandler c) (onConnectHooks c ++ [hook]) (commandHandlers c)
  end.
Definition WithBackoff (b : Wait.Backoff) : WSClientOption := set_backoff b.
Definition WithNodeID (id : string) : WSClientOption := fun c =>
  mkClient (url c) (authToken c) id (connected c) (lastAckedSeq c) (nextSeq c) (pendingEvents c) (backoff c)
    (snapshotProvider c) (messageHandler c) (onConnectHooks c) (commandHandlers c).
Definition NewWSClient (url authToken : string) (opts : list WSClientOption) : WSClient :=
  foldl (fun c opt => opt c) (mkClient url authToken ε false 0 1 [] Wait.DefaultBackoff None None [] ∅) opts.
Definition RegisterCommandHandler (cmdType : string) (handler : Handler) (c : WSClient) : WSClient :=
  mkClient (url c) (authToken c) (nodeID c) (connected c) (lastAckedSeq c) (nextSeq c) (pendingEvents c) (backoff c)
    (snapshotProvider c) (messageHandler c) (onConnectHooks c) (<[cmdType := handler]> (commandHandlers c)).

(** The envelopes written, the answers left, and the error. *)
Definition SendEnvelope (c : WSClient) (w : writes) (env : Envelope) : list Envelope * writes * res ws_error () :=
  match MarshalEnvelope env with
  | Err e => ([], w, Err (ws_marshal_envelope e))
  | Ok _ =>
      if negb (connected c) then ([], w, Err ws_not_connected)
      else
        match w with
        | Some e :: w' => ([], w', Err (ws_write e))
        | None :: w' => ([env], w', Ok ())
        | [] => ([env], [], Ok ())
        end
  end.

Definition SendEvent (c : WSClient) (w : writes) (env : Envelope)
    : WSClient * Z * (list Envelope * writes * res ws_error ()) :=
  let seq := nextSeq c in
  let c := set_pending (i64 (seq + 1)) (pendingEvents c ++ [mkPending seq env]) c in
  (c, seq, SendEnvelope c w env).

Definition AcknowledgeSeq (c : WSClient) (seq : Z) : WSClient :=
  set_acked seq (filter (fun pe => seq < pe_seq pe) (pendingEvents c)) c.

(** Writes one after the other, up to the first error. *)
Fixpoint send_all {A} (c : WSClient) (w : writes) (env_of : A -> res ws_error Envelope)
    (wrap : A -> ws_error -> ws_error) (l : list A) : list Envelope * writes * res ws_error () :=
  match l with
  | [] => ([], w, Ok ())
  | a :: l' =>
      match env_of a with
      | Err e => ([], w, Err (wrap a e))
      | Ok env =>
          match SendEnvelope c w env with
          | (sent, w, Err e) => (sent, w, Err (wrap a e))
          | (sent, w, Ok _) =>
              let '(sent', w, r) := send_all c w env_of wrap l' in (sent ++ sent', w, r)
          end
      end
  end.

Definition resendPendingEvents (c : WSClient) (w : writes) : list Envelope * writes * res ws_error () :=
  send_all c w (fun pe => Ok (pe_env pe)) (fun pe e => ws_resend (pe_seq pe) e) (pendingEvents c).
Definition runOnConnectHooks (c : WSClient) (e : Env) (now : Time.t) (w : writes) : list Envelope * writes * res ws_error () :=
  send_all c w (fun hook => res_map_err ws_hook (hook e now)) (fun _ e => e) (onConnectHooks c).

Definition snapshot_envelope (now : Time.t) (payload : string) : Envelope :=
  mkEnvelope ProtocolVersion MessageTypeRegister ε (Time.Unix now) payload.
Definition sendSnapshot (c : WSClient) (now : Time.t) (w : writes) : list Envelope * writes * res ws_error () :=
  match snapshotProvider c with
  | None => ([], w, Ok ())
  | Some sp =>
      match sp () with
      | Err e => ([], w, Err (ws_marshal_snapshot e))
      | Ok payload => SendEnvelope c w (snapshot_envelope now payload)
      end
  end.

(** The header of the request that opens a connection. *)
Definition dial_header (c : WSClient) : list (string * string) :=
  ("Authorization"%string, ("Bearer " +:+ authToken c)%stdpp) ::
  (if str_empty (nodeID c) then [] else [("X-Node-ID"%string, nodeID c)]).
(** [dialAndServe] up to the read loop. *)
Definition dial_phase (c : WSClient) (dial : res string ()) (e : Env) (now : Time.t) (w : writes)
    : WSClient * list Envelope * res ws_error () :=
  match dial with
  | Err err => (c, [], Err (ws_dial err))
  | Ok _ =>
      let c := set_backoff (Wait.Reset (backoff c)) (set_connected true c) in
      match sendSnapshot c now w with
      | (sent, _, Err err) => (set_connected false c, sent, Err (ws_send_snapshot err))
      | (sent1, w, Ok _) =>
          match resendPendingEvents c w with
          | (sent, _, Err err) => (set_connected false c, sent1 ++ sent, Err (ws_resend_events err))
          | (sent2, w, Ok _) =>
              match runOnConnectHooks c e now w with
              | (sent, _, Err err) => (set_connected false c, sent1 ++ sent2 ++ sent, Err (ws_hooks err))
              | (sent3, _, Ok _) => (c, sent1 ++ sent2 ++ sent3, Ok ())
              end
          end
      end
  end.
(** After a failed or ended connection [connectLoop] takes the next wait from
    the back-off, unless the client has been closed. *)
Definition next_wait (cancelled : bool) (rand : Float64.t) (c : WSClient) : WSClient * option Z :=
  if cancelled then (c, None)
  else let '(b, wait) := Wait.Duration (backoff c) rand in (set_backoff b c, Some wait).
Definition closeConn (c : WSClient) : WSClient := set_connected false c.
Definition IsConnected (c : WSClient) : bool := connected c.
Definition LastAckedSeq (c : WSClient) : Z := lastAckedSeq c.

(** What a message that was read leads to: a command is given to its handler,
    anything else to the message handler, if there is one. *)
Inductive routed :=
  | Ignored
  | ToCommandHandler (h : Handler) (env : Envelope)
  | ToMessageHandler (h : Handler) (env : Envelope).
Definition handleCommand (decode_type : string -> res string string) (c : WSClient) (env : Envelope) : routed :=
  match decode_type (env_Payload env) with
  | Err _ => Ignored
  | Ok t => match commandHandlers c !! t with Some h => ToCommandHandler h env | None => Ignored end
  end.
Definition read_message (decode_type : string -> res string string) (c : WSClient) (msg : string) : routed :=
  match UnmarshalEnvelope msg with
  | Err _ => Ignored
  | Ok env => if String.eqb (env_Type env) MessageTypeCommand then handleCommand decode_type c env
              else match messageHandler c with Some h => ToMessageHandler h env | None => Ignored end
  end.

(** A turn of [readLoop]: why it ends, or where the message goes.  [None] for the
    connection: it has been closed. *)
Inductive loop_end := LoopCancelled | LoopClosed | LoopReadError (e : string).
Definition readLoop_turn (decode_type : string -> res string string) (c : WSClient) (cancelled : bool)
    (read : res string string) : res loop_end routed :=
  if cancelled then Err LoopCancelled
  else if negb (connected c) then Err LoopClosed
  else let? msg := res_map_err LoopReadError read in Ok (read_message decode_type c msg).

(** *** Histories *)
Inductive client_op :=
  | OpSend (env : Envelope) (w : writes)
  | OpAck (seq : Z)
  | OpDial (dial : res string ()) (e : Env) (now : Time.t) (w : writes)
  | OpRetry (rand : Float64.t)
  | OpClose.
Definition client_step (c : WSClient) (op : client_op) : WSClient :=
  match op with
  | OpSend env w => (SendEvent c w env).1.1
  | OpAck seq => AcknowledgeSeq c seq
  | OpDial dial e now w => (dial_phase c dial e now w).1.1
  | OpRetry rand => (next_wait false rand c).1
  | OpClose => closeConn c
  end.

Fixpoint sends (ops : list client_op) : nat :=
  match ops with
  | [] => 0
  | OpSend _ _ :: ops' => S (sends ops')
  | _ :: ops' => sends ops'
  end.
(** The [seq]-th event was sent in the history and no later acknowledgement
    covers it. *)
Definition unacknowledged (ops : list client_op) (seq : Z) (env : Envelope) : Prop :=
  exists before w later, ops = before ++ OpSend env w :: later /\
    seq = Z.of_nat (S (sends before)) /\ forall a, OpAck a ∈ later -> a < seq.
End Defs.
Arguments WSClient : clear implicits.
Arguments client_op : clear implicits.
End Client.

(** ** Lemmas *)
Module ClientFacts.
Import Client.
Section Facts.
Context `{JE : Json Envelope} {Handler Env : Type}.
Implicit Types (c : WSClient Handler Env) (ops : list (client_op Env)).

Lemma sends_app (l1 l2 : list (client_op Env)) : sends (l1 ++ l2) = (sends l1 + sends l2)%nat.
Proof. induction l1 as [|[]]; simpl; lia. Qed.

Lemma unack_send ops env w seq e :
  unacknowledged (ops ++ [OpSend env w]) seq e <->
  unacknowledged ops seq e \/ (seq = Z.of_nat (S (sends ops)) /\ e = env).
Proof.
  split.
  - intros (b & w' & l & Heq & -> & Hl). destruct l as [|op l _] using rev_ind.
    + apply app_inj_tail in Heq as [-> [= -> ->]]. by right.
    + rewrite app_comm_cons, app_assoc in Heq. apply app_inj_tail in Heq as [-> <-]. left.
      exists b, w', l. split_and!; try done. intros a Ha. apply Hl, elem_of_app. by left.
  - intros [(b & w' & l & -> & -> & Hl)|[-> ->]].
    + exists b, w', (l ++ [OpSend env w]). split_and!; [by rewrite <- app_assoc | done |].
      intros a [?|[=]%list_elem_of_singleton]%elem_of_app. by apply Hl.
    + exists ops, w, []. split_and!; [done | done|]. by intros a ?%elem_of_nil.
Qed.
Lemma unack_other ops op seq e :
  (forall env w, op <> OpSend env w) ->
  unacknowledged (ops ++ [op]) seq e <-> unacknowledged ops seq e /\ (forall a, op = OpAck a -> a < seq).
Proof.
  intros Hop. split.
  - intros (b & w' & l & Heq & -> & Hl). destruct l as [|op' l _] using rev_ind.
    + apply app_inj_tail in Heq as [_ ->]. by destruct (Hop e w').
    + rewrite app_comm_cons, app_assoc in Heq. apply app_inj_tail in Heq as [-> <-]. split.
      * exists b, w', l. split_and!; try done. intros a Ha. apply Hl, elem_of_app. by left.
      * intros a ->. apply Hl, elem_of_app. right. by left.
  - intros [(b & w' & l & -> & -> & Hl) Ha]. exists b, w', (l ++ [op]).
    split_and!; [by rewrite <- app_assoc | done |].
    intros a [?|<-%list_elem_of_singleton]%elem_of_app; [by apply Hl | by apply Ha].
Qed.

Lemma unack_bound ops seq e : unacknowledged ops seq e -> 1 <= seq <= Z.of_nat (sends ops).
Proof. intros (b & w & l & -> & -> & _). rewrite sends_app. simpl. lia. Qed.

(** What the operations other than sending and acknowledging leave alone. *)
Lemma dial_phase_same c dial e now w :
  let c' := (dial_phase c dial e now w).1.1 in
  nextSeq c' = nextSeq c /\ pendingEvents c' = pendingEvents c /\
  snapshotProvider c' = snapshotProvider c /\ onConnectHooks c' = onConnectHooks c.
Proof.
  unfold dial_phase. destruct dial; [|done].
  destruct (sendSnapshot _ _ _) as [[s1 w1] [[]|]]; [|done].
  destruct (resendPendingEvents _ _) as [[s2 w2] [[]|]]; [|done].
  by destruct (runOnConnectHooks _ _ _ _) as [[s3 w3] [[]|]].
Qed.
(** Only what marshals is written, in a phase that fails as well. *)
Lemma SendEnvelope_sent c w env : forall x, x ∈ (SendEnvelope c w env).1.1 -> x = env /\ is_Ok (MarshalEnvelope env) = true.
Proof.
  unfold SendEnvelope. intros x. destruct (MarshalEnvelope env); [|by intros ?%elem_of_nil].
  destruct (negb (connected c)); [by intros ?%elem_of_nil|].
  destruct w as [|[] w]; simpl; rewrite ?list_elem_of_singleton; try done; by intros ?%elem_of_nil.
Qed.
Lemma send_all_sent {A} c w (env_of : A -> res ws_error Envelope) wrap l x :
  x ∈ (send_all c w env_of wrap l).1.1 ->
  (exists a, a ∈ l /\ env_of a = Ok x) /\ is_Ok (MarshalEnvelope x) = true.
Proof.
  revert w. induction l as [|a l IH]; intros w; simpl; [by intros ?%elem_of_nil|].
  destruct (env_of a) as [env|] eqn:Ea; [|by intros ?%elem_of_nil].
  pose proof (SendEnvelope_sent c w env) as Hs. destruct (SendEnvelope c w env) as [[s1 w1] [u|e]]; simpl in Hs.
  - specialize (IH w1). destruct (send_all c w1 env_of wrap l) as [[s2 w2] r]. simpl in *.
    intros [[-> ?]%Hs|Hx]%elem_of_app; [split; [exists a; split; [left | done] | done]|].
    destruct (IH Hx) as [(a' & ? & ?) ?]. split; [exists a'; split; [by right | done] | done].
  - intros [-> ?]%Hs. split; [exists a; split; [left | done] | done].
Qed.
Lemma dial_phase_sent c dial e now w x :
  x ∈ (dial_phase c dial e now w).1.2 ->
  is_Ok (MarshalEnvelope x) = true /\
  ((exists sp payload, snapshotProvider c = Some sp /\ sp () = Ok payload /\ x = snapshot_envelope now payload) \/
   x ∈ pe_env <$> pendingEvents c \/
   exists hook, hook ∈ onConnectHooks c /\ hook e now = Ok x).
Proof.
  unfold dial_phase. destruct dial; [|by intros ?%elem_of_nil]. set (c1 := set_backoff _ (set_connected true c)).
  assert (H1 : forall x, x ∈ (sendSnapshot c1 now w).1.1 ->
    is_Ok (MarshalEnvelope x) = true /\
    exists sp payload, snapshotProvider c = Some sp /\ sp () = Ok payload /\ x = snapshot_envelope now payload).
  { unfold sendSnapshot. intros y. change (snapshotProvider c1) with (snapshotProvider c).
    destruct (snapshotProvider c) as [sp|]; [|by intros ?%elem_of_nil].
    destruct (sp ()) as [payload|] eqn:Ep; [|by intros ?%elem_of_nil]. intros [-> ?]%SendEnvelope_sent. split; [done|].
    by exists sp, payload. }
  assert (H2 : forall w x, x ∈ (resendPendingEvents c1 w).1.1 ->
    is_Ok (MarshalEnvelope x) = true /\ x ∈ pe_env <$> pendingEvents c).
  { intros w' y [(pe & Hin & [= <-]) ?]%send_all_sent. split; [done|]. by apply list_elem_of_fmap_2. }
  assert (H3 : forall w x, x ∈ (runOnConnectHooks c1 e now w).1.1 ->
    is_Ok (MarshalEnvelope x) = true /\ exists hook, hook ∈ onConnectHooks c /\ hook e now = Ok x).
  { intros w' y [(hook & Hin & E) ?]%send_all_sent. split; [done|]. exists hook. split; [done|].
    unfold res_map_err in E. destruct (hook e now); congruence. }
  destruct (sendSnapshot c1 now w) as [[s1 w1] [[]|]]; simpl in H1; [|by intros [? ?]%H1; eauto].
  specialize (H2 w1). destruct (resendPendingEvents c1 w1) as [[s2 w2] [[]|]]; simpl in H2;
    [|intros [[? ?]%H1|[? ?]%H2]%elem_of_app; eauto].
  specialize (H3 w2). destruct (runOnConnectHooks c1 e now w2) as [[s3 w3] [[]|]]; simpl in H3;
    intros [[? ?]%H1|[[? ?]%H2|[? ?]%H3]%elem_of_app]%elem_of_app; eauto.
Qed.

Record pending_ok (ops : list (client_op Env)) c : Prop := {
  po_next : nextSeq c = Z.of_nat (S (sends ops));
  po_sorted : StronglySorted Z.lt (pe_seq <$> pendingEvents c);
  po_elem seq e : mkPending seq e ∈ pendingEvents c <-> unacknowledged ops seq e }.

Lemma StronglySorted_filter (P : pendingEvent -> Prop) `{!forall x, Decision (P x)} l :
  StronglySorted Z.lt (pe_seq <$> l) -> StronglySorted Z.lt (pe_seq <$> filter P l).
Proof.
  induction l as [|x l IH]; [done|]. intros [Hs Hx]%StronglySorted_inv. destruct (decide (P x)).
  - rewrite filter_cons_True by done. rewrite fmap_cons. constructor; [by apply IH|].
    rewrite Forall_forall in Hx. apply Forall_forall.
    intros s (y & -> & [_ Hy]%list_elem_of_filter)%list_elem_of_fmap.
    apply Hx, list_elem_of_fmap. by exists y.
  - rewrite filter_cons_False by done. by apply IH.
Qed.

Lemma StronglySorted_snoc l x :
  StronglySorted Z.lt l -> (forall y, y ∈ l -> y < x) -> StronglySorted Z.lt (l ++ [x]).
Proof.
  induction 1 as [|y l Hs IH Hy]; intros Hx; simpl; [by repeat constructor|]. constructor.
  - apply IH. intros z Hz. apply Hx. by right.
  - rewrite Forall_app. split; [done|]. constructor; [|constructor]. apply Hx. by left.
Qed.

Lemma pending_ok_other ops op c :
  pending_ok ops c -> (forall env w, op <> OpSend env w) -> (forall a, op <> OpAck a) ->
  nextSeq (client_step c op) = nextSeq c -> pendingEvents (client_step c op) = pendingEvents c ->
  pending_ok (ops ++ [op]) (client_step c op).
Proof.
  intros [Hn Hs He] Hop Ha En Ep. split.
  - rewrite En, Hn, sends_app. destruct op; try done; simpl; try lia. by destruct (Hop env w).
  - by rewrite Ep.
  - intros seq e. rewrite Ep, He, unack_other by done. split; [|by intros [? _]].
    intros ?. split; [done|]. intros a ->. by destruct (Ha a).
Qed.

Lemma client_step_ok ops op c :
  Z.of_nat (sends (ops ++ [op])) < 2 ^ 63 - 1 ->
  pending_ok ops c -> pending_ok (ops ++ [op]) (client_step c op).
Proof.
  intros Hlen Hok. rewrite sends_app in Hlen. pose proof Hok as [Hn Hs He]. destruct op as [env w|a|dial e now w| |].
  - simpl in Hlen. split; simpl.
    + rewrite Hn, i64_small, sends_app by (unfold is_i64; lia). simpl. lia.
    + rewrite fmap_app. apply StronglySorted_snoc; [done|]. intros y ([s e] & -> & Hy)%list_elem_of_fmap.
      apply He, unack_bound in Hy. simpl. lia.
    + intros seq e. rewrite unack_send, elem_of_app, He, list_elem_of_singleton, Hn. naive_solver.
  - split; simpl.
    + rewrite Hn, sends_app. simpl. lia.
    + by apply StronglySorted_filter.
    + intros seq e. rewrite list_elem_of_filter, He, unack_other by done. simpl. naive_solver.
  - destruct (dial_phase_same c dial e now w) as (? & ? & _). by apply pending_ok_other.
  - by apply pending_ok_other.
  - by apply pending_ok_other.
Qed.

Lemma history_pending ops c :
  Z.of_nat (sends ops) < 2 ^ 63 - 1 -> nextSeq c = 1 -> pendingEvents c = [] ->
  pending_ok ops (foldl client_step c ops).
Proof.
  intros Hlen Hn Hp. induction ops as [|op ops IH] using rev_ind.
  - simpl. split; [by rewrite Hn | rewrite Hp; constructor |]. intros seq e. rewrite Hp. split; [by intros ?%elem_of_nil|].
    intros ([] & ? & ? & ? & _); done.
  - rewrite foldl_app. simpl. apply client_step_ok; [done|]. apply IH. rewrite sends_app in Hlen. lia.
Qed.

(** *** What a connection writes *)
Lemma send_all_Ok {A} c w (env_of : A -> res ws_error Envelope) wrap l sent w' :
  send_all c w env_of wrap l = (sent, w', Ok ()) -> Forall2 (fun a env => env_of a = Ok env) l sent.
Proof.
  revert w sent w'. induction l as [|a l IH]; intros w sent w'; simpl; [by intros [= <- _]; constructor|].
  destruct (env_of a) as [env|] eqn:Ea; [|done]. unfold SendEnvelope.
  destruct (MarshalEnvelope env); [|done]. destruct (negb (connected c)); [done|].
  destruct w as [|[e|] w]; [|done|].
  - destruct (send_all c [] env_of wrap l) as [[s2 w2] r] eqn:Er. intros [= <- <- ->]. simpl.
    constructor; [done | by eapply IH].
  - destruct (send_all c w env_of wrap l) as [[s2 w2] r] eqn:Er. intros [= <- <- ->]. simpl.
    constructor; [done | by eapply IH].
Qed.

Lemma resend_Ok c w sent w' :
  resendPendingEvents c w = (sent, w', Ok ()) -> sent = pe_env <$> pendingEvents c.
Proof.
  intros Hs%send_all_Ok. induction Hs as [|a env l sent [= <-] _ IH]; [done|]. by rewrite fmap_cons, <- IH.
Qed.

Lemma sendSnapshot_Ok c now w sent w' :
  sendSnapshot c now w = (sent, w', Ok ()) ->
  match snapshotProvider c with
  | None => sent = []
  | Some sp => exists payload, sp () = Ok payload /\ sent = [snapshot_envelope now payload]
  end.
Proof.
  unfold sendSnapshot. destruct (snapshotProvider c) as [sp|]; [|by intros [= <- _]].
  destruct (sp ()) as [payload|]; [|done]. unfold SendEnvelope. destruct (MarshalEnvelope _); [|done].
  destruct (negb _); [done|]. destruct w as [|[]]; try done; intros [= <- _]; by eexists.
Qed.

(** What a connection that comes up has written. *)
Lemma dial_phase_shape c dial e now w c' sent :
  dial_phase c dial e now w = (c', sent, Ok ()) ->
  connected c' = true /\ Wait.Attempt (backoff c') = 0 /\
  exists snap hooks, sent = snap ++ (pe_env <$> pendingEvents c) ++ hooks /\
    match snapshotProvider c' with
    | None => snap = []
    | Some sp => exists payload, sp () = Ok payload /\ snap = [snapshot_envelope now payload]
    end /\
    Forall2 (fun hook env => hook e now = Ok env) (onConnectHooks c') hooks.
Proof.
  unfold dial_phase. destruct dial; [|done].
  destruct (sendSnapshot _ now w) as [[s1 w1] [[]|]] eqn:E1; [|done].
  destruct (resendPendingEvents _ w1) as [[s2 w2] [[]|]] eqn:E2; [|done].
  destruct (runOnConnectHooks _ e now w2) as [[s3 w3] [[]|]] eqn:E3; [|done].
  intros [= <- <-]. split; [done|]. split; [done|].
  apply sendSnapshot_Ok in E1. apply resend_Ok in E2 as ->. apply send_all_Ok in E3.
  exists s1, s3. split_and!; [done | done|].
  eapply Forall2_impl; [exact E3|]. intros hook x. unfold res_map_err. destruct (hook e now); [by intros [= ->] | done].
Qed.

(** A failure on the way closes the connection. *)
Lemma dial_phase_Err c dial e now w c' sent err :
  dial_phase c dial e now w = (c', sent, Err err) -> connected c' = false \/ is_Ok dial = false /\ c' = c.
Proof.
  unfold dial_phase. destruct dial; [|intros [= <- _ _]; by right].
  destruct (sendSnapshot _ now w) as [[s1 w1] [[]|]]; [|intros [= <- _ _]; by left].
  destruct (resendPendingEvents _ w1) as [[s2 w2] [[]|]]; [|intros [= <- _ _]; by left].
  destruct (runOnConnectHooks _ e now w2) as [[s3 w3] [[]|]]; [done|intros [= <- _ _]; by left].
Qed.

(** In particular every pending event. *)
Lemma dial_phase_Ok c dial e now w c' sent :
  dial_phase c dial e now w = (c', sent, Ok ()) ->
  connected c' = true /\ forall pe, pe ∈ pendingEvents c -> pe_env pe ∈ sent.
Proof.
  intros (Hc & _ & snap & hooks & -> & _)%dial_phase_shape. split; [done|]. intros pe Hpe.
  rewrite !elem_of_app. right. left. by apply list_elem_of_fmap_2.
Qed.
End Facts.
End ClientFacts.

(** ** Properties *)
Section Properties.
Import Client ClientFacts.
Context `{JE : Json Envelope} {Handler Env : Type}.

(** C12: no event is lost by a lost connection: after any history of sends,
    acknowledgements, failed and successful connections, a connection that comes
    up writes the state snapshot, then exactly the events that no later
    acknowledgement covers, in the order they were numbered, then the hooks'
    messages; a failure on the way closes the connection, and a failed dial changes
    nothing. *)
Theorem unacknowledged_events_resent (c0 : WSClient Handler Env) (ops : list (client_op Env)) (dial : res string ())
    (e : Env) (now : Time.t) (w : writes) (c : WSClient Handler Env) (sent : list Envelope) (r : res ws_error ()) :
  nextSeq c0 = 1 -> pendingEvents c0 = [] -> Z.of_nat (sends ops) < 2 ^ 63 - 1 ->
  dial_phase (foldl client_step c0 ops) dial e now w = (c, sent, r) ->
  match r with
  | Err _ => connected c = false \/ is_Ok dial = false /\ c = foldl client_step c0 ops
  | Ok _ =>
      connected c = true /\ Wait.Attempt (backoff c) = 0 /\
      exists snap events hooks, sent = snap ++ (pe_env <$> events) ++ hooks /\
        match snapshotProvider c with
        | None => snap = []
        | Some sp => exists payload, sp () = Ok payload /\ snap = [snapshot_envelope now payload]
        end /\
        StronglySorted Z.lt (pe_seq <$> events) /\
        (forall seq env, mkPending seq env ∈ events <-> unacknowledged ops seq env) /\
        Forall2 (fun hook env => hook e now = Ok env) (onConnectHooks c) hooks
  end.
Proof.
  intros Hn Hp Hlen. pose proof (history_pending ops c0 Hlen Hn Hp) as [_ Hsorted Helem].
  set (c1 := foldl client_step c0 ops) in *. intros Hd. destruct r as [[]|err].
  - destruct (dial_phase_shape _ _ _ _ _ _ _ Hd) as (Hc & Hb & snap & hooks & -> & Hsnap & Hh).
    split; [done|]. split; [done|]. by exists snap, (pendingEvents c1), hooks.
  - by apply dial_phase_Err in Hd.
Qed.
End Properties.

(** ** Witness *)
Module ClientWitness.
Import Client ClientFacts CommandWitness.

Definition env (n : Z) : Envelope := mkEnvelope 1 "event" ε n "{}".
Definition c0 : WSClient () () := NewWSClient "ws://h" "t" [WithSnapshotProvider (fun _ => Ok "{}"%string)].
Definition now : Time.t := 62135596805 * Time.Second.
Definition ops : list (client_op ()) :=
  [OpDial (Ok ()) () now []; OpSend (env 1) []; OpSend (env 2) []; OpAck 1; OpSend (env 3) [Some "broken pipe"%string];
   OpClose; OpRetry Math.half; OpSend (env 4) []].
Definition final := dial_phase (foldl client_step c0 ops) (Ok ()) () now [].

Lemma unacknowledged_events_resent_witness :
  connected final.1.1 = true /\ Wait.Attempt (backoff final.1.1) = 0 /\
  exists snap events hooks, final.1.2 = snap ++ (pe_env <$> events) ++ hooks /\
    match snapshotProvider final.1.1 with
    | None => snap = []
    | Some sp => exists payload, sp () = Ok payload /\ snap = [snapshot_envelope now payload]
    end /\
    StronglySorted Z.lt (pe_seq <$> events) /\
    (forall seq env, mkPending seq env ∈ events <-> unacknowledged ops seq env) /\
    Forall2 (fun hook env => hook () now = Ok env) (onConnectHooks final.1.1) hooks.
Proof.
  apply (unacknowledged_events_resent c0 ops (Ok ()) () now [] final.1.1 final.1.2 (Ok ()));
    [done | done | vm_compute; reflexivity | vm_compute; reflexivity].
Defined.
Example resent : final.1.2 = [snapshot_envelope now "{}"; env 2; env 3; env 4].
Proof. vm_compute. reflexivity. Qed.
End ClientWitness.
