(* ===== verification/EnvCheck.v ===== *)
(** * EnvCheck

    internal/agent/envcheck.go: the read-only comparison of a machine with the
    requirements of a manifest.  The machine (commands, environment variables,
    files) is a record of functions; semver ranges are the class [Semver]. *)

From S2P Require Import Prelude GoStd Config.

(** ** The machine *)
Record FileInfo := mkFileInfo { fi_IsDir : bool; fi_Mode : Z }.
Record Machine := mkMachine {
  run_command : string -> list string -> res string string;
  getenv : string -> string;
  stat : string -> option FileInfo }.

(** Masterminds/semver. *)
Class Semver := {
  sv_version : Type;
  sv_constraint : Type;
  NewVersion : string -> option sv_version;
  NewConstraint : string -> option sv_constraint;
  constraint_Check : sv_constraint -> sv_version -> bool;
}.

(** ** Data *)
Definition StatusReady : string := "ready".
Definition StatusDegraded : string := "degraded".
Definition StatusMissing : string := "missing".
Inductive DriftStatus := DriftPass | DriftFail | DriftWarn.
#[export] Instance drift_status_eq_dec : EqDecision DriftStatus.
Proof. solve_decision. Defined.
Record DriftItem := mkDrift {
  di_Category : string; di_Item : string; di_Expected : string; di_Actual : string; di_Status : DriftStatus }.
Record CheckResult := mkCheckResult {
  chk_Status : string; chk_Drift : list DriftItem; chk_Timestamp : Time.t }.

Module EnvCheck.

(** ** Versions *)
Fixpoint span_digits (s : string) : string * string :=
  match s with
  | String c s' =>
      if Strings.is_digit c then let '(a, r) := span_digits s' in (String c a, r) else (ε, s)
  | ε => (ε, ε)
  end.
(** [\d+] after a dot. *)
Definition dot_digits (s : string) : option (string * string) :=
  match s with
  | String c s' =>
      if Ascii.eqb c dot then
        let '(a, r) := span_digits s' in if str_empty a then None else Some (a, r)
      else None
  | ε => None
  end.
(** The pattern [v?(\d+\.\d+(?:\.\d+)?)] at the start of a string: what its
    group matches. *)
Definition version_here (s : string) : option string :=
  let '(a, r) := span_digits (Strings.TrimPrefix s "v") in
  if str_empty a then None
  else
    '(b, r) ← dot_digits r;
    match dot_digits r with
    | Some (c, _) => Some (a +:+ "." +:+ b +:+ "." +:+ c)%stdpp
    | None => Some (a +:+ "." +:+ b)%stdpp
    end.
Fixpoint find_version (s : string) : option string :=
  match version_here s with
  | Some v => Some v
  | None => match s with String _ s' => find_version s' | ε => None end
  end.
Definition parseVersionString (output : string) : string :=
  match find_version output with Some v => v | None => Strings.TrimSpace output end.

Definition normalizeVersion (v : string) : string :=
  let v := Strings.TrimPrefix v "v" in
  match length (Strings.SplitByte v dot) with
  | 1%nat => (v +:+ ".0.0")%stdpp
  | 2%nat => (v +:+ ".0")%stdpp
  | _ => v
  end.

Definition checkVersionConstraint `{Semver} (version constraint : string) : DriftStatus :=
  match NewVersion (normalizeVersion version) with
  | None => DriftFail
  | Some v =>
      match NewConstraint constraint with
      | None => DriftFail
      | Some c => if constraint_Check c v then DriftPass else DriftFail
      end
  end.

(** ** Checks *)
Section Checks.
Context `{Semver} `{MapRange} (m : Machine) (baseDir : string).

Definition getVersion (name : string) : res string string :=
  match run_command m name ["--version"%string] with
  | Err e => Err ("command " +:+ Quote (name +:+ " --version") +:+ " failed: " +:+ e)%stdpp
  | Ok out => Ok (parseVersionString out)
  end.
Definition resolvePath (path : string) : string :=
  if Path.IsAbs path then path else Path.Join [baseDir; path].
Definition exists_file (path : string) : bool := match stat m path with Some _ => true | None => false end.

(** [checkRuntime] and [checkTools] differ in the category. *)
Definition check_version_item (category : string) (req : string * string) : DriftItem :=
  let '(name, constraint) := req in
  match getVersion name with
  | Err e => mkDrift category name constraint ("not found: " +:+ e)%stdpp DriftFail
  | Ok actual => mkDrift category name constraint actual (checkVersionConstraint actual constraint)
  end.
Definition checkRuntime (runtimes : gmap string string) : list DriftItem :=
  check_version_item "runtime" <$> range_of runtimes.
Definition checkTools (tools : gmap string string) : list DriftItem :=
  check_version_item "tools" <$> range_of tools.

Definition checkEnvVars (envVars : gmap string string) : list DriftItem :=
  (fun '(name, requirement) =>
     if str_empty (getenv m name) then
       mkDrift "env_vars" name requirement ε
         (if String.eqb requirement "optional" then DriftWarn else DriftFail)
     else mkDrift "env_vars" name requirement "set" DriftPass) <$> range_of envVars.

Definition checkAgentConfig (agentCfg : option AgentConfigRequirements) : list DriftItem :=
  match agentCfg with
  | None => []
  | Some _ =>
      if exists_file (Path.Join [baseDir; "AGENT.md"%string])
      then [mkDrift "agent_config" "AGENT.md" "exists" "exists" DriftPass]
      else [mkDrift "agent_config" "AGENT.md" "exists" "missing" DriftFail]
  end.

Definition check_file (file : string) : DriftItem :=
  if exists_file (resolvePath file) then mkDrift "context" file "exists" "exists" DriftPass
  else mkDrift "context" file "exists" "missing" DriftFail.
Definition check_dir (dir : string) : DriftItem :=
  match stat m (resolvePath dir) with
  | None => mkDrift "context" dir "directory" "missing" DriftFail
  | Some info =>
      if negb (fi_IsDir info) then mkDrift "context" dir "directory" "not a directory" DriftFail
      else mkDrift "context" dir "directory" "directory" DriftPass
  end.
Definition checkContext (ctxReqs : option ContextRequirements) : list DriftItem :=
  match ctxReqs with
  | None => []
  | Some c => (check_file <$> ctx_Files c) ++ (check_dir <$> ctx_Directories c)
  end.

Definition executable (info : FileInfo) : bool := negb (Z.land (fi_Mode info) 73 =? 0).
Definition check_hook (hook : string) : DriftItem :=
  let item := ("hook:" +:+ hook)%stdpp in
  match stat m (Path.Join [baseDir; ".git"; "hooks"; hook]%string) with
  | None => mkDrift "git" item "installed" "missing" DriftFail
  | Some info =>
      if negb (executable info) then mkDrift "git" item "installed" "not executable" DriftFail
      else mkDrift "git" item "installed" "installed" DriftPass
  end.
Definition check_git_config (kv : string * string) : DriftItem :=
  let '(key, expected) := kv in
  let item := ("config:" +:+ key)%stdpp in
  match run_command m "git" ["config"; "--get"; key]%string with
  | Err _ => mkDrift "git" item expected ε DriftFail
  | Ok actual =>
      if str_empty actual then mkDrift "git" item expected ε DriftFail
      else if negb (String.eqb actual expected) then mkDrift "git" item expected actual DriftFail
      else mkDrift "git" item expected actual DriftPass
  end.
Definition checkGit (gitReqs : option GitRequirements) : list DriftItem :=
  match gitReqs with
  | None => []
  | Some g => (check_hook <$> git_Hooks g) ++ (check_git_config <$> range_of (git_Config g))
  end.

Definition check_required_doc (doc : string) : DriftItem :=
  if exists_file (resolvePath doc) then mkDrift "docs" doc "exists" "exists" DriftPass
  else mkDrift "docs" doc "exists" "missing" DriftFail.
Definition check_recommended_doc (doc : string) : DriftItem :=
  if exists_file (resolvePath doc) then mkDrift "docs" doc "recommended" "exists" DriftPass
  else mkDrift "docs" doc "recommended" "missing" DriftWarn.
Definition checkDocs (docsReqs : option DocsRequirements) : list DriftItem :=
  match docsReqs with
  | None => []
  | Some d => (check_required_doc <$> docs_Required d) ++ (check_recommended_doc <$> docs_Recommended d)
  end.

(** The loop's two flags: a failure, a warning. *)
Definition status_flags (items : list DriftItem) : bool * bool :=
  foldl (fun '(f, w) item =>
    match di_Status item with DriftFail => (true, w) | DriftWarn => (f, true) | DriftPass => (f, w) end)
    (false, false) items.
Definition determineStatus (items : list DriftItem) : string :=
  let '(hasFailure, hasWarning) := status_flags items in
  if (hasFailure : bool) then StatusMissing else if (hasWarning : bool) then StatusDegraded else StatusReady.

Definition Check (now : Time.t) (reqs : option ManifestRequirements) : CheckResult :=
  match reqs with
  | None => mkCheckResult StatusReady [] now
  | Some r =>
      let drift := checkRuntime (mr_Runtime r) ++ checkTools (mr_Tools r) ++ checkEnvVars (mr_EnvVars r) ++
        checkAgentConfig (mr_AgentConfig r) ++ checkContext (mr_Context r) ++ checkGit (mr_Git r) ++
        checkDocs (mr_Docs r) in
      mkCheckResult (determineStatus drift) drift now
  end.
End Checks.
End EnvCheck.

(** ** Lemmas *)
Module EnvCheckFacts.
Import EnvCheck.
Section Facts.
Context `{SV : Semver} `{MR : MapRange} (m : Machine) (baseDir : string).

(** *** The requirements, stated on the machine *)
Definition version_met (name constraint : string) : Prop :=
  exists out v c, run_command m name ["--version"%string] = Ok out /\
    NewVersion (normalizeVersion (parseVersionString out)) = Some v /\
    NewConstraint constraint = Some c /\ constraint_Check c v = true.
Definition present (path : string) : Prop := is_Some (stat m (resolvePath baseDir path)).

Definition required_met (r : ManifestRequirements) : Prop :=
  (forall n c, mr_Runtime r !! n = Some c -> version_met n c) /\
  (forall n c, mr_Tools r !! n = Some c -> version_met n c) /\
  (forall n q, mr_EnvVars r !! n = Some q -> q <> "optional"%string -> getenv m n <> ε) /\
  (mr_AgentConfig r <> None -> is_Some (stat m (Path.Join [baseDir; "AGENT.md"%string]))) /\
  (forall c, mr_Context r = Some c ->
     (forall f, f ∈ ctx_Files c -> present f) /\
     (forall d, d ∈ ctx_Directories c -> exists i, stat m (resolvePath baseDir d) = Some i /\ fi_IsDir i = true)) /\
  (forall g, mr_Git r = Some g ->
     (forall h, h ∈ git_Hooks g -> exists i,
        stat m (Path.Join [baseDir; ".git"; "hooks"; h]%string) = Some i /\ executable i = true) /\
     (forall k v, git_Config g !! k = Some v -> v <> ε /\
        run_command m "git" ["config"; "--get"; k]%string = Ok v)) /\
  (forall d, mr_Docs r = Some d -> forall f, f ∈ docs_Required d -> present f).
Definition recommended_met (r : ManifestRequirements) : Prop :=
  (forall n, mr_EnvVars r !! n = Some "optional"%string -> getenv m n <> ε) /\
  (forall d, mr_Docs r = Some d -> forall f, f ∈ docs_Recommended d -> present f).

(** *** Statuses of a list of items *)
Definition without (s : DriftStatus) (items : list DriftItem) : Prop :=
  forall i, i ∈ items -> di_Status i <> s.
Lemma without_app s l1 l2 : without s (l1 ++ l2) <-> without s l1 /\ without s l2.
Proof. unfold without. setoid_rewrite elem_of_app. naive_solver. Qed.
Lemma without_nil s : without s [] <-> True.
Proof. split; [done|]. by intros _ i ?%elem_of_nil. Qed.
Lemma without_fmap {A} s (f : A -> DriftItem) l :
  without s (f <$> l) <-> forall a, a ∈ l -> di_Status (f a) <> s.
Proof. unfold without. setoid_rewrite list_elem_of_fmap. naive_solver. Qed.
Lemma without_one s i : without s [i] <-> di_Status i <> s.
Proof. unfold without. setoid_rewrite list_elem_of_singleton. naive_solver. Qed.
Lemma without_range s (f : string * string -> DriftItem) (g : gmap string string) :
  without s (f <$> range_of g) <-> forall n c, g !! n = Some c -> di_Status (f (n, c)) <> s.
Proof.
  rewrite without_fmap. split.
  - intros Hf n c Hn. apply Hf. by apply elem_of_range.
  - intros Hf [n c] Hn. apply Hf. by apply elem_of_range.
Qed.

Lemma status_flags_snoc items i :
  status_flags (items ++ [i]) =
  match di_Status i with
  | DriftFail => (true, (status_flags items).2)
  | DriftWarn => ((status_flags items).1, true)
  | DriftPass => status_flags items
  end.
Proof. unfold status_flags. rewrite foldl_app. simpl. by destruct (foldl _ _ _), (di_Status i). Qed.
Lemma status_flags_false items :
  ((status_flags items).1 = false <-> without DriftFail items) /\
  ((status_flags items).2 = false <-> without DriftWarn items).
Proof.
  induction items as [|i items [IH1 IH2]] using rev_ind; [by rewrite !without_nil|].
  rewrite status_flags_snoc, !without_app, !without_one. destruct (di_Status i); simpl; naive_solver.
Qed.
Lemma determineStatus_spec items :
  (determineStatus items = StatusMissing <-> ~ without DriftFail items) /\
  (determineStatus items = StatusDegraded <-> without DriftFail items /\ ~ without DriftWarn items) /\
  (determineStatus items = StatusReady <-> without DriftFail items /\ without DriftWarn items).
Proof.
  destruct (status_flags_false items) as [<- <-]. unfold determineStatus.
  destruct (status_flags items) as [[] []]; simpl; split_and!; split; try done; naive_solver.
Qed.

(** *** What each check finds *)
(** An item's test against the requirement it stands for, after the case
    analysis. *)
Ltac iff_cases :=
  split;
  [first [done | intros _; eauto 6 | intros ? ?; congruence | naive_solver]
  |first [done | intros; repeat match goal with
     | H : exists _, _ |- _ => destruct H as [? H]
     | H : _ /\ _ |- _ => destruct H end; simplify_eq; congruence | naive_solver]].
Lemma checkVersionConstraint_cases v c :
  checkVersionConstraint v c = DriftPass \/ checkVersionConstraint v c = DriftFail.
Proof.
  unfold checkVersionConstraint. destruct (NewVersion _); [|by right].
  destruct (NewConstraint _); [|by right]. destruct (constraint_Check _ _); auto.
Qed.
Lemma version_item_fail cat n c :
  di_Status (check_version_item m cat (n, c)) <> DriftFail <-> version_met n c.
Proof.
  unfold check_version_item, getVersion, version_met. destruct (run_command m n ["--version"%string]) as [out|e]; simpl.
  - unfold checkVersionConstraint. destruct (NewVersion _) as [v|] eqn:Ev;
      [destruct (NewConstraint c) as [k|] eqn:Ek; [destruct (constraint_Check k v) eqn:Ec|]|].
    1: split; [intros _; by exists out, v, k | done].
    all: split; [done | intros (out' & v' & k' & [= <-] & Hv & Hk & Hc); congruence].
  - split; [done|]. by intros (out' & v' & k' & ? & _).
Qed.
Lemma version_item_warn cat n c : di_Status (check_version_item m cat (n, c)) <> DriftWarn.
Proof.
  unfold check_version_item. destruct (getVersion m n) as [v|]; simpl; [|done].
  by destruct (checkVersionConstraint_cases v c) as [-> | ->].
Qed.

Lemma env_item_fail n q :
  di_Status (if str_empty (getenv m n)
             then mkDrift "env_vars" n q ε (if String.eqb q "optional" then DriftWarn else DriftFail)
             else mkDrift "env_vars" n q "set" DriftPass) <> DriftFail <->
  (q <> "optional"%string -> getenv m n <> ε).
Proof.
  destruct (str_empty (getenv m n)) eqn:Ee.
  - apply str_empty_true in Ee. destruct (String.eqb_spec q "optional"); simpl; iff_cases.
  - apply str_empty_false in Ee. simpl. iff_cases.
Qed.
Lemma env_item_warn n q :
  di_Status (if str_empty (getenv m n)
             then mkDrift "env_vars" n q ε (if String.eqb q "optional" then DriftWarn else DriftFail)
             else mkDrift "env_vars" n q "set" DriftPass) <> DriftWarn <->
  (q = "optional"%string -> getenv m n <> ε).
Proof.
  destruct (str_empty (getenv m n)) eqn:Ee.
  - apply str_empty_true in Ee. destruct (String.eqb_spec q "optional"); simpl; iff_cases.
  - apply str_empty_false in Ee. simpl. iff_cases.
Qed.

Lemma exists_file_true path : exists_file m path = true <-> is_Some (stat m path).
Proof. unfold exists_file. destruct (stat m path); split; try done; by intros [? [=]]. Qed.
(** An item that passes when a file is there, and otherwise has status [s]. *)
Lemma file_item (p : string) (good bad : DriftItem) s :
  di_Status good = DriftPass -> di_Status bad = s -> s <> DriftPass ->
  (di_Status (if exists_file m p then good else bad) <> s <-> is_Some (stat m p)).
Proof. intros Hg Hb Hs. rewrite <- exists_file_true. destruct (exists_file m p); rewrite ?Hg, ?Hb; naive_solver. Qed.

Lemma check_dir_fail d :
  di_Status (check_dir m baseDir d) <> DriftFail <->
  exists i, stat m (resolvePath baseDir d) = Some i /\ fi_IsDir i = true.
Proof. unfold check_dir. destruct (stat m _) as [i|]; [destruct (fi_IsDir i) eqn:Ei|]; simpl; iff_cases. Qed.
Lemma check_hook_fail h :
  di_Status (check_hook m baseDir h) <> DriftFail <->
  exists i, stat m (Path.Join [baseDir; ".git"; "hooks"; h]%string) = Some i /\ executable i = true.
Proof. unfold check_hook. destruct (stat m _) as [i|]; [destruct (executable i) eqn:Ei|]; simpl; iff_cases. Qed.
Lemma check_git_config_fail k v :
  di_Status (check_git_config m (k, v)) <> DriftFail <->
  v <> ε /\ run_command m "git" ["config"; "--get"; k]%string = Ok v.
Proof.
  unfold check_git_config. destruct (run_command m "git" _) as [out|e]; simpl; [|iff_cases].
  destruct (str_empty out) eqn:Ee.
  - apply str_empty_true in Ee as ->. simpl. iff_cases.
  - apply str_empty_false in Ee. destruct (String.eqb_spec out v) as [->|Hne]; simpl; iff_cases.
Qed.

Lemma all_warn_free {A} (f : A -> DriftItem) l :
  (forall a, di_Status (f a) <> DriftWarn) -> without DriftWarn (f <$> l) <-> True.
Proof. intros Hf. rewrite without_fmap. naive_solver. Qed.
Lemma file_item_no_warn (p : string) (good bad : DriftItem) :
  di_Status good = DriftPass -> di_Status bad = DriftFail ->
  di_Status (if exists_file m p then good else bad) <> DriftWarn.
Proof. intros Hg Hb. destruct (exists_file m p); congruence. Qed.
Lemma file_item_no_fail (p : string) (good bad : DriftItem) :
  di_Status good = DriftPass -> di_Status bad = DriftWarn ->
  di_Status (if exists_file m p then good else bad) <> DriftFail.
Proof. intros Hg Hb. destruct (exists_file m p); congruence. Qed.
Lemma check_dir_no_warn d : di_Status (check_dir m baseDir d) <> DriftWarn.
Proof. unfold check_dir. destruct (stat m _) as [i|]; [by destruct (fi_IsDir i)|done]. Qed.
Lemma check_hook_no_warn h : di_Status (check_hook m baseDir h) <> DriftWarn.
Proof. unfold check_hook. destruct (stat m _) as [i|]; [by destruct (executable i)|done]. Qed.
Lemma check_git_config_no_warn kv : di_Status (check_git_config m kv) <> DriftWarn.
Proof.
  destruct kv as [k v]. unfold check_git_config. destruct (run_command m "git" _) as [out|]; [|done].
  destruct (str_empty out); [done|]. by destruct (String.eqb out v).
Qed.

Definition drift_of (r : ManifestRequirements) : list DriftItem := chk_Drift (Check m baseDir 0 (Some r)).

Lemma agent_fail a :
  without DriftFail (checkAgentConfig m baseDir a) <->
  (a <> None -> is_Some (stat m (Path.Join [baseDir; "AGENT.md"%string]))).
Proof.
  unfold checkAgentConfig. destruct a as [a|]; [|rewrite without_nil; naive_solver].
  rewrite <- exists_file_true. destruct (exists_file m _); rewrite without_one; simpl; naive_solver.
Qed.
Lemma agent_warn a : without DriftWarn (checkAgentConfig m baseDir a) <-> True.
Proof.
  unfold checkAgentConfig. destruct a as [a|]; [|by rewrite without_nil].
  destruct (exists_file m _); by rewrite without_one.
Qed.
Lemma context_fail c :
  without DriftFail (checkContext m baseDir c) <->
  forall x, c = Some x -> (forall f, f ∈ ctx_Files x -> present f) /\
     (forall d, d ∈ ctx_Directories x -> exists i, stat m (resolvePath baseDir d) = Some i /\ fi_IsDir i = true).
Proof.
  unfold checkContext. destruct c as [c|]; [|rewrite without_nil; naive_solver].
  rewrite without_app, !without_fmap. setoid_rewrite check_dir_fail. unfold check_file, present.
  setoid_rewrite file_item; [|done..]. naive_solver.
Qed.
Lemma context_warn c : without DriftWarn (checkContext m baseDir c) <-> True.
Proof.
  unfold checkContext. destruct c as [c|]; [|by rewrite without_nil].
  rewrite without_app, !all_warn_free; [done | apply check_dir_no_warn |]. intros f. by apply file_item_no_warn.
Qed.
Lemma git_fail g :
  without DriftFail (checkGit m baseDir g) <->
  forall x, g = Some x ->
     (forall h, h ∈ git_Hooks x -> exists i,
        stat m (Path.Join [baseDir; ".git"; "hooks"; h]%string) = Some i /\ executable i = true) /\
     (forall k v, git_Config x !! k = Some v -> v <> ε /\
        run_command m "git" ["config"; "--get"; k]%string = Ok v).
Proof.
  unfold checkGit. destruct g as [g|]; [|rewrite without_nil; naive_solver].
  rewrite without_app, without_fmap, without_range. setoid_rewrite check_hook_fail.
  setoid_rewrite check_git_config_fail. naive_solver.
Qed.
Lemma git_warn g : without DriftWarn (checkGit m baseDir g) <-> True.
Proof.
  unfold checkGit. destruct g as [g|]; [|by rewrite without_nil].
  rewrite without_app, !all_warn_free; [done | apply check_git_config_no_warn | apply check_hook_no_warn].
Qed.
Lemma required_doc_fail f : di_Status (check_required_doc m baseDir f) <> DriftFail <-> present f.
Proof. by apply file_item. Qed.
Lemma recommended_doc_warn f : di_Status (check_recommended_doc m baseDir f) <> DriftWarn <-> present f.
Proof. by apply file_item. Qed.
Lemma docs_fail d :
  without DriftFail (checkDocs m baseDir d) <->
  forall x, d = Some x -> forall f, f ∈ docs_Required x -> present f.
Proof.
  unfold checkDocs. destruct d as [d|]; [|rewrite without_nil; naive_solver].
  rewrite without_app, !without_fmap. setoid_rewrite required_doc_fail.
  split; [naive_solver|]. intros Hd. split; [intros f Hf; by apply (Hd d)|]. intros f _. by apply file_item_no_fail.
Qed.
Lemma docs_warn d :
  without DriftWarn (checkDocs m baseDir d) <->
  forall x, d = Some x -> forall f, f ∈ docs_Recommended x -> present f.
Proof.
  unfold checkDocs. destruct d as [d|]; [|rewrite without_nil; naive_solver].
  rewrite without_app, !without_fmap. setoid_rewrite recommended_doc_warn.
  split; [naive_solver|]. intros Hd. split; [|intros f Hf; by apply (Hd d)]. intros f _. by apply file_item_no_warn.
Qed.

Lemma drift_fail r : without DriftFail (drift_of r) <-> required_met r.
Proof.
  unfold drift_of, Check, checkRuntime, checkTools, checkEnvVars. cbn [chk_Drift].
  rewrite !without_app, !without_range, agent_fail, context_fail, git_fail, docs_fail.
  setoid_rewrite version_item_fail. setoid_rewrite env_item_fail. done.
Qed.
Lemma drift_warn r : without DriftWarn (drift_of r) <-> recommended_met r.
Proof.
  unfold drift_of, Check, checkRuntime, checkTools, checkEnvVars. cbn [chk_Drift].
  rewrite !without_app, !without_range, agent_warn, context_warn, git_warn, docs_warn.
  setoid_rewrite env_item_warn. unfold recommended_met. pose proof version_item_warn. naive_solver.
Qed.
End Facts.
End EnvCheckFacts.

(** ** Properties *)
Section Properties.
Import EnvCheck EnvCheckFacts.
Context `{SV : Semver} `{MR : MapRange}.

(** The status of a check says how the machine meets the manifest: missing
    when some requirement fails, degraded when only an optional variable or a
    recommended document is missing, ready when everything is there; without a
    manifest it is ready. *)
Theorem check_status_exact (m : Machine) (baseDir : string) (now : Time.t) (r : ManifestRequirements) :
  let status := chk_Status (Check m baseDir now (Some r)) in
  (status = StatusMissing <-> ~ required_met m baseDir r) /\
  (status = StatusDegraded <-> required_met m baseDir r /\ ~ recommended_met m baseDir r) /\
  (status = StatusReady <-> required_met m baseDir r /\ recommended_met m baseDir r) /\
  chk_Status (Check m baseDir now None) = StatusReady.
Proof.
  cbn zeta. rewrite <- drift_fail, <- drift_warn.
  destruct (determineStatus_spec (drift_of m baseDir r)) as (H1 & H2 & H3). split_and!; done.
Qed.
End Properties.
