(* ===== verification/Provision.v ===== *)
(** * Provision

    internal/agent/provision.go: the automatic fixes of a project's
    environment.  Files are created, risky fixes (runtimes and tools) are only
    announced.  The file system is the class [FileSystem], whose laws say that
    the operations used never remove a path; the emitted events are returned. *)

From S2P Require Import Prelude GoStd Config EnvCheck.

(** ** The file system *)
Inductive stat_result := Exists (info : FileInfo) | NotExist | StatError.

Class FileSystem (F : Type) := {
  fs_stat : F -> string -> stat_result;
  fs_read : F -> string -> option string;
  fs_write : F -> string -> string -> Z -> res string F;
  fs_mkdir_all : F -> string -> res string F;
  fs_append : F -> string -> string -> res string F;
}.
Definition is_there {F} `{FileSystem F} (f : F) (path : string) : bool :=
  match fs_stat f path with Exists _ => true | _ => false end.
Definition is_missing {F} `{FileSystem F} (f : F) (path : string) : bool :=
  match fs_stat f path with NotExist => true | _ => false end.
(** The operations create what they are asked to and remove nothing. *)
Class FileSystemLaws (F : Type) `{FileSystem F} := {
  write_creates f p s m f' : fs_write f p s m = Ok f' -> is_missing f' p = false;
  write_keeps f p s m f' q : fs_write f p s m = Ok f' -> is_missing f q = false -> is_missing f' q = false;
  mkdir_creates f p f' : fs_mkdir_all f p = Ok f' -> is_missing f' p = false;
  mkdir_keeps f p f' q : fs_mkdir_all f p = Ok f' -> is_missing f q = false -> is_missing f' q = false;
  append_keeps f p s f' q : fs_append f p s = Ok f' -> is_missing f q = false -> is_missing f' q = false;
}.

(** ** Data of shared/envtypes.go *)
Inductive DriftCategory :=
  | CatRuntime | CatTools | CatEnvVars | CatAgentConfig | CatContext | CatGit | CatDocs.
#[export] Instance drift_category_eq_dec : EqDecision DriftCategory.
Proof. solve_decision. Defined.
Inductive FixStatus := DriftStatusMissing | DriftStatusMismatch | DriftStatusOK.
Record Drift := mkDriftItem {
  dr_Category : DriftCategory; dr_Item : string; dr_Expected : string; dr_Actual : string;
  dr_Status : FixStatus }.
Record ProvisionAction := mkAction {
  pa_Category : DriftCategory; pa_Item : string; pa_Action : string; pa_Path : string }.
Record ProvisionPending := mkPending {
  pp_Category : DriftCategory; pp_Item : string; pp_Reason : string; pp_Command : string }.
Inductive ProvisionStatus := ProvisionCompleted | ProvisionPartial | ProvisionFailed.
Record ProvisionResult := mkProvisionResult {
  prv_Status : ProvisionStatus; prv_Applied : list ProvisionAction; prv_Pending : list ProvisionPending;
  prv_Timestamp : Time.t }.
Record ProvisionEvent := mkProvisionEvent {
  pev_Category : DriftCategory; pev_Item : string; pev_Expected : string; pev_Actual : string;
  pev_SuggestedCmd : string; pev_ApprovalToken : string }.

Inductive fix_error :=
  | unknown_category (c : DriftCategory)
  | create_agent_md_failed (e : string)
  | create_dir_failed (item e : string)
  | create_parent_failed (item e : string)
  | create_file_failed (item e : string)
  | hooks_dir_failed (e : string)
  | install_hook_failed (hook e : string)
  | home_dir_failed (e : string)
  | open_rc_failed (path e : string).
Inductive provision_error := safe_fix_failed (c : DriftCategory) (item : string) (e : fix_error).

Module Provision.

Definition envMarkerComment : string := "# hal-o-swarm managed".
Definition nl : string := String (ascii_of_nat 10) ε.
Definition defaultAgentMD : string :=
  ("# AGENT.md" +:+ nl +:+ nl +:+ "## Project: {{PROJECT_NAME}}" +:+ nl +:+ nl +:+
   "## Instructions" +:+ nl +:+ nl +:+ "_Configure agent instructions here._" +:+ nl)%stdpp.

(** The provisioner, with what it reads of the process: environment variables
    and the home directory. *)
Record Provisioner := mkProvisioner {
  projectDir : string;
  projectName : string;
  manifest : option EnvManifest;
  templateDir : string;
  env : string -> string;
  home : res string string }.

Definition isSafeCategory (cat : DriftCategory) : bool :=
  match cat with
  | CatAgentConfig | CatContext | CatDocs | CatGit | CatEnvVars => true
  | CatRuntime | CatTools => false
  end.

Definition suggestedCommand (item : Drift) : string :=
  match dr_Category item with
  | CatRuntime =>
      if String.eqb (dr_Item item) "node" then "apt-get install nodejs"%string
      else if String.eqb (dr_Item item) "python" then "apt-get install python3"%string
      else if String.eqb (dr_Item item) "java" then "apt-get install openjdk-17-jdk"%string
      else ("apt-get install " +:+ dr_Item item)%stdpp
  | CatTools => ("apt-get install " +:+ dr_Item item)%stdpp
  | _ => ("install " +:+ dr_Item item)%stdpp
  end.

Section Defs.
Context {F : Type} `{FileSystem F} `{MapRange}.

Definition missing_item (cat : DriftCategory) (item expected : string) : Drift :=
  mkDriftItem cat item expected "missing" DriftStatusMissing.
(** The items of [names] whose path does not exist. *)
Definition missing_files (f : F) (cat : DriftCategory) (path_of : string -> string) (names : list string)
    : list Drift :=
  omap (fun n => if is_missing f (path_of n) then Some (missing_item cat n "exists") else None) names.

Definition agent_md (p : Provisioner) : string := Path.Join [projectDir p; "AGENT.md"%string].
Definition in_project (p : Provisioner) (item : string) : string := Path.Join [projectDir p; item].
Definition hook_path (p : Provisioner) (hook : string) : string :=
  Path.Join [projectDir p; ".git"; "hooks"; hook]%string.

Definition risky_items (reqs : ManifestRequirements) : list Drift :=
  ((fun '(runtime, version) => missing_item CatRuntime runtime version) <$> range_of (mr_Runtime reqs)) ++
  ((fun '(tool, version) => missing_item CatTools tool version) <$> range_of (mr_Tools reqs)).
Definition env_items (p : Provisioner) (reqs : ManifestRequirements) : list Drift :=
  omap (fun '(envVar, status) =>
    if String.eqb status "required" && str_empty (env p envVar)
    then Some (missing_item CatEnvVars envVar "set") else None) (range_of (mr_EnvVars reqs)).

Definition detectDrift (f : F) (p : Provisioner) : list Drift :=
  match manifest p ≫= em_Requirements with
  | None => []
  | Some reqs =>
      match mr_AgentConfig reqs with
      | Some _ => missing_files f CatAgentConfig (fun _ => agent_md p) ["AGENT.md"%string]
      | None => []
      end ++
      match mr_Context reqs with
      | Some c => missing_files f CatContext (in_project p) (ctx_Files c) ++
                  missing_files f CatContext (in_project p) (ctx_Directories c)
      | None => []
      end ++
      match mr_Docs reqs with
      | Some d => missing_files f CatDocs (in_project p) (docs_Required d)
      | None => []
      end ++
      match mr_Git reqs with
      | Some g => missing_files f CatGit (hook_path p) (git_Hooks g)
      | None => []
      end ++
      env_items p reqs ++ risky_items reqs
  end.

(** The template at [path], when there is a template directory. *)
Definition template (f : F) (p : Provisioner) (path : list string) : option string :=
  if str_empty (templateDir p) then None else fs_read f (Path.Join (templateDir p :: path)).

(** Each fix returns the file system it leaves, also when it fails. *)
Definition fix_result := (F * res fix_error (option ProvisionAction))%type.

Definition createAgentMD (f : F) (p : Provisioner) : fix_result :=
  let target := agent_md p in
  if is_there f target then (f, Ok None)
  else
    let text := default defaultAgentMD (template f p ["AGENT.md"%string]) in
    let content := Strings.ReplaceAll text "{{PROJECT_NAME}}" (projectName p) in
    match fs_write f target content 420 with
    | Err e => (f, Err (create_agent_md_failed e))
    | Ok f => (f, Ok (Some (mkAction CatAgentConfig "AGENT.md" "created" target)))
    end.

Definition createContextItem (f : F) (p : Provisioner) (item : string) : fix_result :=
  let target := in_project p item in
  if is_there f target then (f, Ok None)
  else if Strings.HasSuffix item "/" then
    match fs_mkdir_all f target with
    | Err e => (f, Err (create_dir_failed item e))
    | Ok f => (f, Ok (Some (mkAction CatContext item "created" target)))
    end
  else
    match fs_mkdir_all f (Path.Dir target) with
    | Err e => (f, Err (create_parent_failed item e))
    | Ok f =>
        match fs_write f target ε 420 with
        | Err e => (f, Err (create_file_failed item e))
        | Ok f => (f, Ok (Some (mkAction CatContext item "created" target)))
        end
    end.

Definition createDoc (f : F) (p : Provisioner) (docName : string) : fix_result :=
  let target := in_project p docName in
  if is_there f target then (f, Ok None)
  else
    let content := default ("# " +:+ Strings.TrimSuffix docName (Path.Ext docName) +:+ nl)%stdpp
                     (template f p [docName]) in
    match fs_mkdir_all f (Path.Dir target) with
    | Err e => (f, Err (create_parent_failed docName e))
    | Ok f =>
        match fs_write f target content 420 with
        | Err e => (f, Err (create_file_failed docName e))
        | Ok f => (f, Ok (Some (mkAction CatDocs docName "created" target)))
        end
    end.

Definition installGitHook (f : F) (p : Provisioner) (hookName : string) : fix_result :=
  let hooksDir := Path.Join [projectDir p; ".git"; "hooks"]%string in
  let target := Path.Join [hooksDir; hookName] in
  if is_there f target then (f, Ok None)
  else
    match fs_mkdir_all f hooksDir with
    | Err e => (f, Err (hooks_dir_failed e))
    | Ok f =>
        let content := default ("#!/bin/sh" +:+ nl +:+ "# " +:+ hookName +:+
                                " hook - hal-o-swarm managed" +:+ nl +:+ "exit 0" +:+ nl)%stdpp
                         (template f p ["hooks"%string; hookName]) in
        match fs_write f target content 493 with
        | Err e => (f, Err (install_hook_failed hookName e))
        | Ok f => (f, Ok (Some (mkAction CatGit hookName "created" target)))
        end
    end.

Definition rc_file (p : Provisioner) (home : string) : string :=
  if Strings.Contains (env p "SHELL") "zsh" then Path.Join [home; ".zshrc"%string]
  else Path.Join [home; ".bashrc"%string].
Definition env_marker (envVar : string) : string := (envMarkerComment +:+ " " +:+ envVar)%stdpp.
Definition injectEnvVar (f : F) (p : Provisioner) (envVar : string) : fix_result :=
  match home p with
  | Err e => (f, Err (home_dir_failed e))
  | Ok home =>
      let rcFile := rc_file p home in
      let marker := env_marker envVar in
      if match fs_read f rcFile with Some data => Strings.Contains data marker | None => false end
      then (f, Ok None)
      else
        match fs_append f rcFile (nl +:+ marker +:+ nl +:+ "export " +:+ envVar +:+ "=" +:+ nl)%stdpp with
        | Err e => (f, Err (open_rc_failed rcFile e))
        | Ok f => (f, Ok (Some (mkAction CatEnvVars envVar "injected" rcFile)))
        end
  end.

Definition applySafeFix (f : F) (p : Provisioner) (item : Drift) : fix_result :=
  match dr_Category item with
  | CatAgentConfig => createAgentMD f p
  | CatContext => createContextItem f p (dr_Item item)
  | CatDocs => createDoc f p (dr_Item item)
  | CatGit => installGitHook f p (dr_Item item)
  | CatEnvVars => injectEnvVar f p (dr_Item item)
  | c => (f, Err (unknown_category c))
  end.

Definition emitRiskyFix (item : Drift) (token : string) : ProvisionPending * ProvisionEvent :=
  let cmd := suggestedCommand item in
  (mkPending (dr_Category item) (dr_Item item) "manual_approval_required" cmd,
   mkProvisionEvent (dr_Category item) (dr_Item item) (dr_Expected item) (dr_Actual item) cmd token).

(** The loop over the drift; [tokens i] is the [i]-th approval token drawn. *)
Record progress := mkProgress {
  pg_fs : F; pg_applied : list ProvisionAction; pg_pending : list ProvisionPending;
  pg_events : list ProvisionEvent }.
Fixpoint provision_loop (tokens : nat -> string) (p : Provisioner) (g : progress) (drift : list Drift)
    : progress * res provision_error () :=
  match drift with
  | [] => (g, Ok ())
  | item :: drift' =>
      match dr_Status item with
      | DriftStatusOK => provision_loop tokens p g drift'
      | _ =>
          if isSafeCategory (dr_Category item) then
            match applySafeFix (pg_fs g) p item with
            | (f, Err e) =>
                (mkProgress f (pg_applied g) (pg_pending g) (pg_events g),
                 Err (safe_fix_failed (dr_Category item) (dr_Item item) e))
            | (f, Ok action) =>
                provision_loop tokens p
                  (mkProgress f (pg_applied g ++ option_list action) (pg_pending g) (pg_events g)) drift'
            end
          else
            let '(pending, event) := emitRiskyFix item (tokens (length (pg_pending g))) in
            provision_loop tokens p
              (mkProgress (pg_fs g) (pg_applied g) (pg_pending g ++ [pending]) (pg_events g ++ [event])) drift'
      end
  end.

(** The result is returned with the error too. *)
Definition Provision (tokens : nat -> string) (now : Time.t) (f : F) (p : Provisioner)
    : progress * ProvisionResult * res provision_error () :=
  let '(g, r) := provision_loop tokens p (mkProgress f [] [] []) (detectDrift f p) in
  let status :=
    match r with
    | Err _ => ProvisionFailed
    | Ok _ => if (0 <? length (pg_pending g))%nat then ProvisionPartial else ProvisionCompleted
    end in
  (g, mkProvisionResult status (pg_applied g) (pg_pending g) now, r).
End Defs.
Arguments progress : clear implicits.
End Provision.

(** ** Lemmas *)
Module ProvisionFacts.
Import Provision.

Lemma Clean_nonempty path : Path.Clean path <> ε.
Proof.
  unfold Path.Clean. destruct (Path.IsAbs path); [done|]. destruct (str_empty _) eqn:E; [done|].
  by apply str_empty_false.
Qed.

(** The hook's path as the check and as the fix compute it. *)
Lemma hook_target p h : Path.Join [Path.Join [projectDir p; ".git"; "hooks"]%string; h] = hook_path p h.
Proof.
  unfold hook_path.
  assert (exists base, Path.Join [projectDir p; ".git"; "hooks"]%string = Path.Clean base /\
    Path.Join [projectDir p; ".git"; "hooks"; h]%string = Path.Clean (base +:+ String Path.slash h)%stdpp /\
    PathFacts.elems_of base <> []) as (base & -> & -> & Hne).
  { cbn [Path.Join]. destruct (str_empty (projectDir p)).
    - exists ".git/hooks"%string. split_and!; done.
    - exists (projectDir p +:+ String Path.slash ".git/hooks")%stdpp. split_and!.
      + done.
      + cbn [Strings.Join]. f_equal. by rewrite StringsFacts.append_assoc.
      + unfold PathFacts.elems_of. rewrite StringsFacts.SplitByte_app_sep, PathFacts.clean_elems_app.
        set (st := rev _). destruct (Path.IsAbs _); cbn; intros E; apply (f_equal length) in E;
          rewrite !length_app in E; simpl in E; lia. }
  cbn [Path.Join]. rewrite (proj2 (str_empty_false _) (Clean_nonempty base)).
  by apply PathFacts.Clean_Clean_app.
Qed.

Section Facts.
Context {F : Type} `{FL : FileSystemLaws F} `{MR : MapRange}.
Implicit Types f : F.

(** No path that was there, or could not be examined, goes missing. *)
Definition keeps f f' : Prop := forall q, is_missing f q = false -> is_missing f' q = false.
Lemma keeps_refl f : keeps f f.
Proof. by intros q. Qed.
#[local] Hint Resolve keeps_refl : core.
Lemma keeps_trans f1 f2 f3 : keeps f1 f2 -> keeps f2 f3 -> keeps f1 f3.
Proof. intros H1 H2 q Hq. auto. Qed.

Lemma is_there_missing f q : is_there f q = true -> is_missing f q = false.
Proof. unfold is_there, is_missing. by destruct (fs_stat f q). Qed.

(** The path an item of the drift is about, for the categories of files. *)
Definition item_path (p : Provisioner) (item : Drift) : option string :=
  match dr_Category item with
  | CatAgentConfig => Some (agent_md p)
  | CatContext | CatDocs => Some (in_project p (dr_Item item))
  | CatGit => Some (hook_path p (dr_Item item))
  | _ => None
  end.

(** The paths a manifest asks for. *)
Inductive required (p : Provisioner) (reqs : ManifestRequirements) : string -> Prop :=
  | required_agent a : mr_AgentConfig reqs = Some a -> required p reqs (Path.Join [projectDir p; "AGENT.md"%string])
  | required_file c n : mr_Context reqs = Some c -> n ∈ ctx_Files c -> required p reqs (Path.Join [projectDir p; n])
  | required_directory c n : mr_Context reqs = Some c -> n ∈ ctx_Directories c ->
      required p reqs (Path.Join [projectDir p; n])
  | required_doc d n : mr_Docs reqs = Some d -> n ∈ docs_Required d -> required p reqs (Path.Join [projectDir p; n])
  | required_hook g h : mr_Git reqs = Some g -> h ∈ git_Hooks g ->
      required p reqs (Path.Join [projectDir p; ".git"; "hooks"; h]%string).
(** An entry for every runtime and for every tool, in any order. *)
Definition installs {B} (entry_of : DriftCategory -> string -> string -> B) (reqs : ManifestRequirements) : list B :=
  ((fun '(name, version) => entry_of CatRuntime name version) <$> map_to_list (mr_Runtime reqs)) ++
  ((fun '(name, version) => entry_of CatTools name version) <$> map_to_list (mr_Tools reqs)).

(** What a fix promises, given the path it is to create. *)
Definition fix_ok (f : F) (cat : DriftCategory) (target : option string) (r : fix_result) : Prop :=
  keeps f r.1 /\
  forall a, r.2 = Ok a ->
    (forall path, target = Some path -> is_missing r.1 path = false) /\
    (forall x, a = Some x -> pa_Category x = cat /\ forall path, target = Some path -> pa_Path x = path).

Lemma fix_ok_there f cat target :
  (forall path, target = Some path -> is_there f path = true) -> fix_ok f cat target (f, Ok None).
Proof.
  intros Ht. split; [apply keeps_refl|]. intros a [= <-]. split; [|done].
  intros path Hp. by apply is_there_missing, Ht.
Qed.
Lemma fix_ok_Err f f' cat target e : keeps f f' -> fix_ok f cat target (f', Err e).
Proof. intros Hk. split; [done|]. by intros a [=]. Qed.
Lemma fix_ok_created f f' cat path x :
  keeps f f' -> is_missing f' path = false -> pa_Category x = cat -> pa_Path x = path ->
  fix_ok f cat (Some path) (f', Ok (Some x)).
Proof.
  intros Hk Hm Hc Hp. split; [done|]. intros a [= <-]. split; [by intros ? [= <-]|].
  intros ? [= <-]. split; [done | by intros ? [= <-]].
Qed.

Lemma keeps_write f p s m f' : fs_write f p s m = Ok f' -> keeps f f'.
Proof. intros Hw q. by eapply write_keeps. Qed.
Lemma keeps_mkdir f p f' : fs_mkdir_all f p = Ok f' -> keeps f f'.
Proof. intros Hw q. by eapply mkdir_keeps. Qed.
Lemma keeps_append f p s f' : fs_append f p s = Ok f' -> keeps f f'.
Proof. intros Hw q. by eapply append_keeps. Qed.

(** A parent directory and then the file. *)
Lemma create_under f dir target content mode cat x e1 e2 :
  pa_Category x = cat -> pa_Path x = target ->
  fix_ok f cat (Some target)
    (match fs_mkdir_all f dir with
     | Err e => (f, Err (e1 e))
     | Ok f => match fs_write f target content mode with
               | Err e => (f, Err (e2 e))
               | Ok f => (f, Ok (Some x))
               end
     end).
Proof.
  intros Hx Hp. destruct (fs_mkdir_all f dir) as [f1|] eqn:E1; [|by apply fix_ok_Err].
  apply keeps_mkdir in E1. destruct (fs_write f1 target content mode) as [f2|] eqn:E2; [|by apply fix_ok_Err].
  apply fix_ok_created; [|by eapply write_creates | done | done].
  eapply keeps_trans; [exact E1 | by eapply keeps_write].
Qed.

Lemma applySafeFix_ok f p item : fix_ok f (dr_Category item) (item_path p item) (applySafeFix f p item).
Proof.
  unfold applySafeFix, item_path. destruct (dr_Category item) eqn:Ec.
  - by apply fix_ok_Err.
  - by apply fix_ok_Err.
  - unfold injectEnvVar. destruct (home p); [|by apply fix_ok_Err].
    match goal with |- context [if ?b then _ else _] => destruct b end; [by apply fix_ok_there|].
    destruct (fs_append _ _ _) as [f'|] eqn:Ea; [|by apply fix_ok_Err].
    split; [by eapply keeps_append|]. intros o [= <-]. split; [done | by intros ? [= <-]].
  - unfold createAgentMD. destruct (is_there f (agent_md p)) eqn:Et; [apply fix_ok_there; by intros ? [= <-]|].
    destruct (fs_write _ _ _ _) as [f'|] eqn:Ew; [|by apply fix_ok_Err].
    apply fix_ok_created; [by eapply keeps_write | by eapply write_creates | done | done].
  - unfold createContextItem.
    destruct (is_there f (in_project p _)) eqn:Et; [apply fix_ok_there; by intros ? [= <-]|].
    destruct (Strings.HasSuffix _ _); [|by apply create_under].
    destruct (fs_mkdir_all _ _) as [f'|] eqn:Ew; [|by apply fix_ok_Err].
    apply fix_ok_created; [by eapply keeps_mkdir | by eapply mkdir_creates | done | done].
  - unfold installGitHook. rewrite hook_target.
    destruct (is_there f (hook_path p _)) eqn:Et; [apply fix_ok_there; by intros ? [= <-]|].
    destruct (fs_mkdir_all _ _) as [f1|] eqn:E1; [|by apply fix_ok_Err].
    apply keeps_mkdir in E1. destruct (fs_write _ _ _ _) as [f2|] eqn:E2; [|by apply fix_ok_Err].
    apply fix_ok_created; [|by eapply write_creates | done | done].
    eapply keeps_trans; [exact E1 | by eapply keeps_write].
  - unfold createDoc.
    destruct (is_there f (in_project p _)) eqn:Et; [apply fix_ok_there; by intros ? [= <-]|].
    by apply create_under.
Qed.

(** *** The loop *)
(** What a pending entry and an announcement name. *)
Definition entry (x : ProvisionPending) : DriftCategory * string * string :=
  (pp_Category x, pp_Item x, pp_Reason x).
Definition announced (e : ProvisionEvent) : DriftCategory * string * string :=
  (pev_Category e, pev_Item e, pev_Expected e).
Definition risky (item : Drift) : bool := negb (isSafeCategory (dr_Category item)).
Definition pending_of (items : list Drift) : list ProvisionPending :=
  (fun item => (emitRiskyFix item ε).1) <$> List.filter risky items.

Definition announced_of (items : list Drift) : list (DriftCategory * string * string) :=
  (fun item => (dr_Category item, dr_Item item, dr_Expected item)) <$> List.filter risky items.

Lemma provision_loop_ok tokens p g drift g' r :
  Forall (fun item => dr_Status item = DriftStatusMissing) drift ->
  Forall (fun a => isSafeCategory (pa_Category a) = true) (pg_applied g) ->
  provision_loop tokens p g drift = (g', r) ->
  keeps (pg_fs g) (pg_fs g') /\
  Forall (fun a => isSafeCategory (pa_Category a) = true) (pg_applied g') /\
  (forall a, a ∈ pg_applied g' -> a ∈ pg_applied g \/ exists item, item ∈ drift /\ pa_Category a = dr_Category item /\
    forall path, item_path p item = Some path -> pa_Path a = path) /\
  (r = Ok () ->
    pg_pending g' = pg_pending g ++ pending_of drift /\
    announced <$> pg_events g' = (announced <$> pg_events g) ++ announced_of drift /\
    forall item path, item ∈ drift -> item_path p item = Some path -> is_missing (pg_fs g') path = false).
Proof.
  intros Hst. revert g. induction Hst as [|item drift Hm _ IH]; intros g Hsafe; cbn [provision_loop].
  { intros [= <- <-]. split_and!; [done | done | by left |]. intros _. unfold pending_of, announced_of. simpl.
    rewrite !app_nil_r. split_and!; [done | done |]. by intros ?? ?%elem_of_nil. }
  rewrite Hm. destruct (isSafeCategory (dr_Category item)) eqn:Es.
  - pose proof (applySafeFix_ok (pg_fs g) p item) as [Hk Hfix].
    destruct (applySafeFix (pg_fs g) p item) as [f1 [a|e]]; simpl in Hk.
    + intros Hrun. destruct (Hfix a eq_refl) as [Hpath Hcat].
      apply IH in Hrun as (Hk' & Hs' & Hel & Hok); simpl in *.
      2:{ apply Forall_app. split; [done|]. destruct a as [x|]; [|constructor].
          constructor; [|constructor]. by rewrite (proj1 (Hcat x eq_refl)). }
      split_and!; [by eapply keeps_trans | done | |].
      * intros b [Hb|(i & Hi & Hc)]%Hel; [|right; exists i; split; [by right | done]].
        apply elem_of_app in Hb as [?|Hb]; [by left|]. destruct a as [x|]; [|by apply elem_of_nil in Hb].
        apply list_elem_of_singleton in Hb as ->. right. exists item. split; [by left | by apply Hcat].
      * intros Hr. destruct (Hok Hr) as (-> & -> & Hall). split_and!.
        -- unfold pending_of. simpl. unfold risky at 2. by rewrite Es.
        -- unfold announced_of. simpl. unfold risky at 2. by rewrite Es.
        -- intros i path [->|Hi]%elem_of_cons Hp; [|by eapply Hall]. apply Hk'. by apply Hpath.
    + intros [= <- <-]. simpl. split_and!; [done | done | by left | done].
  - simpl. intros Hrun. apply IH in Hrun as (Hk' & Hs' & Hel & Hok); [|done]. simpl in *.
    split_and!; [done | done | |].
    + intros b [Hb|(i & Hi & Hc)]%Hel; [by left|]. right. exists i. split; [by right | done].
    + intros Hr. destruct (Hok Hr) as (-> & -> & Hall). split_and!.
      * unfold pending_of. simpl. unfold risky at 2. rewrite Es. simpl. by rewrite <- app_assoc.
      * unfold announced_of. simpl. unfold risky at 2. rewrite Es, fmap_app. simpl. by rewrite <- app_assoc.
      * intros i path [->|Hi]%elem_of_cons Hp; [|by eapply Hall].
        unfold item_path in Hp. by destruct (dr_Category item).
Qed.

(** *** The drift *)
Lemma elem_of_missing_files f cat path_of names item :
  item ∈ missing_files f cat path_of names <->
  exists n, n ∈ names /\ is_missing f (path_of n) = true /\ item = missing_item cat n "exists".
Proof.
  unfold missing_files. rewrite list_elem_of_omap. split.
  - intros (n & Hn & Hi). destruct (is_missing f (path_of n)) eqn:Em; [|done]. injection Hi as <-. by exists n.
  - intros (n & Hn & Hm & ->). exists n. by rewrite Hm.
Qed.
(** Only runtimes and tools are risky. *)
Lemma risky_app l1 l2 : List.filter risky (l1 ++ l2) = List.filter risky l1 ++ List.filter risky l2.
Proof. apply List.filter_app. Qed.
Lemma risky_none l : (forall i, i ∈ l -> isSafeCategory (dr_Category i) = true) -> List.filter risky l = [].
Proof.
  intros Hl. induction l as [|i l IH]; [done|]. simpl. unfold risky at 1.
  rewrite Hl by (by left). apply IH. intros j Hj. apply Hl. by right.
Qed.
Lemma risky_all l : (forall i, i ∈ l -> isSafeCategory (dr_Category i) = false) -> List.filter risky l = l.
Proof.
  intros Hl. induction l as [|i l IH]; [done|]. simpl. unfold risky at 1.
  rewrite Hl by (by left). simpl. f_equal. apply IH. intros j Hj. apply Hl. by right.
Qed.
Lemma risky_missing f cat path_of names :
  isSafeCategory cat = true -> List.filter risky (missing_files f cat path_of names) = [].
Proof. intros Hc. apply risky_none. intros i (n & _ & _ & ->)%elem_of_missing_files. done. Qed.
Lemma elem_of_env_items p reqs i :
  i ∈ env_items p reqs -> dr_Category i = CatEnvVars /\ dr_Status i = DriftStatusMissing.
Proof.
  unfold env_items. rewrite list_elem_of_omap. intros ([v s] & _ & Hi). destruct (_ && _); [|done].
  by injection Hi as <-.
Qed.
Lemma risky_items_missing reqs i :
  i ∈ risky_items reqs -> dr_Status i = DriftStatusMissing /\ isSafeCategory (dr_Category i) = false.
Proof.
  unfold risky_items. intros [([? ?] & -> & _)%list_elem_of_fmap|([? ?] & -> & _)%list_elem_of_fmap]%elem_of_app;
    done.
Qed.
Lemma drift_missing f p item : item ∈ detectDrift f p -> dr_Status item = DriftStatusMissing.
Proof.
  unfold detectDrift. destruct (manifest p ≫= em_Requirements) as [reqs|]; [|by intros ?%elem_of_nil].
  assert (forall cat path_of names, item ∈ missing_files f cat path_of names -> dr_Status item = DriftStatusMissing)
    as Hf by (intros cat path_of names (n & _ & _ & ->)%elem_of_missing_files; done).
  rewrite !elem_of_app. intros [Hi|[Hi|[Hi|[Hi|[Hi|Hi]]]]].
  - destruct (mr_AgentConfig reqs); [by eapply Hf | by apply elem_of_nil in Hi].
  - destruct (mr_Context reqs); [|by apply elem_of_nil in Hi]. apply elem_of_app in Hi as [?|?]; by eapply Hf.
  - destruct (mr_Docs reqs); [by eapply Hf | by apply elem_of_nil in Hi].
  - destruct (mr_Git reqs); [by eapply Hf | by apply elem_of_nil in Hi].
  - by apply elem_of_env_items in Hi as [_ ?].
  - by apply risky_items_missing in Hi as [? _].
Qed.

(** The items of the drift that are about a file are the required paths that
    are missing. *)
Lemma drift_files f p reqs path :
  manifest p ≫= em_Requirements = Some reqs ->
  (exists item, item ∈ detectDrift f p /\ item_path p item = Some path) <->
  required p reqs path /\ is_missing f path = true.
Proof.
  intros Hreqs. unfold detectDrift. rewrite Hreqs. split.
  - intros (item & Hi & Hp). revert Hi. rewrite !elem_of_app. intros [Hi|[Hi|[Hi|[Hi|[Hi|Hi]]]]].
    + destruct (mr_AgentConfig reqs) as [a|] eqn:Ea; [|by apply elem_of_nil in Hi].
      apply elem_of_missing_files in Hi as (n & _ & Hm & ->). injection Hp as <-.
      split; [by eapply required_agent | done].
    + destruct (mr_Context reqs) as [c|] eqn:Ec; [|by apply elem_of_nil in Hi].
      apply elem_of_app in Hi as [Hi|Hi]; apply elem_of_missing_files in Hi as (n & Hn & Hm & ->); injection Hp as <-;
        (split; [|done]); [by eapply required_file | by eapply required_directory].
    + destruct (mr_Docs reqs) as [d|] eqn:Ed; [|by apply elem_of_nil in Hi].
      apply elem_of_missing_files in Hi as (n & Hn & Hm & ->). injection Hp as <-.
      split; [by eapply required_doc | done].
    + destruct (mr_Git reqs) as [g|] eqn:Eg; [|by apply elem_of_nil in Hi].
      apply elem_of_missing_files in Hi as (n & Hn & Hm & ->). injection Hp as <-.
      split; [by eapply required_hook | done].
    + apply elem_of_env_items in Hi as [Hc _]. unfold item_path in Hp. by rewrite Hc in Hp.
    + apply risky_items_missing in Hi as [_ Hc]. unfold item_path in Hp. by destruct (dr_Category item).
  - intros [Hr Hm]. destruct Hr as [a Ea|c n Ec Hn|c n Ec Hn|d n Ed Hn|g n Eg Hn].
    + exists (missing_item CatAgentConfig "AGENT.md" "exists"). split; [|done]. rewrite !elem_of_app, Ea. left.
      apply elem_of_missing_files. exists "AGENT.md"%string. split_and!; [by left | done..].
    + exists (missing_item CatContext n "exists"). split; [|done]. rewrite !elem_of_app, Ec, elem_of_app. right; left; left.
      apply elem_of_missing_files. by exists n.
    + exists (missing_item CatContext n "exists"). split; [|done]. rewrite !elem_of_app, Ec, elem_of_app. right; left; right.
      apply elem_of_missing_files. by exists n.
    + exists (missing_item CatDocs n "exists"). split; [|done]. rewrite !elem_of_app, Ed. do 2 right; left.
      apply elem_of_missing_files. by exists n.
    + exists (missing_item CatGit n "exists"). split; [|done]. rewrite !elem_of_app, Eg. do 3 right; left.
      apply elem_of_missing_files. by exists n.
Qed.
Lemma drift_risky f p reqs :
  manifest p ≫= em_Requirements = Some reqs -> List.filter risky (detectDrift f p) = risky_items reqs.
Proof.
  intros Hreqs. unfold detectDrift. rewrite Hreqs, !risky_app.
  rewrite (risky_none (env_items p reqs)) by (by intros i [-> _]%elem_of_env_items).
  rewrite (risky_all (risky_items reqs)) by (by intros i [_ ?]%risky_items_missing).
  destruct (mr_AgentConfig reqs), (mr_Context reqs), (mr_Docs reqs), (mr_Git reqs);
    rewrite ?risky_app, ?risky_missing by done; done.
Qed.
(** The runtimes and the tools of the manifest, each with its version. *)
Lemma risky_items_named reqs (h : DriftCategory -> string -> string -> DriftCategory * string * string) :
  (fun i => h (dr_Category i) (dr_Item i) (dr_Expected i)) <$> risky_items reqs ≡ₚ
  installs h reqs.
Proof.
  unfold risky_items, installs. rewrite fmap_app, <- !list_fmap_compose.
  pose proof (range_of_ok _ (mr_Runtime reqs)) as Hr. pose proof (range_of_ok _ (mr_Tools reqs)) as Ht.
  unfold range_order in Hr, Ht. rewrite Hr, Ht. f_equiv; (erewrite list_fmap_ext; [done|]); by intros ? [].
Qed.
Lemma risky_status reqs :
  (if (0 <? length (risky_items reqs))%nat then ProvisionPartial else ProvisionCompleted) =
  (if bool_decide (mr_Runtime reqs = ∅ /\ mr_Tools reqs = ∅) then ProvisionCompleted else ProvisionPartial).
Proof.
  unfold risky_items. rewrite length_app, !length_fmap.
  pose proof (range_of_ok _ (mr_Runtime reqs)) as Hr. pose proof (range_of_ok _ (mr_Tools reqs)) as Ht.
  unfold range_order in Hr, Ht. rewrite Hr, Ht, !length_map_to_list.
  case_bool_decide as Hd.
  - destruct Hd as [-> ->]. by rewrite !map_size_empty.
  - destruct (Nat.ltb_spec 0 (size (mr_Runtime reqs) + size (mr_Tools reqs))) as [|Hle]; [done|].
    exfalso. apply Hd. split; apply map_size_empty_inv; lia.
Qed.
End Facts.
End ProvisionFacts.

(** ** Properties *)
Section Properties.
Import Provision ProvisionFacts.
Context {F : Type} `{FL : FileSystemLaws F} `{MR : MapRange}.

End Properties.

(** ** Witness: a file system that is a map from paths to files and directories *)
Module ProvisionWitness.
Import Provision ProvisionFacts.
#[local] Existing Instance sorted_range.

(** [None] is a directory. *)
Notation tree := (gmap string (option string)).
#[export] Instance tree_fs : FileSystem tree := {
  fs_stat t p :=
    match t !! p with
    | None => NotExist
    | Some None => Exists (mkFileInfo true 493)
    | Some (Some _) => Exists (mkFileInfo false 420)
    end;
  fs_read t p := match t !! p with Some (Some s) => Some s | _ => None end;
  fs_write t p s _ := match t !! p with Some None => Err "is a directory"%string | _ => Ok (<[p := Some s]> t) end;
  fs_mkdir_all t p :=
    match t !! p with
    | None => Ok (<[p := None]> t)
    | Some None => Ok t
    | Some (Some _) => Err "not a directory"%string
    end;
  fs_append t p s :=
    match t !! p with
    | Some None => Err "is a directory"%string
    | o => Ok (<[p := Some (default ε (mjoin o) +:+ s)%stdpp]> t)
    end }.
Lemma tree_missing (t : tree) p : is_missing t p = bool_decide (t !! p = None).
Proof. unfold is_missing. simpl. by destruct (t !! p) as [[s|]|]. Qed.
Lemma tree_insert_missing (t : tree) p v q :
  is_missing t q = false -> is_missing (<[p := v]> t) q = false.
Proof.
  rewrite !tree_missing. intros Hq%bool_decide_eq_false_1. apply bool_decide_eq_false_2.
  destruct (decide (p = q)) as [<-|]; [by rewrite lookup_insert_eq | by rewrite lookup_insert_ne].
Qed.
Lemma tree_insert_there (t : tree) p v : is_missing (<[p := v]> t) p = false.
Proof. rewrite tree_missing. apply bool_decide_eq_false_2. by rewrite lookup_insert_eq. Qed.
#[export] Instance tree_laws : FileSystemLaws tree.
Proof.
  split; simpl; intros t p.
  - intros s m t'. destruct (t !! p) as [[]|]; intros [= <-]; apply tree_insert_there.
  - intros s m t' q. destruct (t !! p) as [[]|]; intros [= <-]; apply tree_insert_missing.
  - intros t'. destruct (t !! p) as [[]|] eqn:Ep; intros [= <-]; [|apply tree_insert_there].
    rewrite tree_missing, Ep. done.
  - intros t' q. destruct (t !! p) as [[]|]; intros [= <-]; [done | apply tree_insert_missing].
  - intros s t' q. destruct (t !! p) as [[]|]; intros [= <-]; apply tree_insert_missing.
Defined.

Definition reqs : ManifestRequirements :=
  mkRequirements {[ "node" := ">=18" ]}%string {[ "jq" := "any" ]}%string ∅ (Some (mkAgentReq "m" Float64.zero))
    (Some (mkContextReq ["src/main.go"] ["assets"]))%string (Some (mkGitReq ["pre-commit"]%string ∅))
    (Some (mkDocsReq ["docs/guide.md"]%string [])).
Definition project : Provisioner :=
  mkProvisioner "/work" "demo" (Some (mkManifest "1.0" (Some reqs) ∅)) ε (fun _ => ε) (Ok "/home/u"%string).
Definition fs0 : tree := {[ "/work" := None ]}%string.
Definition final := Provision (fun _ => "prov_1"%string) 5 fs0 project.

Example five_files_created : length (prv_Applied final.1.2) = 5%nat.
Proof. vm_compute. reflexivity. Qed.

(** A required directory is created as an empty file, which the check of the
    environment then refuses. *)
Definition machine (t : tree) : Machine :=
  mkMachine (fun _ _ => Err "exit status 1"%string) (fun _ => ε)
    (fun p => match fs_stat t p with Exists i => Some i | _ => None end).
Example directory_created_as_file :
  fs_read (pg_fs final.1.1) "/work/assets" = Some ε /\
  EnvCheck.check_dir (machine (pg_fs final.1.1)) "/work" "assets" =
    mkDrift "context" "assets" "directory" "not a directory" DriftFail.
Proof. by vm_compute. Qed.
End ProvisionWitness.
