(* ===== verification/Cost.v ===== *)
(** * Cost

    internal/supervisor/cost.go: polling the usage of the model providers,
    the daily buckets kept in the [costs] table, the estimate of a session's
    cost when a provider cannot be asked, and the totals per project.  The HTTP
    exchange, the JSON decoders and the parsing of dates are arguments. *)

From S2P Require Import Prelude GoStd SqlStore Commands Config SessionTracker.

Definition providerAnthropic : string := "anthropic".
Definition providerOpenAI : string := "openai".

Record usageRow := mkUsage {
  ur_Provider : string; ur_Model : string; ur_Project : string; ur_Date : string;
  ur_Tokens : Z; ur_CostUSD : Float64.t }.
Record CostRow := mkCostRow {
  crow_id : string; crow_provider : string; crow_model : string; crow_date : string;
  crow_tokens : Z; crow_cost_usd : Float64.t }.
#[export] Instance cost_row_key : RowKey CostRow := crow_id.
Record CostBreakdown := mkBreakdown { cb_Provider : string; cb_Model : string; cb_Tokens : Z; cb_CostUSD : Float64.t }.
Record ProjectCost := mkProjectCost { pcost_Project : string; pcost_Tokens : Z; pcost_CostUSD : Float64.t }.

Record CostReport := mkReport {
  rp_Period : string; rp_TotalTokens : Z; rp_TotalCostUSD : Float64.t;
  rp_ByProvider : list CostBreakdown; rp_ByModel : list CostBreakdown; rp_ByProject : list ProjectCost;
  rp_DegradedProviders : list string }.

(** [SELECT ..., SUM(tokens), SUM(cost_usd) ... WHERE date >= ? GROUP BY ...], by
    provider and by provider and model: the rows, [None] for one that does not
    scan, and what [rows.Err] says after the last one. *)
Class CostTotals (DB E : Type) := {
  provider_totals : DB -> string -> res E (list (option CostBreakdown) * option E);
  model_totals : DB -> string -> res E (list (option CostBreakdown) * option E);
}.
Inductive totals_error (E : Type) :=
  | query_totals_failed (e : E)
  | scan_total_failed
  | totals_rows_failed (e : E).
Arguments query_totals_failed {E} e.
Arguments scan_total_failed {E}.
Arguments totals_rows_failed {E} e.

Inductive cost_error (E : Type) :=
  | begin_costs_failed (e : E)
  | prepare_cost_failed (e : E)
  | upsert_cost_failed (id : string) (e : E)
  | commit_costs_failed (e : E).
Arguments begin_costs_failed {E} e.
Arguments prepare_cost_failed {E} e.
Arguments upsert_cost_failed {E} id e.
Arguments commit_costs_failed {E} e.

Inductive fetch_error :=
  | request_failed (e : string)
  | read_response_failed (e : string)
  | provider_status (status : Z)
  | decode_failed (what e : string)
  | unsupported_provider (p : string)
  | endpoint_empty
  | build_request_failed (e : string)
  | context_done.

Module Cost.

(** ** Values decoded from JSON: the only numbers are [float64]. *)
Fixpoint asString (values : list (option value)) : string :=
  match values with
  | Some (VStr s) :: values' => if str_empty s then asString values' else s
  | _ :: values' => asString values'
  | [] => ε
  end.
Fixpoint asInt64 (values : list (option value)) : Z :=
  match values with
  | Some (VNum f) :: _ => Float64.to_i64 f
  | _ :: values' => asInt64 values'
  | [] => 0
  end.
Fixpoint asFloat64 (values : list (option value)) : Float64.t :=
  match values with
  | Some (VNum f) :: _ => f
  | _ :: values' => asFloat64 values'
  | [] => Float64.zero
  end.

(** What the source uses of [time.Parse], [Format] and [strconv.ParseInt]. *)
Class DateText := {
  is_date : string -> bool;
  parse_RFC3339 : string -> option Time.t;
  parse_epoch : string -> option Z;
  format_date : Time.t -> string;
}.

Fixpoint normalizeDate `{DateText} (values : list string) : string :=
  match values with
  | [] => ε
  | raw :: values' =>
      if str_empty raw then normalizeDate values'
      else if (10 <=? String.length raw)%nat && is_date (Strings.take_bytes 10 raw)
      then Strings.take_bytes 10 raw
      else
        match parse_RFC3339 raw with
        | Some t => format_date t
        | None =>
            match parse_epoch raw with
            | Some epoch => if 0 <? epoch then format_date (Time.FromUnix epoch) else normalizeDate values'
            | None => normalizeDate values'
            end
        end
  end.

(** ** Responses *)
Record usage_entry := mkUsageEntry { ue_Date : string; ue_Model : string; ue_Tokens : Z; ue_CostUSD : Float64.t }.
Definition json_item := gmap string value.
(** The decoders: the top level object's members as raw text, the two shapes of
    the list of usage. *)
Record decoders := mkDecoders {
  dec_object : string -> res string (gmap string string);
  dec_usage : string -> res string (list usage_entry);
  dec_items : string -> res string (list json_item) }.

Section Parse.
Context `{DateText} (dec : decoders).

Definition or_if_zero (x y : Z) : Z := if x =? 0 then y else x.
Definition anthropic_item (item : json_item) : usageRow :=
  let tokens := or_if_zero (asInt64 [item !! "tokens"%string]) (asInt64 [item !! "total_tokens"%string]) in
  let cost := asFloat64 [item !! "cost_usd"%string] in
  let cost := if Float64.eqb cost Float64.zero then asFloat64 [item !! "total_cost"%string] else cost in
  mkUsage providerAnthropic (asString [item !! "model"%string]) ε
    (normalizeDate [asString [item !! "date"%string]; asString [item !! "time"%string];
                    asString [item !! "timestamp"%string]; asString [item !! "created_at"%string]])
    tokens cost.
Definition parseAnthropicUsage (body : string) : res fetch_error (list usageRow) :=
  let? raw := res_map_err (decode_failed "anthropic response") (dec_object dec body) in
  match raw !! "usage"%string with
  | Some data =>
      let? usage := res_map_err (decode_failed "anthropic usage") (dec_usage dec data) in
      Ok ((fun row => mkUsage providerAnthropic (ue_Model row) ε (normalizeDate [ue_Date row])
             (ue_Tokens row) (ue_CostUSD row)) <$> usage)
  | None =>
      match raw !! "data"%string with
      | Some data =>
          let? usage := res_map_err (decode_failed "anthropic data") (dec_items dec data) in
          Ok (anthropic_item <$> usage)
      | None => Ok []
      end
  end.

Definition openai_item (item : json_item) : usageRow :=
  mkUsage providerOpenAI (asString [item !! "model"%string])
    (asString [item !! "project"%string; item !! "project_id"%string])
    (normalizeDate [asString [item !! "date"%string]; asString [item !! "time"%string];
                    asString [item !! "timestamp"%string]; asString [item !! "start_time"%string]])
    (or_if_zero (asInt64 [item !! "tokens"%string])
       (asInt64 [item !! "total_tokens"%string; item !! "input_tokens"%string]))
    (asFloat64 [item !! "cost_usd"%string; item !! "cost"%string]).
Definition parseOpenAIUsage (body : string) : res fetch_error (list usageRow) :=
  let? raw := res_map_err (decode_failed "openai response") (dec_object dec body) in
  match raw !! "data"%string with
  | None => Ok []
  | Some data =>
      let? usage := res_map_err (decode_failed "openai data") (dec_items dec data) in
      Ok (openai_item <$> usage)
  end.

Definition parseProviderUsage (provider body : string) : res fetch_error (list usageRow) :=
  if String.eqb provider providerAnthropic then parseAnthropicUsage body
  else if String.eqb provider providerOpenAI then parseOpenAIUsage body
  else Err (unsupported_provider provider).

(** How an exchange with a provider ends, and what becomes of it: the rows, or
    the error and whether it is worth a retry. *)
Inductive exchange :=
  | no_response (e : string)
  | cut_response (e : string)
  | response (status : Z) (body : string).
Definition fetchProviderUsage (provider : string) (x : exchange) : res (fetch_error * bool) (list usageRow) :=
  match x with
  | no_response e => Err (request_failed e, true)
  | cut_response e => Err (read_response_failed e, true)
  | response status body =>
      if (status =? 429) || (500 <=? status) then Err (provider_status status, true)
      else if (status <? 200) || (300 <=? status) then Err (provider_status status, false)
      else res_map_err (fun e => (e, false)) (parseProviderUsage provider body)
  end.
End Parse.

(** ** Retries: [fetch n] is the outcome of the [n]-th attempt, [done n] whether
    the context is done after it; the times slept between the attempts are
    returned too.  The multiplication by a millisecond wraps. *)
Definition retry_sleep (cfg : CostConfig) (attempt : nat) : Z :=
  Time.mul_duration
    (Float64.to_i64 (Float64.mul (Float64.of_Z (cc_BackoffBaseMS cfg)) (Math.Pow (Float64.of_Z 2) (Z.of_nat attempt))))
    Time.Millisecond.
Fixpoint fetch_attempts (cfg : CostConfig) (fetch : nat -> res (fetch_error * bool) (list usageRow)) (done : nat -> bool)
    (attempt left : nat) : list Z * res fetch_error (list usageRow) :=
  match fetch attempt with
  | Ok rows => ([], Ok rows)
  | Err (e, retryable) =>
      match left with
      | O => ([], Err e)
      | S left' =>
          if negb retryable then ([], Err e)
          else if done attempt then ([], Err context_done)
          else
            let '(sleeps, r) := fetch_attempts cfg fetch done (S attempt) left' in
            (retry_sleep cfg attempt :: sleeps, r)
      end
  end.
Definition fetchProviderWithRetry (cfg : CostConfig) (fetch : nat -> res (fetch_error * bool) (list usageRow))
    (done : nat -> bool) : list Z * res fetch_error (list usageRow) :=
  fetch_attempts cfg fetch done 0 (Z.to_nat (cc_MaxRetries cfg)).

Section Store.
Context {DB E : Type} `{KeyedTable DB CostRow E} `{MapRange}.

(** ** Daily buckets *)
Definition with_day (today : string) (row : usageRow) : usageRow :=
  mkUsage (ur_Provider row) (if str_empty (ur_Model row) then "unknown"%string else ur_Model row)
    (ur_Project row) (if str_empty (ur_Date row) then today else ur_Date row) (ur_Tokens row) (ur_CostUSD row).
Definition bucket_id (row : usageRow) : string :=
  (ur_Provider row +:+ "|" +:+ ur_Model row +:+ "|" +:+ ur_Date row)%stdpp.
Definition empty_usage : usageRow := mkUsage ε ε ε ε 0 Float64.zero.
Definition combine_row (today : string) (combined : gmap string usageRow) (row : usageRow) : gmap string usageRow :=
  let row := with_day today row in
  let current := default empty_usage (combined !! bucket_id row) in
  <[bucket_id row := mkUsage (ur_Provider row) (ur_Model row) (ur_Project current) (ur_Date row)
      (i64 (ur_Tokens current + ur_Tokens row)) (Float64.add (ur_CostUSD current) (ur_CostUSD row))]> combined.
Definition combine (today : string) (rows : list usageRow) : gmap string usageRow :=
  foldl (combine_row today) ∅ rows.
Definition cost_row (row : usageRow) : CostRow :=
  mkCostRow (bucket_id row) (ur_Provider row) (ur_Model row) (ur_Date row) (ur_Tokens row) (ur_CostUSD row).

Fixpoint upsert_costs (d : DB) (l : list (string * usageRow)) : res (cost_error E) DB :=
  match l with
  | [] => Ok d
  | (_, row) :: l' =>
      match upsert_row d (cost_row row) with
      | Err e => Err (upsert_cost_failed (bucket_id row) e)
      | Ok d' => upsert_costs d' l'
      end
  end.
(** [begin], [prepare] and [commit] say whether those statements fail; the
    upserts work on a copy that the commit installs. *)
Definition persistDailyBuckets (begin prepare commit : option E) (today : string) (db : option DB)
    (rows : list usageRow) : option DB * res (cost_error E) () :=
  match db, rows with
  | None, _ => (db, Ok ())
  | _, [] => (db, Ok ())
  | Some d, _ =>
      match begin, prepare with
      | Some e, _ => (db, Err (begin_costs_failed e))
      | None, Some e => (db, Err (prepare_cost_failed e))
      | None, None =>
          match upsert_costs d (range_of (combine today rows)), commit with
          | Err e, _ => (db, Err e)
          | Ok _, Some e => (db, Err (commit_costs_failed e))
          | Ok d', None => (Some d', Ok ())
          end
      end
  end.
End Store.

(** ** Session estimates *)
Section Estimates.
Context (cfg : CostConfig).
Definition providerForModel (model : string) : option string :=
  if str_empty model then None
  else match cpc_ModelRates (cc_Anthropic cfg) !! model with
       | Some _ => Some providerAnthropic
       | None => match cpc_ModelRates (cc_OpenAI cfg) !! model with
                 | Some _ => Some providerOpenAI
                 | None => None
                 end
       end.
Definition no_rate : ModelRate := mkRate Float64.zero Float64.zero.
Definition modelRate (provider model : string) : ModelRate :=
  if String.eqb provider providerAnthropic then default no_rate (cpc_ModelRates (cc_Anthropic cfg) !! model)
  else if String.eqb provider providerOpenAI then default no_rate (cpc_ModelRates (cc_OpenAI cfg) !! model)
  else no_rate.

Definition rate_per_k (rate : ModelRate) : Float64.t :=
  if Float64.ltb Float64.zero (rate_Output rate) then
    if Float64.ltb Float64.zero (rate_Input rate)
    then Float64.div (Float64.add (rate_Input rate) (rate_Output rate)) (Float64.of_Z 2)
    else rate_Output rate
  else rate_Input rate.
(** The estimate for a session, when it is due one. *)
Definition session_estimate (provider : string) (session : TrackedSession) : option Float64.t :=
  match providerForModel (ses_Model session) with
  | Some p =>
      if negb (String.eqb p provider) then None
      else
        let rate := modelRate provider (ses_Model session) in
        if Float64.eqb (rate_Input rate) Float64.zero && Float64.eqb (rate_Output rate) Float64.zero then None
        else
          let estimate := Float64.mul (Float64.div (Float64.of_Z (tu_Total (ses_TokenUsage session))) (Float64.of_Z 1000))
                            (rate_per_k rate) in
          if Float64.leb estimate Float64.zero then None else Some estimate
  | None => None
  end.

Context {SDB SE : Type} `{KeyedTable SDB SessionRow SE} `{TimeText}.
Definition estimate_step (provider : string) (t : Tracker.SessionTracker SDB) (session : TrackedSession)
    : Tracker.SessionTracker SDB :=
  match session_estimate provider session with
  | Some estimate => (Tracker.UpdateSession t (ses_SessionID session) [("session_cost"%string, VFloat estimate)]).1
  | None => t
  end.
(** [order] is the order in which the sessions are ranged over. *)
Definition applySessionEstimateFallback (provider : string) (order : list (string * TrackedSession))
    (t : Tracker.SessionTracker SDB) : Tracker.SessionTracker SDB :=
  foldl (estimate_step provider) t (Tracker.GetAllSessions order).
End Estimates.

(** ** Totals per project *)
Definition add_session (start : Time.t) (totals : gmap string ProjectCost) (session : TrackedSession)
    : gmap string ProjectCost :=
  if Time.Before (ses_StartedAt session) start then totals
  else
    let item := default (mkProjectCost ε 0 Float64.zero) (totals !! ses_Project session) in
    <[ses_Project session := mkProjectCost (ses_Project session)
        (i64 (pcost_Tokens item + tu_Total (ses_TokenUsage session)))
        (Float64.add (pcost_CostUSD item) (ses_SessionCost session))]> totals.
Definition projectTotals `{MapRange} (start : Time.t) (sessions : list TrackedSession) : list ProjectCost :=
  (range_of (foldl (add_session start) ∅ sessions)).*2.

Definition Day : Z := 24 * Time.Hour.
(** The start of the period in UTC, and the period's name. *)
Definition periodStart (now : Time.t) (period : string) : Time.t * string :=
  let startOfDay := now - now mod Day in
  let p := Strings.ToLower period in
  if String.eqb p "week" then (startOfDay - 6 * Day, "week"%string)
  else if String.eqb p "month" then (startOfDay - 29 * Day, "month"%string)
  else (startOfDay, "today"%string).

(** ** The aggregator *)
Section Aggregator.
Context {DB E SDB SE : Type} `{KeyedTable DB CostRow E} `{KeyedTable SDB SessionRow SE} `{TimeText} `{MapRange}.
Record CostAggregator := mkAggregator {
  ca_cfg : CostConfig;
  ca_db : option DB;
  ca_tracker : option (Tracker.SessionTracker SDB);
  ca_degraded : gmap string fetch_error }.

Definition positive (dflt x : Z) : Z := if x <=? 0 then dflt else x.
Definition NewCostAggregator (cfg : CostConfig) (db : option DB)
    (tracker : option (Tracker.SessionTracker SDB)) : CostAggregator :=
  mkAggregator
    (mkCost (positive 60 (cc_PollIntervalMinutes cfg)) (cc_Anthropic cfg) (cc_OpenAI cfg)
       (positive 15 (cc_RequestTimeoutSec cfg)) (positive 3 (cc_MaxRetries cfg)) (positive 500 (cc_BackoffBaseMS cfg)))
    db tracker ∅.

Definition setDegraded (c : CostAggregator) (provider : string) (reason : fetch_error) : CostAggregator :=
  mkAggregator (ca_cfg c) (ca_db c) (ca_tracker c) (<[provider := reason]> (ca_degraded c)).
Definition clearDegraded (c : CostAggregator) (provider : string) : CostAggregator :=
  mkAggregator (ca_cfg c) (ca_db c) (ca_tracker c) (delete provider (ca_degraded c)).
Definition DegradedProviders (c : CostAggregator) : list string := (range_of (ca_degraded c)).*1.

(** What the world answers while a provider is polled: the attempts, the
    context, the statements of the transaction, the date, the sessions' order. *)
Record poll_env := mkPollEnv {
  pl_fetch : nat -> res (fetch_error * bool) (list usageRow);
  pl_done : nat -> bool;
  pl_begin : option E; pl_prepare : option E; pl_commit : option E;
  pl_today : string;
  pl_sessions : list (string * TrackedSession) }.
Definition pollProvider (c : CostAggregator) (provider : string) (w : poll_env) : CostAggregator :=
  match (fetchProviderWithRetry (ca_cfg c) (pl_fetch w) (pl_done w)).2 with
  | Err e =>
      let c := setDegraded c provider e in
      mkAggregator (ca_cfg c) (ca_db c)
        (applySessionEstimateFallback (ca_cfg c) provider (pl_sessions w) <$> ca_tracker c) (ca_degraded c)
  | Ok rows =>
      let c := clearDegraded c provider in
      mkAggregator (ca_cfg c)
        (persistDailyBuckets (pl_begin w) (pl_prepare w) (pl_commit w) (pl_today w) (ca_db c) rows).1
        (ca_tracker c) (ca_degraded c)
  end.
(** The providers that are enabled, in the order their goroutines get there. *)
Definition providerConfig (cfg : CostConfig) (provider : string) : option CostProviderConfig :=
  if String.eqb provider providerAnthropic then Some (cc_Anthropic cfg)
  else if String.eqb provider providerOpenAI then Some (cc_OpenAI cfg) else None.
Definition pollCycle (c : CostAggregator) (w : string -> poll_env) (order : list string) : CostAggregator :=
  foldl (fun c provider =>
    match providerConfig (ca_cfg c) provider with
    | Some p => if IsEnabled p then pollProvider c provider (w provider) else c
    | None => c
    end) c order.

(** *** The report *)
Context `{CostTotals DB E} `{DateText}.

(** [+=] over the rows: the tokens wrap, the costs round. *)
Definition add_totals (totals : Z * Float64.t) (row : CostBreakdown) : Z * Float64.t :=
  (i64 (totals.1 + cb_Tokens row), Float64.add totals.2 (cb_CostUSD row)).
(** The loop over the rows of a query. *)
Definition scan_totals (q : res E (list (option CostBreakdown) * option E))
    : res (totals_error E) (list CostBreakdown) :=
  match q with
  | Err e => Err (query_totals_failed e)
  | Ok (rows, rows_err) =>
      match mapM id rows, rows_err with
      | None, _ => Err scan_total_failed
      | Some _, Some e => Err (totals_rows_failed e)
      | Some result, None => Ok result
      end
  end.
Definition queryProviderTotals (d : DB) (start : Time.t) : res (totals_error E) (list CostBreakdown) :=
  scan_totals (provider_totals d (format_date start)).
Definition queryModelTotals (d : DB) (start : Time.t) : res (totals_error E) (list CostBreakdown) :=
  scan_totals (model_totals d (format_date start)).
(** The rows per provider and per model; none without a database. *)
Definition query_totals (c : CostAggregator) (start : Time.t)
    : res (totals_error E) (list CostBreakdown * list CostBreakdown) :=
  match ca_db c with
  | None => Ok ([], [])
  | Some d =>
      let? providerRows := queryProviderTotals d start in
      let? modelRows := queryModelTotals d start in
      Ok (providerRows, modelRows)
  end.
(** [sessions] is the order in which the tracker's sessions are ranged over. *)
Definition Report (c : CostAggregator) (now : Time.t) (sessions : list (string * TrackedSession))
    (period : string) : res (totals_error E) CostReport :=
  let '(start, normalized) := periodStart now period in
  let? rows := query_totals c start in
  let totals := foldl add_totals (0, Float64.zero) rows.2 in
  Ok (mkReport normalized totals.1 totals.2 rows.1 rows.2
        (match ca_tracker c with
         | Some _ => projectTotals start (Tracker.GetAllSessions sessions)
         | None => []
         end)
        (DegradedProviders c)).
End Aggregator.
Arguments CostAggregator : clear implicits.
End Cost.

(** ** What SQL documents of the grouped sums: one row for every provider and
    model that has rows of the period, and the sum of their tokens. *)
Definition zsum (l : list Z) : Z := foldr Z.add 0 l.
Definition rows_since `{KeyedTableLaws DB CostRow E} (d : DB) (start : string) : list CostRow :=
  filter (fun r => String.leb start (crow_date r) = true) (map_to_list (contents d)).*2.
Definition row_group (r : CostRow) : string * string := (crow_provider r, crow_model r).
Class CostTotalsLaws (DB E : Type) `{KeyedTableLaws DB CostRow E} `{!CostTotals DB E} := {
  model_totals_groups d start l : model_totals d start = Ok (Some <$> l, None) ->
    NoDup ((fun b => (cb_Provider b, cb_Model b)) <$> l) /\
    forall r, r ∈ rows_since d start -> row_group r ∈ (fun b => (cb_Provider b, cb_Model b)) <$> l;
  model_totals_sums d start l b : model_totals d start = Ok (Some <$> l, None) -> b ∈ l ->
    cb_Tokens b = zsum (crow_tokens <$> filter (fun r => row_group r = (cb_Provider b, cb_Model b)) (rows_since d start));
}.

(** ** Lemmas *)
Module CostFacts.
Import Cost.
Section Facts.
Context {DB E : Type} `{KT : !KeyedTable DB CostRow E} `{KL : !KeyedTableLaws DB CostRow E} `{MR : MapRange}.
Implicit Types rows : list usageRow.

(** The rows of a bucket, with their days filled in. *)
Definition bucket (today k : string) (rows : list usageRow) : list usageRow :=
  filter (fun r => bucket_id r = k) (with_day today <$> rows).
(** The row a non-empty bucket comes to: the sums, under the last row's names. *)
Definition bucket_total (today k : string) (rows : list usageRow) : option usageRow :=
  match last (bucket today k rows) with
  | None => None
  | Some r => Some (mkUsage (ur_Provider r) (ur_Model r) ε (ur_Date r)
      (foldl (fun n r => i64 (n + ur_Tokens r)) 0 (bucket today k rows))
      (foldl (fun f r => Float64.add f (ur_CostUSD r)) Float64.zero (bucket today k rows)))
  end.

Lemma bucket_snoc today k rows r :
  bucket today k (rows ++ [r]) =
  bucket today k rows ++ (if bool_decide (bucket_id (with_day today r) = k) then [with_day today r] else []).
Proof.
  unfold bucket. rewrite fmap_app, filter_app. f_equal. simpl. case_bool_decide.
  - by rewrite filter_cons_True.
  - by rewrite filter_cons_False.
Qed.

Lemma combine_lookup today rows k : combine today rows !! k = bucket_total today k rows.
Proof.
  induction rows as [|r rows IH] using rev_ind.
  - unfold combine, bucket_total, bucket. simpl. by rewrite lookup_empty.
  - unfold combine in *. rewrite foldl_app. simpl. unfold combine_row at 1, bucket_total.
    rewrite bucket_snoc. case_bool_decide as Hk.
    + subst k. rewrite lookup_insert_eq, last_snoc, !foldl_app, IH. simpl. f_equal.
      unfold bucket_total. destruct (last (bucket _ _ rows)) as [l|] eqn:El; simpl; [done|].
      apply last_None in El. by rewrite El.
    + rewrite lookup_insert_ne, app_nil_r by done. apply IH.
Qed.

Lemma combine_key today rows k row : combine today rows !! k = Some row -> bucket_id row = k.
Proof.
  rewrite combine_lookup. unfold bucket_total. destruct (last _) as [r|] eqn:El; [|done]. intros [= <-].
  apply last_Some_elem_of in El. unfold bucket in El. by apply list_elem_of_filter in El as [? _].
Qed.

Lemma upsert_costs_contents (l : list (string * usageRow)) (d d' : DB) k :
  NoDup l.*1 -> (forall k row, (k, row) ∈ l -> bucket_id row = k) ->
  upsert_costs d l = Ok d' ->
  contents d' !! k = match (list_to_map l : gmap string usageRow) !! k with
                     | Some row => Some (cost_row row)
                     | None => contents d !! k
                     end.
Proof.
  revert d. induction l as [|[k0 row0] l IH]; intros d Hnd Hkey; simpl.
  { intros [= ->]. by rewrite lookup_empty. }
  apply NoDup_cons in Hnd as [Hk0 Hnd]. destruct (upsert_row d (cost_row row0)) as [d1|] eqn:E1; [|done].
  intros Hl. rewrite (IH d1) by (try done; intros; apply Hkey; by right).
  assert (bucket_id row0 = k0) as Hb by (apply Hkey; by left).
  apply upsert_row_ok in E1. change (the_key (cost_row row0)) with (bucket_id row0) in E1. rewrite Hb in E1.
  destruct (decide (k0 = k)) as [<-|Hne].
  - rewrite lookup_insert_eq, (not_elem_of_list_to_map_1 l k0) by done. by rewrite E1, lookup_insert_eq.
  - rewrite !lookup_insert_ne by done. destruct ((list_to_map l : gmap string usageRow) !! k) eqn:El; [done|].
    by rewrite E1, lookup_insert_ne.
Qed.

Lemma upsert_combined (d d' : DB) today rows k :
  upsert_costs d (range_of (combine today rows)) = Ok d' ->
  contents d' !! k = match bucket_total today k rows with
                     | Some row => Some (cost_row row)
                     | None => contents d !! k
                     end.
Proof.
  intros Hu. pose proof (range_of_ok _ (combine today rows)) as Hr.
  pose proof (range_order_NoDup _ _ Hr) as Hnd.
  rewrite (upsert_costs_contents _ d d' k Hnd) by (try done; intros k' row Hin; eapply combine_key, elem_of_range, Hin).
  rewrite <- combine_lookup.
  by rewrite (list_to_map_proper _ _ Hnd Hr), list_to_map_to_list.
Qed.

(** Sums of groups add up to the sum of everything. *)
Lemma zsum_partition {A} (p : A -> Prop) `{forall x, Decision (p x)} (val : A -> Z) (l : list A) :
  zsum (val <$> l) = zsum (val <$> filter p l) + zsum (val <$> filter (fun x => ~ p x) l).
Proof.
  induction l as [|x l IH]; [done|]. rewrite !filter_cons. repeat case_decide; try tauto; rewrite ?fmap_cons; cbn [zsum foldr] in *; unfold zsum in *; simpl; lia.
Qed.
Lemma zsum_groups {A B K} `{EqDecision K} (key : A -> K) (val : A -> Z) (name : B -> K) (total : B -> Z)
    (l : list A) (groups : list B) :
  NoDup (name <$> groups) -> (forall x, x ∈ l -> key x ∈ name <$> groups) ->
  (forall b, b ∈ groups -> total b = zsum (val <$> filter (fun x => key x = name b) l)) ->
  zsum (total <$> groups) = zsum (val <$> l).
Proof.
  revert l. induction groups as [|b groups IH]; intros l Hnd Hcov Hsum.
  { destruct l as [|x l]; [done|]. destruct (not_elem_of_nil (key x)). apply Hcov. by left. }
  apply NoDup_cons in Hnd as [Hb Hnd]. rewrite (zsum_partition (fun x => key x = name b) val l).
  rewrite fmap_cons. change (zsum (total b :: (total <$> groups))) with (total b + zsum (total <$> groups)).
  rewrite (Hsum b) by (by left). f_equal. apply IH; [done | |].
  - intros x [Hx Hin]%list_elem_of_filter. apply Hcov in Hin. rewrite fmap_cons in Hin.
    apply elem_of_cons in Hin as [?|?]; [tauto | done].
  - intros b' Hb'. rewrite (Hsum b') by (by right). f_equal. f_equal.
    rewrite list_filter_filter. apply list_filter_iff. intros x.
    assert (name b' <> name b) by (intros Heq; apply Hb; rewrite <- Heq; by apply list_elem_of_fmap_2).
    split; [intros ->; by split | tauto].
Qed.
Lemma scan_totals_Ok (q : res E (list (option CostBreakdown) * option E)) l :
  scan_totals q = Ok l -> q = Ok (Some <$> l, None).
Proof.
  unfold scan_totals. destruct q as [[rows [e|]]|e]; [by destruct (mapM id rows) | | done].
  destruct (mapM id rows) as [result|] eqn:Em; [|done]. intros [= <-]. do 2 f_equal.
  revert result Em. induction rows as [|o rows IH]; intros result; simpl; [by intros [= <-]|].
  destruct o as [b|]; [|done]. simpl. destruct (mapM id rows) as [l|]; [|done]. simpl. intros [= <-]. simpl.
  f_equal. by apply IH.
Qed.
Lemma add_totals_tokens (l : list CostBreakdown) acc :
  (foldl add_totals acc l).1 = foldl (fun n b => i64 (n + cb_Tokens b)) acc.1 l.
Proof. revert acc. induction l as [|b l IH]; intros acc; [done|]. simpl. by rewrite IH. Qed.
Lemma i64_sum (l : list CostBreakdown) n :
  foldl (fun n b => i64 (n + cb_Tokens b)) (i64 n) l = i64 (n + zsum (cb_Tokens <$> l)).
Proof.
  revert n. induction l as [|b l IH]; intros n; simpl; [by rewrite Z.add_0_r|].
  assert (i64 (i64 n + cb_Tokens b) = i64 (n + cb_Tokens b)) as ->.
  { unfold i64. f_equal. replace ((n + 2 ^ 63) mod 2 ^ 64 - 2 ^ 63 + cb_Tokens b + 2 ^ 63)
      with ((n + 2 ^ 63) mod 2 ^ 64 + cb_Tokens b) by lia.
    rewrite Z.add_mod_idemp_l by done. f_equal. lia. }
  by rewrite IH, <- Z.add_assoc.
Qed.
End Facts.
End CostFacts.

(** ** Properties *)
Section Properties.
Import Cost CostFacts.
Context {DB E : Type} `{KT : !KeyedTable DB CostRow E} `{KL : !KeyedTableLaws DB CostRow E} `{MR : MapRange}.

(** C35: persisting polled usage replaces exactly the daily buckets it has rows
    for, each by the sums over its rows, whatever the order of iteration, and
    leaves every other bucket alone; persisting the same rows again changes
    nothing, and a failure leaves the table as it was. *)
Theorem daily_buckets_exact (begin prepare commit : option E) (today : string) (d : DB)
    (rows : list usageRow) (db : option DB) (r : res (cost_error E) ()) :
  persistDailyBuckets begin prepare commit today (Some d) rows = (db, r) ->
  match r with
  | Err _ => db = Some d
  | Ok _ =>
      exists d', db = Some d' /\
        (forall k, contents d' !! k = match bucket_total today k rows with
                                      | Some row => Some (cost_row row)
                                      | None => contents d !! k
                                      end) /\
        forall db'', persistDailyBuckets begin prepare commit today (Some d') rows = (db'', Ok ()) ->
          exists d'', db'' = Some d'' /\ contents d'' = contents d'
  end.
Proof.
  unfold persistDailyBuckets. destruct rows as [|row0 rows0].
  { intros [= <- <-]. exists d. split_and!; [done | done |]. intros db'' [= <-]. by exists d. }
  set (rows := row0 :: rows0). destruct begin; [by intros [= <- <-]|]. destruct prepare; [by intros [= <- <-]|].
  destruct (upsert_costs d _) as [d'|e] eqn:Eu; [|by intros [= <- <-]]. destruct commit; [by intros [= <- <-]|].
  intros [= <- <-]. exists d'. split; [done|]. pose proof (fun k => upsert_combined d d' today rows k Eu) as Hc.
  split; [done|]. intros db''. destruct (upsert_costs d' _) as [d''|] eqn:Eu2; [|done]. intros [= <-].
  exists d''. split; [done|]. apply map_eq. intros k. rewrite (upsert_combined d' d'' today rows k Eu2), (Hc k).
  by destruct (bucket_total today k rows).
Qed.

(** The total tokens of a report are those of every stored bucket of the period,
    each counted once, modulo the width of an [int64]. *)
Theorem report_totals `{KeyedTable SDB SessionRow SE} `{TimeText} `{DateText} `{CT : !CostTotals DB E} `{!CostTotalsLaws DB E}
    (c : CostAggregator DB SDB) (d : DB) (now : Time.t) (sessions : list (string * TrackedSession))
    (period : string) (report : CostReport) :
  ca_db c = Some d -> Report c now sessions period = Ok report ->
  rp_Period report = (periodStart now period).2 /\
  rp_TotalTokens report =
    i64 (zsum (crow_tokens <$> rows_since d (format_date (periodStart now period).1))).
Proof.
  intros Hd. unfold Report, query_totals. rewrite Hd. destruct (periodStart now period) as [start normalized].
  destruct (queryProviderTotals d _) as [ps|]; [|done]. simpl.
  destruct (queryModelTotals d _) as [ms|] eqn:Em; [|done]. apply scan_totals_Ok in Em. simpl. intros [= <-]. split; [done|]. simpl. rewrite add_totals_tokens. simpl.
  destruct (model_totals_groups _ _ _ Em) as [Hnd Hcov].
  rewrite <- (zsum_groups row_group crow_tokens (fun b => (cb_Provider b, cb_Model b)) cb_Tokens _ ms Hnd Hcov).
  - apply (i64_sum ms 0).
  - intros b. by apply model_totals_sums.
Qed.
End Properties.

(** ** Witness *)
Module CostWitness.
Import Cost CostFacts.
#[local] Existing Instance sorted_range.

Definition row (model date : string) (tokens : Z) : usageRow :=
  mkUsage providerOpenAI model "p" date tokens (Float64.of_Z 1).
Definition rows : list usageRow := [row "gpt" "2025-01-02" 10; row ε "2025-01-02" 3; row "gpt" "2025-01-02" 5; row "gpt" ε 7].
Definition d0 : mem_table CostRow := mem_empty.
Definition persisted := persistDailyBuckets None None None "2025-01-03" (Some d0) rows.
Definition table : mem_table CostRow := default d0 persisted.1.

Lemma daily_buckets_exact_witness :
  exists d', persisted.1 = Some d' /\
    (forall k, contents d' !! k = match bucket_total "2025-01-03" k rows with
                                  | Some row => Some (cost_row row)
                                  | None => contents d0 !! k
                                  end) /\
    forall db'', persistDailyBuckets None None None "2025-01-03" (Some d') rows = (db'', Ok ()) ->
      exists d'', db'' = Some d'' /\ contents d'' = contents d'.
Proof.
  apply (daily_buckets_exact None None None "2025-01-03" d0 rows persisted.1 (Ok ())).
  vm_compute. reflexivity.
Defined.
Example summed_bucket :
  crow_tokens <$> contents table !! "openai|gpt|2025-01-02"%string = Some 15.
Proof. vm_compute. reflexivity. Qed.
Example three_buckets : size (contents table) = 3%nat.
Proof. vm_compute. reflexivity. Qed.
End CostWitness.
