(* ===== verification/CostPoll.v ===== *)
(** * CostPoll

    internal/supervisor/cost.go: what a poll asks of a provider, for which time,
    and the life of the goroutine that polls.  Executing the request is an
    argument; [format_RFC3339] is [Format(time.RFC3339)]. *)

From S2P Require Import Prelude GoStd Commands Config SqlStore SessionTracker Cost.

Module Poll.
Import Cost.
Section Request.
Context `{DateText} (format_RFC3339 : Time.t -> string).

(** The day in UTC, as the first moment of it and of the next one. *)
Definition window (now : Time.t) : Time.t * Time.t :=
  let start := now - now mod Day in (start, start + Day).
Definition providerRequest (now : Time.t) (provider : string) (cfg : CostProviderConfig) : string * Url.Values :=
  let '(start, end_) := window now in
  if negb (str_empty (cpc_BaseURL cfg)) then (cpc_BaseURL cfg, ∅)
  else if String.eqb provider providerAnthropic then
    ("https://api.anthropic.com/v1/organizations/usage_report/messages"%string,
     Url.Add "group_by[]" "model" (Url.Set_ "bucket_width" "1d"
       (Url.Set_ "ending_at" (format_RFC3339 end_) (Url.Set_ "starting_at" (format_RFC3339 start) ∅))))
  else if String.eqb provider providerOpenAI then
    ("https://api.openai.com/v1/organization/usage/completions"%string,
     Url.Add "group_by[]" "project_id" (Url.Add "group_by[]" "model" (Url.Set_ "bucket_width" "1d"
       (Url.Set_ "end_date" (format_date end_) (Url.Set_ "start_date" (format_date start) ∅)))))
  else (ε, ∅).
Definition request_url (endpoint : string) (query : Url.Values) : string :=
  if (size query =? 0)%nat then endpoint
  else if Strings.Contains endpoint "?" then (endpoint +:+ "&" +:+ Url.Encode query)%stdpp
  else (endpoint +:+ "?" +:+ Url.Encode query)%stdpp.
Definition request_header (provider apiKey : string) : list (string * string) :=
  if String.eqb provider providerAnthropic then [("x-api-key", apiKey); ("anthropic-version", "2023-06-01")]%string
  else if String.eqb provider providerOpenAI then [("Authorization"%string, ("Bearer " +:+ apiKey)%stdpp)]
  else [].

(** One attempt: [build] says whether the URL makes a request, [do_] is the HTTP
    client. *)
Definition fetch_usage (dec : decoders) (build : string -> option string)
    (do_ : string -> list (string * string) -> exchange) (now : Time.t) (provider : string) (cfg : CostProviderConfig)
    : res (fetch_error * bool) (list usageRow) :=
  let '(endpoint, query) := providerRequest now provider cfg in
  if str_empty endpoint then Err (endpoint_empty, false)
  else
    let url := request_url endpoint query in
    match build url with
    | Some e => Err (build_request_failed e, false)
    | None => fetchProviderUsage dec provider (do_ url (request_header provider (EffectiveAPIKey cfg)))
    end.
End Request.

(** ** The polling goroutine
    A context is a number; [l_going] has the goroutines of [run] that have not
    returned, by their contexts, [l_done] the contexts that ended. *)
Record life := mkLife {
  l_running : bool; l_cancel : option nat; l_going : gset nat; l_done : gset nat; l_next : nat }.
Definition new_life : life := mkLife false None ∅ ∅ 0.
Inductive life_op :=
  | Start
  | Stop
  (** the parent's context ends, and with it all of its children *)
  | ParentDone
  (** a goroutine whose context has ended returns *)
  | Return (ctx : nat).
Definition life_step (l : life) (op : life_op) : life :=
  match op with
  | Start =>
      if l_running l then l
      else mkLife true (Some (l_next l)) ({[l_next l]} ∪ l_going l) (l_done l) (S (l_next l))
  | Stop =>
      if negb (l_running l) then l
      else mkLife false (l_cancel l) (l_going l)
             (match l_cancel l with Some ctx => {[ctx]} ∪ l_done l | None => l_done l end) (l_next l)
  | ParentDone => mkLife (l_running l) (l_cancel l) (l_going l) (l_going l ∪ l_done l) (l_next l)
  | Return ctx =>
      if decide (ctx ∈ l_done l) then mkLife (l_running l) (l_cancel l) (l_going l ∖ {[ctx]}) (l_done l) (l_next l) else l
  end.
(** The goroutines that go on polling. *)
Definition polling (l : life) : gset nat := l_going l ∖ l_done l.
End Poll.

(** ** Lemmas *)
Module PollFacts.
Import Cost Poll.

Lemma window_spec now : let '(start, end_) := window now in
  start <= now < end_ /\ start mod Day = 0 /\ end_ = start + Day.
Proof.
  unfold window. pose proof (Z.mod_pos_bound now Day ltac:(done)). split_and!; [lia | lia | | done].
  rewrite Zminus_mod_idemp_r, Z.sub_diag. done.
Qed.

Record life_ok (l : life) : Prop := {
  lo_fresh ctx : ctx ∈ l_going l ∪ l_done l -> (ctx < l_next l)%nat;
  lo_cancel ctx : l_cancel l = Some ctx -> (ctx < l_next l)%nat;
  lo_polling ctx : ctx ∈ polling l -> l_running l = true /\ l_cancel l = Some ctx }.
Lemma life_step_ok l op : life_ok l -> life_ok (life_step l op).
Proof.
  intros Hok. pose proof Hok as [Hf Hc Hp]. unfold polling in *. destruct op; simpl.
  - destruct (l_running l) eqn:Er; [done|]. split; unfold polling; simpl.
    + intros ctx [[->%elem_of_singleton|Hg]%elem_of_union|Hd]%elem_of_union; [lia | |];
        (enough (ctx < l_next l)%nat by lia; apply Hf; set_solver).
    + intros ctx [= <-]. lia.
    + intros ctx [[->%elem_of_singleton|Hg]%elem_of_union Hd]%elem_of_difference; [done|].
      destruct (Hp ctx) as [? _]; [set_solver | congruence].
  - destruct (l_running l) eqn:Er; simpl; [|done]. split; unfold polling; simpl; [| done|].
    + intros ctx Hin. destruct (l_cancel l) as [c|] eqn:Ec; [|by apply Hf].
      destruct (decide (ctx = c)) as [->|]; [by apply Hc | apply Hf; set_solver].
    + intros ctx [Hg Hd]%elem_of_difference. exfalso. destruct (Hp ctx) as [_ Ec]; [destruct (l_cancel l); set_solver|].
      rewrite Ec in Hd. set_solver.
  - split; unfold polling; simpl; [|done|]; set_solver.
  - destruct (decide (ctx ∈ l_done l)); [|done]. split; unfold polling; simpl; [|done|]; set_solver.
Qed.
Lemma life_history ops : life_ok (foldl life_step new_life ops).
Proof.
  induction ops as [|op ops IH] using rev_ind; [by split; [set_solver | | set_solver]|].
  rewrite foldl_app. by apply life_step_ok.
Qed.
End PollFacts.

(** ** Properties *)
Section Properties.
Import Cost Poll PollFacts.

(** Two starts never poll at the same time: in any history of starts, stops and
    ends of the parent's context at most one goroutine goes on polling, and none
    after a stop. *)
Theorem one_goroutine_polls (ops : list life_op) :
  let l := foldl life_step new_life ops in
  (forall c1 c2, c1 ∈ polling l -> c2 ∈ polling l -> c1 = c2) /\ polling (life_step l Stop) = ∅.
Proof.
  intros l. pose proof (life_history ops) as Hok. fold l in Hok. clearbody l. split.
  - intros c1 c2 H1 H2. destruct (lo_polling _ Hok c1 H1), (lo_polling _ Hok c2 H2). congruence.
  - pose proof (life_step_ok _ Stop Hok) as Hstop. apply set_eq. intros ctx. split; [|set_solver].
    intros Hc. apply (lo_polling _ Hstop) in Hc as [Hr _]. unfold life_step in Hr. destruct (l_running l) eqn:E; simpl in Hr; congruence.
Qed.

(** A poll asks a provider for the day in UTC of its moment and for nothing else:
    usage of another day, the end of the day before for instance, is in the
    window of no poll of that moment. *)
Theorem poll_covers_its_day_only (now t : Time.t) :
  let '(start, end_) := window now in
  start <= t < end_ <-> t / Day = now / Day.
Proof.
  unfold window. pose proof (Z.mod_pos_bound now Day ltac:(done)). pose proof (Z.div_mod now Day ltac:(done)).
  pose proof (Z.mod_pos_bound t Day ltac:(done)). pose proof (Z.div_mod t Day ltac:(done)).
  split.
  - intros Ht. symmetry. apply (Z.div_unique_pos t Day (now / Day) (t - (now - now mod Day))); lia.
  - intros E. rewrite E in *. lia.
Qed.
End Properties.

Module PollWitness.
Import Cost Poll.

#[local] Instance no_dates : DateText := {|
  is_date _ := false; parse_RFC3339 _ := None; parse_epoch _ := None; format_date t := "2025-01-0" +:+ Itoa (t / Day) |}%stdpp.
Definition openai : CostProviderConfig := mkProvider "sk" None ∅ ε ε ε.
Example openai_url :
  (let '(endpoint, query) := providerRequest Itoa (Day + 5) providerOpenAI openai in request_url endpoint query) =
  "https://api.openai.com/v1/organization/usage/completions?bucket_width=1d&end_date=2025-01-02&group_by%5B%5D=model&group_by%5B%5D=project_id&start_date=2025-01-01"%string.
Proof. vm_compute. reflexivity. Qed.

(** With an hour between polls, one at half past eleven at night is followed by
    one of the next day: what is used in the half hour between is asked for by
    neither. *)
Example last_half_hour_is_lost :
  let late := Day - 1800 * Time.Second in
  let used := Day - 600 * Time.Second in
  let next := Day + 1800 * Time.Second in
  late < used < next /\ (window next).1 > used.
Proof. vm_compute. split; [split|]; reflexivity. Qed.

(** Stopping the aggregator during a poll ends the request with an error, which
    counts as the provider's: it is degraded, and the sessions' costs, known
    better before, are overwritten by estimates. *)
#[local] Existing Instance sorted_range.
Definition rated : CostProviderConfig := mkProvider "sk" None {[ "gpt"%string := mkRate (Float64.of_Z 2) (Float64.of_Z 4) ]} ε ε ε.
Definition session : TrackedSession :=
  mkSession "s1" "n1" "p" "running" (mkTokenUsage 0 0 1000) 0 ε 7000 (Float64.of_Z 9) "gpt" 7000.
Definition tracker : Tracker.SessionTracker (mem_table SessionRow) :=
  (Tracker.AddSession (Tracker.NewSessionTracker mem_empty) 7000 session).1.
Definition aggregator : CostAggregator (mem_table CostRow) (mem_table SessionRow) :=
  NewCostAggregator (mkCost 60 openai rated 15 3 500) None (Some tracker).
Definition stopped : poll_env (E := string) :=
  mkPollEnv (fun _ => Err (request_failed "context canceled", true)) (fun _ => true) None None None "2025-01-01"
    [("s1"%string, session)].
Example stopping_degrades :
  let c := pollProvider aggregator providerOpenAI stopped in
  ca_degraded c !! providerOpenAI = Some context_done /\
  (t ← ca_tracker c; Float64.to_i64 ∘ ses_SessionCost <$> Tracker.sessions t !! "s1"%string) = Some 3.
Proof. vm_compute. split; reflexivity. Qed.
End PollWitness.
