(* ===== verification/OpenCode.v ===== *)
(** * OpenCode

    internal/agent/opencode_adapter.go: the agent's side of the local OpenCode
    server, with one client per project and the project of each session.  The
    SDK is not part of the repository: its calls are the class [OpencodeSDK].
    The methods are written in a monad over the adapter, the state of the
    servers, and the log of the calls made.  The event subscribers
    are in [Subscriptions]. *)

From S2P Require Import Prelude GoStd Commands.

(** ** The SDK *)

(** What [errors.Is] and [errors.As] see of an error the SDK returns. *)
Record api_error := mkApiError {
  ae_context : bool; ae_net : bool; ae_status : option Z; ae_text : string }.
Record sdk_session := mkSdkSession {
  sdk_ID : string; sdk_Directory : string; sdk_Title : string; sdk_Raw : string }.

(** [S] is the state of the servers, [C] a client: a base URL and the value of
    its authorization header. *)
Class OpencodeSDK (S C : Type) := {
  new_client : string -> option string -> C;
  sdk_list : S -> C -> string -> S * res api_error (list sdk_session);
  sdk_new : S -> C -> string -> S * res api_error sdk_session;
  sdk_prompt : S -> C -> string -> string -> string -> S * res api_error ();
  sdk_abort : S -> C -> string -> string -> S * res api_error ();
  sdk_delete : S -> C -> string -> string -> S * res api_error ();
  sdk_get : S -> C -> string -> string -> S * res api_error sdk_session;
  type_session_idle : string; type_session_compacted : string; type_session_deleted : string;
  type_session_error : string; type_session_created : string; type_session_updated : string;
}.

(** Which session the server behind a client and a directory may speak of. *)
Class SDKHosts (S C : Type) `{OpencodeSDK S C} (hosts : C -> string -> string -> Prop) := {
  list_hosts s c d s' l x : sdk_list s c d = (s', Ok l) -> x ∈ l -> hosts c d (sdk_ID x);
  new_hosts s c d s' x : sdk_new s c d = (s', Ok x) -> hosts c d (sdk_ID x);
  get_hosts s c id d s' x : sdk_get s c id d = (s', Ok x) -> hosts c d id;
}.

(** ** Errors *)
Inductive adapter_error :=
  | ErrRecoverable (text : string)
  | ErrNonRecoverable (text : string)
  | ErrSessionNotFound (text : string).

Record SessionInfo := mkSessionInfo {
  si_ID : string; si_Project : string; si_Directory : string; si_Title : string; si_Status : string }.
Record AgentEvent := mkAgentEvent { ae_Type : string; ae_SessionID : string; ae_Payload : string }.

Module Adapter.

Definition SessionStatusUnknown : string := "unknown".
Definition SessionStatusRunning : string := "running".
Definition SessionStatusIdle : string := "idle".
Definition SessionStatusCompacted : string := "compacted".
Definition SessionStatusDeleted : string := "deleted".
Definition SessionStatusErrored : string := "error".

Definition recoverable_statuses : list Z := [429; 408; 502; 503; 504; 500].
(** Of an error that is not nil; a nil one is passed on as it is. *)
Definition mapAdapterError (e : api_error) : adapter_error :=
  if ae_context e then ErrRecoverable (ae_text e)
  else if ae_net e then ErrRecoverable (ae_text e)
  else
    match ae_status e with
    | Some code =>
        if (code =? 401) || (code =? 403) then ErrNonRecoverable (ae_text e)
        else if code =? 404 then ErrSessionNotFound (ae_text e)
        else if existsb (Z.eqb code) recoverable_statuses then ErrRecoverable (ae_text e)
        else if 500 <=? code then ErrRecoverable (ae_text e)
        else ErrNonRecoverable (ae_text e)
    | None => ErrRecoverable (ae_text e)
    end.

(** ** Reading the SDK's answers; [decode] is [json.Unmarshal] into a map. *)
Section Reading.
Context (decode : string -> res string (gmap string value)).

Definition parseSessionStatus (sess : sdk_session) : string :=
  if str_empty (sdk_Raw sess) then SessionStatusUnknown
  else
    match decode (sdk_Raw sess) with
    | Err _ => SessionStatusUnknown
    | Ok parsed =>
        match parsed !! "state"%string with Some (VStr state) => state | _ => SessionStatusUnknown end
    end.

Definition member (m : list (string * value)) (k : string) : option value :=
  (list_to_map m : gmap string value) !! k.
Definition extractSessionID (raw : string) : string :=
  if str_empty raw then ε
  else
    match decode raw with
    | Err _ => ε
    | Ok event =>
        match event !! "properties"%string with
        | Some (VObj props) =>
            match member props "sessionID" with
            | Some (VStr sid) => sid
            | _ =>
                match member props "info" with
                | Some (VObj info) => match member info "id" with Some (VStr sid) => sid | _ => ε end
                | _ => ε
                end
            end
        | _ => ε
        end
    end.
End Reading.

(** ** The adapter *)
Section Defs.
Context {S C : Type} `{OpencodeSDK S C} (decode : string -> res string (gmap string value)).

Definition statusFromEventType (eventType : string) : string :=
  if String.eqb eventType type_session_idle then SessionStatusIdle
  else if String.eqb eventType type_session_compacted then SessionStatusCompacted
  else if String.eqb eventType type_session_deleted then SessionStatusDeleted
  else if String.eqb eventType type_session_error then SessionStatusErrored
  else if String.eqb eventType type_session_created || String.eqb eventType type_session_updated
  then SessionStatusRunning
  else SessionStatusUnknown.

Record RealAdapter := mkAdapter {
  baseURL : string; apiKey : string;
  defaultProject : string;
  projectClients : gmap string C;
  projectDirs : gmap string string;
  sessionProjects : gmap string string;
  sessionStatuses : gmap string string }.

Definition newSDKClient (url key : string) : C :=
  new_client url (if str_empty key then None else Some ("Bearer " +:+ key)%stdpp).
Definition NewOpencodeAdapter (url key : string) : RealAdapter :=
  mkAdapter url key ε {[ ε := newSDKClient url key ]} ∅ ∅ ∅.
Definition RegisterProjectClient (project directory url : string) (a : RealAdapter) : RealAdapter :=
  mkAdapter (baseURL a) (apiKey a)
    (if str_empty (defaultProject a) then project else defaultProject a)
    (<[project := newSDKClient url (apiKey a)]> (projectClients a))
    (<[project := directory]> (projectDirs a)) (sessionProjects a) (sessionStatuses a).

Definition directoryForProject (a : RealAdapter) (project : string) : string :=
  default project (projectDirs a !! project).
Definition resolveDirectoryLocked (a : RealAdapter) (project : string) : string :=
  match projectDirs a !! project with
  | Some dir => dir
  | None =>
      if negb (str_empty project) then project
      else if negb (str_empty (defaultProject a)) then default ε (projectDirs a !! defaultProject a)
      else ε
  end.
Definition clientForProject (a : RealAdapter) (project : string) : res adapter_error (C * string) :=
  match projectClients a !! project with
  | Some client => Ok (client, resolveDirectoryLocked a project)
  | None =>
      match projectClients a !! ε with
      | Some client => Ok (client, resolveDirectoryLocked a project)
      | None => Err (ErrNonRecoverable ("unknown project " +:+ Quote project)%stdpp)
      end
  end.

(** *** The monad *)
Inductive verb := VList | VNew | VPrompt | VAbort | VDelete | VGet.
#[export] Instance verb_eq_dec : EqDecision verb.
Proof. solve_decision. Defined.
Record sdk_call := mkCall { call_verb : verb; call_client : C; call_dir : string; call_id : string }.
Record world := mkWorld { adapter : RealAdapter; servers : S; calls : list sdk_call }.
Definition M (A : Type) := world -> world * res adapter_error A.

Definition ret {A} (a : A) : M A := fun w => (w, Ok a).
Definition throw {A} (e : adapter_error) : M A := fun w => (w, Err e).
Definition bind {A B} (m : M A) (k : A -> M B) : M B :=
  fun w => match m w with (w', Ok a) => k a w' | (w', Err e) => (w', Err e) end.
Definition handle {A} (m : M A) (k : adapter_error -> M A) : M A :=
  fun w => match m w with (w', Ok a) => (w', Ok a) | (w', Err e) => k e w' end.
Definition reads {A} (f : RealAdapter -> res adapter_error A) : M A := fun w => (w, f (adapter w)).
Definition call {A} (v : verb) (c : C) (dir id : string) (f : S -> S * res api_error A) : M A :=
  fun w =>
    let '(s, r) := f (servers w) in
    (mkWorld (adapter w) s (calls w ++ [mkCall v c dir id]), res_map_err mapAdapterError r).
Notation "'do!' x ':=' m 'in' k" := (bind m (fun x => k))
  (at level 10, x pattern, m at level 200, k at level 200).

Definition record_session (id project status : string) (a : RealAdapter) : RealAdapter :=
  mkAdapter (baseURL a) (apiKey a) (defaultProject a) (projectClients a) (projectDirs a)
    (<[id := project]> (sessionProjects a))
    (if String.eqb status SessionStatusUnknown then sessionStatuses a
     else <[id := status]> (sessionStatuses a)).
Definition recordSession (id project status : string) : M () :=
  fun w => (mkWorld (record_session id project status (adapter w)) (servers w) (calls w), Ok ()).

(** *** The operations; [order] is the order in which a map of clients is ranged
    over. *)
Section Operations.
Context (order : gmap string C -> list (string * C)).

Fixpoint search (id : string) (projects : list (string * C)) : M (string * C * string) :=
  match projects with
  | [] => throw (ErrSessionNotFound id)
  | (name, client) :: rest =>
      do! dir := reads (fun a => Ok (directoryForProject a name)) in
      handle
        (do! _ := call VGet client dir id (fun s => sdk_get s client id dir) in
         do! _ := recordSession id name SessionStatusUnknown in
         ret (name, client, dir))
        (fun e => match e with ErrSessionNotFound _ => search id rest | e => throw e end)
  end.
Definition clientForSession (id : string) : M (string * C * string) :=
  do! known := reads (fun a => Ok (sessionProjects a !! id)) in
  match known with
  | Some project =>
      do! (client, dir) := reads (fun a => clientForProject a project) in
      ret (project, client, dir)
  | None =>
      do! projects := reads (fun a => Ok (order (projectClients a))) in
      search id projects
  end.

Definition PromptSession (id message : string) : M () :=
  do! (project, client, dir) := clientForSession id in
  do! _ := call VPrompt client dir id (fun s => sdk_prompt s client id dir message) in
  recordSession id project SessionStatusRunning.

Definition CreateSession (project prompt : string) : M string :=
  do! (client, dir) := reads (fun a => clientForProject a project) in
  do! created := call VNew client dir ε (fun s => sdk_new s client dir) in
  do! _ := recordSession (sdk_ID created) project SessionStatusRunning in
  if str_empty prompt then ret (sdk_ID created)
  else do! _ := PromptSession (sdk_ID created) prompt in ret (sdk_ID created).

Definition KillSession (id : string) : M () :=
  do! (project, client, dir) := clientForSession id in
  do! _ := handle (call VAbort client dir id (fun s => sdk_abort s client id dir))
              (fun e => match e with ErrSessionNotFound _ => ret () | e => throw e end) in
  do! _ := call VDelete client dir id (fun s => sdk_delete s client id dir) in
  recordSession id project SessionStatusDeleted.

Definition SessionStatus (id : string) : M string :=
  do! (project, client, dir) := clientForSession id in
  do! sess := call VGet client dir id (fun s => sdk_get s client id dir) in
  let status := parseSessionStatus decode sess in
  do! _ := recordSession id project status in
  ret status.

Fixpoint record_all (project : string) (sessions : list sdk_session) : M (list SessionInfo) :=
  match sessions with
  | [] => ret []
  | sess :: rest =>
      let status := parseSessionStatus decode sess in
      do! _ := recordSession (sdk_ID sess) project status in
      do! infos := record_all project rest in
      ret (mkSessionInfo (sdk_ID sess) project (sdk_Directory sess) (sdk_Title sess) status :: infos)
  end.
Fixpoint list_projects (projects : list (string * C)) : M (list SessionInfo) :=
  match projects with
  | [] => ret []
  | (project, client) :: rest =>
      do! dir := reads (fun a => Ok (directoryForProject a project)) in
      do! sessions := call VList client dir ε (fun s => sdk_list s client dir) in
      do! infos := record_all project sessions in
      do! more := list_projects rest in
      ret (infos ++ more)
  end.
Definition ListSessions : M (list SessionInfo) :=
  do! projects := reads (fun a => Ok (order (projectClients a))) in
  list_projects projects.
End Operations.

(** One turn of [streamProjectEvents]: what the stream shows of a session is
    kept, and the event is what the subscribers are offered. *)
Definition stream_event (project eventType raw : string) : M AgentEvent :=
  let id := extractSessionID decode raw in
  let event := mkAgentEvent eventType id raw in
  if str_empty id then ret event
  else do! _ := recordSession id project (statusFromEventType eventType) in ret event.
End Defs.
Arguments RealAdapter : clear implicits.
Arguments world : clear implicits.
Arguments M : clear implicits.
Arguments sdk_call : clear implicits.
End Adapter.

(** ** Histories *)
Module AdapterRun.
Import Adapter.
Section Run.
Context {S C : Type} `{OpencodeSDK S C} (decode : string -> res string (gmap string value)).

Inductive adapter_op :=
  | OpList (order : gmap string C -> list (string * C))
  | OpCreate (order : gmap string C -> list (string * C)) (project prompt : string)
  | OpPrompt (order : gmap string C -> list (string * C)) (id message : string)
  | OpKill (order : gmap string C -> list (string * C)) (id : string)
  | OpStatus (order : gmap string C -> list (string * C)) (id : string)
  | OpStream (project eventType raw : string).
Definition adapter_step (w : world S C) (op : adapter_op) : world S C :=
  match op with
  | OpList order => (ListSessions decode order w).1
  | OpCreate order project prompt => (CreateSession order project prompt w).1
  | OpPrompt order id message => (PromptSession order id message w).1
  | OpKill order id => (KillSession order id w).1
  | OpStatus order id => (SessionStatus decode order id w).1
  | OpStream project eventType raw => (stream_event decode project eventType raw w).1
  end.

(** What [Start] sets up: the projects of the configuration, each with a
    directory and a URL. *)
Definition configured (url key : string) (projects : list (string * string * string)) : RealAdapter C :=
  foldl (fun a '(name, dir, u) => RegisterProjectClient name dir u a) (NewOpencodeAdapter url key) projects.

(** A map is ranged over in some order of its entries; a stream shows sessions
    of its own server. *)
Definition op_ok (hosts : C -> string -> string -> Prop) (a : RealAdapter C) (op : adapter_op) : Prop :=
  match op with
  | OpList order | OpCreate order _ _ | OpPrompt order _ _ | OpKill order _ | OpStatus order _ =>
      forall m, range_order m (order m)
  | OpStream project _ raw =>
      let id := extractSessionID decode raw in
      id = ε \/ exists c, projectClients a !! project = Some c /\ hosts c (directoryForProject a project) id
  end.
(** Calls made about a session the adapter takes to know; the [Get]s that look
    for one are not. *)
Definition about_session (v : verb) : Prop :=
  match v with VPrompt | VAbort | VDelete => True | _ => False end.
End Run.
End AdapterRun.

(** ** Lemmas *)
Module AdapterFacts.
Import Adapter AdapterRun.
Section Facts.
Context {S C : Type} `{OpencodeSDK S C} (hosts : C -> string -> string -> Prop)
  `{!SDKHosts S C hosts} (decode : string -> res string (gmap string value)) (a0 : RealAdapter C).

Definition same_config (a : RealAdapter C) : Prop :=
  projectClients a = projectClients a0 /\ projectDirs a = projectDirs a0 /\
  defaultProject a = defaultProject a0.
Definition recordable (id project : string) : Prop :=
  project <> ε -> exists c d, clientForProject a0 project = Ok (c, d) /\ hosts c d id.
Definition reaches (c : C) (d id : string) : Prop :=
  hosts c d id \/ clientForProject a0 ε = Ok (c, d).

Record world_ok (w : world S C) : Prop := {
  wo_config : same_config (adapter w);
  wo_sessions id p : sessionProjects (adapter w) !! id = Some p -> recordable id p;
  wo_calls k : k ∈ calls w -> about_session (call_verb k) ->
    reaches (call_client k) (call_dir k) (call_id k) }.

(** [m] keeps the worlds good, and what it returns satisfies [Q]. *)
Definition safe {A} (m : M S C A) (Q : A -> Prop) : Prop :=
  forall w, world_ok w -> world_ok (m w).1 /\ forall a, (m w).2 = Ok a -> Q a.

Lemma same_client a p : same_config a -> clientForProject a p = clientForProject a0 p.
Proof. intros (Hc & Hd & He). unfold clientForProject, resolveDirectoryLocked. by rewrite Hc, Hd, He. Qed.
Lemma same_directory a p : same_config a -> directoryForProject a p = directoryForProject a0 p.
Proof. intros (_ & Hd & _). unfold directoryForProject. by rewrite Hd. Qed.
(** A project with a name is reached in the directory it is listed in. *)
Lemma client_directory p c :
  p <> ε -> projectClients a0 !! p = Some c -> clientForProject a0 p = Ok (c, directoryForProject a0 p).
Proof.
  intros Hp Hc. unfold clientForProject, resolveDirectoryLocked, directoryForProject. rewrite Hc.
  apply str_empty_false in Hp. rewrite Hp. by destruct (projectDirs a0 !! p).
Qed.
Lemma listed_recordable p c id :
  projectClients a0 !! p = Some c -> hosts c (directoryForProject a0 p) id -> recordable id p.
Proof. intros Hc Hh Hp. eauto using client_directory. Qed.
Lemma client_recordable p c d id : clientForProject a0 p = Ok (c, d) -> hosts c d id -> recordable id p.
Proof. intros Hc Hh _. eauto. Qed.
Lemma recordable_reaches p c d id :
  recordable id p -> clientForProject a0 p = Ok (c, d) -> reaches c d id.
Proof.
  intros Hr Hc. destruct (decide (p = ε)) as [->|Hp]; [by right|].
  destruct (Hr Hp) as (c' & d' & Hc' & Hh). rewrite Hc in Hc'. simplify_eq. by left.
Qed.

Lemma safe_ret {A} (a : A) (Q : A -> Prop) : Q a -> safe (ret a) Q.
Proof. intros HQ w Hw. split; [done|]. by intros ? [= <-]. Qed.
Lemma safe_throw {A} e (Q : A -> Prop) : safe (throw e) Q.
Proof. intros w Hw. by split. Qed.
Lemma safe_bind {A B} (m : M S C A) (k : A -> M S C B) Q R :
  safe m Q -> (forall a, Q a -> safe (k a) R) -> safe (bind m k) R.
Proof.
  intros Hm Hk w Hw. unfold bind. destruct (Hm w Hw) as [Hw' HQ].
  destruct (m w) as [w' [a|e]]; simpl in *; [by apply Hk; [apply HQ|] | by split].
Qed.
Lemma safe_handle {A} (m : M S C A) k Q :
  safe m Q -> (forall e, safe (k e) Q) -> safe (handle m k) Q.
Proof.
  intros Hm Hk w Hw. unfold handle. destruct (Hm w Hw) as [Hw' HQ].
  destruct (m w) as [w' [a|e]]; simpl in *; [by split | by apply Hk].
Qed.
Lemma safe_reads {A} (f : RealAdapter C -> res adapter_error A) (Q : A -> Prop) :
  (forall w a, world_ok w -> f (adapter w) = Ok a -> Q a) -> safe (reads f) Q.
Proof. intros Hf w Hw. split; [done|]. intros a. by apply Hf. Qed.
Lemma safe_call {A} v c d id (f : S -> S * res api_error A) (Q : A -> Prop) :
  (about_session v -> reaches c d id) -> (forall s s' a, f s = (s', Ok a) -> Q a) ->
  safe (call v c d id f) Q.
Proof.
  intros Hv Hf w [Hc Hs Hl]. unfold call. destruct (f (servers w)) as [s r] eqn:Ef. split.
  - split; [done..|]. intros k Hk. simpl in Hk. apply elem_of_app in Hk as [Hk|Hk%list_elem_of_singleton]; [by apply Hl|].
    subst k. done.
  - intros a Ha. destruct r; simplify_eq/=. by eapply Hf.
Qed.
Lemma safe_record id p status : recordable id p -> safe (recordSession id p status) (fun _ => True).
Proof.
  intros Hr w [Hc Hs Hl]. split; [|done]. split; [exact Hc | | exact Hl]. intros id' p'. simpl.
  destruct (decide (id = id')) as [<-|Hne]; [rewrite lookup_insert_eq; by intros [= <-] |].
  rewrite lookup_insert_ne by done. apply Hs.
Qed.

(** *** The operations *)
Definition entries (l : list (string * C)) : Prop := forall p c, (p, c) ∈ l -> projectClients a0 !! p = Some c.
Lemma safe_order order :
  (forall m, range_order m (order m)) -> safe (reads (fun a => Ok (order (projectClients a)))) entries.
Proof.
  intros Ho. apply safe_reads. intros w l [(Hc & _ & _) _ _] [= <-] p c Hin. rewrite <- Hc.
  eapply range_order_elem; [apply Ho | exact Hin].
Qed.
Lemma safe_directory p :
  safe (reads (fun a => Ok (directoryForProject a p))) (fun d => d = directoryForProject a0 p).
Proof. apply safe_reads. intros w d [Hc _ _] [= <-]. by apply same_directory. Qed.
Lemma safe_client p :
  safe (reads (fun a => clientForProject a p)) (fun '(c, d) => clientForProject a0 p = Ok (c, d)).
Proof. apply safe_reads. intros w [c d] [Hc _ _]. by rewrite same_client. Qed.

Definition found (id : string) (x : string * C * string) : Prop :=
  let '(p, c, d) := x in recordable id p /\ reaches c d id.
Lemma safe_search id l : entries l -> safe (search id l) (found id).
Proof.
  induction l as [|[p c] l IH]; intros Hl; [apply safe_throw|]. cbn [search].
  assert (Hc : projectClients a0 !! p = Some c) by (apply Hl; by left).
  eapply safe_bind; [apply safe_directory|]. intros d ->. apply safe_handle.
  - eapply safe_bind; [apply safe_call with (Q := fun _ => hosts c (directoryForProject a0 p) id); [done|]|].
    { intros s s' x. apply get_hosts. }
    intros x Hh. simpl in Hh. eapply safe_bind; [apply safe_record; by eapply listed_recordable|]. intros _ _.
    apply safe_ret. split; [by eapply listed_recordable | by left].
  - intros [| |]; try apply safe_throw. apply IH. intros p' c' Hin. apply Hl. by right.
Qed.
Lemma safe_clientForSession order id :
  (forall m, range_order m (order m)) -> safe (clientForSession order id) (found id).
Proof.
  intros Ho. unfold clientForSession.
  eapply safe_bind; [apply safe_reads with (Q := fun o => forall p, o = Some p -> recordable id p)|].
  { intros w o Hw [= <-] p. apply Hw. }
  intros [p|] Hk.
  - specialize (Hk p eq_refl). eapply safe_bind; [apply safe_client|]. intros [c d] Hc. apply safe_ret.
    split; [done | by eapply recordable_reaches].
  - eapply safe_bind; [by apply safe_order | apply safe_search].
Qed.
Lemma safe_PromptSession order id message :
  (forall m, range_order m (order m)) -> safe (PromptSession order id message) (fun _ => True).
Proof.
  intros Ho. eapply safe_bind; [by apply safe_clientForSession|]. intros [[p c] d] [Hr Hc].
  eapply safe_bind; [by apply safe_call with (Q := fun _ => True)|]. intros _ _. by apply safe_record.
Qed.
Lemma safe_CreateSession order project prompt :
  (forall m, range_order m (order m)) -> safe (CreateSession order project prompt) (fun _ => True).
Proof.
  intros Ho. eapply safe_bind; [apply safe_client|]. intros [c d] Hc.
  eapply safe_bind; [apply safe_call with (Q := fun x => hosts c d (sdk_ID x)); [done|]|].
  { intros s s' x. apply new_hosts. }
  intros x Hx. eapply safe_bind; [apply safe_record; by eapply client_recordable|]. intros _ _.
  destruct (str_empty prompt); [by apply safe_ret|].
  eapply safe_bind; [by apply safe_PromptSession|]. intros _ _. by apply safe_ret.
Qed.
Lemma safe_KillSession order id :
  (forall m, range_order m (order m)) -> safe (KillSession order id) (fun _ => True).
Proof.
  intros Ho. eapply safe_bind; [by apply safe_clientForSession|]. intros [[p c] d] [Hr Hc].
  eapply safe_bind; [apply safe_handle with (Q := fun _ => True); [by apply safe_call|]|].
  { intros [| |]; [apply safe_throw.. | by apply safe_ret]. }
  intros _ _. eapply safe_bind; [by apply safe_call with (Q := fun _ => True)|]. intros _ _. by apply safe_record.
Qed.
Lemma safe_SessionStatus order id :
  (forall m, range_order m (order m)) -> safe (SessionStatus decode order id) (fun _ => True).
Proof.
  intros Ho. eapply safe_bind; [by apply safe_clientForSession|]. intros [[p c] d] [Hr Hc].
  eapply safe_bind; [by apply safe_call with (Q := fun _ => True)|]. intros x _.
  eapply safe_bind; [by apply safe_record|]. intros _ _. by apply safe_ret.
Qed.
Lemma safe_record_all p l :
  (forall x, x ∈ l -> recordable (sdk_ID x) p) -> safe (record_all decode p l) (fun _ => True).
Proof.
  induction l as [|x l IH]; intros Hl; [by apply safe_ret|]. cbn [record_all].
  eapply safe_bind; [apply safe_record, Hl; by left|]. intros _ _.
  eapply safe_bind; [apply IH; intros y Hy; apply Hl; by right|]. intros infos _. by apply safe_ret.
Qed.
Lemma safe_list_projects l : entries l -> safe (list_projects decode l) (fun _ => True).
Proof.
  induction l as [|[p c] l IH]; intros Hl; [by apply safe_ret|]. cbn [list_projects].
  assert (Hc : projectClients a0 !! p = Some c) by (apply Hl; by left).
  eapply safe_bind; [apply safe_directory|]. intros d ->.
  eapply safe_bind.
  { apply safe_call with (Q := fun l => forall x, x ∈ l -> hosts c (directoryForProject a0 p) (sdk_ID x)); [done|].
    intros s s' sessions Hs x Hx. by eapply list_hosts. }
  intros sessions Hs. eapply safe_bind; [apply safe_record_all; intros x Hx; eapply listed_recordable; eauto|].
  intros infos _. eapply safe_bind; [apply IH; intros p' c' Hin; apply Hl; by right|]. intros more _. by apply safe_ret.
Qed.
Lemma safe_stream_event p eventType raw :
  (extractSessionID decode raw = ε \/ recordable (extractSessionID decode raw) p) ->
  safe (stream_event decode p eventType raw) (fun _ => True).
Proof.
  intros Hr. unfold stream_event. cbn zeta. destruct (str_empty _) eqn:Ee; [by apply safe_ret|].
  apply str_empty_false in Ee. destruct Hr as [|Hr]; [done|].
  eapply safe_bind; [by apply safe_record|]. intros _ _. by apply safe_ret.
Qed.

Lemma step_ok w op : op_ok decode hosts a0 op -> world_ok w -> world_ok (adapter_step decode w op).
Proof.
  intros Hop Hw. destruct op as [order|order p t|order id t|order id|order id|p t raw]; simpl in *.
  - apply (safe_bind (reads (fun a => Ok (order (projectClients a)))) (list_projects decode) entries (fun _ => True)); [by apply safe_order | apply safe_list_projects | done].
  - by apply safe_CreateSession.
  - by apply safe_PromptSession.
  - by apply safe_KillSession.
  - by apply safe_SessionStatus.
  - apply safe_stream_event; [|done]. destruct Hop as [|(c & Hc & Hh)]; [by left | right; by eapply listed_recordable].
Qed.
Lemma adapter_run_ok w ops :
  Forall (op_ok decode hosts a0) ops -> world_ok w -> world_ok (foldl (adapter_step decode) w ops).
Proof.
  intros Hops. revert w. induction Hops as [|op ops Hop _ IH]; intros w Hw; [done|]. apply IH. by apply step_ok.
Qed.
End Facts.

Lemma configured_fresh {S C} `{OpencodeSDK S C} url key projects :
  sessionProjects (configured url key projects) = ∅.
Proof.
  unfold configured. induction projects as [|[[p d] u] l IH] using rev_ind; [done|]. by rewrite foldl_app.
Qed.
End AdapterFacts.

(** ** Properties *)
Section Properties.
Import Adapter AdapterRun AdapterFacts.
Context {S C : Type} `{OpencodeSDK S C} (hosts : C -> string -> string -> Prop)
  `{!SDKHosts S C hosts} (decode : string -> res string (gmap string value)).

(** C38: whatever the agent has done with its sessions, every prompt, abort and
    delete it sent about a session went to a client and a directory whose server
    may speak of that session, or to those of the project without a name; and so
    would the next one for any session on record under a project with a name. *)
Theorem session_calls_reach_their_host (url key : string) (projects : list (string * string * string))
    (s : S) (ops : list adapter_op) :
  let a := configured url key projects in
  let w := foldl (adapter_step decode) (mkWorld a s []) ops in
  Forall (op_ok decode hosts a) ops ->
  (forall k, k ∈ calls w -> about_session (call_verb k) ->
     hosts (call_client k) (call_dir k) (call_id k) \/
     clientForProject a ε = Ok (call_client k, call_dir k)) /\
  (forall id p, sessionProjects (adapter w) !! id = Some p -> p <> ε ->
     exists c d, clientForProject (adapter w) p = Ok (c, d) /\ hosts c d id).
Proof.
  intros a w Hops. assert (Hw : world_ok hosts a w).
  { apply adapter_run_ok; [done..|]. split; [done | | intros k Hk; by apply elem_of_nil in Hk].
    intros id p. simpl. unfold a. by rewrite configured_fresh, lookup_empty. }
  destruct Hw as [Hc Hs Hl]. split; [exact Hl|]. intros id p Hid Hp.
  destruct (Hs id p Hid Hp) as (c & d & Hcl & Hh). exists c, d. by rewrite (same_client a).
Qed.
End Properties.

(** ** Witness: servers whose session ids start with the directory *)
Module AdapterWitness.
Import Adapter AdapterRun AdapterFacts.

Definition own (d id : string) : bool := Strings.HasPrefix id (d +:+ ":")%stdpp.
Definition not_found : api_error := mkApiError false false (Some 404) "not found".
Definition down : api_error := mkApiError false true None "connection refused".
(** The state: the number of the next session, and whether prompts are taken. *)
#[export] Instance demo_sdk : OpencodeSDK (Z * bool) string := {
  new_client url _ := url;
  sdk_list s _ _ := (s, Ok []);
  sdk_new s _ d := ((s.1 + 1, s.2), Ok (mkSdkSession (d +:+ ":" +:+ Itoa s.1)%stdpp d ε ε));
  sdk_prompt s _ _ _ _ := (s, if s.2 : bool then Ok () else Err down);
  sdk_abort s _ _ _ := (s, Ok ());
  sdk_delete s _ _ _ := (s, Ok ());
  sdk_get s _ id d := (s, if own d id then Ok (mkSdkSession id d ε ε) else Err not_found);
  type_session_idle := "session.idle"; type_session_compacted := "session.compacted";
  type_session_deleted := "session.deleted"; type_session_error := "session.error";
  type_session_created := "session.created"; type_session_updated := "session.updated" }.
Definition demo_hosts (_ d id : string) : Prop := own d id = true.
#[export] Instance demo_hosts_ok : SDKHosts (Z * bool) string demo_hosts.
Proof.
  split.
  - intros s c d s' l x. simpl. intros [= <- <-] Hx. by apply elem_of_nil in Hx.
  - intros s c d s' x. simpl. intros [= <- <-]. unfold demo_hosts, own. simpl.
    apply StringsFacts.HasPrefix_true. exists (Itoa s.1). by rewrite StringsFacts.append_assoc.
  - intros s c id d s' x. simpl. destruct (own d id) eqn:Eo; [done|]. by intros [= ].
Defined.

Definition no_json (_ : string) : res string (gmap string value) := Err "no JSON"%string.
Definition in_order (m : gmap string string) : list (string * string) := map_to_list m.
Definition projects : list (string * string * string) := [("p", "/srv/p", "u"); ("q", "/srv/q", "u")]%string.
Definition ops : list adapter_op :=
  [OpCreate in_order "p" "hello"; OpPrompt in_order "/srv/q:7" "more"; OpKill in_order "/srv/p:0"]%string.
Definition w_end := foldl (adapter_step no_json) (mkWorld (configured "u" ε projects) (0, true) []) ops.
Lemma session_calls_reach_their_host_witness :
  (forall k, k ∈ calls w_end -> about_session (call_verb k) ->
     demo_hosts (call_client k) (call_dir k) (call_id k) \/
     clientForProject (configured "u" ε projects) ε = Ok (call_client k, call_dir k)) /\
  (forall id p, sessionProjects (adapter w_end) !! id = Some p -> p <> ε ->
     exists c d, clientForProject (adapter w_end) p = Ok (c, d) /\ demo_hosts c d id).
Proof.
  apply (session_calls_reach_their_host demo_hosts no_json "u" ε projects (0, true) ops).
  repeat constructor; simpl; intros m; apply range_order_self.
Defined.
Example five_calls : map (fun k => (call_verb k, call_dir k)) (filter (fun k => call_verb k <> VGet) (calls w_end)) =
  [(VNew, "/srv/p"); (VPrompt, "/srv/p"); (VPrompt, "/srv/q"); (VAbort, "/srv/p"); (VDelete, "/srv/p")]%string.
Proof. vm_compute. reflexivity. Qed.

(** A session that the client without a project finds is prompted in the
    directory it was found in the first time and, from then on, in that of the
    first project. *)
Example nameless_project_moves :
  map (fun k => (call_verb k, call_dir k))
    (filter (fun k => call_verb k <> VGet)
      (calls (foldl (adapter_step no_json) (mkWorld (configured "u" ε projects) (0, true) [])
        [OpPrompt in_order ":1" "a"; OpPrompt in_order ":1" "b"]%string))) =
  [(VPrompt, ε); (VPrompt, "/srv/p"%string)].
Proof. vm_compute. reflexivity. Qed.
(** When the first prompt fails the session stays, and its id is lost with the
    error. *)
Example session_left_behind :
  let '(w, r) := CreateSession in_order "p" "hello" (mkWorld (configured "u" ε projects) (0, false) []) in
  r = Err (ErrRecoverable "connection refused") /\ sessionProjects (adapter w) = {[ "/srv/p:0" := "p" ]}%string.
Proof. vm_compute. by split. Qed.
End AdapterWitness.
