(* ===== verification/Subscriptions.v ===== *)
(** * Subscriptions

    internal/agent/opencode_adapter.go: the events of the adapter, from the streams
    of the OpenCode servers to the channels of the subscribers.  Every subscriber
    has a goroutine that waits for its context, takes the channel out of the
    adapter's map and closes it; every stream has one that reads events and offers
    them to the channels.  The latter reads the maps under the lock and sends
    without it, so the two interleave: [bus_step] is one step of one goroutine, of a
    caller or of a consumer.

    A channel is a number; [channels] has its capacity, its buffer, whether it was
    closed, and the context of its subscription.  A context is a number,
    [done_ctxs] those that ended.  Sending on a closed channel panics, which ends
    the process. *)

From S2P Require Import Prelude GoStd Commands OpenCode.

(** What a server's stream shows, and the error it ends with. *)
Record event_stream := mkStream { st_Events : list (string * string); st_Err : option api_error }.

Record channel := mkChannel { ch_cap : nat; ch_buf : list AgentEvent; ch_closed : bool; ch_ctx : nat }.
Definition set_buf (l : list AgentEvent) (x : channel) : channel := mkChannel (ch_cap x) l (ch_closed x) (ch_ctx x).
Definition shut_chan (x : channel) : channel := mkChannel (ch_cap x) (ch_buf x) true (ch_ctx x).

(** Where a channel is registered: [subscribers], or [sessionConsumers] of a session. *)
Inductive registered_in := Global | OfSession (id : string).

(** A goroutine by what it does next.  [Dispatching] and [Sending] are inside
    [dispatchEvent], before and after its critical section; [None] for the stream
    says that the goroutine ends after this event. *)
Inductive goroutine :=
  | AwaitDone (ctx c : nat) (where_ : registered_in)
  | Closing (ctx c : nat)
  | Reading (ctx : nat) (project : string) (st : event_stream)
  | Dispatching (ctx : nat) (project : string) (evt : AgentEvent) (rest : option event_stream)
  | Sending (ctx : nat) (project : string) (evt : AgentEvent) (todo : list nat) (rest : option event_stream)
  | Ended.

Module Bus.
Section Defs.
Context {S C : Type} `{OpencodeSDK S C} (decode : string -> res string (gmap string value)).

Record bus := mkBus {
  ad : Adapter.RealAdapter C;
  channels : gmap nat channel;
  subscribers : gset nat;
  sessionConsumers : gmap string (gset nat);
  done_ctxs : gset nat;
  goroutines : gmap nat goroutine;
  next_chan : nat; next_go : nat;
  panicked : bool }.

Definition new_bus (a : Adapter.RealAdapter C) : bus := mkBus a ∅ ∅ ∅ ∅ ∅ 0 0 false.

Definition with_goroutine (g : nat) (x : goroutine) (b : bus) : bus :=
  mkBus (ad b) (channels b) (subscribers b) (sessionConsumers b) (done_ctxs b)
    (<[g := x]> (goroutines b)) (next_chan b) (next_go b) (panicked b).
Definition go (x : goroutine) (b : bus) : bus :=
  mkBus (ad b) (channels b) (subscribers b) (sessionConsumers b) (done_ctxs b)
    (<[next_go b := x]> (goroutines b)) (next_chan b) (Datatypes.S (next_go b)) (panicked b).
Definition with_channel (c : nat) (x : channel) (b : bus) : bus :=
  mkBus (ad b) (<[c := x]> (channels b)) (subscribers b) (sessionConsumers b) (done_ctxs b)
    (goroutines b) (next_chan b) (next_go b) (panicked b).
Definition with_adapter (a : Adapter.RealAdapter C) (b : bus) : bus :=
  mkBus a (channels b) (subscribers b) (sessionConsumers b) (done_ctxs b)
    (goroutines b) (next_chan b) (next_go b) (panicked b).
Definition panic (b : bus) : bus :=
  mkBus (ad b) (channels b) (subscribers b) (sessionConsumers b) (done_ctxs b)
    (goroutines b) (next_chan b) (next_go b) true.
Definition end_ctx (ctx : nat) (b : bus) : bus :=
  mkBus (ad b) (channels b) (subscribers b) (sessionConsumers b) ({[ctx]} ∪ done_ctxs b)
    (goroutines b) (next_chan b) (next_go b) (panicked b).

Definition consumers_of (b : bus) (id : string) : gset nat := default ∅ (sessionConsumers b !! id).
(** [make(chan Event, cap)], registered. *)
Definition register (ctx : nat) (w : registered_in) (cap : nat) (b : bus) : bus :=
  let c := next_chan b in
  mkBus (ad b) (<[c := mkChannel cap [] false ctx]> (channels b))
    (match w with Global => {[c]} ∪ subscribers b | OfSession _ => subscribers b end)
    (match w with
     | Global => sessionConsumers b
     | OfSession id => <[id := {[c]} ∪ consumers_of b id]> (sessionConsumers b)
     end)
    (done_ctxs b) (goroutines b) (Datatypes.S c) (next_go b) (panicked b).
(** The critical section of the goroutine that ends a subscription; a session
    without consumers is dropped from the map. *)
Definition deregister (w : registered_in) (c : nat) (b : bus) : bus :=
  mkBus (ad b) (channels b)
    (match w with Global => subscribers b ∖ {[c]} | OfSession _ => subscribers b end)
    (match w with
     | Global => sessionConsumers b
     | OfSession id =>
         match sessionConsumers b !! id with
         | None => sessionConsumers b
         | Some consumers =>
             let consumers := consumers ∖ {[c]} in
             if decide (consumers = ∅) then delete id (sessionConsumers b)
             else <[id := consumers]> (sessionConsumers b)
         end
     end)
    (done_ctxs b) (goroutines b) (next_chan b) (next_go b) (panicked b).

Definition SubscribeSessionEvents (ctx : nat) (id : string) (b : bus) : bus * nat :=
  (go (AwaitDone ctx (next_chan b) (OfSession id)) (register ctx (OfSession id) 16 b), next_chan b).

(** [open] is [ListStreaming]; its stream may have failed at once. *)
Fixpoint open_streams (ctx : nat) (open : C -> string -> res api_error event_stream)
    (projects : list (string * C)) (b : bus) : bus * res adapter_error () :=
  match projects with
  | [] => (b, Ok ())
  | (project, client) :: rest =>
      match open client (Adapter.directoryForProject (ad b) project) with
      | Err e => (b, Err (Adapter.mapAdapterError e))
      | Ok st => open_streams ctx open rest (go (Reading ctx project st) b)
      end
  end.
(** One call, with the order in which the map of clients is ranged over. *)
Definition SubscribeEvents (ctx : nat) (open : C -> string -> res api_error event_stream)
    (order : gmap string C -> list (string * C)) (b : bus) : bus * res adapter_error nat :=
  let c := next_chan b in
  let b := go (AwaitDone ctx c Global) (register ctx Global 64 b) in
  let projects := order (Adapter.projectClients (ad b)) in
  if (length projects =? 0)%nat then (b, Err (ErrNonRecoverable "no opencode clients configured"))
  else
    match open_streams ctx open projects b with
    | (b, Err e) => (b, Err e)
    | (b, Ok _) => (b, Ok c)
    end.

Definition event_of (eventType raw : string) : AgentEvent :=
  mkAgentEvent eventType (Adapter.extractSessionID decode raw) raw.
(** What the goroutine of a stream records before it dispatches an event. *)
Definition record_event (project : string) (evt : AgentEvent) (a : Adapter.RealAdapter C) : Adapter.RealAdapter C :=
  if str_empty (ae_SessionID evt) then a
  else Adapter.record_session (ae_SessionID evt) project (Adapter.statusFromEventType (ae_Type evt)) a.
Definition disconnected : AgentEvent :=
  mkAgentEvent type_session_error ε ("{" +:+ Quote "error" +:+ ":" +:+ Quote "stream disconnected" +:+ "}")%stdpp.
Definition next_turn (ctx : nat) (project : string) (rest : option event_stream) : goroutine :=
  match rest with Some st => Reading ctx project st | None => Ended end.

(** What was observed. *)
Inductive label :=
  | LCall
  | LCancel (ctx : nat)
  | LQuiet
  | LDispatch (g : nat) (evt : AgentEvent) (targets : list nat)
  | LOffer (g c : nat) (evt : AgentEvent) (taken : bool)
  | LReceive (c : nat) (evt : AgentEvent)
  | LPanic (g c : nat).

Inductive bus_step (b : bus) : label -> bus -> Prop :=
  | step_subscribe_session ctx id :
      bus_step b LCall (SubscribeSessionEvents ctx id b).1
  | step_subscribe ctx open order :
      (forall m, range_order m (order m)) ->
      bus_step b LCall (SubscribeEvents ctx open order b).1
  | step_register project dir url :
      bus_step b LCall (with_adapter (Adapter.RegisterProjectClient project dir url (ad b)) b)
  | step_cancel ctx : bus_step b (LCancel ctx) (end_ctx ctx b)
  | step_receive c x evt rest :
      channels b !! c = Some x -> ch_buf x = evt :: rest ->
      bus_step b (LReceive c evt) (with_channel c (set_buf rest x) b)
  | step_unregister g ctx c w :
      goroutines b !! g = Some (AwaitDone ctx c w) -> ctx ∈ done_ctxs b ->
      bus_step b LQuiet (with_goroutine g (Closing ctx c) (deregister w c b))
  | step_close g ctx c x :
      goroutines b !! g = Some (Closing ctx c) -> channels b !! c = Some x ->
      bus_step b LQuiet (with_goroutine g Ended (with_channel c (shut_chan x) b))
  | step_next g ctx project t raw evs err :
      goroutines b !! g = Some (Reading ctx project (mkStream ((t, raw) :: evs) err)) ->
      bus_step b LQuiet (with_goroutine g (Dispatching ctx project (event_of t raw) (Some (mkStream evs err)))
                       (with_adapter (record_event project (event_of t raw) (ad b)) b))
  | step_disconnected g ctx project e :
      goroutines b !! g = Some (Reading ctx project (mkStream [] (Some e))) ->
      bus_step b LQuiet (with_goroutine g (Dispatching ctx project disconnected None) b)
  | step_end g ctx project :
      goroutines b !! g = Some (Reading ctx project (mkStream [] None)) ->
      bus_step b LQuiet (with_goroutine g Ended b)
  | step_stream_cancelled g ctx project evs err e :
      goroutines b !! g = Some (Reading ctx project (mkStream evs err)) -> ctx ∈ done_ctxs b ->
      bus_step b LQuiet (with_goroutine g (Reading ctx project (mkStream [] (Some e))) b)
  | step_snapshot g ctx project evt rest global perSession :
      goroutines b !! g = Some (Dispatching ctx project evt rest) ->
      global ≡ₚ elements (subscribers b) ->
      perSession ≡ₚ (if str_empty (ae_SessionID evt) then [] else elements (consumers_of b (ae_SessionID evt))) ->
      bus_step b (LDispatch g evt (global ++ perSession))
        (with_goroutine g (Sending ctx project evt (global ++ perSession) rest) b)
  | step_sent g ctx project evt rest :
      goroutines b !! g = Some (Sending ctx project evt [] rest) ->
      bus_step b LQuiet (with_goroutine g (next_turn ctx project rest) b)
  | step_send g ctx project evt c todo rest x :
      goroutines b !! g = Some (Sending ctx project evt (c :: todo) rest) ->
      channels b !! c = Some x -> ch_closed x = false -> (length (ch_buf x) < ch_cap x)%nat ->
      bus_step b (LOffer g c evt true)
        (with_goroutine g (Sending ctx project evt todo rest)
           (with_channel c (set_buf (ch_buf x ++ [evt]) x) b))
  | step_skip g ctx project evt c todo rest x :
      goroutines b !! g = Some (Sending ctx project evt (c :: todo) rest) ->
      channels b !! c = Some x ->
      ctx ∈ done_ctxs b \/ ch_closed x = false /\ (ch_cap x <= length (ch_buf x))%nat ->
      bus_step b (LOffer g c evt false) (with_goroutine g (Sending ctx project evt todo rest) b)
  | step_panic g ctx project evt c todo rest x :
      goroutines b !! g = Some (Sending ctx project evt (c :: todo) rest) ->
      channels b !! c = Some x -> ch_closed x = true ->
      bus_step b (LPanic g c) (panic b).

(** A run of a process that is still alive before each step. *)
Inductive run (b0 : bus) : list label -> bus -> Prop :=
  | run_nil : run b0 [] b0
  | run_snoc tr b l b' : run b0 tr b -> panicked b = false -> bus_step b l b' -> run b0 (tr ++ [l]) b'.

(** *** What a run did *)
Definition offered_by (g c : nat) (tr : list label) : list AgentEvent :=
  omap (fun l => match l with
                 | LOffer g' c' e _ => if decide (g' = g /\ c' = c) then Some e else None
                 | _ => None end) tr.
Definition dispatched_to (g c : nat) (tr : list label) : list AgentEvent :=
  omap (fun l => match l with
                 | LDispatch g' e ts => if decide (g' = g /\ c ∈ ts) then Some e else None
                 | _ => None end) tr.
Definition taken_by (c : nat) (tr : list label) : list AgentEvent :=
  omap (fun l => match l with LOffer _ c' e true => if decide (c' = c) then Some e else None | _ => None end) tr.
Definition received (c : nat) (tr : list label) : list AgentEvent :=
  omap (fun l => match l with LReceive c' e => if decide (c' = c) then Some e else None | _ => None end) tr.
(** The event goroutine [g] still has to offer to [c]. *)
Definition offer_of (x : goroutine) (c : nat) : list AgentEvent :=
  match x with Sending _ _ evt todo _ => if decide (c ∈ todo) then [evt] else [] | _ => [] end.
Definition to_offer (b : bus) (g c : nat) : list AgentEvent :=
  match goroutines b !! g with Some x => offer_of x c | None => [] end.
Definition buffered (b : bus) (c : nat) : list AgentEvent :=
  match channels b !! c with Some x => ch_buf x | None => [] end.

(** The events of a stream in its order, the notice of an error last; what
    goroutine [g] dispatched, and what it still has to dispatch. *)
Definition events_of (l : list (string * string)) : list AgentEvent := (fun '(t, raw) => event_of t raw) <$> l.
Definition stream_events (st : event_stream) : list AgentEvent :=
  events_of (st_Events st) ++ match st_Err st with Some _ => [disconnected] | None => [] end.
Definition dispatched_by (g : nat) (tr : list label) : list AgentEvent :=
  omap (fun l => match l with LDispatch g' e _ => if decide (g' = g) then Some e else None | _ => None end) tr.
Definition to_dispatch (x : goroutine) : list AgentEvent :=
  match x with
  | Reading _ _ st => stream_events st
  | Dispatching _ _ evt rest => evt :: from_option stream_events [] rest
  | Sending _ _ _ _ rest => from_option stream_events [] rest
  | _ => []
  end.
End Defs.
Arguments bus : clear implicits.
End Bus.

(** ** Lemmas *)
Module BusFacts.
Import Bus.
Section Facts.
Context {S C : Type} `{OpencodeSDK S C} (decode : string -> res string (gmap string value)).
Implicit Types b : bus C.
Notation bus_step := (bus_step (S := S) decode).
Notation run := (run (S := S) decode).

Definition registered b (w : registered_in) (c : nat) : Prop :=
  match w with Global => c ∈ subscribers b | OfSession id => c ∈ consumers_of b id end.
(** The channel that a goroutine has to close. *)
Definition owns (x : goroutine) : option nat :=
  match x with AwaitDone _ c _ | Closing _ c => Some c | _ => None end.
Definition open_chan b (ctx c : nat) : Prop :=
  exists x, channels b !! c = Some x /\ ch_closed x = false /\ ch_ctx x = ctx.

Definition goroutine_ok b (x : goroutine) : Prop :=
  match x with
  | AwaitDone ctx c w => open_chan b ctx c /\ registered b w c
  | Closing ctx c => open_chan b ctx c /\ ctx ∈ done_ctxs b
  | Sending _ _ _ todo _ => NoDup todo /\ forall c, c ∈ todo -> is_Some (channels b !! c)
  | _ => True
  end.
Record inv b : Prop := {
  inv_chan c x : channels b !! c = Some x ->
    (c < next_chan b)%nat /\ (length (ch_buf x) <= ch_cap x)%nat /\ (ch_closed x = true -> ch_ctx x ∈ done_ctxs b);
  inv_go g x : goroutines b !! g = Some x -> (g < next_go b)%nat /\ goroutine_ok b x;
  inv_reg w c : registered b w c -> exists g ctx, goroutines b !! g = Some (AwaitDone ctx c w);
  inv_owner g g' x x' c : goroutines b !! g = Some x -> goroutines b !! g' = Some x' ->
    owns x = Some c -> owns x' = Some c -> g = g' }.

Lemma inv_new a : inv (new_bus a).
Proof. split; simpl; try done. intros [|id] c; unfold registered, consumers_of; simpl; rewrite ?lookup_empty; simpl; set_solver. Qed.
Lemma registered_open b w c : inv b -> registered b w c -> exists ctx, open_chan b ctx c.
Proof. intros Hi (g & ctx & Hg)%(inv_reg b Hi). exists ctx. apply (inv_go b Hi) in Hg. apply Hg. Qed.
(** A channel is registered in one place. *)
Lemma registered_once b w w' c : inv b -> registered b w c -> registered b w' c -> w = w'.
Proof.
  intros Hi (g & ctx & Hg)%(inv_reg b Hi) (g' & ctx' & Hg')%(inv_reg b Hi).
  assert (g = g') as -> by (by eapply (inv_owner b Hi g g')). congruence.
Qed.

Lemma inv_with_goroutine b g x0 x :
  inv b -> goroutines b !! g = Some x0 -> (forall ctx c w, x0 <> AwaitDone ctx c w) ->
  goroutine_ok b x -> (forall c, owns x = Some c -> owns x0 = Some c) -> inv (with_goroutine g x b).
Proof.
  intros Hi Hg Hx0 Hx Ho. split; simpl.
  - apply (inv_chan b Hi).
  - intros g' y [[<- <-]|[? Hy]]%lookup_insert_Some; [|by apply (inv_go b Hi)].
    split; [by apply (inv_go b Hi) in Hg as [? _] | done].
  - intros w c (g' & ctx & Hg')%(inv_reg b Hi). exists g', ctx. rewrite lookup_insert_ne; [done|].
    intros <-. rewrite Hg in Hg'. injection Hg' as ->. by eapply Hx0.
  - intros g1 g2 x1 x2 c. rewrite !lookup_insert_Some.
    intros [[<- <-]|[? H1]] [[<- <-]|[? H2]] Ho1 Ho2; [done | | |];
      first [by apply (inv_owner b Hi g1 g2 x1 x2 c) | by apply (inv_owner b Hi g g2 x0 x2 c); auto
            | by apply (inv_owner b Hi g1 g x1 x0 c); auto].
Qed.
Lemma inv_with_channel b c x x' :
  inv b -> channels b !! c = Some x -> (length (ch_buf x') <= ch_cap x')%nat -> ch_ctx x' = ch_ctx x ->
  ch_closed x' = ch_closed x \/
    ch_ctx x ∈ done_ctxs b /\ (forall g y, goroutines b !! g = Some y -> owns y <> Some c) ->
  inv (with_channel c x' b).
Proof.
  intros Hi Hc Hlen Hctx Hcl.
  assert (Hopen : forall ctx c' g y, goroutines b !! g = Some y -> owns y = Some c' -> open_chan b ctx c' ->
    open_chan (with_channel c x' b) ctx c').
  { intros ctx c' g y Hg Ho (z & Hz & Hzc & Hzx). unfold open_chan. simpl. destruct (decide (c = c')) as [<-|].
    - rewrite Hc in Hz. injection Hz as <-. exists x'. rewrite lookup_insert_eq. split_and!; [done | | congruence].
      destruct Hcl as [->|[_ Hno]]; [done | by apply Hno in Hg].
    - exists z. by rewrite lookup_insert_ne. }
  split; simpl.
  - intros c' y [[<- <-]|[? Hy]]%lookup_insert_Some; [|by apply (inv_chan b Hi)].
    destruct (inv_chan b Hi c x Hc) as (? & ? & Hd). split_and!; [done | done |].
    rewrite Hctx. destruct Hcl as [->|[? _]]; auto.
  - intros g y Hg. destruct (inv_go b Hi g y Hg) as [? Hy]. split; [done|].
    destruct y; simpl in *; try done; try (destruct Hy; split; [by eapply Hopen | done]).
    destruct Hy as [? Hy]. split; [done|]. intros c' Hc'. destruct (decide (c = c')) as [<-|].
    + rewrite lookup_insert_eq. eauto.
    + rewrite lookup_insert_ne by done. auto.
  - apply (inv_reg b Hi).
  - apply (inv_owner b Hi).
Qed.
Lemma inv_same b b' :
  inv b -> channels b' = channels b -> subscribers b' = subscribers b -> sessionConsumers b' = sessionConsumers b ->
  done_ctxs b ⊆ done_ctxs b' -> goroutines b' = goroutines b -> next_chan b' = next_chan b -> next_go b' = next_go b ->
  inv b'.
Proof.
  intros Hi Ec Es Ess Hd Eg En Eng.
  assert (Hreg : forall w c, registered b' w c <-> registered b w c).
  { intros [|id] c; simpl; [by rewrite Es|]. unfold consumers_of. by rewrite Ess. }
  assert (Hopen : forall ctx c, open_chan b' ctx c <-> open_chan b ctx c) by (intros; unfold open_chan; by rewrite Ec).
  split.
  - intros c x. rewrite Ec, En. intros (? & ? & ?)%(inv_chan b Hi). split_and!; auto.
  - intros g x. rewrite Eg, Eng. intros [? Hx]%(inv_go b Hi). split; [done|].
    destruct x; simpl in *; rewrite ?Ec, ?Hopen, ?Hreg; try done. destruct Hx; auto.
  - intros w c. rewrite Hreg, Eg. apply (inv_reg b Hi).
  - intros *. rewrite Eg. apply (inv_owner b Hi).
Qed.
Lemma inv_go_new b x : inv b -> goroutine_ok b x -> owns x = None -> inv (go x b).
Proof.
  intros Hi Hx Ho.
  assert (Hfresh : goroutines b !! next_go b = None).
  { destruct (goroutines b !! next_go b) eqn:E; [|done]. apply (inv_go b Hi) in E. lia. }
  split; simpl.
  - apply (inv_chan b Hi).
  - intros g y [[<- <-]|[? Hy]]%lookup_insert_Some; [split; [lia | done]|].
    destruct (inv_go b Hi g y Hy) as [? Hok]. split; [lia | done].
  - intros w c (g & ctx & Hg)%(inv_reg b Hi). exists g, ctx. rewrite lookup_insert_ne by congruence. done.
  - intros g1 g2 x1 x2 c. rewrite !lookup_insert_Some.
    intros [[<- <-]|[? H1]] [[<- <-]|[? H2]] Ho1 Ho2; try done; try congruence.
    by apply (inv_owner b Hi g1 g2 x1 x2 c).
Qed.
Lemma registered_register ctx w cap b w' c :
  registered (register ctx w cap b) w' c <-> w' = w /\ c = next_chan b \/ registered b w' c.
Proof.
  destruct w as [|id], w' as [|id']; simpl; unfold consumers_of; simpl; try set_solver.
  destruct (decide (id = id')) as [<-|]; [rewrite lookup_insert_eq | rewrite lookup_insert_ne by done]; set_solver.
Qed.
Lemma registered_deregister w c b w' c' :
  registered (deregister w c b) w' c' <-> registered b w' c' /\ ~ (w' = w /\ c' = c).
Proof.
  destruct w as [|id], w' as [|id']; simpl; unfold consumers_of; simpl; try set_solver.
  destruct (sessionConsumers b !! id) as [cs|] eqn:E; [destruct (decide (cs ∖ {[c]} = ∅)) as [Hn|]|];
    (destruct (decide (id = id')) as [<-|]; [rewrite ?lookup_delete_eq, ?lookup_insert_eq, ?E
                                            | rewrite ?lookup_delete_ne, ?lookup_insert_ne by done]); set_solver.
Qed.
Lemma inv_subscribe b ctx w cap : inv b -> inv (go (AwaitDone ctx (next_chan b) w) (register ctx w cap b)).
Proof.
  intros Hi.
  assert (Hfresh : goroutines b !! next_go b = None).
  { destruct (goroutines b !! next_go b) eqn:E; [|done]. apply (inv_go b Hi) in E. lia. }
  assert (Hnew : channels b !! next_chan b = None).
  { destruct (channels b !! next_chan b) eqn:E; [|done]. apply (inv_chan b Hi) in E. lia. }
  assert (Hopen : forall ctx' c', open_chan b ctx' c' -> open_chan (register ctx w cap b) ctx' c').
  { intros ctx' c' (x & Hx & ?). exists x. simpl. rewrite lookup_insert_ne by congruence. done. }
  assert (Hown : forall g y, goroutines b !! g = Some y -> owns y <> Some (next_chan b)).
  { intros g y Hy. apply (inv_go b Hi) in Hy as [_ Hy]. intros Ho.
    destruct y; try done; injection Ho as ->; destruct Hy as [(x & Hx & _) _]; congruence. }
  split; cbn [go register channels subscribers goroutines next_chan next_go done_ctxs].
  - intros c x [[<- <-]|[? Hx]]%lookup_insert_Some; simpl; [split_and!; [lia | lia | done]|].
    destruct (inv_chan b Hi c x Hx) as (? & ? & ?). split_and!; [lia | done | done].
  - intros g y [[<- <-]|[? Hy]]%lookup_insert_Some; simpl.
    + split; [lia|]. split; [|apply (registered_register ctx w cap); by left].
      exists (mkChannel cap [] false ctx). simpl. by rewrite lookup_insert_eq.
    + destruct (inv_go b Hi g y Hy) as [? Hok]. split; [lia|].
      destruct y; simpl in *; try done; [destruct Hok; split; [by apply Hopen | by apply (registered_register ctx w cap); right]
                                       | destruct Hok; split; [by apply Hopen | done] |].
      destruct Hok as [? Hok]. split; [done|]. intros c' Hc'. apply lookup_insert_is_Some'. auto.
  - intros w' c [[-> ->]|(g & ctx' & Hg)%(inv_reg b Hi)]%(registered_register ctx w cap); simpl.
    + exists (next_go b), ctx. by rewrite lookup_insert_eq.
    + exists g, ctx'. rewrite lookup_insert_ne by congruence. done.
  - intros g1 g2 x1 x2 c. simpl. rewrite !lookup_insert_Some.
    intros [[<- <-]|[? H1]] [[<- <-]|[? H2]] Ho1 Ho2; try done.
    + injection Ho1 as <-. by apply Hown in H2.
    + injection Ho2 as <-. by apply Hown in H1.
    + by apply (inv_owner b Hi g1 g2 x1 x2 c).
Qed.
Lemma inv_unregister b g ctx c w :
  inv b -> goroutines b !! g = Some (AwaitDone ctx c w) -> ctx ∈ done_ctxs b ->
  inv (with_goroutine g (Closing ctx c) (deregister w c b)).
Proof.
  intros Hi Hg Hd. destruct (inv_go b Hi g _ Hg) as [Hlt [Hopen Hreg]].
  split; cbn [with_goroutine deregister channels goroutines next_go done_ctxs].
  - apply (inv_chan b Hi).
  - intros g' y [[<- <-]|[? Hy]]%lookup_insert_Some; [split; [done|]; split; [exact Hopen | done]|].
    destruct (inv_go b Hi g' y Hy) as [? Hok]. split; [done|]. destruct y; simpl in *; try done.
    split; [apply Hok|]. apply registered_deregister. split; [apply Hok|]. intros [-> ->].
    by assert (g = g') by (by eapply (inv_owner b Hi g g')).
  - intros w' c' [(g' & ctx' & Hg')%(inv_reg b Hi) Hne]%registered_deregister. exists g', ctx'. simpl.
    rewrite lookup_insert_ne; [done|]. intros <-. rewrite Hg in Hg'. injection Hg' as _ -> ->. by apply Hne.
  - intros g1 g2 x1 x2 c'. simpl. rewrite !lookup_insert_Some.
    intros [[<- <-]|[? H1]] [[<- <-]|[? H2]] Ho1 Ho2; [done | | |].
    + by apply (inv_owner b Hi g g2 (AwaitDone ctx c w) x2 c').
    + by apply (inv_owner b Hi g1 g x1 (AwaitDone ctx c w) c').
    + by apply (inv_owner b Hi g1 g2 x1 x2 c').
Qed.
Lemma open_streams_inv ctx open projects b : inv b -> inv (open_streams ctx open projects b).1.
Proof.
  revert b. induction projects as [|[project client] rest IH]; intros b Hi; simpl; [done|].
  destruct (open client _) as [st|]; [|done]. by apply IH, inv_go_new.
Qed.
Lemma SubscribeEvents_inv ctx open order b : inv b -> inv (SubscribeEvents ctx open order b).1.
Proof.
  intros Hi. unfold SubscribeEvents. pose proof (inv_subscribe b ctx Global 64 Hi) as Hi'.
  set (b' := go _ _) in *. destruct (_ =? 0)%nat; [done|].
  pose proof (open_streams_inv ctx open (order (Adapter.projectClients (ad b'))) b' Hi') as Ho.
  by destruct (open_streams _ _ _ _) as [b1 []].
Qed.

(** A snapshot of the maps has no channel twice. *)
Lemma snapshot_ok b id global perSession :
  inv b -> global ≡ₚ elements (subscribers b) ->
  perSession ≡ₚ (if str_empty id then [] else elements (consumers_of b id)) ->
  NoDup (global ++ perSession) /\ forall c, c ∈ global ++ perSession -> exists w, registered b w c.
Proof.
  intros Hi Hg Hp.
  assert (Hpc : forall c, c ∈ perSession -> registered b (OfSession id) c).
  { intros c. rewrite Hp. destruct (str_empty id); [by intros ?%elem_of_nil | apply elem_of_elements]. }
  assert (Hgc : forall c, c ∈ global -> registered b Global c) by (intros c; rewrite Hg; apply elem_of_elements).
  split.
  - apply NoDup_app. split_and!.
    + rewrite Hg. apply NoDup_elements.
    + intros c H1%Hgc H2%Hpc. by pose proof (registered_once b _ _ c Hi H1 H2).
    + rewrite Hp. destruct (str_empty id); [by apply NoDup_nil | apply NoDup_elements].
  - intros c [?|?]%elem_of_app; eauto.
Qed.

Lemma bus_step_inv b l b' : inv b -> bus_step b l b' -> inv b'.
Proof.
  intros Hi Hs. destruct Hs.
  - by apply inv_subscribe.
  - by apply SubscribeEvents_inv.
  - by apply (inv_same b).
  - apply (inv_same b); try done. simpl. set_solver.
  - destruct (inv_chan b Hi c x) as (? & Hl & ?); [done|]. apply (inv_with_channel b c x); simpl; auto.
    rewrite H1 in Hl. simpl in Hl. lia.
  - by apply inv_unregister.
  - change (inv (with_channel c (shut_chan x) (with_goroutine g Ended b))).
    destruct (inv_go b Hi g _ H0) as [_ [(x' & Hx' & ? & Hctx) Hd]]. assert (x' = x) as -> by congruence.
    apply (inv_with_channel _ c x); simpl; [by apply (inv_with_goroutine b g (Closing ctx c)) | done | | done |].
    + by apply (inv_chan b Hi c x).
    + right. rewrite Hctx. split; [done|]. intros g' y [[<- <-]|[? Hy]]%lookup_insert_Some; [done|].
      intros Ho. by assert (g = g') by (by eapply (inv_owner b Hi g g')).
  - eapply (inv_with_goroutine (with_adapter _ b)); [by apply (inv_same b) | done | done | done | done].
  - by eapply inv_with_goroutine.
  - by eapply inv_with_goroutine.
  - by eapply inv_with_goroutine.
  - destruct (snapshot_ok b (ae_SessionID evt) global perSession Hi H1 H2) as [Hnd Hc].
    eapply inv_with_goroutine; try done. split; [done|]. intros c [w Hw]%Hc.
    destruct (registered_open b w c Hi Hw) as (ctx' & x & Hx & _). eauto.
  - eapply inv_with_goroutine; [done | done | done | by destruct rest | by destruct rest].
  - destruct (inv_go b Hi g _ H0) as [_ [Hnd Hc]]. apply NoDup_cons in Hnd as [? ?].
    eapply (inv_with_goroutine (with_channel _ _ b)); [| done | done | | done].
    + apply (inv_with_channel b c x); simpl; auto. rewrite length_app. simpl. lia.
    + split; [done|]. intros c' Hc'. apply lookup_insert_is_Some'. right. apply Hc. by right.
  - destruct (inv_go b Hi g _ H0) as [_ [Hnd Hc]]. apply NoDup_cons in Hnd as [? ?].
    eapply inv_with_goroutine; try done. split; [done|]. intros c' Hc'. apply Hc. by right.
  - by apply (inv_same b).
Qed.
Lemma run_inv a tr b : run (new_bus a) tr b -> inv b.
Proof. induction 1; [apply inv_new | by eapply bus_step_inv]. Qed.

(** *** Traces *)
Lemma to_offer_with b g x g' c :
  to_offer (with_goroutine g x b) g' c = if decide (g' = g) then offer_of x c else to_offer b g' c.
Proof.
  unfold to_offer. simpl. destruct (decide (g' = g)) as [->|]; [by rewrite lookup_insert_eq | by rewrite lookup_insert_ne].
Qed.
Lemma to_offer_go b x g c : inv b -> (forall c, offer_of x c = []) -> to_offer (go x b) g c = to_offer b g c.
Proof.
  intros Hi Hx. unfold to_offer. simpl. destruct (decide (g = next_go b)) as [->|]; [|by rewrite lookup_insert_ne].
  rewrite lookup_insert_eq, Hx. destruct (goroutines b !! next_go b) eqn:E; [|done]. apply (inv_go b Hi) in E. lia.
Qed.
Lemma to_offer_at b g x c : goroutines b !! g = Some x -> to_offer b g c = offer_of x c.
Proof. unfold to_offer. by intros ->. Qed.
Lemma open_streams_offer ctx open projects b g c :
  inv b -> to_offer (open_streams ctx open projects b).1 g c = to_offer b g c.
Proof.
  revert b. induction projects as [|[project client] rest IH]; intros b Hi; simpl; [done|].
  destruct (open client _) as [st|]; [|done]. rewrite IH by by apply inv_go_new. by apply to_offer_go.
Qed.
Lemma open_streams_channels ctx open projects b : channels (open_streams ctx open projects b).1 = channels b.
Proof.
  revert b. induction projects as [|[project client] rest IH]; intros b; simpl; [done|].
  destruct (open client _) as [st|]; [|done]. by rewrite IH.
Qed.
Lemma subscribed_same b ctx w cap : inv b ->
  let b' := go (AwaitDone ctx (next_chan b) w) (register ctx w cap b) in
  (forall g c, to_offer b' g c = to_offer b g c) /\ forall c, buffered b' c = buffered b c.
Proof.
  intros Hi b'. split.
  - intros g c. unfold to_offer. simpl. destruct (decide (g = next_go b)) as [->|]; [|by rewrite lookup_insert_ne].
    rewrite lookup_insert_eq. destruct (goroutines b !! next_go b) eqn:E; [|done]. apply (inv_go b Hi) in E. lia.
  - intros c. unfold buffered. simpl. destruct (decide (c = next_chan b)) as [->|]; [|by rewrite lookup_insert_ne].
    rewrite lookup_insert_eq. destruct (channels b !! next_chan b) eqn:E; [|done]. apply (inv_chan b Hi) in E. lia.
Qed.
Lemma SubscribeEvents_same b ctx open order : inv b ->
  let b' := (SubscribeEvents ctx open order b).1 in
  (forall g c, to_offer b' g c = to_offer b g c) /\ forall c, buffered b' c = buffered b c.
Proof.
  intros Hi. destruct (subscribed_same b ctx Global 64 Hi) as [Ho Hb]. unfold SubscribeEvents.
  pose proof (inv_subscribe b ctx Global 64 Hi) as Hi'. set (b1 := go _ _) in *.
  destruct (_ =? 0)%nat; [done|].
  pose proof (open_streams_offer ctx open (order (Adapter.projectClients (ad b1))) b1) as Ho1.
  pose proof (open_streams_channels ctx open (order (Adapter.projectClients (ad b1))) b1) as Hc1.
  assert (forall c, buffered (open_streams ctx open (order (Adapter.projectClients (ad b1))) b1).1 c = buffered b1 c)
    by (intros c; unfold buffered; by rewrite Hc1).
  destruct (open_streams _ _ _ _) as [b2 []]; simpl in *; split; intros; rewrite ?Ho1 by done; congruence.
Qed.

(** An offer takes the channel from the list. *)
Lemma to_offer_next b g ctx project evt c todo rest g' c' :
  inv b -> goroutines b !! g = Some (Sending ctx project evt (c :: todo) rest) ->
  (if decide (g = g' /\ c = c') then [evt] else []) ++
    (if decide (g' = g) then offer_of (Sending ctx project evt todo rest) c' else to_offer b g' c') =
  to_offer b g' c'.
Proof.
  intros Hi Hg. destruct (inv_go b Hi g _ Hg) as [_ [Hnd _]]. apply NoDup_cons in Hnd as [Hn _].
  destruct (decide (g' = g)) as [->|Hne]; [|by rewrite decide_False by (intros [? _]; congruence)].
  rewrite (to_offer_at b _ _ _ Hg). simpl. destruct (decide (c' = c)) as [->|].
  - rewrite decide_True, decide_False, decide_True by (try done; by left). done.
  - rewrite decide_False by (intros [_ ?]; congruence).
    destruct (decide (c' ∈ todo)); [rewrite decide_True by (by right) | rewrite decide_False by set_solver]; done.
Qed.
Lemma step_offer b l b' g c : inv b -> bus_step b l b' ->
  offered_by g c [l] ++ to_offer b' g c = to_offer b g c ++ dispatched_to g c [l].
Proof.
  intros Hi Hs. destruct Hs; cbn [offered_by dispatched_to omap list_omap app]; rewrite ?app_nil_r; try done.
  - by apply subscribed_same.
  - by apply SubscribeEvents_same.
  - rewrite to_offer_with. by case_decide as E; [rewrite E, (to_offer_at b _ _ _ H0)|].
  - rewrite to_offer_with. by case_decide as E; [rewrite E, (to_offer_at b _ _ _ H0)|].
  - rewrite to_offer_with. by case_decide as E; [rewrite E, (to_offer_at b _ _ _ H0)|].
  - rewrite to_offer_with. by case_decide as E; [rewrite E, (to_offer_at b _ _ _ H0)|].
  - rewrite to_offer_with. by case_decide as E; [rewrite E, (to_offer_at b _ _ _ H0)|].
  - rewrite to_offer_with. by case_decide as E; [rewrite E, (to_offer_at b _ _ _ H0)|].
  - rewrite to_offer_with. destruct (decide (g = g0)) as [->|Hne].
    + rewrite (to_offer_at b _ _ _ H0). simpl. destruct (decide (c ∈ global ++ perSession)).
      * by rewrite decide_True.
      * rewrite decide_False; [done | tauto].
    + rewrite decide_False by (intros [? _]; done). by rewrite app_nil_r.
  - rewrite to_offer_with. case_decide as E; [|done]. rewrite E, (to_offer_at b _ _ _ H0). by destruct rest.
  - rewrite to_offer_with. etrans; [|apply (to_offer_next b _ _ _ _ _ _ _ g c Hi H0)]. f_equal. by case_decide.
  - rewrite to_offer_with. etrans; [|apply (to_offer_next b _ _ _ _ _ _ _ g c Hi H0)]. f_equal. by case_decide.
Qed.
Lemma step_buffer b l b' c : inv b -> bus_step b l b' ->
  received c [l] ++ buffered b' c = buffered b c ++ taken_by c [l].
Proof.
  intros Hi Hs. destruct Hs; cbn [received taken_by omap list_omap app]; rewrite ?app_nil_r; try done.
  - by apply subscribed_same.
  - by apply SubscribeEvents_same.
  - unfold buffered. simpl. case_decide as E; [rewrite <- E|]; simplify_map_eq; [by rewrite H1 | done].
  - unfold buffered. simpl. destruct (decide (c0 = c)) as [->|]; by simplify_map_eq.
  - unfold buffered. simpl. case_decide as E; [rewrite <- E|]; simplify_map_eq; [done | by rewrite app_nil_r].
Qed.

Lemma omap_snoc {A B} (f : A -> option B) l x : omap f (l ++ [x]) = omap f l ++ omap f [x].
Proof. apply omap_app. Qed.
Lemma run_offers a tr b g c : run (new_bus a) tr b ->
  offered_by g c tr ++ to_offer b g c = dispatched_to g c tr.
Proof.
  induction 1 as [|tr b l b' Hr IH _ Hs]; [done|]. pose proof (step_offer b l b' g c (run_inv _ _ _ Hr) Hs) as Ho.
  unfold offered_by, dispatched_to in *. rewrite !omap_snoc, <- IH, <- !app_assoc. by f_equal.
Qed.
Lemma run_buffers a tr b c : run (new_bus a) tr b -> received c tr ++ buffered b c = taken_by c tr.
Proof.
  induction 1 as [|tr b l b' Hr IH _ Hs]; [done|]. pose proof (step_buffer b l b' c (run_inv _ _ _ Hr) Hs) as Ho.
  unfold received, taken_by in *. rewrite !omap_snoc, <- IH, <- !app_assoc. by f_equal.
Qed.
(** *** The order of a stream *)
(** Where goroutine [x] is in the stream [st], having dispatched [seen]. *)
Definition position (ctx : nat) (st : event_stream) (x : goroutine) (seen : list AgentEvent) : Prop :=
  let part (seen : list AgentEvent) (ctx' : nat) (st' : event_stream) :=
    ctx' = ctx /\ st_Err st' = st_Err st /\
    exists l, seen = events_of decode l /\ st_Events st = l ++ st_Events st' in
  match x with
  | Reading ctx' _ st' | Sending ctx' _ _ _ (Some st') => part seen ctx' st'
  | Dispatching ctx' _ evt (Some st') => part (seen ++ [evt]) ctx' st'
  | Dispatching _ _ evt None =>
      evt = disconnected /\ is_Some (st_Err st) /\ seen = events_of decode (st_Events st)
  | Sending _ _ _ _ None => is_Some (st_Err st) /\ seen = stream_events decode st
  | Ended => seen = stream_events decode st
  | AwaitDone _ _ _ | Closing _ _ => False
  end.
Lemma position_all ctx st x seen : position ctx st x seen -> seen ++ to_dispatch decode x = stream_events decode st.
Proof.
  assert (forall l (st' : event_stream), st_Err st' = st_Err st -> st_Events st = l ++ st_Events st' ->
    events_of decode l ++ stream_events decode st' = stream_events decode st) as Hp.
  { intros l st' He Hl. unfold stream_events, events_of. by rewrite Hl, He, fmap_app, <- app_assoc. }
  destruct x as [| | |ctx' project evt [st'|]|ctx' project evt todo [st'|]|]; simpl; try done.
  - intros (_ & He & l & -> & Hl). by apply Hp.
  - intros (_ & He & l & Hs & Hl). rewrite cons_middle, app_assoc, Hs. by apply Hp.
  - intros (-> & [e He] & ->). unfold stream_events. by rewrite He.
  - intros (_ & He & l & -> & Hl). by apply Hp.
  - intros [_ ->]. by rewrite app_nil_r.
  - intros ->. by rewrite app_nil_r.
Qed.

(** A cancelled context cuts its stream short, with an error. *)
Definition cut (b : bus C) (ctx : nat) (st st' : event_stream) : Prop :=
  st' = st \/ ctx ∈ done_ctxs b /\ is_Some (st_Err st') /\ st_Events st' `prefix_of` st_Events st.

Lemma open_streams_go ctx open projects b g x :
  inv b -> goroutines b !! g = Some x -> goroutines (open_streams ctx open projects b).1 !! g = Some x.
Proof.
  revert b. induction projects as [|[project client] rest IH]; intros b Hi Hx; simpl; [done|].
  destruct (open client _) as [st|]; [|done]. apply IH; [by apply inv_go_new|]. simpl.
  apply (inv_go b Hi) in Hx as Hlt. rewrite lookup_insert_ne by lia. done.
Qed.
Lemma subscribed_go ctx w cap b g x :
  inv b -> goroutines b !! g = Some x ->
  goroutines (go (AwaitDone ctx (next_chan b) w) (register ctx w cap b)) !! g = Some x.
Proof. intros Hi Hx. apply (inv_go b Hi) in Hx as Hlt. simpl. rewrite lookup_insert_ne by lia. done. Qed.
Lemma SubscribeEvents_go ctx open order b g x :
  inv b -> goroutines b !! g = Some x -> goroutines (SubscribeEvents ctx open order b).1 !! g = Some x.
Proof.
  intros Hi Hx. apply (subscribed_go ctx Global 64) in Hx; [|done]. unfold SubscribeEvents.
  pose proof (inv_subscribe b ctx Global 64 Hi) as Hi'. set (b1 := go _ _) in *.
  destruct (_ =? 0)%nat; [done|].
  pose proof (open_streams_go ctx open (order (Adapter.projectClients (ad b1))) b1 g x Hi' Hx).
  by destruct (open_streams _ _ _ _) as [b2 []].
Qed.
(** Contexts end by being cancelled. *)
Lemma SubscribeEvents_done ctx open order b :
  let b' := (SubscribeEvents ctx open order b).1 in done_ctxs b' = done_ctxs b /\ panicked b' = panicked b.
Proof.
  unfold SubscribeEvents. set (b1 := go _ _). destruct (_ =? 0)%nat; [done|].
  enough (forall l b', done_ctxs (open_streams ctx open l b').1 = done_ctxs b' /\
    panicked (open_streams ctx open l b').1 = panicked b') as Ho.
  { specialize (Ho (order (Adapter.projectClients (ad b1))) b1). by destruct (open_streams _ _ _ _) as [b2 []]. }
  induction l as [|[project client] l IH]; intros b'; simpl; [done|]. by destruct (open _ _); [destruct (IH (go (Reading ctx project a) b'))|].
Qed.
Lemma step_done b l b' : bus_step b l b' -> done_ctxs b ⊆ done_ctxs b'.
Proof. intros Hs. destruct Hs; try done; simpl; [by rewrite (proj1 (SubscribeEvents_done _ _ _ _)) | set_solver]. Qed.
Lemma cut_step b l b' ctx st st' : bus_step b l b' -> cut b ctx st st' -> cut b' ctx st st'.
Proof. intros Hs [->|[Hd ?]]; [by left|]. right. split; [|done]. by eapply step_done. Qed.

(** A step of goroutine [g] moves it on in its stream; the others leave it. *)
Lemma step_position b l b' g x ctx st st1 seen :
  inv b -> bus_step b l b' -> goroutines b !! g = Some x -> cut b ctx st st1 -> position ctx st1 x seen ->
  exists x' st2, goroutines b' !! g = Some x' /\ cut b' ctx st st2 /\ position ctx st2 x' (seen ++ dispatched_by g [l]).
Proof.
  intros Hi Hs Hx Hcut Hp. pose proof (cut_step b l b' ctx st st1 Hs Hcut) as Hcut'.
  assert (goroutines b' !! g = Some x /\ dispatched_by g [l] = [] ->
    exists x' st2, goroutines b' !! g = Some x' /\ cut b' ctx st st2 /\
      position ctx st2 x' (seen ++ dispatched_by g [l])) as Hsame.
  { intros [Hx' Hl]. exists x, st1. by rewrite Hl, app_nil_r. }
  assert (forall g0 x0, goroutines b !! g0 = Some x0 -> g0 = g -> x0 = x) as Hat by congruence.
  destruct Hs;
    try (match goal with H0 : goroutines b !! ?g0 = Some ?x0 |- _ =>
           destruct (decide (g0 = g)) as [->|Hne];
           [assert (x0 = x) as <- by (by eapply Hat)
           |apply Hsame; split; [simpl; by rewrite lookup_insert_ne | simpl; try done; by rewrite decide_False]] end);
    try (apply Hsame; split; [done || (by apply subscribed_go) || (by apply SubscribeEvents_go) | done]);
    try done; cbn [dispatched_by omap list_omap]; rewrite ?app_nil_r.
  - eexists _, st1. split; [apply lookup_insert_eq|]. split; [done|].
    destruct Hp as (-> & He & l & -> & Hl). split; [done|]. split; [done|].
    exists (l ++ [(t, raw)]). unfold events_of. rewrite fmap_app, Hl, <- app_assoc. done.
  - eexists _, st1. split; [apply lookup_insert_eq|]. split; [done|].
    destruct Hp as (-> & He & l & -> & Hl). simpl in *. rewrite app_nil_r in Hl. subst l. rewrite <- He.
    split_and!; [done | by eexists | done].
  - eexists _, st1. split; [apply lookup_insert_eq|]. split; [done|].
    destruct Hp as (-> & He & l & -> & Hl). simpl in *. rewrite app_nil_r in Hl. subst l.
    unfold stream_events. by rewrite <- He, app_nil_r.
  - destruct Hp as (<- & He & l & -> & Hl). simpl in *.
    exists (Reading ctx0 project (mkStream [] (Some e))), (mkStream l (Some e)).
    split; [apply lookup_insert_eq|]. split.
    + right. split; [done|]. split; [by eexists|]. simpl.
      destruct Hcut as [->|(_ & _ & Hpre)]; [exists evs; done|].
      etrans; [|exact Hpre]. by exists evs.
    + split; [done|]. split; [done|]. exists l. by rewrite app_nil_r.
  - eexists _, st1. split; [apply lookup_insert_eq|]. split; [done|]. rewrite decide_True by done.
    destruct rest as [st'|]; [done|]. destruct Hp as (-> & [e He] & ->). split; [by eexists|].
    unfold stream_events. by rewrite He.
  - eexists _, st1. split; [apply lookup_insert_eq|]. split; [done|].
    destruct rest as [st'|]; [done|]. by destruct Hp.
  - eexists _, st1. split; [apply lookup_insert_eq|]. split; [done|]. done.
  - eexists _, st1. split; [apply lookup_insert_eq|]. split; [done|]. done.
Qed.
Lemma run_stream a tr1 b1 tr2 b g ctx project st :
  run (new_bus a) tr1 b1 -> run b1 tr2 b -> goroutines b1 !! g = Some (Reading ctx project st) ->
  inv b /\ exists x st', goroutines b !! g = Some x /\ cut b ctx st st' /\ position ctx st' x (dispatched_by g tr2).
Proof.
  intros Hr1 Hr2 Hg. induction Hr2 as [|tr b l b' Hr IH _ Hs].
  - split; [by eapply run_inv|]. exists (Reading ctx project st), st. split; [done|]. split; [by left|].
    split; [done|]. split; [done|]. by exists [].
  - destruct IH as (Hi & x & st' & Hx & Hcut & Hp). split; [by eapply bus_step_inv|].
    unfold dispatched_by. rewrite omap_snoc. by eapply step_position.
Qed.

Lemma dispatched_prefix (b : bus C) ctx st st' seen rest :
  cut b ctx st st' -> seen ++ rest = stream_events decode st' ->
  exists events, events `prefix_of` events_of decode (st_Events st) /\ (seen = events \/ seen = events ++ [disconnected]).
Proof.
  intros Hcut Hs. assert (events_of decode (st_Events st') `prefix_of` events_of decode (st_Events st)) as Hpre.
  { destruct Hcut as [->|(_ & _ & [k ->])]; [done|]. unfold events_of. rewrite fmap_app. by eexists. }
  unfold stream_events in Hs.
  apply app_eq_inv in Hs as [(k & Hl & Hk)|(k & Hl & Hk)].
  - exists (events_of decode (st_Events st')). split; [done|]. destruct k as [|e k].
    + left. by rewrite Hl, app_nil_r.
    + destruct (st_Err st'); [|done]. simpl in Hk. injection Hk as <- Hk. symmetry in Hk.
      apply app_eq_nil in Hk as [-> ->]. by right.
  - exists seen. split; [|by left]. etrans; [|exact Hpre]. by exists k.
Qed.

(** *** Whom an event is dispatched to *)
Lemma snapshot_targets b g evt ts b' :
  inv b -> bus_step b (LDispatch g evt ts) b' ->
  NoDup ts /\
  forall c, c ∈ ts <-> registered b Global c \/
    (ae_SessionID evt <> ε /\ registered b (OfSession (ae_SessionID evt)) c).
Proof.
  intros Hi Hs. pose proof (bus_step_inv b _ b' Hi Hs) as Hi'. remember (LDispatch g evt ts) as l eqn:El.
  destruct Hs as [| | | | | | | | | | |g0 ctx project evt0 rest global perSession Hg Hgl Hps| | | |]; try done.
  injection El as -> -> <-.
  split.
  - destruct (inv_go _ Hi' g (Sending ctx project evt (global ++ perSession) rest)) as [_ [? _]];
      [simpl; apply lookup_insert_eq | done].
  - intros c. rewrite elem_of_app, Hgl, Hps, elem_of_elements. unfold registered.
    destruct (str_empty (ae_SessionID evt)) eqn:E.
    + apply str_empty_true in E. rewrite E. set_solver.
    + apply str_empty_false in E. rewrite elem_of_elements. tauto.
Qed.
Lemma run_split a tr1 l tr2 b : run (new_bus a) (tr1 ++ l :: tr2) b ->
  exists b1 b2, run (new_bus a) tr1 b1 /\ bus_step b1 l b2.
Proof.
  revert b. induction tr2 as [|l' tr2 IH] using rev_ind; intros b Hr.
  - inversion Hr as [E|tr0 b0 l0 b0' Hr0 _ Hs E]; [by destruct tr1|].
    apply app_inj_tail in E as [-> ->]. by exists b0, b.
  - rewrite app_comm_cons, app_assoc in Hr. inversion Hr as [E|tr0 b0 l0 b0' Hr0 _ Hs E]; [by destruct tr1|].
    apply app_inj_tail in E as [-> ->]. by eapply IH.
Qed.
Lemma run_done a tr b ctx : run (new_bus a) tr b -> ctx ∈ done_ctxs b -> LCancel ctx ∈ tr.
Proof.
  induction 1 as [|tr b l b' Hr IH _ Hs]; simpl; [set_solver|]. rewrite elem_of_app, list_elem_of_singleton.
  intros Hd. assert (l = LCancel ctx \/ ctx ∈ done_ctxs b) as [->|?]; [|by right|by left; apply IH].
  destruct Hs; try (by right); [right; by rewrite (proj1 (SubscribeEvents_done _ _ _ _)) in Hd|].
  simpl in Hd. apply elem_of_union in Hd as [->%elem_of_singleton|?]; auto.
Qed.
End Facts.
End BusFacts.

(** ** Properties *)
Section Properties.
Import Bus BusFacts.
Context {S C : Type} `{OpencodeSDK S C} (decode : string -> res string (gmap string value)).
Notation run := (run (S := S) decode).


(** C13: the agent dies of a subscription that ends: where a run comes to a panic,
    a goroutine was offering an event to a channel that it had read from the
    maps, that had left them since and was closed, since its context was
    cancelled; without a cancelled context there is no panic. *)
Theorem panics_come_from_ended_subscriptions (a : Adapter.RealAdapter C) (tr : list label) (b : bus C) :
  run (new_bus a) tr b -> panicked b = true ->
  exists tr0 g c x evt ts, tr = tr0 ++ [LPanic g c] /\
    LDispatch g evt ts ∈ tr0 /\ c ∈ ts /\
    channels b !! c = Some x /\ ch_closed x = true /\ LCancel (ch_ctx x) ∈ tr0 /\
    forall w, ~ registered b w c.
Proof.
  intros Hr Hp. destruct Hr as [|tr0 b0 l b Hr Halive Hs]; [done|].
  pose proof (run_inv decode a tr0 b0 Hr) as Hi.
  destruct Hs; simpl in Hp; rewrite ?(proj2 (SubscribeEvents_done _ _ _ _)) in Hp; try congruence.
  pose proof (run_offers decode a tr0 b0 g c Hr) as Ho. rewrite (to_offer_at b0 _ _ _ H0) in Ho. simpl in Ho.
  rewrite decide_True in Ho by (by left).
  assert (exists evt' ts, LDispatch g evt' ts ∈ tr0 /\ c ∈ ts) as (evt' & ts & Hd & Hc).
  { assert (evt ∈ dispatched_to g c tr0) as Hin by (rewrite <- Ho; set_solver).
    apply list_elem_of_omap in Hin as (l & Hl & E). destruct l; try done. case_decide as Ed; [|done].
    destruct Ed as [-> ?]. eauto. }
  exists tr0, g, c, x, evt', ts. split_and!; try done.
  - apply (run_done decode a tr0 b0); [done|]. by apply (inv_chan b0 Hi c x).
  - intros w Hw. destruct (registered_open b0 w c Hi Hw) as (ctx' & y & Hy & ? & _). congruence.
Qed.
End Properties.

(** ** Witness: one subscriber, whose context ends while it is offered an event *)
Module BusWitness.
Import Bus BusFacts AdapterWitness.

Definition a0 : Adapter.RealAdapter string := Adapter.NewOpencodeAdapter "u" ε.
Definition one_event (_ _ : string) : res api_error event_stream :=
  Ok (mkStream [("session.idle", "raw")]%string None).
Definition evt : AgentEvent := mkAgentEvent "session.idle" ε "raw".
Definition b1 : bus string := (SubscribeEvents 0 one_event in_order (new_bus a0)).1.
Definition b2 := with_goroutine 1 (Dispatching 0 ε evt (Some (mkStream [] None))) b1.
Definition b3 := with_goroutine 1 (Sending 0 ε evt [0%nat] (Some (mkStream [] None))) b2.
Definition b4 := end_ctx 0 b3.
Definition b5 := with_goroutine 0 (Closing 0 0) (deregister Global 0 b4).
Definition b6 := with_goroutine 0 Ended (with_channel 0 (mkChannel 64 [] true 0) b5).
Definition tr3 : list label := [LCall; LQuiet; LDispatch 1 evt [0%nat]].
Definition tr6 : list label := tr3 ++ [LCancel 0; LQuiet; LQuiet].

Lemma to_b1 : run (S := Z * bool) no_json (new_bus a0) [LCall] b1.
Proof.
  apply (run_snoc _ _ [] (new_bus a0)); [constructor | done|].
  apply (step_subscribe _ _ 0 one_event in_order). apply range_order_self.
Qed.
Lemma step_b2 : bus_step (S := Z * bool) no_json b1 LQuiet b2.
Proof. refine (step_next _ b1 1 0 ε "session.idle" "raw" [] None _). reflexivity. Qed.
Lemma step_b3 : bus_step (S := Z * bool) no_json b2 (LDispatch 1 evt [0%nat]) b3.
Proof.
  refine (step_snapshot _ b2 1 0 ε evt _ [0%nat] [] _ _ _); [reflexivity | | done]. vm_compute. reflexivity.
Qed.
Lemma to_b3 : run (S := Z * bool) no_json (new_bus a0) tr3 b3.
Proof.
  apply (run_snoc _ _ [LCall; LQuiet] b2); [|done | exact step_b3].
  apply (run_snoc _ _ [LCall] b1); [exact to_b1 | done | exact step_b2].
Qed.
Lemma from_b1 : run (S := Z * bool) no_json b1 [LQuiet; LDispatch 1 evt [0%nat]] b3.
Proof.
  apply (run_snoc _ _ [LQuiet] b2); [|done | exact step_b3].
  apply (run_snoc _ _ [] b1); [constructor | done | exact step_b2].
Qed.
Lemma to_panic : run (S := Z * bool) no_json (new_bus a0) (tr6 ++ [LPanic 1 0]) (panic b6).
Proof.
  apply (run_snoc _ _ tr6 b6); [|done|].
  - apply (run_snoc _ _ (tr3 ++ [LCancel 0; LQuiet]) b5); [|done|].
    + apply (run_snoc _ _ (tr3 ++ [LCancel 0]) b4); [|done|].
      * apply (run_snoc _ _ tr3 b3); [exact to_b3 | done | apply step_cancel].
      * refine (step_unregister _ b4 0 0 0 Global _ _); [reflexivity | set_solver].
    + refine (step_close _ b5 0 0 0 (mkChannel 64 [] false 0) _ _); reflexivity.
  - refine (step_panic _ b6 1 0 ε evt 0 [] _ (mkChannel 64 [] true 0) _ _ _); reflexivity.
Qed.
(** A subscriber that leaves can end the agent. *)
Example leaving_can_panic : exists tr b, run (S := Z * bool) no_json (new_bus a0) tr b /\ panicked b = true.
Proof. exists (tr6 ++ [LPanic 1 0]), (panic b6). split; [exact to_panic | reflexivity]. Qed.

Lemma panics_come_from_ended_subscriptions_witness :
  exists tr0 g c x evt ts, tr6 ++ [LPanic 1 0] = tr0 ++ [LPanic g c] /\
    LDispatch g evt ts ∈ tr0 /\ c ∈ ts /\
    channels (panic b6) !! c = Some x /\ ch_closed x = true /\ LCancel (ch_ctx x) ∈ tr0 /\
    forall w, ~ registered (panic b6) w c.
Proof. exact (panics_come_from_ended_subscriptions no_json a0 _ (panic b6) to_panic eq_refl). Defined.

(** Two subscriptions: the second opens the server's stream again, and both
    goroutines offer its event to both channels. *)
Definition twice : bus string := (SubscribeEvents 1 one_event in_order b1).1.
Example streams_of_two_subscriptions :
  (goroutines twice !! 1%nat, goroutines twice !! 3%nat, elements (subscribers twice)) =
  (Some (Reading 0 ε (mkStream [("session.idle", "raw")]%string None)),
   Some (Reading 1 ε (mkStream [("session.idle", "raw")]%string None)), [1; 0]%nat).
Proof. vm_compute. reflexivity. Qed.
End BusWitness.
