(* ===== verification/SessionCommands.v ===== *)
(** * SessionCommands

    internal/agent/session_commands.go: the commands an agent carries out and the
    answer it sends to each.  The adapter is the one of [OpenCode] (the other
    implementation of the interface is a test double); environment commands run
    the environment check and the provisioner on the file system.  JSON decoders
    and error texts are arguments.

    The last part follows one command through the whole program: from the
    dispatcher's transport to the agent's handler and back to the waiting
    caller. *)

From S2P Require Import Prelude GoStd SqlStore NodeRegistry SessionTracker Commands Dispatcher Config.
From S2P Require Import Hub WSClient EnvCheck Provision OpenCode.

(** ** Data *)
Record sessionCommand := mkSessionCommand {
  scmd_CommandID : string; scmd_Type : string; scmd_Project : string; scmd_Args : gmap string value }.
Record sessionCommandResult := mkSessionResult {
  scr_CommandID : string; scr_Status : string; scr_Output : string; scr_Error : string;
  scr_Timestamp : Time.t }.

(** What is marshalled into an output. *)
Inductive command_output :=
  | out_env_check (project status : string) (drift : list DriftItem) (at_ : Time.t)
  | out_env_provision (project status : string) (changes : list string)
      (applied : list ProvisionAction) (pending : list ProvisionPending) (at_ : Time.t)
  | out_agentmd_diff (project local template diff : string)
  | out_agentmd_sync (project status message : string).

Inductive command_error :=
  | adapter_failed (e : adapter_error)
  | session_id_required
  | project_required
  | project_directory_missing (project : string)
  | provision_failed (e : provision_error)
  | marshal_output (what e : string)
  | unsupported_command (t : string).

Definition category_text (c : DriftCategory) : string :=
  match c with
  | CatRuntime => "runtime" | CatTools => "tools" | CatEnvVars => "env_vars"
  | CatAgentConfig => "agent_config" | CatContext => "context" | CatGit => "git" | CatDocs => "docs"
  end.
Definition provision_status_text (s : ProvisionStatus) : string :=
  match s with
  | ProvisionCompleted => "completed" | ProvisionPartial => "partial" | ProvisionFailed => "failed"
  end.
Definition change_text (a : ProvisionAction) : string :=
  (category_text (pa_Category a) +:+ ":" +:+ pa_Item a +:+ ":" +:+ pa_Action a)%stdpp.

Definition resolveCommandID (payloadCommandID requestID : string) : string :=
  if str_empty payloadCommandID then requestID else payloadCommandID.
Definition readStringArg (args : gmap string value) (key : string) : string :=
  match args !! key with Some (VStr s) => s | _ => ε end.

Module Session.

Section Defs.
Context {S C F : Type} `{OpencodeSDK S C} `{FileSystem F} `{Semver} `{MapRange}
  `{Json command_output} `{Json sessionCommandResult}.
(** The process the agent runs in, and its decoders. *)
Record host := mkHost {
  h_run : string -> list string -> res string string;
  h_env : string -> string;
  h_home : res string string;
  h_tokens : nat -> string;
  h_object : string -> res string (gmap string value);
  h_manifest : string -> res string EnvManifest;
  h_order : gmap string C -> list (string * C) }.
Context (h : host).

Record agent_state := mkAgentState { sessions : Adapter.world S C; files : F }.
Definition machine_of (f : F) : Machine :=
  mkMachine (h_run h) (h_env h) (fun p => match fs_stat f p with Exists i => Some i | _ => None end).
Definition provisioner (directory project : string) (m : option EnvManifest) : Provision.Provisioner :=
  Provision.mkProvisioner directory project m ε (h_env h) (h_home h).

Definition projectDirectoryForCommand (a : Adapter.RealAdapter C) (project : string)
    : res command_error string :=
  match Adapter.projectDirs a !! project with
  | Some directory =>
      reject (str_empty directory) with_err (project_directory_missing project) in Ok directory
  | None => Err (project_directory_missing project)
  end.
Definition loadProjectManifest (f : F) (projectDir : string) : option EnvManifest :=
  let read path := match fs_read f path with Some data => Ok data | None => Err "unreadable"%string end in
  match LoadEnvManifest read (h_manifest h) (Path.Join [projectDir; "env-manifest.json"%string]) with
  | Ok m => Some m
  | Err _ => None
  end.
Definition marshal_out (what : string) (o : command_output) : res command_error string :=
  res_map_err (marshal_output what) (json_marshal o).

(** *** The commands; each returns the state and the output. *)
Definition adapt {A} (st : agent_state) (m : Adapter.M S C A) : agent_state * res command_error A :=
  let '(w, r) := m (sessions st) in (mkAgentState w (files st), res_map_err adapter_failed r).
Definition silent {A} (r : agent_state * res command_error A) : agent_state * res command_error string :=
  (r.1, let? _ := r.2 in Ok ε).

Definition with_session_id (st : agent_state) (args : gmap string value)
    (k : string -> agent_state * res command_error string) : agent_state * res command_error string :=
  let id := readStringArg args "session_id" in
  if str_empty id then (st, Err session_id_required) else k id.
Definition with_directory (st : agent_state) (target : string)
    (k : string -> string -> agent_state * res command_error string)
    : agent_state * res command_error string :=
  let project := Strings.TrimSpace target in
  if str_empty project then (st, Err project_required)
  else
    match projectDirectoryForCommand (Adapter.adapter (sessions st)) project with
    | Err e => (st, Err e)
    | Ok directory => k project directory
    end.

Definition run_prompt (st : agent_state) (cmd : sessionCommand) : agent_state * res command_error string :=
  with_session_id st (scmd_Args cmd) (fun id =>
    let message := readStringArg (scmd_Args cmd) "message" in
    let message := if str_empty message then readStringArg (scmd_Args cmd) "prompt" else message in
    silent (adapt st (Adapter.PromptSession (h_order h) id message))).
(** The outcome of the kill is ignored. *)
Definition run_restart (st : agent_state) (cmd : sessionCommand) : agent_state * res command_error string :=
  let id := readStringArg (scmd_Args cmd) "session_id" in
  let st := if str_empty id then st else (adapt st (Adapter.KillSession (h_order h) id)).1 in
  adapt st (Adapter.CreateSession (h_order h) (scmd_Project cmd) "restart").
Definition run_env_check (st : agent_state) (now : Time.t) (cmd : sessionCommand)
    : agent_state * res command_error string :=
  with_directory st (scmd_Project cmd) (fun project directory =>
    let reqs := loadProjectManifest (files st) directory ≫= em_Requirements in
    let check := EnvCheck.Check (machine_of (files st)) directory now reqs in
    (st, marshal_out "env_check"
           (out_env_check project (chk_Status check) (chk_Drift check) (chk_Timestamp check)))).
Definition run_env_provision (st : agent_state) (now : Time.t) (cmd : sessionCommand)
    : agent_state * res command_error string :=
  with_directory st (scmd_Project cmd) (fun project directory =>
    let p := provisioner directory project (loadProjectManifest (files st) directory) in
    let '(g, result, r) := Provision.Provision (h_tokens h) now (files st) p in
    (mkAgentState (sessions st) (Provision.pg_fs g),
     let? _ := res_map_err provision_failed r in
     marshal_out "env_provision"
       (out_env_provision project (provision_status_text (prv_Status result))
          (change_text <$> prv_Applied result) (prv_Applied result) (prv_Pending result)
          (prv_Timestamp result)))).

Definition agent_md_path (directory : string) : string := Path.Join [directory; "AGENT.md"%string].
Definition agent_md_template (project : string) : string :=
  Strings.ReplaceAll Provision.defaultAgentMD "{{PROJECT_NAME}}" project.
Definition run_agentmd_diff (st : agent_state) (cmd : sessionCommand)
    : agent_state * res command_error string :=
  with_directory st (scmd_Project cmd) (fun project directory =>
    let local := default ε (fs_read (files st) (agent_md_path directory)) in
    let template := agent_md_template project in
    let delta := if String.eqb local template then ε else "content differs"%string in
    (st, marshal_out "agentmd_diff" (out_agentmd_diff project local template delta))).
(** The manifest asks for an AGENT.md only. *)
Definition agent_md_manifest : EnvManifest :=
  mkManifest ε (Some (mkRequirements ∅ ∅ ∅ (Some (mkAgentReq "default" Float64.zero)) None None None)) ∅.
Definition run_agentmd_sync (st : agent_state) (now : Time.t) (cmd : sessionCommand)
    : agent_state * res command_error string :=
  with_directory st (scmd_Project cmd) (fun project directory =>
    if is_missing (files st) (agent_md_path directory) then
      let '(g, _, r) := Provision.Provision (h_tokens h) now (files st)
                          (provisioner directory project (Some agent_md_manifest)) in
      (mkAgentState (sessions st) (Provision.pg_fs g),
       let? _ := res_map_err provision_failed r in
       marshal_out "agentmd_sync" (out_agentmd_sync project "synced" "AGENT.md created"))
    else (st, marshal_out "agentmd_sync"
                (out_agentmd_sync project "already_synced" "AGENT.md already exists"))).

Definition executeSessionCommand (st : agent_state) (now : Time.t) (cmd : sessionCommand)
    : agent_state * res command_error string :=
  let t := scmd_Type cmd in
  if String.eqb t "create_session" then
    adapt st (Adapter.CreateSession (h_order h) (scmd_Project cmd) (readStringArg (scmd_Args cmd) "prompt"))
  else if String.eqb t "prompt_session" then run_prompt st cmd
  else if String.eqb t "kill_session" then
    with_session_id st (scmd_Args cmd) (fun id => silent (adapt st (Adapter.KillSession (h_order h) id)))
  else if String.eqb t "session_status" then
    with_session_id st (scmd_Args cmd) (fun id => adapt st (Adapter.SessionStatus (h_object h) (h_order h) id))
  else if String.eqb t "restart_session" then run_restart st cmd
  else if String.eqb t "env_check" then run_env_check st now cmd
  else if String.eqb t "env_provision" then run_env_provision st now cmd
  else if String.eqb t "agentmd_diff" then run_agentmd_diff st cmd
  else if String.eqb t "agentmd_sync" then run_agentmd_sync st now cmd
  else (st, Err (unsupported_command t)).

(** *** The answer; [decode] also returns what it filled in before an error. *)
Inductive handler_error :=
  | envelope_required
  | marshal_result (e : string)
  | send_result (e : string)
  | send_decode_failure (decode_error : string) (e : handler_error).

Definition result_envelope (now : Time.t) (fallbackRequestID : string) (result : sessionCommandResult)
    (payload : string) : Envelope :=
  mkEnvelope ProtocolVersion MessageTypeCommandResult
    (if str_empty (scr_CommandID result) then fallbackRequestID else scr_CommandID result)
    (Time.Unix now) payload.
(** The envelopes handed to the sender, and the error. *)
Definition sendSessionCommandResult (send : Envelope -> res string ()) (now : Time.t)
    (fallbackRequestID : string) (result : sessionCommandResult) : list Envelope * res handler_error () :=
  match json_marshal result with
  | Err e => ([], Err (marshal_result e))
  | Ok payload =>
      let response := result_envelope now fallbackRequestID result payload in
      ([response], res_map_err send_result (send response))
  end.

Definition command_result (errtext : command_error -> string) (id : string) (now : Time.t)
    (r : res command_error string) : sessionCommandResult :=
  match r with
  | Ok output => mkSessionResult id CommandStatusSuccess output ε now
  | Err e => mkSessionResult id CommandStatusFailure ε (errtext e) now
  end.
(** [now] is read before the command is carried out, [now'] when it is answered. *)
Definition HandleSessionCommand (errtext : command_error -> string)
    (decode : string -> sessionCommand * option string) (send : Envelope -> res string ())
    (st : agent_state) (now now' : Time.t) (envelope : option Envelope)
    : agent_state * list Envelope * res handler_error () :=
  match envelope with
  | None => (st, [], Err envelope_required)
  | Some env =>
      let '(cmd, failure) := decode (env_Payload env) in
      let id := resolveCommandID (scmd_CommandID cmd) (env_RequestID env) in
      match failure with
      | Some e =>
          let result := mkSessionResult id CommandStatusFailure ε
                          ("unmarshal session command payload: " +:+ e)%stdpp now in
          let '(sent, r) := sendSessionCommandResult send now' (env_RequestID env) result in
          (st, sent,
           res_map_err (send_decode_failure e) r)
      | None =>
          let '(st, outcome) := executeSessionCommand st now cmd in
          let '(sent, r) := sendSessionCommandResult send now' (env_RequestID env)
                              (command_result errtext id now outcome) in
          (st, sent, r)
      end
  end.
End Defs.
Arguments host : clear implicits.
Arguments agent_state : clear implicits.

Definition session_command_types : list string :=
  ["create_session"; "prompt_session"; "kill_session"; "restart_session"; "session_status"; "env_check";
   "env_provision"; "agentmd_diff"; "agentmd_sync"]%string.
Definition RegisterSessionCommandHandlers {Handler Env} (handler : Handler) (c : Client.WSClient Handler Env)
    : Client.WSClient Handler Env :=
  foldl (fun c t => Client.RegisterCommandHandler t handler c) c session_command_types.
End Session.

(** ** Laws of what is not in the repository *)

(** A file that was written reads as what was written. *)
Class FileContents (F : Type) `{FileSystem F} := {
  write_reads f p s m f' : fs_write f p s m = Ok f' -> fs_read f' p = Some s;
}.

Definition as_result (r : sessionCommandResult) : CommandResult :=
  mkResult (scr_CommandID r) (scr_Status r) (scr_Output r) (scr_Error r) (scr_Timestamp r).
(** The two programs' types for a command and for a result carry the same JSON
    tags; [wire_command] and [wire_result] hold of the values that survive the
    way through JSON. *)
Class CommandWire `{Json Command} `{Json sessionCommandResult} `{Json CommandResult}
    (decode : string -> sessionCommand * option string) (decode_type : string -> res string string) := {
  wire_command : Command -> Prop;
  wire_result : sessionCommandResult -> Prop;
  command_decodes cmd payload : wire_command cmd -> json_marshal cmd = Ok payload ->
    decode payload =
      (mkSessionCommand (cmd_CommandID cmd) (cmd_Type cmd) (tgt_Project (cmd_Target cmd)) (cmd_Args cmd), None);
  type_decodes cmd payload : wire_command cmd -> json_marshal cmd = Ok payload ->
    decode_type payload = Ok (cmd_Type cmd);
  result_decodes r payload : wire_result r -> json_marshal r = Ok payload ->
    json_unmarshal payload = Ok (as_result r);
}.

(** ** Lemmas *)
Module SessionFacts.
Import Session.

Lemma handler_registered {Handler Env} (hd : Handler) (c : Client.WSClient Handler Env) t :
  t ∈ session_command_types -> Client.commandHandlers (RegisterSessionCommandHandlers hd c) !! t = Some hd.
Proof.
  intros Ht. unfold RegisterSessionCommandHandlers.
  assert (Hg : forall l c, (t ∈ l \/ Client.commandHandlers c !! t = Some hd) ->
    Client.commandHandlers (foldl (fun (c : Client.WSClient Handler Env) t => Client.RegisterCommandHandler t hd c) c l) !! t = Some hd).
  { clear. induction l as [|t' l IH]; intros c [Hin|Hc]; simpl; [by apply elem_of_nil in Hin | done | |].
    - apply IH. destruct (decide (t = t')) as [->|Hne]; [right; apply lookup_insert_eq|].
      apply elem_of_cons in Hin as [|]; [done | by left].
    - apply IH. right. simpl. destruct (decide (t = t')) as [->|Hne]; [apply lookup_insert_eq|].
      by rewrite lookup_insert_ne. }
  apply Hg. by left.
Qed.

#[local] Opaque Path.Join Strings.ReplaceAll.
(** The provisioner that [agentmd_sync] runs writes the template. *)
Lemma sync_provision {F C} `{FileSystem F} `{MapRange} (h : host C) (f : F) now directory project :
  is_missing f (agent_md_path directory) = true ->
  let '(g, _, r) := Provision.Provision (h_tokens h) now f (provisioner h directory project (Some agent_md_manifest)) in
  r = Ok () -> fs_write f (agent_md_path directory) (agent_md_template project) 420 = Ok (Provision.pg_fs g).
Proof.
  intros Hm. unfold Provision.Provision, Provision.detectDrift. simpl.
  unfold Provision.env_items, Provision.risky_items, Provision.missing_files. simpl.
  rewrite !range_of_empty. unfold Provision.agent_md. simpl. unfold agent_md_path in Hm. rewrite Hm. simpl.
  unfold Provision.applySafeFix, Provision.createAgentMD. simpl.
  assert (Ht : is_there f (Provision.agent_md (provisioner h directory project (Some agent_md_manifest))) = false).
  { unfold is_there, Provision.agent_md. simpl. unfold is_missing in Hm. by destruct (fs_stat f _). }
  rewrite Ht. unfold Provision.template, Provision.agent_md, agent_md_path, agent_md_template. simpl.
  by destruct (fs_write f _ _ _).
Qed.
End SessionFacts.

(** ** Properties *)
Section Properties.
Import Session SessionFacts.
Context {S C F : Type} `{SDK : OpencodeSDK S C} `{FS : FileSystem F} `{!FileContents F} `{SV : Semver}
  `{MR : MapRange} `{JO : Json command_output} `{JR : Json sessionCommandResult}.
Context (h : host C).

(** C38: [agentmd_sync] leaves an AGENT.md that is there alone; where there was
    none it writes the project's template, so that an [agentmd_diff] of the project
    that follows reports no difference. *)
Theorem agentmd_sync_settles (st st' : agent_state S C F) (now now' : Time.t) (id id' target : string)
    (args args' : gmap string value) (directory output : string) :
  let project := Strings.TrimSpace target in
  let path := agent_md_path directory in
  project <> ε -> directory <> ε ->
  Adapter.projectDirs (Adapter.adapter (sessions st)) !! project = Some directory ->
  executeSessionCommand h st now (mkSessionCommand id "agentmd_sync" target args) = (st', Ok output) ->
  if is_missing (files st) path then
    fs_read (files st') path = Some (agent_md_template project) /\
    executeSessionCommand h st' now' (mkSessionCommand id' "agentmd_diff" target args') =
      (st', marshal_out "agentmd_diff"
              (out_agentmd_diff project (agent_md_template project) (agent_md_template project) ε))
  else st' = st.
Proof.
  cbn zeta. set (project := Strings.TrimSpace target). intros Hp Hd Hdir.
  apply str_empty_false in Hp, Hd. unfold executeSessionCommand. simpl.
  unfold run_agentmd_sync, run_agentmd_diff, with_directory, projectDirectoryForCommand. simpl.
  fold project. rewrite Hp, Hdir, Hd. simpl.
  destruct (is_missing (files st) (agent_md_path directory)) eqn:Em; [|by intros [= <- _]].
  pose proof (sync_provision h (files st) now directory project Em) as Hs.
  destruct (Provision.Provision _ _ _ _) as [[g result] [[]|e]]; [|done].
  intros [= <- _]. simpl. rewrite Hdir, Hd. specialize (Hs eq_refl). apply write_reads in Hs.
  rewrite Hs. split; [done|]. simpl. by rewrite String.eqb_refl.
Qed.

Context `{JE : Json Envelope} `{JEL : !JsonLaws Envelope} `{JC : Json Command} `{JCR : Json CommandResult}
  (decode : string -> sessionCommand * option string) (decode_type : string -> res string string)
  `{!CommandWire decode decode_type} {DB E : Type} `{KT : KeyedTable DB NodeRow E}.

(** C32: a command that the supervisor sends reaches the agent's handler, which
    carries it out once and answers with one envelope; the supervisor's hub takes
    that envelope to the dispatcher, which puts the outcome, under the command's
    own id, where the caller of the command waits for it.  That the texts survive
    the encoding is asked of the two envelopes that travel only: the command's,
    with the payload that encodes it, and the answer's. *)
Theorem command_there_and_back {Handler Env : Type} (hd : Handler) (c : Client.WSClient Handler Env)
    (errtext : command_error -> string) (send : Envelope -> res string ())
    (st : agent_state S C F) (hub : Hub.Hub DB) (conn : nat) (waiters : Waiters.state) (ch : nat)
    (decode_sync : string -> res string CredentialSyncPayload)
    (decode_auth : string -> res string (list AuthStateReport))
    (cmd : Command) (t0 t1 t2 t3 : Time.t) (data payload : string) :
  let client := RegisterSessionCommandHandlers hd c in
  let id := cmd_CommandID cmd in
  let scmd := mkSessionCommand id (cmd_Type cmd) (tgt_Project (cmd_Target cmd)) (cmd_Args cmd) in
  let ran := executeSessionCommand h st t1 scmd in
  let result := command_result errtext id t1 ran.2 in
  let answer := result_envelope t2 id result payload in
  id <> ε -> cmd_Type cmd ∈ session_command_types -> wire_command cmd -> wire_result result ->
  (forall p, json_marshal cmd = Ok p ->
    json_plain (mkEnvelope ProtocolVersion MessageTypeCommand id (Time.Unix t0) p)) ->
  json_plain answer -> Time.Unix t2 <> 0 ->
  Hub.command_message t0 cmd = Ok data -> json_marshal result = Ok payload ->
  Waiters.pending waiters !! id = Some ch -> Waiters.buffers waiters !! ch = Some None ->
  exists env,
    Client.read_message decode_type client data = Client.ToCommandHandler hd env /\
    (HandleSessionCommand h errtext decode send st t1 t2 (Some env)).1 = (ran.1, [answer]) /\
    (forall text, json_marshal answer = Ok text ->
       MarshalEnvelope answer = Ok text /\ UnmarshalEnvelope text = Ok answer) /\
    (Hub.handleEnvelope decode_sync decode_auth hub conn t3 answer).2 = Some answer /\
    Waiters.buffers (Waiters.HandleCommandResultEnvelope waiters t3 (Some answer)).1 !! ch =
      Some (Some (Waiters.stamped t3 (as_result result))) /\
    cr_CommandID (as_result result) = id.
Proof.
  intros client id scmd ran result answer Hid Ht Hwc Hwr Hplain Hpa Ht2 Hmsg Hpay Hpend Hbuf.
  unfold Hub.command_message in Hmsg. destruct (json_marshal cmd) as [cp|] eqn:Ecp; [|done]. simpl in Hmsg.
  set (env := mkEnvelope ProtocolVersion MessageTypeCommand (cmd_CommandID cmd) (Time.Unix t0) cp) in *.
  assert (Hdec := command_decodes cmd cp Hwc Ecp). fold id scmd in Hdec.
  assert (Hid' : str_empty id = false) by by apply str_empty_false.
  assert (Hh : Client.commandHandlers client !! cmd_Type cmd = Some hd) by by apply handler_registered.
  exists env. split_and!; [| | | done | | ].
  - unfold Client.read_message. destruct (MarshalEnvelope env) as [text|] eqn:Em; [|done].
    injection Hmsg as <-. rewrite (CommandFacts.marshal_read env text); [|by apply Hplain | done]. simpl.
    unfold Client.handleCommand. simpl. rewrite (type_decodes cmd cp Hwc Ecp). simpl in Hh. by rewrite Hh.
  - unfold HandleSessionCommand. simpl. rewrite Hdec. simpl. unfold resolveCommandID. rewrite Hid'. fold ran.
    unfold ran in result. destruct (executeSessionCommand h st t1 scmd) as [st' outcome] eqn:Ex. simpl in *.
    unfold sendSessionCommandResult. fold result. by rewrite Hpay.
  - intros text Hj. assert (Hm : MarshalEnvelope answer = Ok text); [|by eauto using CommandFacts.marshal_read].
    unfold MarshalEnvelope, validateEnvelope. simpl. apply Z.eqb_neq in Ht2. by rewrite Ht2, Hj.
  - assert (Hrid : scr_CommandID result = id) by (unfold result, command_result; by destruct ran.2).
    unfold Waiters.HandleCommandResultEnvelope, Waiters.result_in. cbn [answer result_envelope env_Payload env_RequestID].
    rewrite (result_decodes result payload Hwr Hpay). cbn [res_bind]. change (cr_CommandID (as_result result)) with (scr_CommandID result).
    rewrite Hrid, Hid'. unfold Waiters.HandleCommandResult, Waiters.find_waiter.
    change (cr_CommandID (as_result result)) with (scr_CommandID result). rewrite Hrid, Hid'. cbv zeta.
    rewrite WaiterFacts.stamped_id. change (cr_CommandID (as_result result)) with (scr_CommandID result). rewrite Hrid, Hpend.
    unfold Waiters.offer. rewrite Hbuf. simpl. apply lookup_insert_eq.
  - simpl. unfold result, command_result. by destruct ran.2.
Qed.
End Properties.

(** ** Witnesses *)
Module SessionWitness.
Import Session AdapterWitness ProvisionWitness CommandWitness DispatcherWitness.
#[local] Existing Instance sorted_range.

#[export] Instance tree_contents : FileContents tree.
Proof.
  split. intros t p s m t'. simpl. destruct (t !! p) as [[x|]|]; intros [= <-]; by rewrite lookup_insert_eq.
Defined.
#[export] Instance no_semver : Semver := {
  sv_version := string; sv_constraint := string; NewVersion := Some; NewConstraint := Some;
  constraint_Check := String.eqb }.
(** Outputs are shown by their status, results as the supervisor's; a command
    without arguments is three fields. *)
#[export] Instance output_json : Json command_output := {
  json_marshal o := Ok (match o with
    | out_env_check _ s _ _ | out_env_provision _ s _ _ _ _ | out_agentmd_sync _ s _ => s
    | out_agentmd_diff _ _ _ d => d
    end);
  json_unmarshal _ := Err ε }.
#[export] Instance session_result_json : Json sessionCommandResult := {
  json_marshal r := json_marshal (as_result r);
  json_unmarshal _ := Err ε }.
#[export] Instance command_json : Json Command := {
  json_marshal c := Ok (field_text (cmd_CommandID c) +:+ (field_text (cmd_Type c) +:+
    (field_text (tgt_Project (cmd_Target c)) +:+ ε)))%stdpp;
  json_unmarshal _ := Err ε }.
Definition decode (s : string) : sessionCommand * option string :=
  match '(i, s) ← read_field s; '(t, s) ← read_field s; '(p, s) ← read_field s;
        Some (mkSessionCommand i t p ∅) with
  | Some c => (c, None)
  | None => (mkSessionCommand ε ε ε ∅, Some "unexpected end of JSON input"%string)
  end.
Definition decode_type (s : string) : res string string :=
  match decode s with (c, None) => Ok (scmd_Type c) | (_, Some e) => Err e end.
#[export] Instance demo_wire : CommandWire decode decode_type.
Proof.
  refine {| wire_command c := cmd_Args c = ∅; wire_result _ := True |}.
  - intros [i t k [p n] a o] payload Ha [= <-]. unfold decode. simpl in *. subst a.
    rewrite read_field_text; simpl. rewrite read_field_text; simpl. by rewrite read_field_text.
  - intros [i t k [p n] a o] payload Ha [= <-]. unfold decode_type, decode. simpl.
    rewrite read_field_text; simpl. rewrite read_field_text; simpl. by rewrite read_field_text.
  - intros r payload _. apply (json_round_trip (as_result r)). exact I.
Defined.

Definition demo_host : host string :=
  mkHost (fun _ _ => Err "exit status 1"%string) (fun _ => ε) (Ok "/root"%string) (fun _ => "prov_1"%string)
    no_json (fun _ => Err "no JSON"%string) in_order.
Definition st0 : agent_state (Z * bool) string tree :=
  mkAgentState (Adapter.mkWorld (AdapterRun.configured "u" ε projects) (0, true) [])
    {[ "/srv/p" := None ]}%string.
Definition synced := executeSessionCommand demo_host st0 7 (mkSessionCommand "c1" "agentmd_sync" " p " ∅).
Definition template_p : string := agent_md_template "p".

Lemma agentmd_sync_settles_witness :
  fs_read (files synced.1) "/srv/p/AGENT.md" = Some template_p /\
  executeSessionCommand demo_host synced.1 8 (mkSessionCommand "c2" "agentmd_diff" " p " ∅) =
    (synced.1, marshal_out "agentmd_diff" (out_agentmd_diff "p" template_p template_p ε)).
Proof.
  pose proof (agentmd_sync_settles demo_host st0 synced.1 7 8 "c1" "c2" " p " ∅ ∅ "/srv/p" "synced") as Hs.
  cbn zeta in Hs. change (Strings.TrimSpace " p ") with "p"%string in Hs.
  change (agent_md_path "/srv/p") with "/srv/p/AGENT.md"%string in Hs.
  assert (Hm : is_missing (files st0) "/srv/p/AGENT.md" = true) by (vm_compute; reflexivity).
  rewrite Hm in Hs. apply Hs; [done | done | vm_compute; reflexivity | vm_compute; reflexivity].
Defined.

Definition at_second (n : Z) : Time.t := (62135596800 + n) * 1000000000.
Definition the_command : Command := mkCommand "c1" "agentmd_sync" ε (mkTarget "p" ε) ∅ 0.
Definition text_of {E} (r : res E string) : string := match r with Ok s => s | Err _ => ε end.
Definition sent_data : string := text_of (Hub.command_message (at_second 5) the_command).
Definition the_answer : sessionCommandResult := mkSessionResult "c1" "success" "synced" ε 7.
Definition answer_text : string := text_of (json_marshal the_answer).
Definition answer_envelope : Envelope := result_envelope (at_second 6) "c1" the_answer answer_text.
Definition caller_waits : Waiters.state :=
  Waiters.mkState {[ "c1" := 0%nat ]}%string {[ 0%nat := None ]} 1 ∅ ∅.
Definition errtext (_ : command_error) : string := "error".
Definition offline (_ : Envelope) : res string () := Err "not connected"%string.
Definition client0 : Client.WSClient () () := Client.NewWSClient "ws://h" "t" [].

Lemma command_there_and_back_witness :
  exists env,
    Client.read_message decode_type (RegisterSessionCommandHandlers () client0) sent_data =
      Client.ToCommandHandler () env /\
    (HandleSessionCommand demo_host errtext decode offline st0 7 (at_second 6) (Some env)).1 =
      ((executeSessionCommand demo_host st0 7 (mkSessionCommand "c1" "agentmd_sync" "p" ∅)).1, [answer_envelope]) /\
    (forall text, json_marshal answer_envelope = Ok text ->
       MarshalEnvelope answer_envelope = Ok text /\ UnmarshalEnvelope text = Ok answer_envelope) /\
    (Hub.handleEnvelope HubWitness.no_sync HubWitness.no_auth HubWitness.hub0 0 9 answer_envelope).2 =
      Some answer_envelope /\
    Waiters.buffers (Waiters.HandleCommandResultEnvelope caller_waits 9 (Some answer_envelope)).1 !! 0%nat =
      Some (Some (Waiters.stamped 9 (as_result the_answer))) /\
    cr_CommandID (as_result the_answer) = "c1"%string.
Proof.
  pose proof (command_there_and_back demo_host decode decode_type () client0 errtext offline st0
    HubWitness.hub0 0 caller_waits 0 HubWitness.no_sync HubWitness.no_auth the_command (at_second 5) 7
    (at_second 6) 9 sent_data answer_text) as Hs.
  cbn zeta in Hs. cbn [the_command cmd_CommandID cmd_Type cmd_Target cmd_Args tgt_Project] in Hs.
  assert (Hx : (executeSessionCommand demo_host st0 7 (mkSessionCommand "c1" "agentmd_sync" "p" ∅)).2 =
    Ok "synced"%string) by (vm_compute; reflexivity).
  rewrite Hx in Hs. apply Hs; try done; try (vm_compute; reflexivity).
  - apply (bool_decide_unpack _). vm_compute. exact I.
  - intros p [= <-]. vm_compute. reflexivity.
Defined.
End SessionWitness.
