(* ===== verification/Integration.v ===== *)
(** * Integration

    integration/helpers.go: the one place that joins an agent's client to a
    supervisor's registry, tracker, dispatcher and event pipeline.  The supervisor
    harness accepts agents on a web socket and serves each connection with a read
    loop; the agent harness forwards the events of its adapter.  [world] has both
    with the connections between them, which may break at any time and lose what
    is in flight; [net_step] is one step of either side, of the network or of the
    persist worker.

    A connection is a queue of messages to the supervisor.  What the supervisor
    sends, which the agent's read loop routes, is left to [SessionCommands]. *)

From Stdlib Require Import Sorted.
From S2P Require Import Prelude GoStd SqlStore NodeRegistry SessionTracker Commands Dispatcher EventDedup EventPipeline.
From S2P Require Import Floats Backoff WSClient OpenCode.

(** A session of [StateSnapshot] as the read loop decodes it. *)
Record SessionSnapshot := mkSessionSnapshot {
  ss_SessionID : string; ss_Project : string; ss_Status : string; ss_Tokens : Z; ss_Cost : Float64.t; ss_StartedAt : Z }.

Record nodeConnection := mkNodeConn {
  nc_conn : nat; nc_projects : list string; nc_lastHeartbeat : Time.t; nc_heartbeatPause : bool }.

(** One connection: the node that dialled and the projects as its URL gives them,
    whether its handler has registered it, and what is in flight; [ln_open] until either side or the network ends it. *)
Inductive phase := Upgraded | Serving | Gone.
Record link := mkLink {
  ln_node : string; ln_projects : string; ln_phase : phase; ln_queue : list string; ln_open : bool }.
Definition set_phase (p : phase) (l : link) : link := mkLink (ln_node l) (ln_projects l) p (ln_queue l) (ln_open l).
Definition set_queue (q : list string) (l : link) : link := mkLink (ln_node l) (ln_projects l) (ln_phase l) q (ln_open l).
Definition cut_link (q : list string) (l : link) : link := mkLink (ln_node l) (ln_projects l) (ln_phase l) q false.

Definition splitCSV (raw : string) : list string :=
  if str_empty raw then []
  else filter (fun part => part <> ε) (Strings.TrimSpace <$> Strings.SplitByte raw ",").

Module Harness.
Section Defs.
Context {DB TDB EDB E L Handler : Type} `{KeyedTable DB NodeRow E} `{KeyedTable TDB SessionRow E} `{TimeText}.
Context `{LruCache L} `{EventStore EDB E} `{Json Envelope} `{Json Event} `{Json CommandResult}.
Context (decode_snapshot : string -> res string (list SessionSnapshot)).

Record supervisor := mkSupervisor {
  h_registry : Registry.NodeRegistry DB;
  h_tracker : Tracker.SessionTracker TDB;
  h_pipeline : Pipeline.EventPipeline L;
  h_waiters : Waiters.state;
  h_connections : gmap string nodeConnection;
  h_db : option EDB;
  (** the calls of [ProcessEvent] so far, and their effects *)
  h_calls : list (string * Event);
  h_effects : list (string * effect) }.
Definition with_registry (r : Registry.NodeRegistry DB) (h : supervisor) : supervisor :=
  mkSupervisor r (h_tracker h) (h_pipeline h) (h_waiters h) (h_connections h) (h_db h) (h_calls h) (h_effects h).
Definition with_tracker (t : Tracker.SessionTracker TDB) (h : supervisor) : supervisor :=
  mkSupervisor (h_registry h) t (h_pipeline h) (h_waiters h) (h_connections h) (h_db h) (h_calls h) (h_effects h).
Definition with_waiters (s : Waiters.state) (h : supervisor) : supervisor :=
  mkSupervisor (h_registry h) (h_tracker h) (h_pipeline h) s (h_connections h) (h_db h) (h_calls h) (h_effects h).
Definition with_connections (c : gmap string nodeConnection) (h : supervisor) : supervisor :=
  mkSupervisor (h_registry h) (h_tracker h) (h_pipeline h) (h_waiters h) c (h_db h) (h_calls h) (h_effects h).

Definition process (nodeID : string) (event : Event) (h : supervisor) : supervisor * res pipeline_error () :=
  let '(p, r, effs) := Pipeline.ProcessEvent (h_pipeline h) nodeID event in
  (mkSupervisor (h_registry h) (h_tracker h) p (h_waiters h) (h_connections h) (h_db h)
     (h_calls h ++ [(nodeID, event)]) (h_effects h ++ ((fun x => (nodeID, x)) <$> effs)), r).
Definition persist (now : Time.t) (h : supervisor) : supervisor :=
  match Pipeline.persist_turn (h_pipeline h) (h_db h) now with
  | None => h
  | Some (p, db) =>
      mkSupervisor (h_registry h) (h_tracker h) p (h_waiters h) (h_connections h) db (h_calls h) (h_effects h)
  end.

(** The handler of /ws/agent after the upgrade; [false]: the registration failed,
    which fails the test and ends the handler, with the socket left open. *)
Definition accept (now : Time.t) (k : nat) (l : link) (h : supervisor) : supervisor * bool :=
  let projects := splitCSV (ln_projects l) in
  let h := with_connections (<[ln_node l := mkNodeConn k projects now false]> (h_connections h)) h in
  let '(r, e) := Registry.Register (h_registry h) now
    (mkNodeEntry (ln_node l) (ln_node l) ε projects [] ε 0 0 ε 0 None 0) in
  (with_registry r h, is_Ok e).
(** The deferred function of [readLoop]. *)
Definition leave (now : Time.t) (nodeID : string) (h : supervisor) : supervisor :=
  let h := with_connections (delete nodeID (h_connections h)) h in
  let h := with_registry (Registry.MarkOffline (h_registry h) now nodeID).1 h in
  with_tracker (Tracker.MarkUnreachable (h_tracker h) nodeID).1 h.

Definition tracked_of (nodeID : string) (s : SessionSnapshot) : TrackedSession :=
  mkSession (ss_SessionID s) nodeID (ss_Project s) (ss_Status s) (mkTokenUsage 0 0 (ss_Tokens s)) 0 ε 0 (ss_Cost s) ε
    (Time.FromUnix (ss_StartedAt s)).
(** [setHeartbeatPaused], and the monitor's turn: the connections it closes. *)
Definition setHeartbeatPaused (nodeID : string) (paused : bool) (h : supervisor) : supervisor :=
  with_connections
    (alter (fun c => mkNodeConn (nc_conn c) (nc_projects c) (nc_lastHeartbeat c) paused) nodeID (h_connections h)) h.
Definition heartbeatGrace : Z := 350 * Time.Millisecond.
Definition is_stale (now : Time.t) (c : nodeConnection) : bool :=
  negb (nc_heartbeatPause c) && (heartbeatGrace <? Time.Sub now (nc_lastHeartbeat c)).
Definition stale_connections (now : Time.t) (h : supervisor) : list nat :=
  omap (fun c => if is_stale now c.2 then Some (nc_conn c.2) else None) (map_to_list (h_connections h)).
(** [closeNodeConnection]: the connection it closes. *)
Definition node_connection (nodeID : string) (h : supervisor) : list nat :=
  match h_connections h !! nodeID with Some c => [nc_conn c] | None => [] end.

(** One turn of [readLoop] on a message; [false]: it returns. *)
Definition read_turn (now : Time.t) (nodeID data : string) (h : supervisor) : supervisor * bool :=
  match UnmarshalEnvelope data with
  | Err _ => (h, true)
  | Ok env =>
      if String.eqb (env_Type env) MessageTypeHeartbeat then
        (with_connections
           (alter (fun c => mkNodeConn (nc_conn c) (nc_projects c) now (nc_heartbeatPause c)) nodeID (h_connections h)) h,
         true)
      else if String.eqb (env_Type env) MessageTypeRegister then
        match decode_snapshot (env_Payload env) with
        | Err _ => (h, true)
        | Ok sessions =>
            let tracked := tracked_of nodeID <$> sessions in
            if (length tracked =? 0)%nat then (h, true)
            else
              let '(t, r) := Tracker.RestoreFromSnapshot (h_tracker h) now nodeID tracked in
              (with_tracker t h, is_Ok r)
        end
      else if String.eqb (env_Type env) MessageTypeCommandResult then
        let '(s, r) := Waiters.HandleCommandResultEnvelope (h_waiters h) now (Some env) in
        (with_waiters s h, is_Ok r)
      else if String.eqb (env_Type env) MessageTypeEvent then
        match json_unmarshal (env_Payload env) with
        | Err _ => (h, true)
        | Ok event => let '(h, r) := process nodeID event h in (h, is_Ok r)
        end
      else (h, true)
  end.

(** ** The agent and the network *)
Context (nodeID : string) (projects : list string).

Record world := mkWorld {
  w_sup : supervisor;
  w_client : Client.WSClient Handler ();
  w_eventSeq : Z;
  (** the connection dialled last *)
  w_link : option nat;
  w_links : gmap nat link;
  w_next : nat }.
Definition with_sup (h : supervisor) (w : world) : world :=
  mkWorld h (w_client w) (w_eventSeq w) (w_link w) (w_links w) (w_next w).
Definition with_link (k : nat) (l : link) (w : world) : world :=
  mkWorld (w_sup w) (w_client w) (w_eventSeq w) (w_link w) (<[k := l]> (w_links w)) (w_next w).

(** Whether the connection dialled last is still open. *)
Definition current (w : world) : option (nat * link) :=
  k ← w_link w; l ← w_links w !! k; if ln_open l then Some (k, l) else None.
Definition broken : option string := Some "broken pipe"%string.
(** What the socket answers to a write. *)
Definition socket (w : world) : writes := match current w with Some _ => [] | None => [broken] end.
Definition text_of (env : Envelope) : list string :=
  match MarshalEnvelope env with Ok data => [data] | Err _ => [] end.
Definition put (sent : list Envelope) (w : world) : world :=
  match current w with
  | Some (k, l) => with_link k (set_queue (ln_queue l ++ mbind text_of sent) l) w
  | None => w
  end.

(** The event and the envelope of the [seq]-th turn of the forwarder. *)
Definition event_of (seq : Z) (now : Time.t) (evt : AgentEvent) : Event :=
  mkEvent (nodeID +:+ "-" +:+ ZeroPad 6 seq)%stdpp (ae_SessionID evt) (ae_Type evt) (ae_Payload evt) now seq.
(** What of an event is read back: a payload that is nil is written as null and
    read as that text. *)
Definition as_received (event : Event) : Event :=
  mkEvent (ev_ID event) (ev_SessionID event) (ev_Type event)
    (if str_empty (ev_Data event) then "null"%string else ev_Data event) (ev_Timestamp event) (ev_Seq event).
Definition event_envelope (now : Time.t) (event : Event) : Envelope :=
  mkEnvelope ProtocolVersion MessageTypeEvent ε (Time.Unix now)
    (match json_marshal event with Ok payload => payload | Err _ => ε end).
Definition heartbeat_envelope (now : Time.t) : Envelope :=
  mkEnvelope ProtocolVersion MessageTypeHeartbeat ε (Time.Unix now) ("{" +:+ Quote "status" +:+ ":" +:+ Quote "ok" +:+ "}")%stdpp.

Definition forward (now : Time.t) (evt : AgentEvent) (w : world) : world :=
  let seq := u64 (w_eventSeq w + 1) in
  let event := event_of seq now evt in
  let '(c, _, (sent, _, _)) := Client.SendEvent (w_client w) (socket w) (event_envelope now event) in
  put sent (mkWorld (w_sup w) c seq (w_link w) (w_links w) (w_next w)).
Definition heartbeat (now : Time.t) (w : world) : world :=
  put (Client.SendEnvelope (w_client w) (socket w) (heartbeat_envelope now)).1.1 w.
(** A turn of the client's loop, once its last connection has ended.  [cut]: the
    connection breaks after that many writes. *)
Definition dial (answer : res string ()) (now : Time.t) (cut : option nat) (w : world) : world :=
  match current w with
  | Some _ => w
  | None =>
      let answers := match cut with None => [] | Some n => replicate n None ++ [broken] end in
      let '(c, sent, r) := Client.dial_phase (w_client w) answer () now answers in
      if is_Ok answer then
        mkWorld (w_sup w) c (w_eventSeq w) (Some (w_next w))
          (<[w_next w := mkLink nodeID (Strings.Join projects ",") Upgraded (mbind text_of sent) (is_Ok r)]> (w_links w)) (S (w_next w))
      else mkWorld (w_sup w) c (w_eventSeq w) (w_link w) (w_links w) (w_next w)
  end.

Definition serve_accept (k : nat) (now : Time.t) (w : world) : world :=
  match w_links w !! k with
  | Some l =>
      match ln_phase l with
      | Upgraded =>
          let '(h, registered) := accept now k l (w_sup w) in
          with_sup h (with_link k (set_phase (if registered then Serving else Gone) l) w)
      | _ => w
      end
  | None => w
  end.
(** The read loop on the next message; on its return the connection is closed. *)
Definition serve_read (k : nat) (now : Time.t) (w : world) : world :=
  match w_links w !! k with
  | Some l =>
      match ln_phase l, ln_queue l with
      | Serving, data :: rest =>
          let '(h, continue_) := read_turn now (ln_node l) data (w_sup w) in
          if continue_ then with_sup h (with_link k (set_queue rest l) w)
          else with_sup (leave now (ln_node l) h) (with_link k (cut_link [] (set_phase Gone l)) w)
      | _, _ => w
      end
  | None => w
  end.
(** The supervisor closes connections: what is in flight is not read any more. *)
Definition close_conn (w : world) (k : nat) : world :=
  match w_links w !! k with Some l => with_link k (cut_link [] l) w | None => w end.
(** Nothing came within the deadline, or nothing will. *)
Definition serve_timeout (k : nat) (now : Time.t) (w : world) : world :=
  match w_links w !! k with
  | Some l =>
      match ln_phase l, ln_queue l with
      | Serving, [] => with_sup (leave now (ln_node l) (w_sup w)) (with_link k (cut_link [] (set_phase Gone l)) w)
      | _, _ => w
      end
  | None => w
  end.

Inductive net_op :=
  | Forward (now : Time.t) (evt : AgentEvent)
  | Heartbeat (now : Time.t)
  | Dial (answer : res string ()) (now : Time.t) (cut : option nat)
  | Accept (k : nat) (now : Time.t)
  | Read (k : nat) (now : Time.t)
  (** the connection breaks; the first [n] messages in flight still arrive *)
  | Break (k n : nat)
  | Timeout (k : nat) (now : Time.t)
  | Monitor (now : Time.t)
  | PauseHeartbeats (agentID : string) (paused : bool)
  | CloseNode (agentID : string)
  (** another agent's event *)
  | OtherEvent (agentID : string) (event : Event)
  | Persist (now : Time.t).
Definition net_step (w : world) (op : net_op) : world :=
  match op with
  | Forward now evt => forward now evt w
  | Heartbeat now => heartbeat now w
  | Dial answer now cut => dial answer now cut w
  | Accept k now => serve_accept k now w
  | Read k now => serve_read k now w
  | Break k n =>
      match w_links w !! k with Some l => with_link k (cut_link (take n (ln_queue l)) l) w | None => w end
  | Timeout k now => serve_timeout k now w
  | Monitor now => foldl close_conn w (stale_connections now (w_sup w))
  | PauseHeartbeats agentID paused => with_sup (setHeartbeatPaused agentID paused (w_sup w)) w
  | CloseNode agentID => foldl close_conn w (node_connection agentID (w_sup w))
  | OtherEvent agentID event => with_sup (process agentID event (w_sup w)).1 w
  | Persist now => with_sup (persist now (w_sup w)) w
  end.

(** What the forwarder was given, and the events the supervisor reads of it. *)
Definition forwards (ops : list net_op) : list (Time.t * AgentEvent) :=
  omap (fun op => match op with Forward now evt => Some (now, evt) | _ => None end) ops.
Definition events_of (given : list (Time.t * AgentEvent)) : list Event :=
  imap (fun i x => as_received (event_of (Z.of_nat i + 1) x.1 x.2)) given.

(** Before the agent's first connection. *)
Definition harness_backoff : Wait.Backoff :=
  Wait.mkBackoff (20 * Time.Millisecond) (150 * Time.Millisecond) (Float64.of_Z 2)
    (Float64.div (Float64.of_Z 1) (Float64.of_Z 10)) 0.
Definition new_world (h : supervisor) (sp : unit -> res string string) : world :=
  mkWorld h (Client.NewWSClient "ws://supervisor/ws/agent" "integration-token"
               [Client.WithBackoff harness_backoff; Client.WithSnapshotProvider sp]) 0 None ∅ 0.
Definition new_supervisor (p : Pipeline.EventPipeline L) (r : Registry.NodeRegistry DB) (t : Tracker.SessionTracker TDB)
    (db : option EDB) : supervisor := mkSupervisor r t p Waiters.init ∅ db [] [].
End Defs.
Arguments supervisor : clear implicits.
Arguments world : clear implicits.
End Harness.

(** ** Lemmas *)
Module HarnessFacts.
Import Harness Dedup Pipeline PipelineFacts NumberFacts.
Section Facts.
Context {DB TDB EDB E L Handler : Type} `{KeyedTable DB NodeRow E} `{KeyedTable TDB SessionRow E} `{TimeText}.
Context `{LruCacheLaws L} `{EventStore EDB E} `{JsonLaws Envelope} `{JsonLaws Event} `{Json CommandResult}.
Context (decode_snapshot : string -> res string (list SessionSnapshot)) (nodeID : string) (projects : list string).
Context (p0 : EventPipeline L) (sp : unit -> res string string).
Implicit Types (h : supervisor DB TDB EDB L).
Implicit Types (w : world DB TDB EDB L Handler).

(** What a message tells the supervisor's read loop of the pipeline. *)
Definition event_in (data : string) : option Event :=
  match UnmarshalEnvelope data with
  | Err _ => None
  | Ok env =>
      if String.eqb (env_Type env) MessageTypeEvent then
        match json_unmarshal (env_Payload env) with Ok event => Some event | Err _ => None end
      else None
  end.
Definition carries (env : Envelope) (event : Event) : Prop :=
  exists data, MarshalEnvelope env = Ok data /\ event_in data = Some event.

Record calls_ok (sent : list Event) h : Prop := {
  co_run : same_but_queue (h_pipeline h) (run p0 (h_calls h)).1;
  co_effects : delivered nodeID (h_effects h) = delivered nodeID (run p0 (h_calls h)).2;
  co_u64 : Forall (fun c => is_u64 (ev_Seq c.2)) (h_calls h);
  co_valid : Forall valid_call (call_key <$> h_calls h);
  co_inputs : forall x, x ∈ inputs nodeID (h_calls h) -> x ∈ sent }.

Definition queue_ok (sent : list Event) (l : link) : Prop :=
  ln_node l = nodeID /\ forall data event, data ∈ ln_queue l -> event_in data = Some event -> event ∈ sent.

(** An event is with the pipeline or on its way to it. *)
Definition arriving h (l : link) (event : Event) : Prop :=
  event ∈ inputs nodeID (h_calls h) \/ exists data, data ∈ ln_queue l /\ event_in data = Some event.

Record net_base (sent : list Event) w : Prop := {
  nb_seq : w_eventSeq w = Z.of_nat (length sent);
  nb_provider : Client.snapshotProvider (w_client w) = Some sp;
  nb_hooks : Client.onConnectHooks (w_client w) = [];
  nb_pending : Forall2 (fun pe event => carries (pe_env pe) event) (Client.pendingEvents (w_client w)) sent;
  nb_calls : calls_ok sent (w_sup w);
  nb_links : map_Forall (fun _ l => queue_ok sent l) (w_links w) }.
(** While the client is connected nothing is missing. *)
Definition nothing_missing (sent : list Event) w : Prop :=
  forall k l, current w = Some (k, l) ->
    Client.connected (w_client w) = true /\ forall event, event ∈ sent -> arriving (w_sup w) l event.
Definition net_inv (sent : list Event) w : Prop := net_base sent w /\ nothing_missing sent w.

Lemma current_Some w k l :
  current w = Some (k, l) <-> w_link w = Some k /\ w_links w !! k = Some l /\ ln_open l = true.
Proof.
  unfold current. destruct (w_link w) as [k'|]; simpl; [|by split; [|intros [? _]]].
  destruct (w_links w !! k') as [l'|] eqn:E'; simpl.
  - destruct (ln_open l') eqn:Eo; (split; [by intros [= <- <-] | intros ([= ->] & Hl & Ho)]); congruence.
  - split; [done|]. intros ([= ->] & Hl & _). congruence.
Qed.

(** *** The supervisor *)
Lemma delivered_same b effs effs' :
  omap delivered_event effs = omap delivered_event effs' ->
  delivered nodeID ((fun x => (b, x)) <$> effs) = delivered nodeID ((fun x => (b, x)) <$> effs').
Proof. intros E'. by rewrite !delivered_call, E'. Qed.

Lemma process_ok sent h b event :
  calls_ok sent h -> is_u64 (ev_Seq event) -> valid_call (b, ev_ID event) -> (b = nodeID -> event ∈ sent) ->
  calls_ok sent (process b event h).1 /\ h_calls (process b event h).1 = h_calls h ++ [(b, event)].
Proof.
  intros [Hr He Hu Hv Hi] Hs Hk Hin. unfold process.
  pose proof (ProcessEvent_same _ _ b event Hr) as Hsame.
  pose proof (run_app p0 (h_calls h) [(b, event)]) as Happ. simpl in Happ.
  destruct (run p0 (h_calls h)) as [q tr] eqn:Eq. simpl in *.
  destruct (ProcessEvent (h_pipeline h) b event) as [[p r] effs], (ProcessEvent q b event) as [[q' r'] effs'].
  destruct Hsame as (Hsame & -> & Heffs). split; [|done]. split; simpl; rewrite ?Happ; simpl.
  - done.
  - rewrite !app_nil_r, !delivered_app, He. f_equal. by apply delivered_same.
  - apply Forall_app. split; [done|]. by apply Forall_singleton.
  - rewrite fmap_app. apply Forall_app. split; [done|]. by apply Forall_singleton.
  - intros x. rewrite inputs_snoc. case_decide; [|rewrite app_nil_r; by apply Hi].
    rewrite elem_of_app, list_elem_of_singleton. intros [?| ->]; [by apply Hi | by apply Hin].
Qed.

(** The operations of the supervisor that do not call the pipeline. *)
Definition same_calls h h' : Prop :=
  h_pipeline h' = h_pipeline h /\ h_calls h' = h_calls h /\ h_effects h' = h_effects h.
Lemma same_calls_ok sent h h' : same_calls h h' -> calls_ok sent h -> calls_ok sent h'.
Proof. intros (E1 & E2 & E3) [? ? ? ? ?]. by split; rewrite ?E1, ?E2, ?E3. Qed.
Lemma read_turn_spec now b data h :
  match event_in data with
  | Some event => (read_turn decode_snapshot now b data h).1 = (process b event h).1
  | None => same_calls h (read_turn decode_snapshot now b data h).1
  end.
Proof.
  unfold event_in, read_turn. destruct (UnmarshalEnvelope data) as [env|]; [|done].
  destruct (String.eqb_spec (env_Type env) MessageTypeEvent) as [->|_]; simpl.
  - destruct (json_unmarshal _); [|done]. by destruct (process b _ h).
  - destruct (String.eqb _ MessageTypeHeartbeat); [done|].
    destruct (String.eqb _ MessageTypeRegister).
    + destruct (decode_snapshot _); [|done]. destruct (_ =? _)%nat; [done|].
      by destruct (Tracker.RestoreFromSnapshot _ _ _ _).
    + destruct (String.eqb _ MessageTypeCommandResult); [|done]. by case_match.
Qed.

(** *** The steps *)
Lemma calls_ok_more sent sent' h : sent ⊆ sent' -> calls_ok sent h -> calls_ok sent' h.
Proof. intros Hs [? ? ? ? ?]. split; eauto. Qed.
Lemma queue_ok_more sent sent' l : sent ⊆ sent' -> queue_ok sent l -> queue_ok sent' l.
Proof. intros Hs [? ?]. split; eauto. Qed.
Lemma same_calls_arriving h h' l event : same_calls h h' -> arriving h l event -> arriving h' l event.
Proof. intros (_ & E' & _). unfold arriving. by rewrite E'. Qed.

Lemma with_link_base sent w k l : net_base sent w -> queue_ok sent l -> net_base sent (with_link k l w).
Proof. intros [? ? ? ? ? Hl] Hq. split; try done. by apply map_Forall_insert_2. Qed.
Lemma with_sup_base sent w h : calls_ok sent h -> net_base sent w -> net_base sent (with_sup h w).
Proof. by intros ? [? ? ? ? ? ?]. Qed.
(** A step of the supervisor that does not call the pipeline. *)
Lemma with_sup_inv sent w h : same_calls (w_sup w) h -> net_inv sent w -> net_inv sent (with_sup h w).
Proof.
  intros Hs [Hb Hc]. split; [apply with_sup_base; [eapply same_calls_ok; [done | apply Hb] | done]|].
  intros k l Hk. destruct (Hc k l Hk) as [? Ha]. split; [done|]. intros event ?. eapply same_calls_arriving; eauto.
Qed.

(** A change of one connection: closed, or with as much arriving as before. *)
Definition no_worse w w' k l : Prop :=
  ln_open l = true -> exists l0, w_links w !! k = Some l0 /\ ln_open l0 = true /\
    forall event, arriving (w_sup w) l0 event -> arriving (w_sup w') l event.
Lemma with_link_missing sent w h k l :
  nothing_missing sent w -> no_worse w (with_sup h w) k l ->
  (forall event, event ∈ inputs nodeID (h_calls (w_sup w)) -> event ∈ inputs nodeID (h_calls h)) ->
  nothing_missing sent (with_sup h (with_link k l w)).
Proof.
  intros Hc Hn Hin k' l' (Hk & Hl' & Hopen)%current_Some. simpl in Hk, Hl'.
  apply lookup_insert_Some in Hl' as [[-> ->]|[? Hl']].
  - destruct (Hn Hopen) as (l0 & Hl0 & Ho0 & Ha).
    destruct (Hc k' l0) as [? Hc']; [by apply current_Some|]. split; [done|]. intros event He. by apply Ha, Hc'.
  - destruct (Hc k' l') as [? Hc']; [by apply current_Some|]. split; [done|].
    intros event He. destruct (Hc' event He) as [?|?]; [left; by apply Hin | by right].
Qed.
Lemma closed_link_inv sent w h k l q p :
  net_inv sent w -> same_calls (w_sup w) h -> w_links w !! k = Some l -> (forall data, data ∈ q -> data ∈ ln_queue l) ->
  net_inv sent (with_sup h (with_link k (cut_link q (set_phase p l)) w)).
Proof.
  intros [Hb Hc] Hs Hl Hq. split.
  - apply with_sup_base; [eapply same_calls_ok; [done | apply Hb]|]. apply with_link_base; [done|].
    destruct (nb_links _ _ Hb k l Hl) as [? Hqo]. split; [done|]. simpl. eauto.
  - apply with_link_missing; [done | done |]. destruct Hs as (_ & -> & _). done.
Qed.
Lemma cut_link_inv sent w k l q :
  net_inv sent w -> w_links w !! k = Some l -> (forall data, data ∈ q -> data ∈ ln_queue l) ->
  net_inv sent (with_link k (cut_link q l) w).
Proof.
  intros Hinv Hl Hq. destruct w as [h c n lk ls nx]. exact (closed_link_inv sent _ h k l q (ln_phase l) Hinv (conj eq_refl (conj eq_refl eq_refl)) Hl Hq).
Qed.
Lemma close_all_inv sent w ks : net_inv sent w -> net_inv sent (foldl close_conn w ks).
Proof.
  revert w. induction ks as [|k ks IH]; [done|]. intros w Hinv. apply IH. unfold close_conn.
  destruct (w_links w !! k) as [l|] eqn:El; [|done]. apply cut_link_inv; [done | done|]. by intros ? ?%elem_of_nil.
Qed.

(** *** What the client writes *)
Definition harmless (sent : list Event) (env : Envelope) : Prop :=
  forall data event, MarshalEnvelope env = Ok data -> event_in data = Some event -> event ∈ sent.
Lemma text_of_ok sent envs data event :
  Forall (harmless sent) envs -> data ∈ mbind text_of envs -> event_in data = Some event -> event ∈ sent.
Proof.
  intros Hall (env & Hd & Henv)%list_elem_of_bind He. rewrite Forall_forall in Hall.
  unfold text_of in Hd. destruct (MarshalEnvelope env) eqn:Em; [|by apply elem_of_nil in Hd].
  apply list_elem_of_singleton in Hd as ->. by eapply Hall.
Qed.
Lemma carries_arrives envs env event : env ∈ envs -> carries env event ->
  exists data, data ∈ mbind text_of envs /\ event_in data = Some event.
Proof.
  intros Hin (data & Hm & He). exists data. split; [|done]. apply list_elem_of_bind. exists env. split; [|done].
  unfold text_of. rewrite Hm. by left.
Qed.
Lemma carries_harmless sent env event : carries env event -> event ∈ sent -> harmless sent env.
Proof. intros (data & Hm & He) Hin data' event' Hm' He'. congruence. Qed.
Lemma other_type_harmless sent env :
  json_plain env -> env_Type env <> MessageTypeEvent -> harmless sent env.
Proof.
  intros Hp Ht data event Hm%CommandFacts.marshal_read; [|done]. unfold event_in. rewrite Hm.
  by rewrite (proj2 (String.eqb_neq _ _) Ht).
Qed.
Lemma harmless_more sent sent' env : sent ⊆ sent' -> harmless sent env -> harmless sent' env.
Proof. intros Hs Hh data event Hm He. by apply Hs, (Hh data). Qed.

Lemma put_current envs w :
  current (put envs w) =
  match current w with Some (k, l) => Some (k, set_queue (ln_queue l ++ mbind text_of envs) l) | None => None end.
Proof.
  unfold put. destruct (current w) as [[k l]|] eqn:Ec; [|done]. apply current_Some in Ec as (? & ? & ?).
  apply current_Some. split_and!; [done | by apply lookup_insert_eq | done].
Qed.
Lemma put_same envs w :
  w_sup (put envs w) = w_sup w /\ w_client (put envs w) = w_client w.
Proof. unfold put. by destruct (current w) as [[? ?]|]. Qed.
Lemma put_base sent w envs : net_base sent w -> Forall (harmless sent) envs -> net_base sent (put envs w).
Proof.
  intros Hb He. unfold put. destruct (current w) as [[k l]|] eqn:Ec; [|done].
  apply current_Some in Ec as (Hk & Hl & Ho). apply with_link_base; [done|].
  destruct (nb_links _ _ Hb k l Hl) as [? Hq]. split; [done|]. simpl.
  intros data event [?|Hd]%elem_of_app ?; [by eapply Hq | by eapply text_of_ok].
Qed.
(** What is put on the open connection adds to what arrives. *)
Lemma put_missing sent w envs :
  nothing_missing sent w -> Forall (harmless sent) envs -> nothing_missing sent (put envs w).
Proof.
  intros Hc He k l. rewrite put_current. destruct (put_same envs w) as [-> ->].
  destruct (current w) as [[k0 l0]|] eqn:Ec; [|done]. intros [= <- <-]. destruct (Hc k0 l0 Ec) as [? Ha].
  split; [done|]. intros event [?|(data & ? & ?)]%Ha; [by left|]. right. exists data. split; [|done].
  apply elem_of_app. by left.
Qed.

(** *** The steps of the agent *)
Lemma forward_inv sent w now evt :
  net_inv sent w -> Z.of_nat (length sent) < 2 ^ 64 - 2 ->
  (forall event, event = event_of nodeID (Z.of_nat (length sent) + 1) now evt ->
    carries (event_envelope now event) (as_received event)) ->
  net_inv (sent ++ [as_received (event_of nodeID (Z.of_nat (length sent) + 1) now evt)]) (forward nodeID now evt w).
Proof.
  intros [Hb Hc] Hlen Hcar. unfold forward. rewrite (nb_seq _ _ Hb), u64_small by (unfold is_u64; lia).
  set (event := event_of _ _ _ _) in *. specialize (Hcar event eq_refl).
  assert (Hsub : sent ⊆ sent ++ [as_received event]) by set_solver.
  assert (Hin : as_received event ∈ sent ++ [as_received event]) by set_solver.
  unfold Client.SendEvent. set (c := Client.set_pending _ _ _).
  pose proof (ClientFacts.SendEnvelope_sent c (socket w) (event_envelope now event)) as Hs.
  destruct (Client.SendEnvelope c (socket w) _) as [[envs ans] r] eqn:Es. simpl in Hs.
  set (w1 := mkWorld _ _ _ _ _ _). assert (Hall : Forall (harmless (sent ++ [as_received event])) envs).
  { apply Forall_forall. intros env [-> _]%Hs. by eapply carries_harmless. }
  split.
  - apply put_base; [|done]. destruct Hb as [? ? ? Hp Hco Hl]. split; simpl; try done.
    + rewrite length_app. simpl. lia.
    + apply Forall2_app; [done|]. by repeat constructor.
    + by eapply calls_ok_more.
    + intros k l Hk. eapply queue_ok_more; [done | by apply (Hl k)].
  - intros k l. rewrite put_current. destruct (put_same envs w1) as [-> ->].
    change (current w1) with (current w). destruct (current w) as [[k0 l0]|] eqn:Ec; [|done].
    intros [= <- <-]. destruct (Hc k0 l0 Ec) as [Hconn Ha]. split; [done|].
    intros x [Hx|Hx%list_elem_of_singleton]%elem_of_app.
    + destruct (Ha x Hx) as [?|(data & ? & ?)]; [by left|]. right. exists data. simpl. split; [|done].
      apply elem_of_app. by left.
    + subst x. right. destruct (carries_arrives envs (event_envelope now event) (as_received event)) as (data & ? & ?); [|done|].
      * unfold Client.SendEnvelope, socket in Es. rewrite Ec in Es. destruct Hcar as (data & Hm & _). rewrite Hm in Es.
        simpl in Es. rewrite Hconn in Es. injection Es as <- _ _. by left.
      * exists data. simpl. split; [|done]. apply elem_of_app. by right.
Qed.

Lemma heartbeat_inv sent w now :
  net_inv sent w -> json_plain (heartbeat_envelope now) -> net_inv sent (heartbeat now w).
Proof.
  intros [Hb Hc] Hp. unfold heartbeat.
  pose proof (ClientFacts.SendEnvelope_sent (w_client w) (socket w) (heartbeat_envelope now)) as Hs.
  assert (Hall : Forall (harmless sent) (Client.SendEnvelope (w_client w) (socket w) (heartbeat_envelope now)).1.1).
  { apply Forall_forall. intros env [-> _]%Hs. by apply other_type_harmless. }
  split; [by apply put_base | by apply put_missing].
Qed.

Lemma dial_inv sent w answer now cut :
  net_inv sent w ->
  (forall payload, sp () = Ok payload -> json_plain (Client.snapshot_envelope now payload)) ->
  net_inv sent (dial nodeID projects answer now cut w).
Proof.
  intros [Hb Hc] Hp. unfold dial. destruct (current w) as [[k l]|] eqn:Ec; [by split|].
  set (answers := match cut with None => _ | Some n => _ end). destruct Hb as [Hn Hsp Hh Hpe Hco Hl].
  pose proof (ClientFacts.dial_phase_same (w_client w) answer () now answers) as Hsame.
  pose proof (ClientFacts.dial_phase_sent (w_client w) answer () now answers) as Hsent.
  pose proof (ClientFacts.dial_phase_Ok (w_client w) answer () now answers) as Hok.
  destruct (Client.dial_phase (w_client w) answer () now answers) as [[c envs] r] eqn:Ed. simpl in *.
  destruct Hsame as (_ & Epe & Esp & Ehk).
  assert (Hall : Forall (harmless sent) envs).
  { apply Forall_forall. intros env [_ [(s & payload & Es & Epl & ->)|[Hin|(hook & Hin & _)]]]%Hsent.
    - apply other_type_harmless; [|done]. apply Hp. rewrite Hsp in Es. by injection Es as <-.
    - apply list_elem_of_fmap in Hin as (pe & -> & [i Hi]%list_elem_of_lookup).
      destruct (Forall2_lookup_l _ _ _ _ _ Hpe Hi) as (event & Hev & Hcar).
      eapply carries_harmless; [done|]. apply list_elem_of_lookup. eauto.
    - rewrite Hh in Hin. by apply elem_of_nil in Hin. }
  destruct (is_Ok answer).
  - split.
    + split; simpl; try congruence; try done. apply map_Forall_insert_2; [|done]. split; [done|].
      intros data event Hd He. by eapply text_of_ok.
    + intros k l (Hk & Hlk & Ho)%current_Some. simpl in Hk, Hlk. injection Hk as <-.
      rewrite lookup_insert_eq in Hlk. injection Hlk as <-. simpl in Ho. destruct r as [[]|]; [|done].
      destruct (Hok c envs eq_refl) as [Hconn Hin]. split; [done|]. intros event [i Hi]%list_elem_of_lookup.
      destruct (Forall2_lookup_r _ _ _ _ _ Hpe Hi) as (pe & Hev & Hcar). right. simpl.
      eapply carries_arrives; [|done]. apply Hin, list_elem_of_lookup. eauto.
  - split; [split; simpl; congruence || done|]. intros k l Hk. unfold current in Hk, Ec. simpl in Hk. by rewrite Ec in Hk.
Qed.

(** *** The steps of the supervisor *)
Lemma leave_same now b h : same_calls h (leave now b h).
Proof. done. Qed.
Lemma same_calls_trans h1 h2 h3 : same_calls h1 h2 -> same_calls h2 h3 -> same_calls h1 h3.
Proof. intros (E1 & E2 & E3) (? & ? & ?). unfold same_calls. by rewrite <- E1, <- E2, <- E3. Qed.

Lemma serve_accept_inv sent w k now : net_inv sent w -> net_inv sent (serve_accept k now w).
Proof.
  intros Hinv. unfold serve_accept. destruct (w_links w !! k) as [l|] eqn:El; [|done].
  destruct (ln_phase l); try done. destruct (accept now k l (w_sup w)) as [h reg] eqn:Ea.
  assert (Hs : same_calls (w_sup w) h).
  { unfold accept in Ea. destruct (Registry.Register _ _ _). by injection Ea as <- _. }
  destruct Hinv as [Hb Hc]. split.
  - apply with_sup_base; [eapply same_calls_ok; [done | apply Hb]|]. apply with_link_base; [done|].
    exact (nb_links _ _ Hb k l El).
  - apply with_link_missing; [done | | by destruct Hs as (_ & -> & _)].
    intros Ho. exists l. split_and!; [done | done|]. intros event Ha. exact (same_calls_arriving _ _ l event Hs Ha).
Qed.

(** What a message read from the agent does to the calls. *)
Lemma read_calls sent now data h :
  (forall event, event ∈ sent -> is_u64 (ev_Seq event) /\ valid_call (nodeID, ev_ID event)) ->
  calls_ok sent h -> (forall event, event_in data = Some event -> event ∈ sent) ->
  let h' := (read_turn decode_snapshot now nodeID data h).1 in
  calls_ok sent h' /\
  (forall event, event ∈ inputs nodeID (h_calls h) -> event ∈ inputs nodeID (h_calls h')) /\
  (forall event, event_in data = Some event -> event ∈ inputs nodeID (h_calls h')).
Proof.
  intros Hgood Hco Hin. pose proof (read_turn_spec now nodeID data h) as Hr. destruct (event_in data) as [event|].
  - simpl. rewrite Hr. destruct (Hgood event (Hin event eq_refl)) as [Hu Hv].
    destruct (process_ok sent h nodeID event Hco Hu Hv) as [Hok Ec]; [intros _; by apply Hin|]. split; [done|].
    rewrite Ec. setoid_rewrite inputs_snoc. rewrite decide_True by done.
    split; [intros x Hx; apply elem_of_app; by left|]. intros x [= <-]. apply elem_of_app. right. by left.
  - simpl. split; [by eapply same_calls_ok|]. destruct Hr as (_ & -> & _). done.
Qed.
Lemma serve_read_inv sent w k now :
  (forall event, event ∈ sent -> is_u64 (ev_Seq event) /\ valid_call (nodeID, ev_ID event)) ->
  net_inv sent w -> net_inv sent (serve_read decode_snapshot k now w).
Proof.
  intros Hgood Hinv. unfold serve_read. destruct (w_links w !! k) as [l|] eqn:El; [|done].
  destruct (ln_phase l); try done. destruct (ln_queue l) as [|data rest] eqn:Eq; [done|].
  pose proof Hinv as [Hb Hc]. destruct (nb_links _ _ Hb k l El) as [Hn Hq]. rewrite Hn.
  destruct (read_calls sent now data (w_sup w)) as (Hco & Hkeep & Hnew); [done | apply Hb | |].
  { intros event He. eapply Hq; [|done]. rewrite Eq. by left. }
  destruct (read_turn decode_snapshot now nodeID data (w_sup w)) as [h continue_]. simpl in Hco, Hkeep, Hnew.
  destruct continue_.
  - split.
    + apply with_sup_base; [done|]. apply with_link_base; [done|]. split; [done|]. simpl.
      intros data' event Hd. apply Hq. rewrite Eq. by right.
    + apply with_link_missing; [done | | done]. intros Ho. exists l. split_and!; [done | done|].
      intros event [?|(data' & Hd & He)]; [left; by apply Hkeep|]. rewrite Eq in Hd.
      apply elem_of_cons in Hd as [->|Hd]; [left; by apply Hnew | right; by exists data'].
  - split.
    + apply with_sup_base; [by eapply same_calls_ok; [apply leave_same|]|]. apply with_link_base; [done|].
      split; [done|]. by intros ? ? ?%elem_of_nil.
    + by apply with_link_missing.
Qed.

Lemma persist_ok sent now h : calls_ok sent h -> calls_ok sent (persist now h) /\ h_calls (persist now h) = h_calls h.
Proof.
  intros Hok. pose proof Hok as [Hr ? ? ? ?]. unfold persist, Pipeline.persist_turn. destruct (persistQueue (h_pipeline h)); [done|].
  split; [|done]. by split.
Qed.

(** *** Histories *)
(** The values the agents send are ones that [encoding/json] writes and, but for
    a nil payload, reads back, at a time other than the epoch's. *)
Definition encodes (now : Time.t) (event : Event) : Prop :=
  json_marshal event = json_marshal (as_received event) /\ json_plain (as_received event) /\
  is_Ok (json_marshal event) = true /\
  json_plain (event_envelope now event) /\ is_Ok (json_marshal (event_envelope now event)) = true.
Lemma encodes_carries now event :
  Time.Unix now <> 0 -> encodes now event -> carries (event_envelope now event) (as_received event).
Proof.
  intros Ht (Heq & Hp & Hm & Hpe & Hme). destruct (json_marshal (event_envelope now event)) as [data|] eqn:Ed; [|done].
  exists data. assert (Hdata : MarshalEnvelope (event_envelope now event) = Ok data).
  { unfold MarshalEnvelope. rewrite (proj2 (CommandFacts.validateEnvelope_ok _)) by done. simpl. by rewrite Ed. }
  split; [done|]. unfold event_in. rewrite (CommandFacts.marshal_read _ _ Hpe Hdata). simpl.
  destruct (json_marshal event) as [payload|] eqn:Ep; [|done].
  by rewrite (json_round_trip (as_received event) payload Hp (eq_sym Heq)).
Qed.
Definition op_ok (op : net_op) : Prop :=
  match op with
  | Forward now evt => Time.Unix now <> 0 /\ forall seq, encodes now (event_of nodeID seq now evt)
  | Heartbeat now => json_plain (heartbeat_envelope now)
  | Dial _ now _ =>
      forall payload, sp () = Ok payload -> json_plain (Client.snapshot_envelope now payload)
  | OtherEvent agentID event => agentID <> nodeID /\ is_u64 (ev_Seq event) /\ valid_call (agentID, ev_ID event)
  | _ => True
  end.

Lemma other_step_inv sent w op :
  (forall event, event ∈ sent -> is_u64 (ev_Seq event) /\ valid_call (nodeID, ev_ID event)) ->
  op_ok op -> (forall now evt, op <> Forward now evt) ->
  net_inv sent w -> net_inv sent (net_step decode_snapshot nodeID projects w op).
Proof.
  intros Hgood Hop Hf Hinv. destruct op; simpl.
  - by destruct (Hf now evt).
  - by apply heartbeat_inv.
  - by apply dial_inv.
  - by apply serve_accept_inv.
  - by apply serve_read_inv.
  - destruct (w_links w !! k) as [l|] eqn:El; [|done]. apply cut_link_inv; [done | done|].
    intros data (i & Hi & _)%elem_of_take. by eapply list_elem_of_lookup_2.
  - unfold serve_timeout. destruct (w_links w !! k) as [l|] eqn:El; [|done].
    destruct (ln_phase l); try done. destruct (ln_queue l); [|done].
    apply closed_link_inv; [done | apply leave_same | done|]. by intros ? ?%elem_of_nil.
  - by apply close_all_inv.
  - by apply with_sup_inv.
  - by apply close_all_inv.
  - destruct Hinv as [Hb Hc], Hop as (Hne & Hu & Hv).
    destruct (process_ok sent (w_sup w) agentID event (nb_calls _ _ Hb) Hu Hv) as [Hok Ec]; [done|].
    split; [by apply with_sup_base|]. intros k l Hk. destruct (Hc k l Hk) as [? Ha]. split; [done|].
    intros x [?|?]%Ha; [left | by right]. simpl. rewrite Ec, inputs_snoc. apply elem_of_app. by left.
  - destruct Hinv as [Hb Hc]. destruct (persist_ok sent now (w_sup w) (nb_calls _ _ Hb)) as [Hok Ec].
    split; [by apply with_sup_base|]. intros k l Hk. destruct (Hc k l Hk) as [? Ha]. split; [done|].
    intros x [?|?]%Ha; [left | by right]. simpl. by rewrite Ec.
Qed.

(** *** The events of a history *)
Lemma events_of_snoc given x :
  events_of nodeID (given ++ [x]) =
  events_of nodeID given ++ [as_received (event_of nodeID (Z.of_nat (length given) + 1) x.1 x.2)].
Proof. unfold events_of. rewrite imap_app. simpl. by rewrite Nat.add_0_r. Qed.
Lemma events_of_length given : length (events_of nodeID given) = length given.
Proof. apply length_imap. Qed.
Lemma events_of_elem given event :
  event ∈ events_of nodeID given -> exists i now evt, (i < length given)%nat /\
    event = as_received (event_of nodeID (Z.of_nat i + 1) now evt).
Proof.
  intros (i & [now evt] & -> & Hi)%elem_of_lookup_imap_1. exists i, now, evt. split; [|done]. by apply lookup_lt_Some in Hi.
Qed.
Lemma events_of_consecutive given : consecutive 1 (events_of nodeID given).
Proof.
  induction given as [|x given IH] using rev_ind; [done|]. rewrite events_of_snoc. apply consecutive_app. split; [done|].
  apply consecutive_cons. rewrite events_of_length. simpl. split; [lia | apply consecutive_nil].
Qed.
Lemma event_id_inj i j : 0 < i -> 0 < j ->
  (nodeID +:+ "-" +:+ ZeroPad 6 i)%stdpp = (nodeID +:+ "-" +:+ ZeroPad 6 j)%stdpp -> i = j.
Proof.
  intros Hi Hj E'. apply (inj (String.append nodeID)) in E'. apply (ZeroPad_inj 6); [done | done|]. by injection E'.
Qed.
Lemma events_of_ids given : NoDup (ev_ID <$> events_of nodeID given).
Proof.
  induction given as [|x given IH] using rev_ind; [constructor|]. rewrite events_of_snoc, fmap_app.
  apply NoDup_app. split_and!; [done | | by apply NoDup_singleton].
  intros id (event & -> & Hin)%list_elem_of_fmap Hid%list_elem_of_singleton.
  apply events_of_elem in Hin as (i & now & evt & Hi & ->). apply event_id_inj in Hid; lia.
Qed.

Lemma events_of_good given event :
  plain_agent nodeID = true -> Z.of_nat (length given) < 2 ^ 64 - 2 -> event ∈ events_of nodeID given ->
  is_u64 (ev_Seq event) /\ valid_call (nodeID, ev_ID event).
Proof.
  intros Hplain Hlen (i & now & evt & Hi & ->)%events_of_elem. split; [unfold is_u64; simpl; lia|]. split; [done|].
  simpl. by destruct nodeID.
Qed.
Lemma forwards_snoc ops op :
  forwards (ops ++ [op]) = forwards ops ++ match op with Forward now evt => [(now, evt)] | _ => [] end.
Proof. unfold forwards. rewrite omap_app. simpl. by destruct op. Qed.

Lemma world_history_inv h0 ops :
  h_pipeline h0 = p0 -> h_calls h0 = [] -> h_effects h0 = [] -> plain_agent nodeID = true -> Forall op_ok ops ->
  Z.of_nat (length (forwards ops)) < 2 ^ 64 - 2 ->
  net_inv (events_of nodeID (forwards ops))
    (foldl (net_step decode_snapshot nodeID projects) (new_world h0 sp) ops).
Proof.
  intros Hp Hca He Hplain. induction ops as [|op ops IH] using rev_ind; intros Hall Hlen.
  - split; [|done]. split; simpl; try done. split; rewrite ?Hp, ?Hca, ?He; simpl; try done.
  - apply Forall_app in Hall as [Hall [Hop _]%Forall_cons]. rewrite foldl_app, forwards_snoc in *. simpl.
    rewrite length_app in Hlen.
    assert (Hlen' : Z.of_nat (length (forwards ops)) < 2 ^ 64 - 2) by lia. specialize (IH Hall Hlen').
    assert (Hc : (exists now evt, op = Forward now evt) \/ forall now evt, op <> Forward now evt)
      by (destruct op; eauto).
    destruct Hc as [(now & evt & ->)|Hne].
    + rewrite events_of_snoc, <- (events_of_length (forwards ops)). destruct Hop as [Ht Henc].
      apply forward_inv; [done | by rewrite events_of_length|]. intros event ->. by apply encodes_carries.
    + replace (match op with Forward now evt => [(now, evt)] | _ => [] end) with (@nil (Time.t * AgentEvent))
        by (destruct op; [by destruct (Hne now evt) | done..]).
      rewrite app_nil_r. apply other_step_inv; [|done | done | done].
      intros event. by apply events_of_good.
Qed.

(** *** Reading a connection to its end *)
Lemma read_serving w k l now :
  current w = Some (k, l) -> ln_phase l = Serving ->
  let w' := serve_read decode_snapshot k now w in
  (exists l', current w' = Some (k, l') /\ ln_phase l' = Serving /\ ln_queue l' = tail (ln_queue l)) \/
  (current w' = None /\ exists l', w_links w' !! k = Some l' /\ ln_phase l' = Gone).
Proof.
  intros Hcur Hph. pose proof Hcur as (Hk & Hl & Ho)%current_Some. unfold serve_read. rewrite Hl, Hph.
  destruct (ln_queue l) as [|data rest] eqn:Eq; [left; exists l; by rewrite Eq|].
  destruct (read_turn decode_snapshot now (ln_node l) data (w_sup w)) as [h []].
  - left. exists (set_queue rest l). split_and!; [|done | done]. apply current_Some. simpl. by rewrite lookup_insert_eq.
  - right. unfold current. simpl. rewrite Hk. simpl. rewrite lookup_insert_eq. simpl. split; [done|]. by eexists.
Qed.
Lemma read_gone w k l now : w_links w !! k = Some l -> ln_phase l = Gone -> serve_read decode_snapshot k now w = w.
Proof. intros Hl Hp. unfold serve_read. by rewrite Hl, Hp. Qed.
Lemma read_to_the_end n w k l now :
  current w = Some (k, l) -> ln_phase l = Serving -> length (ln_queue l) = n ->
  let w' := foldl (net_step decode_snapshot nodeID projects) w (replicate n (Read k now)) in
  current w' = None \/ exists l', current w' = Some (k, l') /\ ln_queue l' = [].
Proof.
  revert w l. induction n as [|n IH]; intros w l Hk Hp Hn; simpl.
  - right. exists l. split; [done|]. by apply nil_length_inv.
  - destruct (read_serving w k l now Hk Hp) as [(l' & Hk' & Hp' & Hq')|(Hn' & l' & Hl' & Hp')].
    + apply (IH _ l' Hk' Hp'). rewrite Hq'. destruct (ln_queue l); simpl in *; lia.
    + left. clear IH Hn. induction n as [|n IH]; [done|]. simpl. by rewrite (read_gone _ k l').
Qed.
Lemma forwards_reads ops k now n : forwards (ops ++ replicate n (Read k now)) = forwards ops.
Proof.
  unfold forwards. rewrite omap_app. replace (omap _ (replicate n (Read k now))) with (@nil (Time.t * AgentEvent));
    [by rewrite app_nil_r|]. by induction n.
Qed.
End Facts.
End HarnessFacts.

(** ** Properties *)
Section Properties.
Import Harness HarnessFacts Dedup Pipeline PipelineFacts.
Context {DB TDB EDB E L Handler : Type} `{KeyedTable DB NodeRow E} `{KeyedTable TDB SessionRow E} `{TimeText}.
Context `{LruCacheLaws L} `{EventStore EDB E} `{JsonLaws Envelope} `{JsonLaws Event} `{Json CommandResult}.
Context (decode_snapshot : string -> res string (list SessionSnapshot)) (nodeID : string) (projects : list string).

Lemma delivered_once (sender : bool) (p0 : EventPipeline L) (h0 : supervisor DB TDB EDB L)
    (sp : unit -> res string string) (ops : list net_op) :
  NewEventPipeline sender = Ok p0 -> h_pipeline h0 = p0 -> h_calls h0 = [] -> h_effects h0 = [] ->
  plain_agent nodeID = true -> Forall (op_ok nodeID sp) ops -> Z.of_nat (length (forwards ops)) < 2 ^ 64 - 2 ->
  let w := foldl (net_step (Handler := Handler) decode_snapshot nodeID projects) (new_world h0 sp) ops in
  let events := events_of nodeID (forwards ops) in
  let reached := delivered nodeID (h_effects (w_sup w)) in
  reached = take (length reached) events /\
  forall k l, current w = Some (k, l) -> ln_queue l = [] -> reached = events.
Proof.
  intros Hnew Hp Hc He Hplain Hall Hlen w events reached.
  destruct (new_pipeline_facts sender p0 Hnew) as [Hwf Hfresh]. destruct (Hfresh nodeID) as (Hl & Hpe & Hids).
  destruct (world_history_inv (Handler := Handler) decode_snapshot nodeID projects p0 sp h0 ops Hp Hc He Hplain Hall Hlen) as [Hb Hmiss].
  fold w in Hb, Hmiss. destruct (nb_calls _ _ _ _ _ Hb) as [_ Heff Hu Hv Hin].
  pose proof (resubmitted p0 (h_calls (w_sup w)) nodeID events Hwf Hl Hpe Hids Hu Hv) as Hre.
  unfold events in Hre. specialize (Hre (events_of_consecutive _ _) (events_of_ids _ _)).
  rewrite events_of_length in Hre. specialize (Hre ltac:(lia) Hin).
  destruct (run p0 (h_calls (w_sup w))) as [q tr]. simpl in Heff. unfold reached. rewrite Heff.
  destruct Hre as [Hpre Hall']. split; [exact Hpre|]. intros k l Hk Hq. rewrite Hpre. unfold events.
  rewrite <- events_of_length with (nodeID := nodeID) in Hall'. apply take_ge, Hall'; [done|].
  intros x (i & Hi & _)%elem_of_take. destruct (Hmiss k l Hk) as [_ Ha].
  destruct (Ha x) as [?|(data & Hd & _)]; [by eapply list_elem_of_lookup_2 | done|]. rewrite Hq in Hd. by apply elem_of_nil in Hd.
Qed.

(** C3: the agent's events reach the event pipeline exactly once and in order,
    however often the connection breaks and whatever is lost, resent or answered
    in between: what the pipeline has handed on for the agent is at any time a
    prefix of what the agent's forwarder was given, each event with its number
    and id, and it is all of it once the client is connected and nothing is in
    flight, which reading what is in flight leads to unless the supervisor gives
    the connection up. *)
Theorem events_reach_the_pipeline_once (sender : bool) (p0 : EventPipeline L) (h0 : supervisor DB TDB EDB L)
    (sp : unit -> res string string) (ops : list net_op) :
  NewEventPipeline sender = Ok p0 -> h_pipeline h0 = p0 -> h_calls h0 = [] -> h_effects h0 = [] ->
  plain_agent nodeID = true -> Forall (op_ok nodeID sp) ops -> Z.of_nat (length (forwards ops)) < 2 ^ 64 - 2 ->
  let w := foldl (net_step (Handler := Handler) decode_snapshot nodeID projects) (new_world h0 sp) ops in
  let events := events_of nodeID (forwards ops) in
  let reached := delivered nodeID (h_effects (w_sup w)) in
  reached = take (length reached) events /\
  (forall k l, current w = Some (k, l) -> ln_queue l = [] -> reached = events) /\
  forall k l now, current w = Some (k, l) -> ln_phase l = Serving ->
    let w' := foldl (net_step decode_snapshot nodeID projects) w (replicate (length (ln_queue l)) (Read k now)) in
    current w' = None \/ delivered nodeID (h_effects (w_sup w')) = events.
Proof.
  intros Hnew Hp Hc He Hplain Hall Hlen w events reached.
  pose proof (delivered_once sender p0 h0 sp ops Hnew Hp Hc He Hplain Hall Hlen) as [Hpre Hend].
  split; [exact Hpre|]. split; [exact Hend|]. intros k l now Hk Hph w'.
  destruct (read_to_the_end decode_snapshot nodeID projects _ w k l now Hk Hph eq_refl) as [|(l' & Hk' & Hq')]; [by left|].
  right. pose proof (forwards_reads ops k now (length (ln_queue l))) as Ef.
  pose proof (delivered_once sender p0 h0 sp (ops ++ replicate (length (ln_queue l)) (Read k now))) as Hmore.
  rewrite Ef, foldl_app in Hmore. destruct Hmore as [_ Hmore]; try done; [|by apply (Hmore k l')].
  apply Forall_app. split; [done|]. by apply Forall_replicate.
Qed.
End Properties.

(** ** Witness *)
Module HarnessWitness.
Import Harness HarnessFacts Dedup Pipeline CommandWitness DispatcherWitness PipelineWitness.

#[export] Instance event_json : Json Event := {
  json_marshal e := Ok (field_text (ev_ID e) +:+ (field_text (ev_SessionID e) +:+ (field_text (ev_Type e) +:+
    (field_text (ev_Data (as_received e)) +:+ (field_text (Format_RFC3339Nano (ev_Timestamp e)) +:+ (num_text (ev_Seq e) +:+ ε))))))%stdpp;
  json_unmarshal s :=
    match '(i, s) ← read_field s; '(si, s) ← read_field s; '(t, s) ← read_field s;
          '(d, s) ← read_field s; '(ts, s) ← read_field s; '(n, s) ← read_num s;
          ts ← Parse RFC3339Nano ts; Some (mkEvent i si t d ts n) with
    | Some e => Ok e
    | None => Err "unexpected end of JSON input"%string
    end }.
#[export] Instance event_json_laws : JsonLaws Event.
Proof.
  refine {| json_plain e := printable_time (ev_Timestamp e) /\ ev_Data e <> ε |}.
  intros [i si t d ts n] s [Hts Hd] [= <-]. simpl in Hts, Hd. unfold as_received. cbn [ev_Data].
  rewrite (proj2 (str_empty_false d) Hd).
  cbn [json_unmarshal event_json ev_ID ev_SessionID ev_Type ev_Data ev_Timestamp ev_Seq].
  rewrite read_field_text; cbn [mbind option_bind]. rewrite read_field_text; cbn [mbind option_bind].
  rewrite read_field_text; cbn [mbind option_bind]. rewrite read_field_text; cbn [mbind option_bind].
  rewrite read_field_text; cbn [mbind option_bind]. rewrite read_num_text; cbn [mbind option_bind].
  change (bits_text (Z.to_pos (ts + 1))) with (Format_RFC3339Nano ts). by rewrite (parse_format ts Hts).
Defined.

Definition at_second (n : Z) : Time.t := (62135596800 + n) * Time.Second.
Definition evt (t : string) : AgentEvent :=
  mkAgentEvent t "s1" (if String.eqb t "session.idle" then ε else "{}"%string).
Definition provider : unit -> res string string := fun _ => Ok "[]"%string.
Definition decode (payload : string) : res string (list SessionSnapshot) := Ok [].
(** A connection breaks with an event in flight; the next one brings all three. *)
Definition ops : list net_op :=
  [Dial (Ok ()) (at_second 1) None; Accept 0 (at_second 1); Forward (at_second 2) (evt "session.idle"); Read 0 (at_second 2);
   Read 0 (at_second 2); Forward (at_second 3) (evt "message.updated"); Break 0 0; Timeout 0 (at_second 4);
   Forward (at_second 4) (evt "session.error"); OtherEvent "b" (ev "e1" 1); Persist (at_second 4);
   Dial (Err "connection refused"%string) (at_second 4) None; Dial (Ok ()) (at_second 5) None; Accept 1 (at_second 5);
   Heartbeat (at_second 6); Read 1 (at_second 6); Read 1 (at_second 6); Read 1 (at_second 6); Read 1 (at_second 6);
   Read 1 (at_second 6)]%string.
Definition h0 : supervisor (mem_table NodeRow) (mem_table SessionRow) (list EventRow) list_lru :=
  new_supervisor p0 (Registry.NewNodeRegistry mem_empty) (Tracker.NewSessionTracker mem_empty) None.
Definition last_world : world (mem_table NodeRow) (mem_table SessionRow) (list EventRow) list_lru () :=
  foldl (net_step decode "a" ["p"%string]) (new_world h0 provider) ops.

Lemma tight_bits t : tight (Format_RFC3339Nano t) = true.
Proof. simpl. by induction (Z.to_pos (t + 1)). Qed.
Lemma encodes_event seq now e :
  tight (ae_SessionID e) = true -> tight (ae_Type e) = true -> tight (ae_Payload e) = true -> printable_time now ->
  encodes now (event_of "a" seq now e).
Proof.
  intros Hs Ht Hp Hnow.
  assert (tight (ev_Data (as_received (event_of "a" seq now e))) = true /\
          ev_Data (as_received (event_of "a" seq now e)) <> ε) as [Hd Hne].
  { simpl. destruct (str_empty (ae_Payload e)) eqn:E; [done|]. by apply str_empty_false in E. }
  assert (as_received (as_received (event_of "a" seq now e)) = as_received (event_of "a" seq now e)) as Hidem.
  { unfold as_received at 1. by rewrite (proj2 (str_empty_false _) Hne). }
  split; [unfold json_marshal, event_json; by rewrite Hidem|]. split; [by split|]. split; [done|]. split; [|done].
  apply raw_text_tight.
  - unfold event_envelope. cbn [env_Payload json_marshal event_json].
    rewrite !tight_app, !tight_field, tight_num, Hd. cbn [ev_ID ev_SessionID ev_Type ev_Timestamp event_of].
    rewrite !tight_app, tight_ZeroPad, Hs, Ht, tight_bits. done.
  - unfold event_envelope. cbn [env_Payload json_marshal event_json].
    unfold field_text at 1. by destruct (String.length (ev_ID _)).
Qed.
Lemma ops_fine : Forall (op_ok "a" provider) ops.
Proof.
  unfold ops. repeat apply Forall_cons_2; try apply Forall_nil_2; try done.
  all: try (split; [done|]; intros seq; by apply encodes_event).
  all: try (intros payload [= <-]; vm_compute; done).
Qed.
Lemma events_reach_the_pipeline_once_witness :
  let events := events_of "a" (forwards ops) in
  let reached := delivered "a" (h_effects (w_sup last_world)) in
  reached = take (length reached) events /\
  (forall k l, current last_world = Some (k, l) -> ln_queue l = [] -> reached = events) /\
  forall k l now, current last_world = Some (k, l) -> ln_phase l = Serving ->
    let w' := foldl (net_step decode "a" ["p"%string]) last_world (replicate (length (ln_queue l)) (Read k now)) in
    current w' = None \/ delivered "a" (h_effects (w_sup w')) = events.
Proof.
  apply (events_reach_the_pipeline_once (Handler := ()) decode "a" ["p"%string] true p0 h0 provider ops);
    [reflexivity | reflexivity | reflexivity | reflexivity | reflexivity | exact ops_fine | vm_compute; reflexivity].
Defined.
Example all_three_arrive :
  ev_ID <$> delivered "a" (h_effects (w_sup last_world)) = ["a-000001"; "a-000002"; "a-000003"]%string /\
  exists l, current last_world = Some (1%nat, l) /\ ln_queue l = [].
Proof. vm_compute. split; [reflexivity | eexists; split; reflexivity]. Qed.

(** The handler of a broken connection clears up after the node has dialled
    again: the node is offline, and not in [connections], while its new connection
    is being served. *)
Definition dialled_again : list net_op :=
  [Dial (Ok ()) (at_second 1) None; Accept 0 (at_second 1); Break 0 0; Dial (Ok ()) (at_second 2) None;
   Accept 1 (at_second 2); Timeout 0 (at_second 3)].
Example late_handler_disconnects_the_node :
  let w := foldl (net_step (Handler := ()) decode "a" ["p"%string]) (new_world h0 provider) dialled_again in
  (exists l, current w = Some (1%nat, l) /\ ln_phase l = Serving) /\ h_connections (w_sup w) !! "a"%string = None /\
  node_Status <$> Registry.nodes (h_registry (w_sup w)) !! "a"%string = Some "offline"%string.
Proof. vm_compute. split; [eexists; split; reflexivity | split; reflexivity]. Qed.
End HarnessWitness.
