(* ===== verification/MockAdapter.v ===== *)
(** * MockAdapter

    internal/agent/opencode_mock.go: the adapter of the integration tests.  Its
    sessions are a map; what happens to them goes as events into one channel,
    from which the goroutine of a subscriber takes them.  [mock] is the adapter
    with the agent of [Integration] as its one subscriber, and with it the whole
    way of an event, from a session to the supervisor's pipeline.  A call returns
    the events it sends; one whose events do not fit into the channel blocks.  The
    channels of [SubscribeSessionEvents], which the harness does not use, are left
    out. *)

From S2P Require Import Prelude GoStd SqlStore NodeRegistry SessionTracker Commands Dispatcher EventDedup EventPipeline.
From S2P Require Import Floats Backoff WSClient OpenCode Integration.

Module Mock.
Definition session_created : string := "session.created".
Definition session_deleted : string := "session.deleted".
Definition message_updated : string := "message.updated".

Record MockOpencodeAdapter := mkMock { nextID : Z; sessions : gmap string SessionInfo; forceStreamErr : option api_error }.
Definition NewMockOpencodeAdapter : MockOpencodeAdapter := mkMock 1 ∅ None.
Definition SetStreamError (err : option api_error) (m : MockOpencodeAdapter) : MockOpencodeAdapter :=
  mkMock (nextID m) (sessions m) err.
Definition with_sessions (s : gmap string SessionInfo) (m : MockOpencodeAdapter) : MockOpencodeAdapter :=
  mkMock (nextID m) s (forceStreamErr m).

Definition mock_id (n : Z) : string := ("mock-" +:+ ZeroPad 3 n)%stdpp.
Definition about (t id : string) : AgentEvent := mkAgentEvent t id ε.

(** [order] is the order in which the map is ranged over. *)
Definition ListSessions (order : list (string * SessionInfo)) : list SessionInfo := order.*2.
Definition CreateSession (project prompt : string) (m : MockOpencodeAdapter) : MockOpencodeAdapter * string * list AgentEvent :=
  let id := mock_id (nextID m) in
  let status := if str_empty prompt then Adapter.SessionStatusIdle else Adapter.SessionStatusRunning in
  (mkMock (i64 (nextID m + 1)) (<[id := mkSessionInfo id project project "mock" status]> (sessions m)) (forceStreamErr m),
   id, about session_created id :: (if str_empty prompt then [] else [about message_updated id])).
Definition PromptSession (id : string) (m : MockOpencodeAdapter) : MockOpencodeAdapter * res adapter_error () * list AgentEvent :=
  match sessions m !! id with
  | None => (m, Err (ErrSessionNotFound id), [])
  | Some s =>
      let s := mkSessionInfo (si_ID s) (si_Project s) (si_Directory s) (si_Title s) Adapter.SessionStatusRunning in
      (with_sessions (<[id := s]> (sessions m)) m, Ok (), [about message_updated id])
  end.
Definition KillSession (id : string) (m : MockOpencodeAdapter) : MockOpencodeAdapter * res adapter_error () * list AgentEvent :=
  match sessions m !! id with
  | None => (m, Err (ErrSessionNotFound id), [])
  | Some _ => (with_sessions (delete id (sessions m)) m, Ok (), [about session_deleted id])
  end.
Definition SessionStatus (id : string) (m : MockOpencodeAdapter) : string * res adapter_error () :=
  match sessions m !! id with
  | None => (Adapter.SessionStatusUnknown, Err (ErrSessionNotFound id))
  | Some s => (si_Status s, Ok ())
  end.
(** [SubscribeEvents]: the error, or the new consumer's channel. *)
Definition SubscribeEvents (m : MockOpencodeAdapter) : option adapter_error :=
  Adapter.mapAdapterError <$> forceStreamErr m.

(** ** With its subscriber *)
Definition events_cap : nat := 128.
Definition consumer_cap : nat := 32.
Record mock := mkBusy {
  m_ad : MockOpencodeAdapter;
  m_events : list AgentEvent; m_consumer : list AgentEvent;
  (** what the forwarder took *)
  m_given : list AgentEvent }.
Definition new_mock : mock := mkBusy NewMockOpencodeAdapter [] [] [].
Inductive mock_op :=
  | MCreate (project prompt : string)
  | MPrompt (id : string)
  | MKill (id : string)
  | MEmit (evt : AgentEvent)
  (** a turn of the subscriber's goroutine, and of the forwarder *)
  | MPump
  | MTake.
Definition send (a : MockOpencodeAdapter) (evts : list AgentEvent) (m : mock) : option mock :=
  if (length (m_events m) + length evts <=? events_cap)%nat
  then Some (mkBusy a (m_events m ++ evts) (m_consumer m) (m_given m)) else None.
(** [None]: it blocks. *)
Definition mock_step (m : mock) (op : mock_op) : option mock :=
  match op with
  | MCreate project prompt => let '(a, _, evts) := CreateSession project prompt (m_ad m) in send a evts m
  | MPrompt id => let '(a, _, evts) := PromptSession id (m_ad m) in send a evts m
  | MKill id => let '(a, _, evts) := KillSession id (m_ad m) in send a evts m
  | MEmit evt => send (m_ad m) [evt] m
  | MPump =>
      match m_events m with
      | evt :: rest =>
          if (length (m_consumer m) <? consumer_cap)%nat
          then Some (mkBusy (m_ad m) rest (m_consumer m ++ [evt]) (m_given m)) else None
      | [] => None
      end
  | MTake =>
      match m_consumer m with
      | evt :: rest => Some (mkBusy (m_ad m) (m_events m) rest (m_given m ++ [evt]))
      | [] => None
      end
  end.
(** What blocks is not in the history. *)
Definition mock_run (ops : list mock_op) : mock := foldl (fun m op => default m (mock_step m op)) new_mock ops.

(** The sessions that exist after events, told by their types and sessions. *)
Definition live_step (live : gset string) (x : string * string) : gset string :=
  if String.eqb x.1 session_created then {[x.2]} ∪ live
  else if String.eqb x.1 session_deleted then live ∖ {[x.2]} else live.
Definition live (l : list (string * string)) : gset string := foldl live_step ∅ l.
Definition agent_kind (e : AgentEvent) : string * string := (ae_Type e, ae_SessionID e).
Definition event_kind (e : Event) : string * string := (ev_Type e, ev_SessionID e).
(** [EmitEvent] is not used to fake a life. *)
Definition emits_no_life (op : mock_op) : Prop :=
  match op with MEmit evt => ae_Type evt <> session_created /\ ae_Type evt <> session_deleted | _ => True end.
End Mock.

(** ** Lemmas *)
Module MockFacts.
Import Mock.

Definition sent (m : mock) : list AgentEvent := m_given m ++ m_consumer m ++ m_events m.
Definition mock_ok (m : mock) : Prop := live (agent_kind <$> sent m) = dom (sessions (m_ad m)).

Lemma live_app l1 l2 : live (l1 ++ l2) = foldl live_step (live l1) l2.
Proof. apply foldl_app. Qed.
(** A call's events say what it did to the sessions. *)
Lemma send_ok m a evts m' : mock_ok m ->
  foldl live_step (dom (sessions (m_ad m))) (agent_kind <$> evts) = dom (sessions a) ->
  send a evts m = Some m' -> mock_ok m'.
Proof.
  unfold mock_ok, send, sent. intros Hm He. destruct (_ <=? _)%nat; [|done]. intros [= <-]. simpl.
  by rewrite !app_assoc, fmap_app, live_app, <- !app_assoc, Hm.
Qed.
Lemma mock_step_ok m op m' : mock_ok m -> emits_no_life op -> mock_step m op = Some m' -> mock_ok m'.
Proof.
  intros Hm Hop. destruct op as [project prompt|id|id|evt| |]; simpl.
  - apply send_ok; [done|]. destruct (str_empty prompt); simpl; by rewrite dom_insert_L.
  - unfold PromptSession. destruct (sessions (m_ad m) !! id) as [s|] eqn:Es; (apply send_ok; [done|]); simpl; [|done].
    rewrite dom_insert_lookup_L by done. done.
  - unfold KillSession. destruct (sessions (m_ad m) !! id) as [s|] eqn:Es; (apply send_ok; [done|]); simpl; [|done].
    by rewrite dom_delete_L.
  - destruct Hop as [H1 H2]. apply send_ok; [done|]. unfold agent_kind, live_step. simpl.
    by rewrite (proj2 (String.eqb_neq _ _) H1), (proj2 (String.eqb_neq _ _) H2).
  - unfold mock_ok, sent in *. destruct (m_events m) as [|evt rest]; [done|]. destruct (_ <? _)%nat; [|done].
    intros [= <-]. simpl. by rewrite <- (app_assoc (m_consumer m)).
  - unfold mock_ok, sent in *. destruct (m_consumer m) as [|evt rest]; [done|]. intros [= <-]. simpl.
    by rewrite <- (app_assoc (m_given m)).
Qed.
Lemma mock_run_ok ops : Forall emits_no_life ops -> mock_ok (mock_run ops).
Proof.
  unfold mock_run. induction ops as [|op ops IH] using rev_ind; [done|]. intros [Hall [Hop _]%Forall_cons]%Forall_app.
  rewrite foldl_app. simpl. destruct (mock_step _ op) as [m'|] eqn:E; simpl; [|by apply IH].
  by apply (mock_step_ok _ op m' (IH Hall)).
Qed.
Lemma forwarded_kinds nodeID given : event_kind <$> Harness.events_of nodeID given = agent_kind <$> given.*2.
Proof.
  induction given as [|x given IH] using rev_ind; [done|].
  by rewrite HarnessFacts.events_of_snoc, !fmap_app, IH.
Qed.
End MockFacts.

(** ** Properties *)
Section Properties.
Import Mock MockFacts Harness HarnessFacts Dedup Pipeline.
Context {DB TDB EDB E L Handler : Type} `{KeyedTable DB NodeRow E} `{KeyedTable TDB SessionRow E} `{TimeText}.
Context `{LruCacheLaws L} `{EventStore EDB E} `{JsonLaws Envelope} `{JsonLaws Event} `{Json CommandResult}.
Context (decode_snapshot : string -> res string (list SessionSnapshot)) (nodeID : string) (projects : list string).

(** C4: the supervisor knows the agent's sessions: whatever sessions were created,
    prompted and killed, and however the connection broke meanwhile, once the
    adapter's channels are empty, the client is connected and nothing is in flight,
    the events that reached the pipeline tell exactly the sessions that exist. *)
Theorem sessions_known_at_rest (sender : bool) (p0 : EventPipeline L) (h0 : supervisor DB TDB EDB L)
    (sp : unit -> res string string) (calls : list mock_op) (ops : list net_op) (k : nat) (l : link) :
  let m := mock_run calls in
  let w := foldl (net_step (Handler := Handler) decode_snapshot nodeID projects) (new_world h0 sp) ops in
  NewEventPipeline sender = Ok p0 -> h_pipeline h0 = p0 -> h_calls h0 = [] -> h_effects h0 = [] ->
  plain_agent nodeID = true -> Forall (op_ok nodeID sp) ops -> Z.of_nat (length (forwards ops)) < 2 ^ 64 - 2 ->
  Forall emits_no_life calls -> (forwards ops).*2 = m_given m -> m_events m = [] -> m_consumer m = [] ->
  current w = Some (k, l) -> ln_queue l = [] ->
  live (event_kind <$> delivered nodeID (h_effects (w_sup w))) = dom (sessions (m_ad m)).
Proof.
  intros m w Hnew Hp Hc He Hplain Hall Hlen Hlife Hgiven Hev Hco Hk Hq.
  destruct (delivered_once (Handler := Handler) decode_snapshot nodeID projects sender p0 h0 sp ops Hnew Hp Hc He Hplain Hall Hlen) as [_ Hd].
  fold w in Hd. rewrite (Hd k l Hk Hq), forwarded_kinds, Hgiven. pose proof (mock_run_ok calls Hlife) as Hm.
  unfold mock_ok, sent in Hm. fold m in Hm. by rewrite Hev, Hco, !app_nil_r in Hm.
Qed.
End Properties.

(** ** Witness *)
Module MockWitness.
Import Mock MockFacts Harness HarnessFacts HarnessWitness CommandWitness DispatcherWitness PipelineWitness.

(** Two sessions, one killed; the connection breaks in between. *)
Definition calls : list mock_op :=
  [MCreate "p" "go"; MPump; MTake; MCreate "p" ε; MPump; MPump; MTake; MKill "mock-001"; MPump; MTake; MTake]%string.
Definition m : mock := mock_run calls.
Definition ops : list net_op :=
  [Dial (Ok ()) (at_second 1) None; Accept 0 (at_second 1)] ++ ((fun e => Forward (at_second 2) e) <$> take 2 (m_given m)) ++
  [Break 0 0; Timeout 0 (at_second 3)] ++ ((fun e => Forward (at_second 4) e) <$> drop 2 (m_given m)) ++
  [Dial (Ok ()) (at_second 5) None; Accept 1 (at_second 5)] ++ replicate 5 (Read 1 (at_second 6)).
Definition w : world (mem_table NodeRow) (mem_table SessionRow) (list EventRow) list_lru () :=
  foldl (net_step decode "a" ["p"%string]) (new_world h0 provider) ops.
Definition l : link := match current w with Some (_, l) => l | None => mkLink ε ε Gone [] false end.
Definition tight_given (e : AgentEvent) : Prop :=
  tight (ae_SessionID e) = true /\ tight (ae_Type e) = true /\ tight (ae_Payload e) = true.
#[local] Instance tight_given_dec e : Decision (tight_given e).
Proof. unfold tight_given. apply _. Defined.
Lemma mock_ops_fine : Forall (op_ok "a" provider) ops.
Proof.
  assert (Forall tight_given (m_given m)) as Ht by (apply (bool_decide_unpack _); vm_compute; exact I).
  assert (forall n l, 0 < n < 10 -> Forall tight_given l -> Forall (op_ok "a" provider) ((fun e => Forward (at_second n) e) <$> l)) as Hf.
  { intros n l Hn Hl. apply Forall_fmap. eapply Forall_impl; [exact Hl|]. intros e (? & ? & ?).
    assert (at_second n = (62135596800 + n) * 1000000000) as Hat by done.
    split; [rewrite Hat; unfold Time.Unix, Time.Second; rewrite Z.div_mul by done; lia|].
    intros seq. apply encodes_event; try done. rewrite Hat. assert (year10000 = 315537897600 * 1000000000) as Hy by (vm_compute; done). unfold printable_time. lia. }
  unfold ops. repeat apply Forall_app_2.
  all: try (apply Hf; [lia | by (apply Forall_take || apply Forall_drop)]).
  all: repeat constructor; try done; intros payload [= <-]; vm_compute; done.
Qed.
Lemma sessions_known_at_rest_witness :
  live (event_kind <$> Pipeline.delivered "a" (h_effects (w_sup w))) = dom (sessions (m_ad m)).
Proof.
  apply (sessions_known_at_rest (Handler := ()) decode "a" ["p"%string] true p0 h0 provider calls ops 1 l);
    [reflexivity | reflexivity | reflexivity | reflexivity | reflexivity | exact mock_ops_fine | vm_compute; reflexivity
    | repeat constructor | vm_compute; reflexivity.. ].
Defined.
Example one_session_left : elements (dom (sessions (m_ad m))) = ["mock-002"%string].
Proof. vm_compute. reflexivity. Qed.
End MockWitness.
