(* ===== verification/MockChannels.v ===== *)
(** * MockChannels

    internal/agent/opencode_mock.go: the channels of [SubscribeSessionEvents] of
    the test adapter, which the subscriber's goroutine of [SubscribeEvents] also
    gives the events of their session.  A step is what one goroutine does while it
    holds the lock, or the closing of a channel after it; [None] is the panic of a
    send to a closed channel or of closing one again. *)

From S2P Require Import Prelude GoStd OpenCode.

(** Where the goroutine of a channel stands: it waits for its context, it has
    taken the channel out of the map, it has closed it. *)
Inductive stage := Waiting | Removed | Closed.
#[export] Instance stage_eq_dec : EqDecision stage.
Proof. solve_decision. Defined.
Record session_chan := mkChan { ch_session : string; ch_buffer : list AgentEvent; ch_stage : stage }.

Module Channels.
Definition chan_cap : nat := 16.
Record state := mkState {
  chans : gmap nat session_chan;
  sessionChannels : gmap string (gset nat) }.
Definition init : state := mkState ∅ ∅.

Definition set_buffer (l : list AgentEvent) (c : session_chan) : session_chan := mkChan (ch_session c) l (ch_stage c).
Definition set_stage (st : stage) (c : session_chan) : session_chan := mkChan (ch_session c) (ch_buffer c) st.
Definition upd (k : nat) (c : session_chan) (s : state) : state := mkState (<[k := c]> (chans s)) (sessionChannels s).

Definition SubscribeSessionEvents (sessionID : string) (s : state) : state * nat :=
  let k := fresh (dom (chans s)) in
  let of_session := default ∅ (sessionChannels s !! sessionID) in
  (mkState (<[k := mkChan sessionID [] Waiting]> (chans s)) (<[sessionID := {[k]} ∪ of_session]> (sessionChannels s)), k).
(** The context ends: the goroutine takes its channel out, then closes it. *)
Definition remove (k : nat) (s : state) : option state :=
  c ← chans s !! k;
  if bool_decide (ch_stage c = Waiting) then
    let m := sessionChannels s in
    let m := match m !! ch_session c with
             | Some channels =>
                 let channels := channels ∖ {[k]} in
                 if bool_decide (channels = ∅) then delete (ch_session c) m else <[ch_session c := channels]> m
             | None => m
             end in
    Some (mkState (<[k := set_stage Removed c]> (chans s)) m)
  else Some s.
Definition close_chan (k : nat) (s : state) : option state :=
  c ← chans s !! k;
  match ch_stage c with
  | Waiting => Some s
  | Removed => Some (upd k (set_stage Closed c) s)
  | Closed => None
  end.
(** [select { case ch <- evt: default: }] *)
Definition offer (evt : AgentEvent) (s : state) (k : nat) : option state :=
  c ← chans s !! k;
  if bool_decide (ch_stage c = Closed) then None
  else if (length (ch_buffer c) <? chan_cap)%nat then Some (upd k (set_buffer (ch_buffer c ++ [evt]) c) s) else Some s.
Fixpoint offer_all (evt : AgentEvent) (s : state) (l : list nat) : option state :=
  match l with [] => Some s | k :: l' => s ← offer evt s k; offer_all evt s l' end.
(** The channels of the event's session, in the order of the map. *)
Definition pump (evt : AgentEvent) (s : state) : option state :=
  offer_all evt s (elements (default ∅ (sessionChannels s !! ae_SessionID evt))).
Definition receive (k : nat) (s : state) : option state :=
  c ← chans s !! k;
  match ch_buffer c with [] => Some s | _ :: rest => Some (upd k (set_buffer rest c) s) end.

Inductive op :=
  | Subscribe (sessionID : string)
  | Done (k : nat)
  | Close (k : nat)
  | Pump (evt : AgentEvent)
  | Receive (k : nat).
(** A step that is not there to be taken changes nothing; a goroutine closes its
    channel once, right after it has taken it out. *)
Definition step (s : state) (o : op) : option state :=
  match o with
  | Subscribe id => Some (SubscribeSessionEvents id s).1
  | Done k => match chans s !! k with Some _ => remove k s | None => Some s end
  | Close k =>
      match chans s !! k with
      | Some c => if bool_decide (ch_stage c = Removed) then close_chan k s else Some s
      | None => Some s
      end
  | Pump evt => pump evt s
  | Receive k => match chans s !! k with Some _ => receive k s | None => Some s end
  end.
Fixpoint run (s : state) (l : list op) : option state :=
  match l with [] => Some s | o :: l' => s ← step s o; run s l' end.
End Channels.

(** ** Lemmas *)
Module ChannelFacts.
Import Channels.

(** The map has exactly the channels whose context has not ended. *)
Definition channels_ok (s : state) : Prop :=
  forall k id, k ∈ default ∅ (sessionChannels s !! id) <->
    exists c, chans s !! k = Some c /\ ch_session c = id /\ ch_stage c = Waiting.
(** No channel holds more than its capacity. *)
Definition within (s : state) : Prop := map_Forall (fun _ c => (length (ch_buffer c) <= chan_cap)%nat) (chans s).

Lemma ok_same s s' :
  sessionChannels s' = sessionChannels s ->
  (forall k, (fun c => (ch_session c, ch_stage c)) <$> chans s' !! k = (fun c => (ch_session c, ch_stage c)) <$> chans s !! k) ->
  channels_ok s -> channels_ok s'.
Proof.
  intros Em Hc Hok k id. rewrite Em, (Hok k id). specialize (Hc k).
  destruct (chans s !! k) as [c|], (chans s' !! k) as [c'|]; simpl in Hc; try done.
  injection Hc as E1 E2. split; intros (x & [= <-] & ? & ?); eexists; (split; [done|]); split; congruence.
Qed.
Lemma lookup_upd_same k c c0 s j :
  chans s !! k = Some c0 -> ch_session c = ch_session c0 -> ch_stage c = ch_stage c0 ->
  (fun c => (ch_session c, ch_stage c)) <$> chans (upd k c s) !! j = (fun c => (ch_session c, ch_stage c)) <$> chans s !! j.
Proof.
  intros Hk E1 E2. simpl. destruct (decide (k = j)) as [<-|]; [|by rewrite lookup_insert_ne].
  rewrite lookup_insert_eq, Hk. simpl. by rewrite E1, E2.
Qed.
Lemma offer_ok evt s k : channels_ok s -> within s -> (exists c, chans s !! k = Some c /\ ch_stage c <> Closed) ->
  exists s', offer evt s k = Some s' /\ channels_ok s' /\ within s' /\ sessionChannels s' = sessionChannels s /\
    (forall j, (fun c => (ch_session c, ch_stage c)) <$> chans s' !! j = (fun c => (ch_session c, ch_stage c)) <$> chans s !! j).
Proof.
  intros Hok Hw (c & Hk & Hc). unfold offer. rewrite Hk. simpl. rewrite bool_decide_eq_false_2 by done.
  destruct (Nat.ltb_spec (length (ch_buffer c)) chan_cap) as [Hlt|]; [|by exists s].
  assert (Hsame := fun j => lookup_upd_same k (set_buffer (ch_buffer c ++ [evt]) c) c s j Hk eq_refl eq_refl).
  eexists. split; [done|]. split_and!; [|apply map_Forall_insert_2; [|done]|done|done].
  - by apply (ok_same s).
  - simpl. rewrite length_app. simpl. lia.
Qed.
Lemma offer_all_ok evt s l : channels_ok s -> within s ->
  (forall k, k ∈ l -> exists c, chans s !! k = Some c /\ ch_stage c <> Closed) ->
  exists s', offer_all evt s l = Some s' /\ channels_ok s' /\ within s'.
Proof.
  revert s. induction l as [|k l IH]; intros s Hok Hw Hl; [by exists s|]. cbn [offer_all].
  destruct (offer_ok evt s k Hok Hw) as (s1 & -> & Hok1 & Hw1 & _ & Hsame); [apply Hl; by left|]. simpl.
  apply IH; [done | done|]. intros j Hj. destruct (Hl j) as (c & Hc & Hst); [by right|]. specialize (Hsame j).
  rewrite Hc in Hsame. destruct (chans s1 !! j) as [c'|]; [|done]. injection Hsame as _ E2. exists c'. split; congruence.
Qed.
Lemma subscribe_ok s id : channels_ok s -> within s ->
  channels_ok (SubscribeSessionEvents id s).1 /\ within (SubscribeSessionEvents id s).1.
Proof.
  intros Hok Hw. split; [|apply map_Forall_insert_2; [simpl; lia | done]]. intros k i. simpl.
  set (n := fresh (dom (chans s))). assert (Hn : chans s !! n = None) by (apply not_elem_of_dom, is_fresh).
  destruct (decide (k = n)) as [->|Hne].
  - rewrite lookup_insert_eq. destruct (decide (i = id)) as [->|Hid].
    + rewrite lookup_insert_eq. simpl. split; [intros _; by eexists | set_solver].
    + rewrite lookup_insert_ne by done. split.
      * intros (c & Hc & _)%Hok. congruence.
      * intros (c & [= <-] & Hc & _). by destruct Hid.
  - rewrite (lookup_insert_ne _ n k) by done. rewrite <- (Hok k i). destruct (decide (i = id)) as [->|Hid].
    + rewrite lookup_insert_eq. simpl. set_solver.
    + by rewrite lookup_insert_ne.
Qed.
Lemma remove_ok s k c : channels_ok s -> within s -> chans s !! k = Some c ->
  exists s', remove k s = Some s' /\ channels_ok s' /\ within s'.
Proof.
  intros Hok Hw Hk. unfold remove. rewrite Hk. simpl. case_bool_decide as Hst; [|by exists s].
  eexists. split; [done|]. split; [|apply map_Forall_insert_2; [exact (Hw k c Hk) | done]].
  assert (Hin : k ∈ default ∅ (sessionChannels s !! ch_session c)) by (apply Hok; eauto).
  set (m := match sessionChannels s !! ch_session c with Some _ => _ | None => _ end).
  assert (Hm : forall i, default ∅ (m !! i) = if decide (i = ch_session c) then default ∅ (sessionChannels s !! i) ∖ {[k]}
    else default ∅ (sessionChannels s !! i)).
  { intros i. unfold m. destruct (sessionChannels s !! ch_session c) as [channels|] eqn:Es; [|by simpl in Hin; apply elem_of_empty in Hin]. simpl in *.
    case_bool_decide as Hemp; destruct (decide (i = ch_session c)) as [->|].
    - rewrite lookup_delete_eq, Es. simpl. by rewrite Hemp.
    - by rewrite lookup_delete_ne.
    - by rewrite lookup_insert_eq, Es.
    - by rewrite lookup_insert_ne. }
  intros j i. simpl. rewrite Hm. destruct (decide (j = k)) as [->|Hne].
  - rewrite lookup_insert_eq. split.
    + destruct (decide _) as [->|Hd]; [set_solver|]. intros (c' & Hc' & <- & _)%Hok. congruence.
    + by intros (c' & [= <-] & _ & ?).
  - rewrite lookup_insert_ne by done. rewrite <- (Hok j i). destruct (decide _); set_solver.
Qed.
Lemma chan_step_ok s o : channels_ok s -> within s -> exists s', step s o = Some s' /\ channels_ok s' /\ within s'.
Proof.
  intros Hok Hw. destruct o as [id|k|k|evt|k]; simpl.
  - eexists. split; [done|]. by apply subscribe_ok.
  - destruct (chans s !! k) as [c|] eqn:Hk; [by eapply remove_ok | by exists s].
  - destruct (chans s !! k) as [c|] eqn:Hk; [|by exists s]. case_bool_decide as Hst; [|by exists s].
    unfold close_chan. rewrite Hk. simpl. rewrite Hst. eexists. split; [done|].
    split; [|apply map_Forall_insert_2; [exact (Hw k c Hk) | done]]. intros j i. rewrite (Hok j i). simpl.
    destruct (decide (k = j)) as [<-|]; [|by rewrite lookup_insert_ne]. rewrite lookup_insert_eq, Hk.
    split; intros (x & [= <-] & ? & Hs); [congruence | done].
  - apply offer_all_ok; [done | done|]. intros k Hk. apply elem_of_elements, Hok in Hk as (c & ? & _ & Hst).
    exists c. by rewrite Hst.
  - destruct (chans s !! k) as [c|] eqn:Hk; [|by exists s]. unfold receive. rewrite Hk. simpl.
    destruct (ch_buffer c) as [|e rest] eqn:Eb; [by exists s|]. eexists. split; [done|].
    assert (Hsame := fun j => lookup_upd_same k (set_buffer rest c) c s j Hk eq_refl eq_refl).
    split; [by apply (ok_same s)|]. apply map_Forall_insert_2; [|done]. simpl.
    pose proof (Hw k c Hk) as Hlen. simpl in Hlen. rewrite Eb in Hlen. simpl in Hlen. lia.
Qed.
End ChannelFacts.

(** ** Properties *)
Section Properties.
Import Channels ChannelFacts.

(** Whatever is subscribed, ended, passed on and read, in any order, nothing is
    sent to a closed session channel and none is closed twice; an event is offered
    to exactly the channels of its session whose contexts go on, and none of them
    grows beyond its sixteen places: the adapter of the tests does not have the
    race that the real one has. *)
Theorem session_channels_never_panic (ops : list op) :
  exists s, run init ops = Some s /\ within s /\
    forall k id, k ∈ default ∅ (sessionChannels s !! id) <->
      exists c, chans s !! k = Some c /\ ch_session c = id /\ ch_stage c = Waiting.
Proof.
  assert (H0 : channels_ok init /\ within init).
  { split; [|apply map_Forall_empty]. intros k id. simpl. rewrite !lookup_empty. simpl. split; [set_solver|].
    by intros (? & [=] & _). }
  revert H0. generalize init as s. induction ops as [|o ops IH]; intros s [Hok Hw]; [by exists s|]. cbn [run].
  destruct (chan_step_ok s o Hok Hw) as (s1 & -> & Hok1 & Hw1). by apply IH.
Qed.
End Properties.

(** ** Examples *)
Module ChannelWitness.
Import Channels.
Definition evt (t : string) : AgentEvent := mkAgentEvent t "s1" ε.
Example after_the_end : (fun s => (ch_buffer <$> chans s !! 0%nat, ch_buffer <$> chans s !! 1%nat)) <$>
  run init [Subscribe "s1"; Subscribe "s1"; Pump (evt "a"); Done 0; Pump (evt "b"); Close 0; Pump (evt "c"); Receive 1]%string =
  Some (Some [evt "a"], Some [evt "b"; evt "c"])%string.
Proof. vm_compute. reflexivity. Qed.
End ChannelWitness.
