(* ===== verification/TestHarness.v ===== *)
(** * TestHarness

    integration/helpers.go, what [Integration] leaves: how the two harnesses are
    set up, the state snapshot of the agent's, its message handler, the
    supervisor's transport of commands, and the waiting of the tests.  Files,
    statements and the clock are arguments; a failed test is an error value. *)

From S2P Require Import Prelude GoStd SqlStore NodeRegistry SessionTracker Commands Dispatcher EventDedup EventPipeline.
From S2P Require Import Floats Backoff WSClient EnvCheck Provision OpenCode Integration MockAdapter SessionCommands.

(** [StateSnapshot] of wsclient.go. *)
Record StateSnapshot := mkStateSnapshot { sn_Sessions : list SessionSnapshot; sn_LastSeq : Z }.
Inductive transport_error (W : Type) :=
  | transport_not_connected (nodeID : string)
  | transport_payload (e : string)
  | transport_envelope (e : envelope_error)
  | transport_write (e : W).
Arguments transport_not_connected {W}. Arguments transport_payload {W}. Arguments transport_envelope {W}.
Arguments transport_write {W}.
(** What [t.Fatal] and [t.Fatalf] say. *)
Inductive fatal (E F : Type) :=
  | load_nodes_failed (e : registry_error E)
  | load_sessions_failed (e : session_error E)
  | pipeline_failed (e : string)
  | temp_file_failed (e : string)
  | open_db_failed (e : string)
  | pragma_failed (p e : string)
  | migrate_failed (e : F)
  | dispatch_failed (e : F)
  | no_command_result
  | query_events_failed (e : string)
  | scan_event_failed (e : string).
Arguments load_nodes_failed {E F}. Arguments load_sessions_failed {E F}. Arguments pipeline_failed {E F}.
Arguments temp_file_failed {E F}. Arguments open_db_failed {E F}. Arguments pragma_failed {E F}.
Arguments migrate_failed {E F}. Arguments dispatch_failed {E F}. Arguments no_command_result {E F}.
Arguments query_events_failed {E F}. Arguments scan_event_failed {E F}.

Module Rig.
Import Mock.

(** ** The agent *)
Section Agent.
Context `{Json Command} `{Json CommandResult} `{Json StateSnapshot}.
Context (errtext : adapter_error -> string).

(** The sessions in the order of their ids; the sessions of the adapter are
    ranged over in [order]. *)
Definition snapshot_of (now : Time.t) (s : SessionInfo) : SessionSnapshot :=
  mkSessionSnapshot (si_ID s) (si_Project s) (si_Status s) 0 Float64.zero (Time.Unix now).
Definition by_id (x y : SessionSnapshot) : Prop := String.leb (ss_SessionID x) (ss_SessionID y) = true.
#[export] Instance by_id_dec : RelDecision by_id.
Proof. intros x y. unfold by_id. apply _. Defined.
Definition snapshot (now : Time.t) (order : list (string * SessionInfo)) (eventSeq : Z) : StateSnapshot :=
  mkStateSnapshot (merge_sort by_id (snapshot_of now <$> ListSessions order)) (i64 eventSeq).

(** An argument that is a text. *)
Definition readStringArg (args : gmap string value) (key : string) : string :=
  match args !! key with Some (VStr s) => s | _ => ε end.

Definition succeeded (id : string) (now : Time.t) (output : string) : CommandResult :=
  mkResult id CommandStatusSuccess output ε now.
Definition failed (id : string) (now : Time.t) (e : string) : CommandResult :=
  mkResult id CommandStatusFailure ε e now.
(** The switch of [handleMessage]: the adapter afterwards, the events it sends,
    and the result. *)
Definition run_command (m : MockOpencodeAdapter) (now : Time.t) (cmd : Command)
    : MockOpencodeAdapter * list AgentEvent * CommandResult :=
  let id := cmd_CommandID cmd in
  let arg := readStringArg (cmd_Args cmd) in
  let outcome (r : res adapter_error ()) := match r with Ok _ => succeeded id now ε | Err e => failed id now (errtext e) end in
  if String.eqb (cmd_Type cmd) CommandTypeCreateSession then
    let '(m, new, evts) := CreateSession (tgt_Project (cmd_Target cmd)) (arg "prompt"%string) m in
    (m, evts, succeeded id now new)
  else if String.eqb (cmd_Type cmd) CommandTypePromptSession then
    let '(m, r, evts) := PromptSession (arg "session_id"%string) m in (m, evts, outcome r)
  else if String.eqb (cmd_Type cmd) CommandTypeKillSession then
    let '(m, r, evts) := KillSession (arg "session_id"%string) m in (m, evts, outcome r)
  else if String.eqb (cmd_Type cmd) CommandTypeSessionStatus then
    match SessionStatus (arg "session_id"%string) m with
    | (status, Ok _) => (m, [], succeeded id now status)
    | (_, Err e) => (m, [], failed id now (errtext e))
    end
  else if String.eqb (cmd_Type cmd) CommandTypeRestartSession then
    let '(m, _, evts) := KillSession (arg "session_id"%string) m in
    let '(m, new, evts') := CreateSession (tgt_Project (cmd_Target cmd)) "restart" m in
    (m, evts ++ evts', succeeded id now new)
  else (m, [], failed id now ("unsupported command type " +:+ cmd_Type cmd)%stdpp).
(** What is sent back; a result always marshals. *)
Definition response_envelope (now : Time.t) (id : string) (result : CommandResult) : Envelope :=
  mkEnvelope ProtocolVersion MessageTypeCommandResult id (Time.Unix now)
    (match json_marshal result with Ok payload => payload | Err _ => ε end).
Definition handleMessage (m : MockOpencodeAdapter) (now : Time.t) (env : Envelope)
    : MockOpencodeAdapter * list AgentEvent * res string (option Envelope) :=
  if negb (String.eqb (env_Type env) MessageTypeCommand) then (m, [], Ok None)
  else
    match json_unmarshal (env_Payload env) with
    | Err e => (m, [], Err e)
    | Ok cmd =>
        let '(m, evts, result) := run_command m now cmd in
        (m, evts, Ok (Some (response_envelope now (cmd_CommandID cmd) result)))
    end.

(** The read loop's [json.Unmarshal] into a [StateSnapshot], up to its sessions. *)
Definition decode_snapshot (payload : string) : res string (list SessionSnapshot) :=
  let? s := json_unmarshal payload in Ok (sn_Sessions s).

Definition emitted (count : nat) (sessionID : string) : list AgentEvent :=
  (fun i => mkAgentEvent "message.updated" sessionID
              ("{" +:+ Quote "i" +:+ ":" +:+ Itoa (Z.of_nat i) +:+ "}")%stdpp) <$> seq 0 count.
Definition emitEvents (count : nat) (sessionID : string) : list mock_op := MEmit <$> emitted count sessionID.
(** [newAgentHarness]: the session handlers and the client's own message handler. *)
Definition harness_client `{Json Envelope} {Handler} (session own : Handler) (url : string) (now : Time.t)
    (order : unit -> list (string * SessionInfo)) (eventSeq : Z) : Client.WSClient Handler () :=
  Session.RegisterSessionCommandHandlers session
    (Client.NewWSClient url "integration-token"
       [Client.WithBackoff Harness.harness_backoff;
        Client.WithSnapshotProvider (fun _ => json_marshal (snapshot now (order ()) eventSeq));
        Client.WithMessageHandler own]).
End Agent.

(** ** The supervisor *)
Section Supervisor.
Context {DB TDB EDB E L : Type} `{KeyedTable DB NodeRow E} `{KeyedTable TDB SessionRow E} `{TimeText}.
Context `{LruCache L} `{EventStore EDB E} `{Json Envelope} `{Json Command}.
Notation supervisor := (Harness.supervisor DB TDB EDB L).

(** [supervisorHarnessTransport.Send]; [write] is what the socket answers. *)
Definition Send {W} (write : nat -> string -> res W ()) (h : supervisor) (now : Time.t) (nodeID : string) (cmd : Command)
    : res (transport_error W) (nat * string) :=
  match Harness.h_connections h !! nodeID with
  | None => Err (transport_not_connected nodeID)
  | Some node =>
      let? payload := res_map_err transport_payload (json_marshal cmd) in
      let? data := res_map_err transport_envelope
        (MarshalEnvelope (mkEnvelope ProtocolVersion MessageTypeCommand (cmd_CommandID cmd) (Time.Unix now) payload)) in
      let? _ := res_map_err transport_write (write (nc_conn node) data) in
      Ok (nc_conn node, data)
  end.

Definition newSupervisorHarnessWithDB {F} (d : DB) (td : TDB) (db : option EDB) (restore : bool)
    : res (fatal E F) supervisor :=
  let registry := Registry.NewNodeRegistry d in
  let tracker := Tracker.NewSessionTracker td in
  let? parts :=
    (if restore then
       match Registry.LoadNodesFromDB registry with
       | (_, Err e) => Err (load_nodes_failed e)
       | (registry, Ok _) =>
           match Tracker.LoadSessionsFromDB tracker with
           | (_, Err e) => Err (load_sessions_failed e)
           | (tracker, Ok _) => Ok (registry, tracker)
           end
       end
     else Ok (registry, tracker)) in
  let? pipeline := res_map_err pipeline_failed (Pipeline.NewEventPipeline true) in
  Ok (Harness.new_supervisor pipeline parts.1 parts.2 db).

(** [setupIntegrationDB]: the temporary file, the handle, its pragmas, and the
    migrations, each given as what it answers. *)
Definition pragmas : list string := ["PRAGMA foreign_keys=ON"; "PRAGMA busy_timeout=5000"]%string.
Fixpoint exec_all {D F} (exec : string -> D -> res string D) (d : D) (l : list string) : res (fatal E F) D :=
  match l with
  | [] => Ok d
  | p :: l' => match exec p d with Err e => Err (pragma_failed p e) | Ok d => exec_all exec d l' end
  end.
Definition setupIntegrationDB {D F} (temp : res string string) (open : string -> res string D)
    (exec : string -> D -> res string D) (migrate : D -> D * res F ()) : res (fatal E F) D :=
  let? name := res_map_err temp_file_failed temp in
  let? d := res_map_err open_db_failed (open name) in
  let? d := exec_all exec d pragmas in
  match migrate d with (d, Ok _) => Ok d | (_, Err e) => Err (migrate_failed e) end.

Definition wsURL (httpURL token nodeID : string) (projects : list string) : string :=
  ("ws" +:+ Strings.TrimPrefix httpURL "http" +:+ "/ws/agent?token=" +:+ token +:+ "&node_id=" +:+ nodeID +:+
   "&projects=" +:+ Strings.Join projects ",")%stdpp.
Definition dispatch {F} (r : res F (option CommandResult)) : res (fatal E F) CommandResult :=
  match r with
  | Err e => Err (dispatch_failed e)
  | Ok None => Err no_command_result
  | Ok (Some result) => Ok result
  end.
(** The rows of the query, in its order; a row that does not scan is an error. *)
Fixpoint scan_ids {F} (rows : list (res string string)) : res (fatal E F) (list string) :=
  match rows with
  | [] => Ok []
  | Err e :: _ => Err (scan_event_failed e)
  | Ok id :: rows' => let? ids := scan_ids rows' in Ok (id :: ids)
  end.
Definition allEventIDs {F} (query : res string (list (res string string))) : res (fatal E F) (list string) :=
  let? rows := res_map_err query_events_failed query in scan_ids rows.

(** What the tests wait for. *)
Definition enough_nodes (order : list (string * NodeEntry)) (count : nat) : bool :=
  (count <=? length (Registry.ListNodes order))%nat.
Definition has_status (nodeID status : string) (h : supervisor) : bool :=
  match (Registry.GetNode (Harness.h_registry h) nodeID).2 with
  | Ok node => String.eqb (node_Status node) status
  | Err _ => false
  end.
Definition session_of (sessionID : string) (h : supervisor) : option TrackedSession :=
  match (Tracker.GetSession (Harness.h_tracker h) sessionID).2 with Ok x => Some x | Err _ => None end.
End Supervisor.

(** [waitFor]: the clock at each poll and what is found there; [None]: it still
    waits, [Some false]: the test fails. *)
Definition poll_interval : Z := 20 * Time.Millisecond.
Fixpoint waitFor (deadline : Time.t) (polls : list (Time.t * bool)) : option bool :=
  match polls with
  | [] => None
  | (now, holds) :: polls' =>
      if now <? deadline then if holds then Some true else waitFor deadline polls' else Some false
  end.
End Rig.

(** ** Lemmas *)
Module RigFacts.
Import Rig Mock.

(** *** The sessions of the adapter *)
Definition named_project (op : mock_op) : Prop := match op with MCreate project _ => project <> ε | _ => True end.
Definition session_ok (id : string) (s : SessionInfo) : Prop :=
  si_ID s = id /\ id <> ε /\ si_Project s <> ε /\ si_Status s <> ε.
Lemma mock_id_nonempty n : mock_id n <> ε.
Proof. done. Qed.
Lemma mock_step_sessions m op m' :
  named_project op -> map_Forall session_ok (sessions (m_ad m)) -> mock_step m op = Some m' ->
  map_Forall session_ok (sessions (m_ad m')).
Proof.
  intros Hop Hm. destruct op as [project prompt|id|id|evt| |]; simpl; unfold send.
  - case_match; [|done]. intros [= <-]. apply map_Forall_insert_2; [|done]. split_and!; try done.
    by destruct (str_empty prompt).
  - unfold PromptSession. destruct (sessions (m_ad m) !! id) as [s|] eqn:Es; case_match; try done; intros [= <-]; [|done].
    apply map_Forall_insert_2; [|done]. destruct (Hm id s Es) as (? & ? & ? & ?). by split_and!.
  - unfold KillSession. destruct (sessions (m_ad m) !! id) as [s|] eqn:Es; case_match; try done; intros [= <-]; [|done].
    by apply map_Forall_delete.
  - case_match; [|done]. by intros [= <-].
  - destruct (m_events m); [done|]. case_match; [|done]. by intros [= <-].
  - destruct (m_consumer m); [done|]. by intros [= <-].
Qed.
Lemma mock_run_sessions ops :
  Forall named_project ops -> map_Forall session_ok (sessions (m_ad (mock_run ops))).
Proof.
  unfold mock_run. induction ops as [|op ops IH] using rev_ind; [intros _; apply map_Forall_empty|].
  intros [Hall [Hop _]%Forall_cons]%Forall_app. rewrite foldl_app. simpl.
  destruct (mock_step _ op) as [m'|] eqn:Eo; simpl; [|by apply IH]. by eapply mock_step_sessions; [| apply IH |].
Qed.

(** *** Restoring a snapshot *)
Section Restore.
Context {DB E : Type} `{KT : KeyedTable DB SessionRow E} `{TT : TimeText}.
Definition accepts (good : DB -> Prop) : Prop :=
  forall d row, good d -> exists d', upsert_row d row = Ok d' /\ good d'.
Definition restored (now : Time.t) (nodeID : string) (x : TrackedSession) : TrackedSession :=
  Tracker.with_defaults now (Tracker.set_node nodeID x).
Definition complete (x : TrackedSession) : Prop := ses_SessionID x <> ε /\ ses_Project x <> ε /\ ses_Status x <> ε.
Lemma restore_all (good : DB -> Prop) (t : Tracker.SessionTracker DB) now nodeID xs :
  accepts good -> good (Tracker.tdb t) -> nodeID <> ε -> Forall complete xs -> NoDup (ses_SessionID <$> xs) ->
  exists t', Tracker.RestoreFromSnapshot t now nodeID xs = (t', Ok ()) /\
    (forall x, x ∈ xs -> Tracker.sessions t' !! ses_SessionID x = Some (restored now nodeID x)) /\
    (forall id, id ∉ ses_SessionID <$> xs -> Tracker.sessions t' !! id = Tracker.sessions t !! id).
Proof.
  intros Hacc. revert t. induction xs as [|x xs IH]; intros t Hg Hn Hall Hnd.
  { exists t. split_and!; [done | by intros ? ?%elem_of_nil | done]. }
  apply Forall_cons in Hall as [(Hid & Hp & Hs) Hall]. apply NoDup_cons in Hnd as [Hnin Hnd].
  apply str_empty_false in Hid, Hp, Hs. pose proof Hn as Hn'. apply str_empty_false in Hn'.
  cbn [Tracker.RestoreFromSnapshot]. simpl. rewrite Hs. unfold Tracker.AddSession. simpl. rewrite Hid, Hn', Hp.
  unfold Tracker.store, Tracker.upsertSession.
  match goal with |- context [upsert_row ?d ?row] => destruct (Hacc d row Hg) as (d' & -> & Hg') end. simpl.
  destruct (IH (Tracker.mkTracker d' (<[ses_SessionID x := restored now nodeID x]> (Tracker.sessions t))
    (Tracker.recoveryErrors t))) as (t' & Hrun & Hin & Hout); [done..|].
  exists t'. split_and!; [exact Hrun | |].
  - intros y [->|Hy]%elem_of_cons; [|by apply Hin]. rewrite Hout by done. simpl. apply lookup_insert_eq.
  - intros id [Hne Hnot]%not_elem_of_cons.
    rewrite Hout by done. simpl. by rewrite lookup_insert_ne.
Qed.
End Restore.

(** What a snapshot says of the adapter's sessions. *)
Definition told (nodeID : string) (t0 : Time.t) (s : SessionInfo) : TrackedSession :=
  Harness.tracked_of nodeID (snapshot_of t0 s).
Lemma snapshot_tells (m : gmap string SessionInfo) order nodeID t0 eventSeq :
  map_Forall session_ok m -> range_order m order ->
  let xs := Harness.tracked_of nodeID <$> sn_Sessions (snapshot t0 order eventSeq) in
  Forall complete xs /\ NoDup (ses_SessionID <$> xs) /\
  (forall id, id ∈ ses_SessionID <$> xs <-> is_Some (m !! id)) /\
  forall id s, m !! id = Some s -> ses_SessionID (told nodeID t0 s) = id /\ told nodeID t0 s ∈ xs.
Proof.
  intros Hm Ho xs. assert (Hperm : xs ≡ₚ told nodeID t0 <$> order.*2).
  { unfold xs, snapshot. simpl. rewrite merge_sort_Permutation. by rewrite <- list_fmap_compose. }
  assert (Hin : forall id s, (id, s) ∈ order -> session_ok id s).
  { intros id s Hel. apply (Hm id s). by apply (range_order_elem m order). }
  assert (Hids : ses_SessionID <$> xs ≡ₚ order.*1).
  { rewrite Hperm, <- !list_fmap_compose. apply reflexive_eq, list_fmap_ext. intros i [id s] Hi. simpl.
    by destruct (Hin id s (list_elem_of_lookup_2 _ _ _ Hi)). }
  split_and!.
  - rewrite Hperm. apply Forall_fmap, Forall_fmap, Forall_forall. intros [id s] Hel.
    destruct (Hin id s Hel) as (Hid & ? & ? & ?). unfold complete. simpl. rewrite Hid. by split_and!.
  - rewrite Hids. by eapply range_order_NoDup.
  - intros id. rewrite Hids, list_elem_of_fmap. split.
    + intros ([k s] & -> & Hel). exists s. by apply (range_order_elem m order).
    + intros [s Hs]. exists (id, s). split; [done|]. by apply (range_order_elem m order).
  - intros id s Hs. split; [by destruct (Hm id s Hs)|]. rewrite Hperm. apply list_elem_of_fmap. exists s. split; [done|].
    apply list_elem_of_fmap. exists (id, s). split; [done|]. by apply (range_order_elem m order).
Qed.

(** *** Waiting *)
Lemma waitFor_true deadline polls :
  waitFor deadline polls = Some true <->
  exists before now after, polls = before ++ (now, true) :: after /\ now < deadline /\
    Forall (fun p : Time.t * bool => p.1 < deadline /\ p.2 = false) before.
Proof.
  split.
  - induction polls as [|[now holds] polls IH]; simpl; [done|]. destruct (Z.ltb_spec now deadline) as [Hlt|]; [|done].
    destruct holds; [intros _; by exists [], now, polls|].
    intros (before & n & after & -> & Hn & Hall)%IH. exists ((now, false) :: before), n, after.
    split_and!; [done | done|]. by constructor.
  - intros (before & now & after & -> & Hn & Hall). induction Hall as [|[n b] before [Hlt Hb] _ IH]; simpl in *.
    + by rewrite (proj2 (Z.ltb_lt _ _) Hn).
    + subst b. by rewrite (proj2 (Z.ltb_lt _ _) Hlt).
Qed.
(** The clock of the polls: each is [poll_interval] after the one before. *)
Fixpoint paced (t : Time.t) (polls : list (Time.t * bool)) : Prop :=
  match polls with [] => True | (now, _) :: polls' => t <= now /\ paced (now + poll_interval) polls' end.
Lemma waitFor_decides deadline t polls :
  paced t polls -> deadline <= t + Z.of_nat (length polls - 1) * poll_interval -> polls <> [] ->
  waitFor deadline polls <> None.
Proof.
  revert t. induction polls as [|[now b] polls IH]; intros t; [done|]. intros [Ht Hp] Hlen Hne. simpl.
  destruct (Z.ltb_spec now deadline) as [Hlt|]; [|done]. destruct b; [done|].
  assert (Hpos : 0 < poll_interval) by (by vm_compute). simpl in Hlen. rewrite Nat.sub_0_r in Hlen.
  destruct polls as [|p polls]; [simpl in Hlen; lia|]. apply (IH (now + poll_interval)); [done| |done].
  cbn [length] in *. replace (S (length polls) - 1)%nat with (length polls) by lia. nia.
Qed.
End RigFacts.

(** ** Properties *)
Section Properties.
Import Rig RigFacts Mock.

(** A test that waits ends: with polls that are at least twenty milliseconds
    apart, as many as the timeout allows decide it; it goes on exactly when some
    poll before the deadline finds what it waits for. *)
Theorem waiting_ends (t0 : Time.t) (timeout : Z) (polls : list (Time.t * bool)) :
  0 <= timeout -> paced t0 polls -> timeout / poll_interval + 2 <= Z.of_nat (length polls) ->
  exists b, waitFor (t0 + timeout) polls = Some b /\
    (b = true <-> exists before now after, polls = before ++ (now, true) :: after /\ now < t0 + timeout /\
       Forall (fun p : Time.t * bool => p.1 < t0 + timeout /\ p.2 = false) before).
Proof.
  intros Ht Hp Hlen. assert (Hpos : 0 < poll_interval) by (by vm_compute).
  pose proof (Z.div_pos timeout poll_interval Ht Hpos) as Hq.
  pose proof (Z.mul_succ_div_gt timeout poll_interval Hpos) as Hm.
  assert (Hd : waitFor (t0 + timeout) polls <> None).
  { apply (waitFor_decides _ t0 polls Hp); [|intros ->; simpl in Hlen; lia].
    rewrite Nat2Z.inj_sub by lia. nia. }
  destruct (waitFor _ polls) as [b|] eqn:Ew; [|done]. exists b. split; [done|]. rewrite <- waitFor_true, Ew.
  split; [by intros -> | by intros [=]].
Qed.

(** The agent harness's own message handler never meets a command: the client
    gives every command to a registered handler or drops it, so what the handler
    is given leaves the adapter alone and is not answered. *)
Theorem harness_handler_gets_no_commands `{Json Envelope, Json Command, Json CommandResult} {Handler : Type}
    (errtext : adapter_error -> string) (decode_type : string -> res string string)
    (c : Client.WSClient Handler ()) (msg : string) (own : Handler) (env : Envelope)
    (m : MockOpencodeAdapter) (now : Time.t) :
  Client.read_message decode_type c msg = Client.ToMessageHandler own env ->
  handleMessage errtext m now env = (m, [], Ok None).
Proof.
  unfold Client.read_message, Client.handleCommand, handleMessage. destruct (UnmarshalEnvelope msg) as [env'|]; [|done].
  destruct (String.eqb_spec (env_Type env') MessageTypeCommand) as [|Hne].
  { destruct (decode_type _) as [t|]; [|done]. by destruct (Client.commandHandlers c !! t). }
  destruct (Client.messageHandler c); [|done]. intros [= _ <-]. by apply String.eqb_neq in Hne as ->.
Qed.

Context {DB TDB EDB E L Handler : Type} `{KeyedTable DB NodeRow E} `{KeyedTable TDB SessionRow E} `{TimeText}.
Context `{LruCache L} `{EventStore EDB E} `{JsonLaws Envelope} `{Json Event} `{Json CommandResult}.

(** A connection brings the supervisor up to date: once it has read the
    snapshot of the agent, whatever calls the adapter had had, the tracker has
    every session of the adapter under the agent's node, with its project and
    status; of other sessions it keeps what it had, those that have ended
    included. *)
Theorem snapshot_restores_the_sessions `{JsonLaws StateSnapshot} (good : TDB -> Prop) (calls : list mock_op)
    (h : Harness.supervisor DB TDB EDB L) (t0 t1 t2 : Time.t) (order : list (string * SessionInfo)) (eventSeq : Z)
    (nodeID payload data : string) :
  let m := m_ad (mock_run calls) in
  Forall named_project calls -> range_order (sessions m) order -> nodeID <> ε ->
  accepts good -> good (Tracker.tdb (Harness.h_tracker h)) ->
  json_plain (snapshot t0 order eventSeq) -> json_marshal (snapshot t0 order eventSeq) = Ok payload ->
  json_plain (Client.snapshot_envelope t1 payload) ->
  MarshalEnvelope (Client.snapshot_envelope t1 payload) = Ok data ->
  exists h', Harness.read_turn decode_snapshot t2 nodeID data h = (h', true) /\
    forall id,
      match sessions m !! id with
      | Some s => exists x, Tracker.sessions (Harness.h_tracker h') !! id = Some x /\
          ses_NodeID x = nodeID /\ ses_Project x = si_Project s /\ ses_Status x = si_Status s
      | None => Tracker.sessions (Harness.h_tracker h') !! id = Tracker.sessions (Harness.h_tracker h) !! id
      end.
Proof.
  intros m Hproj Hord Hn Hacc Hg Hps Hms Hpe Hme. pose proof (mock_run_sessions calls Hproj) as Hok. fold m in Hok.
  unfold Harness.read_turn. rewrite (CommandFacts.marshal_read _ _ Hpe Hme). simpl.
  unfold decode_snapshot. rewrite (json_round_trip _ _ Hps Hms). simpl.
  destruct (snapshot_tells (sessions m) order nodeID t0 eventSeq Hok Hord) as (Hcomp & Hnd & Hids & Htold).
  set (xs := Harness.tracked_of nodeID <$> _) in *. destruct (Nat.eqb_spec (length xs) 0) as [Hnil%nil_length_inv|_].
  { exists h. split; [done|]. intros id. destruct (sessions m !! id) as [s|] eqn:Es; [|done].
    assert (id ∈ ses_SessionID <$> xs) as Hin by (apply Hids; eauto). rewrite Hnil in Hin. by apply elem_of_nil in Hin. }
  destruct (restore_all good (Harness.h_tracker h) t2 nodeID xs Hacc Hg Hn Hcomp Hnd) as (t' & -> & Hin & Hout).
  eexists. split; [done|]. intros id. destruct (sessions m !! id) as [s|] eqn:Es; simpl.
  - destruct (Htold id s Es) as [Hid Hel]. specialize (Hin _ Hel). rewrite Hid in Hin. eexists. split; [exact Hin|].
    destruct (Hok id s Es) as (_ & _ & _ & Hst%str_empty_false). simpl. rewrite Hst. by split_and!.
  - apply Hout. rewrite Hids, Es. by intros [? [=]].
Qed.

(** The transport's command arrives: what it writes, it writes to the
    connection of the node it was asked for, and the agent's client on the other
    side gives it to the handler of session commands. *)
Theorem harness_send_reaches_the_handler `{Json Command} `{Json sessionCommandResult} `{Json StateSnapshot} {W : Type}
    (decode : string -> sessionCommand * option string) (decode_type : string -> res string string)
    `{!CommandWire decode decode_type} (write : nat -> string -> res W ()) (h : Harness.supervisor DB TDB EDB L)
    (now : Time.t) (nodeID url : string) (cmd : Command) (k : nat) (data : string) (session own : Handler)
    (t : Time.t) (order : unit -> list (string * SessionInfo)) (eventSeq : Z) :
  cmd_Type cmd ∈ Session.session_command_types -> wire_command cmd ->
  (forall p, json_marshal cmd = Ok p ->
    json_plain (mkEnvelope ProtocolVersion MessageTypeCommand (cmd_CommandID cmd) (Time.Unix now) p)) ->
  Send write h now nodeID cmd = Ok (k, data) ->
  nc_conn <$> Harness.h_connections h !! nodeID = Some k /\ write k data = Ok () /\
  exists env, Client.read_message decode_type (harness_client session own url t order eventSeq) data =
      Client.ToCommandHandler session env /\
    decode (env_Payload env) =
      (mkSessionCommand (cmd_CommandID cmd) (cmd_Type cmd) (tgt_Project (cmd_Target cmd)) (cmd_Args cmd), None).
Proof.
  intros Ht Hwc Hplain. unfold Send. destruct (Harness.h_connections h !! nodeID) as [node|]; [|done].
  destruct (json_marshal cmd) as [cp|] eqn:Ecp; [|done]. simpl.
  destruct (MarshalEnvelope _) as [text|] eqn:Em; [|done]. simpl.
  destruct (write (nc_conn node) text) as [[]|] eqn:Ew; [|done]. intros [= <- <-]. split_and!; [done | done|].
  exists (mkEnvelope ProtocolVersion MessageTypeCommand (cmd_CommandID cmd) (Time.Unix now) cp).
  split; [|exact (command_decodes cmd cp Hwc Ecp)]. unfold harness_client.
  set (c := Client.NewWSClient url _ _). clearbody c. pose proof (SessionFacts.handler_registered session c _ Ht) as Hh.
  set (client := Session.RegisterSessionCommandHandlers session c) in *. clearbody client.
  unfold Client.read_message. rewrite (CommandFacts.marshal_read _ _ (Hplain cp eq_refl) Em). simpl.
  unfold Client.handleCommand. simpl. rewrite (type_decodes cmd cp Hwc Ecp). by rewrite Hh.
Qed.
End Properties.

(** ** Witnesses *)
Module RigWitness.
Import Rig RigFacts Mock CommandWitness DispatcherWitness PipelineWitness.
#[local] Existing Instance HarnessWitness.event_json.

Definition polls : list (Time.t * bool) :=
  [(0, false); (20 * Time.Millisecond, false); (45 * Time.Millisecond, true); (65 * Time.Millisecond, true);
   (90 * Time.Millisecond, true)]%Z.
Lemma waiting_ends_witness :
  exists b, waitFor (0 + 50 * Time.Millisecond) polls = Some b /\
    (b = true <-> exists before now after, polls = before ++ (now, true) :: after /\ now < 0 + 50 * Time.Millisecond /\
       Forall (fun p : Time.t * bool => p.1 < 0 + 50 * Time.Millisecond /\ p.2 = false) before).
Proof.
  apply (waiting_ends 0 (50 * Time.Millisecond) polls); [by vm_compute | | by vm_compute].
  repeat split; by vm_compute.
Defined.

(** The text of a snapshot is its sessions' ids, projects and states. *)
Fixpoint sessions_text (l : list SessionSnapshot) : string :=
  match l with
  | [] => ε
  | x :: l' => (field_text (ss_SessionID x) +:+ (field_text (ss_Project x) +:+ (field_text (ss_Status x) +:+
      (num_text (ss_StartedAt x) +:+ sessions_text l'))))%stdpp
  end.
Fixpoint read_sessions (n : nat) (s : string) : option (list SessionSnapshot) :=
  match n with
  | O => Some []
  | S n' =>
      '(i, s) ← read_field s; '(p, s) ← read_field s; '(st, s) ← read_field s; '(at_, s) ← read_num s;
      l ← read_sessions n' s; Some (mkSessionSnapshot i p st 0 Float64.zero at_ :: l)
  end.
Definition plain_session (x : SessionSnapshot) : Prop := ss_Tokens x = 0 /\ ss_Cost x = Float64.zero.
Lemma read_sessions_text l : Forall plain_session l -> read_sessions (length l) (sessions_text l) = Some l.
Proof.
  induction 1 as [|[i p st tk co at_] l [Htk Hco] _ IH]; [done|]. cbn [length sessions_text read_sessions].
  cbn [ss_SessionID ss_Project ss_Status ss_StartedAt ss_Tokens ss_Cost] in *. subst tk co.
  rewrite read_field_text; cbn [mbind option_bind]. rewrite read_field_text; cbn [mbind option_bind].
  rewrite read_field_text; cbn [mbind option_bind]. rewrite read_num_text; cbn [mbind option_bind]. by rewrite IH.
Qed.
#[export] Instance snapshot_json : Json StateSnapshot := {
  json_marshal s := Ok (num_text (sn_LastSeq s) +:+ (unary (length (sn_Sessions s)) +:+ sessions_text (sn_Sessions s)))%stdpp;
  json_unmarshal s :=
    match '(q, s) ← read_num s; '(n, s) ← parse_unary s; l ← read_sessions n s; Some (mkStateSnapshot l q) with
    | Some x => Ok x
    | None => Err "unexpected end of JSON input"%string
    end }.
#[export] Instance snapshot_json_laws : JsonLaws StateSnapshot.
Proof.
  refine {| json_plain s := Forall plain_session (sn_Sessions s) |}. intros [l q] s Hp [= <-]. simpl in *.
  rewrite read_num_text; cbn [mbind option_bind]. rewrite parse_unary_app; cbn [mbind option_bind].
  by rewrite read_sessions_text.
Defined.

Definition calls : list mock_op := [MCreate "p" ε; MCreate "q" "go"; MKill "mock-001"]%string.
Definition ad : MockOpencodeAdapter := m_ad (mock_run calls).
Definition now : Time.t := HarnessWitness.at_second 3.
Definition order : list (string * SessionInfo) := map_to_list (sessions ad).
Definition payload : string := match json_marshal (snapshot now order 4) with Ok s => s | Err _ => ε end.
Definition data : string :=
  match MarshalEnvelope (Client.snapshot_envelope now payload) with Ok s => s | Err _ => ε end.
Lemma plain_snapshot t l n : json_plain (snapshot t l n).
Proof.
  change (Forall plain_session (merge_sort by_id (snapshot_of t <$> ListSessions l))).
  rewrite merge_sort_Permutation. apply Forall_fmap, Forall_forall. by intros s _.
Defined.
Lemma snapshot_restores_the_sessions_witness :
  exists h', Harness.read_turn decode_snapshot 9 "a" data HarnessWitness.h0 = (h', true) /\
    forall id,
      match sessions ad !! id with
      | Some s => exists x, Tracker.sessions (Harness.h_tracker h') !! id = Some x /\
          ses_NodeID x = "a"%string /\ ses_Project x = si_Project s /\ ses_Status x = si_Status s
      | None => Tracker.sessions (Harness.h_tracker h') !! id = Tracker.sessions (Harness.h_tracker HarnessWitness.h0) !! id
      end.
Proof.
  apply (snapshot_restores_the_sessions (fun d => mt_open d = true) calls HarnessWitness.h0 now now 9 order 4 "a" payload data).
  - by repeat constructor.
  - apply range_order_self.
  - done.
  - intros d row Hd. simpl. rewrite Hd. by eexists.
  - vm_compute. reflexivity.
  - apply plain_snapshot.
  - vm_compute. reflexivity.
  - vm_compute; reflexivity.
  - vm_compute. reflexivity.
Defined.
Example one_running : (fun s => (ss_SessionID s, ss_Status s)) <$> sn_Sessions (snapshot now order 4) =
  [("mock-002", "running")]%string.
Proof. vm_compute. reflexivity. Qed.
End RigWitness.
