(* ===== verification/ToolAuth.v ===== *)
(** * ToolAuth

    internal/agent: tool_capabilities.go, tool_command_resolution.go,
    auth_runner.go, auth_opencode.go, auth_claude.go, auth_codex.go,
    auth_reporter.go and oauth_trigger.go: whether the coding tools of a machine
    are logged in, the report of it, and the start of a remote login.  Processes,
    files and environment variables are arguments.  The three regular expressions
    of oauth_trigger.go are written out as functions. *)

From S2P Require Import Prelude GoStd SqlStore NodeRegistry Commands EnvCheck Provision Hub.

(** ** Tools *)
Definition ToolOpencode : string := "opencode".
Definition ToolClaudeCode : string := "claude_code".
Definition ToolCodex : string := "codex".

Definition AuthStatusAuthenticated : string := "authenticated".
Definition AuthStatusUnauthenticated : string := "unauthenticated".
Definition AuthStatusNotInstalled : string := "not_installed".
Definition AuthStatusError : string := "error".

Record ToolCapability := mkCapability {
  tc_ID : string; tc_Name : string; tc_StatusCommand : list string; tc_StatusParser : string;
  tc_RemoteOAuth : bool; tc_OAuthFlows : list string; tc_ManualLoginHint : string }.
Record AuthRunResult := mkRunResult {
  ar_Stdout : string; ar_Stderr : string; ar_ExitCode : Z; ar_Err : option string; ar_TimedOut : bool }.
Record OAuthTriggerResult := mkTrigger {
  ot_Status : string; ot_ChallengeURL : string; ot_UserCode : string; ot_Reason : string }.

Module ToolAuth.

Definition GetToolCapabilities : gmap string ToolCapability :=
  {[ ToolOpencode := mkCapability ToolOpencode "opencode" ["opencode"; "auth"; "list"] "output_parse" true
       ["device_code"] "SSH into agent and run: opencode auth login";
     ToolClaudeCode := mkCapability ToolClaudeCode "claude_code" ["claude"; "auth"; "status"] "exit_code" false
       [] "SSH into agent and run: claude auth login";
     ToolCodex := mkCapability ToolCodex "codex" ["codex"; "login"; "--status"] "exit_code" true
       ["device_code"] "SSH into agent and run: codex login --device-auth" ]}%string.
Definition GetToolCapability (id : string) : option ToolCapability := GetToolCapabilities !! id.
Definition status_command (id : string) : list string :=
  match GetToolCapability id with Some cap => tc_StatusCommand cap | None => [] end.

Definition toolBinaryFallbacks : gmap string (list string) :=
  {[ ToolOpencode := ["/usr/local/bin/opencode"; "/usr/bin/opencode"; "/snap/bin/opencode"];
     ToolClaudeCode := ["/usr/local/bin/claude"; "/usr/bin/claude"; "/snap/bin/claude"];
     ToolCodex := ["/usr/local/bin/codex"; "/usr/bin/codex"; "/snap/bin/codex"] ]}%string.

Section Machine.
(** [os.Stat] and whether [exec.LookPath] finds a binary. *)
Context (stat_of : string -> option FileInfo) (in_path : string -> bool).

Definition isExecutableFile (path : string) : bool :=
  match stat_of path with
  | Some info => negb (fi_IsDir info) && negb (Z.land (fi_Mode info) 73 =? 0)
  | None => false
  end.
Definition resolveStatusCommand (toolID configuredPath : string) : list string :=
  match status_command toolID with
  | [] => []
  | binaryName :: args =>
      let configured := Strings.TrimSpace configuredPath in
      if negb (str_empty configured) then configured :: args
      else if in_path binaryName then binaryName :: args
      else default binaryName (find isExecutableFile (default [] (toolBinaryFallbacks !! toolID))) :: args
  end.
(** The command an adapter is built with, when it is given none. *)
Definition adapter_command (toolID : string) (statusCommand : list string) : list string :=
  match statusCommand with [] => status_command toolID | _ => statusCommand end.
Definition commandAvailable (binary : string) : bool :=
  if str_empty (Strings.TrimSpace binary) then false
  else if Path.IsAbs binary then isExecutableFile binary
  else in_path binary.
End Machine.

(** ** Running a command: what [os/exec] reports of it, with the exit code when
    the process ran. *)
Record process := mkProcess {
  ps_stdout : string; ps_stderr : string; ps_deadline : bool; ps_err : option (string * option Z) }.
Definition RunAuthCheck (exec : list string -> process) (command : list string) : AuthRunResult :=
  match command with
  | [] => mkRunResult ε ε (-1) (Some "empty command"%string) false
  | _ =>
      let p := exec command in
      let out := Strings.TrimSpace (ps_stdout p) in
      let err := Strings.TrimSpace (ps_stderr p) in
      if ps_deadline p then mkRunResult out err (-1) (Some "context deadline exceeded"%string) true
      else
        match ps_err p with
        | Some (e, Some code) => mkRunResult out err code (Some e) false
        | Some (e, None) => mkRunResult out err (-1) (Some e) false
        | None => mkRunResult out err 0 None false
        end
  end.

Definition notFoundPatterns : list string :=
  ["not found"; "no such file"; "executable file not found"; "command not found"]%string.
Definition isCommandNotFound (result : AuthRunResult) : bool :=
  match ar_Err result with
  | None => false
  | Some e =>
      let errMsg := Strings.ToLower e in
      let combined := Strings.ToLower (ar_Stderr result +:+ " " +:+ ar_Stdout result)%stdpp in
      existsb (fun p => Strings.Contains errMsg p || Strings.Contains combined p) notFoundPatterns
  end.
Definition truncate (s : string) (maxLen : nat) : string :=
  if (String.length s <=? maxLen)%nat then s else (Strings.take_bytes maxLen s +:+ "...")%stdpp.
(** The line of [s] that the position [idx] is on. *)
Definition extractLine (s : string) (idx : nat) : string :=
  let start := match Strings.last_index_nat (Strings.take_bytes idx s) Provision.nl with
               | Some n => S n | None => O end in
  match Strings.index_nat (Strings.drop_bytes idx s) Provision.nl with
  | None => Strings.drop_bytes start s
  | Some e => Strings.drop_bytes start (Strings.take_bytes (idx + e) s)
  end.
Fixpoint parse_context (markers : list string) (output : string) : string :=
  match markers with
  | [] => ε
  | m :: rest =>
      match Strings.index_nat (Strings.ToLower output) m with
      | Some idx => truncate (Strings.TrimSpace (extractLine output idx)) 200
      | None => parse_context rest output
      end
  end.
Definition parseClaudeContext : string -> string := parse_context ["logged in as"; "account:"]%string.
Definition parseCodexContext : string -> string := parse_context ["logged in as"; "authenticated as"]%string.

(** ** The status of a tool *)
Definition report_of (now : Time.t) (tool status reason : string) : AuthStateReport :=
  mkAuthStateReport tool status reason now.
Definition or_else (s d : string) : string := if str_empty s then d else s.

(** [ClaudeAuthAdapter.CheckAuth] and [CodexAuthAdapter.CheckAuth] differ in
    their names and in what they look for in the output. *)
Definition exit_code_check (tool name ok_reason : string) (parse : string -> string)
    (run : list string -> AuthRunResult) (statusCommand : list string) (now : Time.t) : AuthStateReport :=
  match statusCommand with
  | [] => report_of now tool AuthStatusError (name +:+ " status command not configured")%stdpp
  | _ =>
      let result := run statusCommand in
      if ar_TimedOut result then report_of now tool AuthStatusError "command timed out"
      else if isCommandNotFound result then
        report_of now tool AuthStatusNotInstalled (name +:+ " command not found")%stdpp
      else if ar_ExitCode result =? 0 then
        report_of now tool AuthStatusAuthenticated (or_else (parse (ar_Stdout result)) ok_reason)
      else
        report_of now tool AuthStatusUnauthenticated
          (or_else (parse (ar_Stdout result +:+ " " +:+ ar_Stderr result)%stdpp) "not authenticated")
  end.
Definition claude_CheckAuth := exit_code_check ToolClaudeCode "claude" "authenticated via claude auth status"
  parseClaudeContext.
Definition codex_CheckAuth := exit_code_check ToolCodex "codex" "authenticated via codex login --status"
  parseCodexContext.

(** *** The credentials of opencode's file *)
Definition credentialKeys : list string :=
  ["provider"; "type"; "token"; "access_token"; "refresh_token"; "api_key"; "kind"]%string.
Definition obj_field (m : list (string * value)) (k : string) : option value :=
  (list_to_map m : gmap string value) !! k.
Definition looksLikeCredential (fields : list (string * value)) : bool :=
  existsb (fun key =>
    match obj_field fields key with
    | None | Some VNil => false
    | Some (VStr text) => negb (str_empty (Strings.TrimSpace text))
    | Some _ => true
    end) credentialKeys.
Definition total (l : list nat) : nat := foldr Nat.add O l.
Fixpoint countCredentialCollection (v : value) : nat :=
  match v with
  | VArr l =>
      let n := total (map countCredentialCollection l) in
      if (0 <? n)%nat then n else length l
  | VObj m =>
      if looksLikeCredential m then 1%nat
      else total (map (fun kv => countCredentialCollection kv.2) m)
  | _ => O
  end.
Definition collection_keys : list string := ["credentials"; "providers"; "accounts"; "tokens"; "auth"]%string.
(** The first of the keys that counts some, else the whole object. *)
Fixpoint first_count (m : list (string * value)) (keys : list string) : option nat :=
  match keys with
  | [] => None
  | k :: rest =>
      match obj_field m k with
      | Some nested =>
          let count := countCredentialCollection nested in
          if (0 <? count)%nat then Some count else first_count m rest
      | None => first_count m rest
      end
  end.
Definition countCredentialNodes (v : value) : nat :=
  match v with
  | VArr l => length l
  | VObj m => default (countCredentialCollection v) (first_count m collection_keys)
  | _ => O
  end.
Definition countCredentialsFromAuthFile (decode : string -> res string value) (content : string)
    : res string nat :=
  if str_empty (Strings.TrimSpace content) then Ok O
  else let? decoded := decode content in Ok (countCredentialNodes decoded).

Definition opencodeAuthFilePath (getenv : string -> string) (home : res string string) : option string :=
  let xdg := Strings.TrimSpace (getenv "XDG_DATA_HOME") in
  if negb (str_empty xdg) then Some (Path.Join [xdg; "opencode"; "auth.json"]%string)
  else
    match home with
    | Err _ => None
    | Ok homeDir =>
        if str_empty (Strings.TrimSpace homeDir) then None
        else Some (Path.Join [homeDir; ".local"; "share"; "opencode"; "auth.json"]%string)
    end.

Inductive read_result := Content (s : string) | NoFile | ReadError.
Definition opencode_CheckAuth (available : string -> bool) (getenv : string -> string)
    (home : res string string) (read : string -> read_result) (decode : string -> res string value)
    (statusCommand : list string) (now : Time.t) : AuthStateReport :=
  let report := report_of now ToolOpencode in
  match statusCommand with
  | [] => report AuthStatusError "opencode status command not configured"%string
  | binary :: _ =>
      if negb (available binary) then report AuthStatusNotInstalled "opencode command not found"%string
      else
        match opencodeAuthFilePath getenv home with
        | None => report AuthStatusError "unable to resolve opencode auth file path"%string
        | Some path =>
            match read path with
            | NoFile => report AuthStatusUnauthenticated "no credentials found"%string
            | ReadError => report AuthStatusError "failed to read opencode auth file"%string
            | Content content =>
                match countCredentialsFromAuthFile decode content with
                | Err _ => report AuthStatusError "invalid auth file format"%string
                | Ok n =>
                    if (0 <? n)%nat
                    then report AuthStatusAuthenticated (Itoa (Z.of_nat n) +:+ " credentials found")%stdpp
                    else report AuthStatusUnauthenticated "no credentials found"%string
                end
            end
        end
  end.

(** ** The reporter

    A check may panic; the reporter recovers.  An adapter may say which tool it
    is for. *)
Inductive check := Reported (report : AuthStateReport) | Panicked (what : string).
Record adapter := mkAdapter { ad_ToolID : string; ad_CheckAuth : check }.

Definition default_tool (idx : nat) (a : option adapter) : string :=
  let numbered := ("adapter_" +:+ Itoa (Z.of_nat idx))%stdpp in
  match a with Some a => or_else (ad_ToolID a) numbered | None => numbered end.
Definition checkAdapter (idx : nat) (a : option adapter) (checkedAt : Time.t) : AuthStateReport :=
  let defaultTool := default_tool idx a in
  match a with
  | None => report_of checkedAt defaultTool AuthStatusError "auth adapter is nil"
  | Some a =>
      match ad_CheckAuth a with
      | Panicked what => report_of checkedAt defaultTool AuthStatusError ("auth check panic: " +:+ what)%stdpp
      | Reported r =>
          mkAuthStateReport (or_else (asr_Tool r) defaultTool)
            (or_else (asr_Status r) AuthStatusError)
            (if str_empty (asr_Status r) then or_else (asr_Reason r) "adapter returned empty status"
             else asr_Reason r)
            (if Time.IsZero (asr_CheckedAt r) then checkedAt else asr_CheckedAt r)
      end
  end.
Definition runCheck (adapters : list (option adapter)) (checkedAt : Time.t) : list AuthStateReport :=
  imap (fun i a => checkAdapter i a checkedAt) adapters.

(** Whether something changed. *)
Definition update_one (st : gmap string string * bool) (report : AuthStateReport) : gmap string string * bool :=
  let '(last, changed) := st in
  (<[asr_Tool report := asr_Status report]> last,
   changed || negb (bool_decide (last !! asr_Tool report = Some (asr_Status report)))).
Definition updateLastState (last : gmap string string) (reports : list AuthStateReport)
    : gmap string string * bool :=
  foldl update_one (last, false) reports.

Definition defaultAuthReportInterval : Z := 30 * Time.Second.
Definition report_interval (interval : Z) : Z := if interval <=? 0 then defaultAuthReportInterval else interval.

Definition auth_state_envelope (now : Time.t) (payload : string) : Envelope :=
  mkEnvelope ProtocolVersion MessageTypeAuthState ε (Time.Unix now) payload.
Definition SendAuthState `{Json (list AuthStateReport)} (now : Time.t) (reports : list AuthStateReport)
    : res string Envelope :=
  match json_marshal reports with
  | Err e => Err e
  | Ok payload => Ok (auth_state_envelope now payload)
  end.
(** One turn of [Start]: the state kept, whether it changed, and the envelope
    handed to the client (whose errors are logged). *)
Definition report_turn `{Json (list AuthStateReport)} (adapters : list (option adapter))
    (last : gmap string string) (checkedAt now : Time.t) : gmap string string * bool * option Envelope :=
  let reports := runCheck adapters checkedAt in
  let '(last, changed) := updateLastState last reports in
  (last, changed, match SendAuthState now reports with Ok env => Some env | Err _ => None end).

(** The reporter; [rp_sender] says whether it has a sender. *)
Record AuthReporter := mkReporter {
  rp_adapters : list (option adapter); rp_interval : Z; rp_sender : bool; rp_lastState : gmap string string }.
Definition NewAuthReporter (adapters : list (option adapter)) (interval : Z) (sender : bool) : AuthReporter :=
  mkReporter adapters (report_interval interval) sender ∅.
(** The envelope handed to the client; without a sender nothing is sent. *)
Definition sendReports `{Json (list AuthStateReport)} (r : AuthReporter) (now : Time.t)
    (reports : list AuthStateReport) : option Envelope :=
  if rp_sender r then match SendAuthState now reports with Ok env => Some env | Err _ => None end else None.
(** A tick of the reporter, or its first check. *)
Definition reporter_tick `{Json (list AuthStateReport)} (r : AuthReporter) (checkedAt now : Time.t)
    : AuthReporter * option Envelope :=
  let reports := runCheck (rp_adapters r) checkedAt in
  (mkReporter (rp_adapters r) (rp_interval r) (rp_sender r) (updateLastState (rp_lastState r) reports).1,
   sendReports r now reports).

(** *** The adapters, with the tools' own status commands or a given one *)
Definition NewOpencodeAuthAdapterWithCommand (statusCommand : list string) : list string :=
  adapter_command ToolOpencode statusCommand.
Definition NewOpencodeAuthAdapter : list string := NewOpencodeAuthAdapterWithCommand [].
Definition NewCodexAuthAdapterWithCommand (statusCommand : list string) : list string :=
  adapter_command ToolCodex statusCommand.
Definition NewCodexAuthAdapter : list string := NewCodexAuthAdapterWithCommand [].
Definition NewClaudeAuthAdapterWithCommand (statusCommand : list string) : list string :=
  adapter_command ToolClaudeCode statusCommand.
Definition NewClaudeAuthAdapter : list string := NewClaudeAuthAdapterWithCommand [].
(** The timeout of a command runner. *)
Definition runner_timeout (timeout : Z) : Z := if timeout =? 0 then 10 * Time.Second else timeout.

(** ** Remote login *)

(** Classes of the regular expressions, on bytes; case is folded for ASCII. *)
Definition re_space (c : ascii) : bool :=
  let n := nat_of_ascii c in ((n =? 9) || (n =? 10) || (n =? 12) || (n =? 13) || (n =? 32))%nat.
Definition code_char (c : ascii) : bool :=
  let n := nat_of_ascii (Strings.lower_byte c) in
  (((97 <=? n) && (n <=? 122)) || ((48 <=? n) && (n <=? 57)) || (n =? 45))%nat.
Fixpoint span (f : ascii -> bool) (s : string) : string * string :=
  match s with
  | String c s' => if f c then let '(a, r) := span f s' in (String c a, r) else (ε, s)
  | ε => (ε, ε)
  end.
Definition cut_fold (s p : string) : option string :=
  if String.eqb (Strings.ToLower (Strings.take_bytes (String.length p) s)) p
  then Some (Strings.drop_bytes (String.length p) s) else None.
(** The leftmost position where [f] matches. *)
Fixpoint leftmost {A} (f : string -> option A) (s : string) : option A :=
  match f s with
  | Some a => Some a
  | None => match s with String _ s' => leftmost f s' | ε => None end
  end.

(** [https?://[^\s]+] *)
Definition url_here (s : string) : option string :=
  let rest scheme :=
    r ← Strings.CutPrefix s scheme;
    let host := (span (fun c => negb (re_space c)) r).1 in
    if str_empty host then None else Some (scheme +:+ host)%stdpp in
  match rest "https://"%string with Some u => Some u | None => rest "http://"%string end.
(** [([A-Z0-9-]{4,})] *)
Definition code_group (s : string) : option string :=
  let code := (span code_char s).1 in
  if (4 <=? String.length code)%nat then Some code else None.
(** [(?:user\s*code|code)\s*[:=]\s*] and the group *)
Definition label_here (s : string) : option string :=
  match r ← cut_fold s "user"; cut_fold (span re_space r).2 "code" with
  | Some r => Some r
  | None => cut_fold s "code"
  end.
Definition code_here (s : string) : option string :=
  r ← label_here s;
  match (span re_space r).2 with
  | String c r' => if Ascii.eqb c ":" || Ascii.eqb c "=" then code_group (span re_space r').2 else None
  | ε => None
  end.
(** [enter\s+code\s+] and the group *)
Definition some_space (s : string) : option string :=
  let '(a, r) := span re_space s in if str_empty a then None else Some r.
Definition enter_code_here (s : string) : option string :=
  r ← cut_fold s "enter"; r ← some_space r; r ← cut_fold r "code"; r ← some_space r; code_group r.

Definition parseOAuthChallenge (output : string) : string * string :=
  let url := default ε (leftmost url_here output) in
  let code := match leftmost code_here output with
              | Some c => c | None => default ε (leftmost enter_code_here output) end in
  (Strings.TrimSpace url, Strings.TrimSpace code).

Definition oauthFlowSupported (flows : list string) (flow : string) : bool :=
  existsb (fun c => Strings.EqualFold (Strings.TrimSpace c) flow) flows.
Definition oauthDeviceCommand (tool : string) : list string :=
  if String.eqb tool ToolCodex then ["codex"; "login"; "--device-auth"]%string
  else if String.eqb tool ToolOpencode then ["opencode"; "auth"; "login"; "--device-code"]%string
  else [].
Definition unsupported_tool (tool : string) : OAuthTriggerResult :=
  mkTrigger "manual_required" ε ε ("tool " +:+ Quote tool +:+ " is not supported")%stdpp.
Definition stubOAuthChallenge (tool : string) : OAuthTriggerResult :=
  if String.eqb tool ToolCodex then
    mkTrigger "challenge" "https://auth.openai.com/device" "CODEX-DEVICE-CODE" ε
  else if String.eqb tool ToolOpencode then
    mkTrigger "challenge" "https://github.com/login/device" "OPENCODE-DEVICE-CODE" ε
  else unsupported_tool tool.

(** What the output of the login command means. *)
Definition trigger_output (r : AuthRunResult) : OAuthTriggerResult :=
  let '(url, code) := parseOAuthChallenge (ar_Stdout r +:+ Provision.nl +:+ ar_Stderr r)%stdpp in
  if negb (str_empty url) && negb (str_empty code) then mkTrigger "challenge" url code ε
  else if ar_ExitCode r =? 0 then mkTrigger "success" ε ε ε
  else mkTrigger "failure" ε ε "oauth command failed".

Definition Trigger (runner : option (list string -> AuthRunResult)) (tool : string) : OAuthTriggerResult :=
  match GetToolCapability tool with
  | None => unsupported_tool tool
  | Some cap =>
      if negb (tc_RemoteOAuth cap) || negb (oauthFlowSupported (tc_OAuthFlows cap) "device_code") then
        mkTrigger "manual_required" ε ε
          (if str_empty (Strings.TrimSpace (tc_ManualLoginHint cap))
           then ("tool " +:+ Quote tool +:+ " requires manual authentication")%stdpp
           else tc_ManualLoginHint cap)
      else
        match runner with
        | None => stubOAuthChallenge tool
        | Some run =>
            let r := run (oauthDeviceCommand tool) in
            if ar_TimedOut r then mkTrigger "failure" ε ε "oauth command timed out"
            else
              match ar_Err r with
              | Some e =>
                  if negb (ar_ExitCode r =? 0) then
                    mkTrigger "failure" ε ε (or_else (Strings.TrimSpace (ar_Stderr r)) e)
                  else trigger_output r
              | None => trigger_output r
              end
        end
  end.

Inductive trigger_error :=
  | trigger_executor
  | trigger_envelope
  | trigger_decode (e : string)
  | trigger_type (t : string).
(** [decode] gives the type of the command and the tool of its arguments. *)
Definition ExecuteOAuthTriggerCommand (decode : string -> res string (string * string))
    (runner : option (list string -> AuthRunResult)) (envelope : option Envelope)
    : res trigger_error OAuthTriggerResult :=
  match envelope with
  | None => Err trigger_envelope
  | Some env =>
      match decode (env_Payload env) with
      | Err e => Err (trigger_decode e)
      | Ok (t, tool) =>
          reject (negb (String.eqb t "oauth_trigger")) with_err (trigger_type t) in
          Ok (Trigger runner tool)
      end
  end.
End ToolAuth.

(** ** Lemmas *)
Module ToolAuthFacts.
Import ToolAuth.

(** *** The reports *)
Lemma or_else_nonempty s d : d <> ε -> or_else s d <> ε.
Proof. unfold or_else. by destruct s. Qed.
Lemma default_tool_nonempty idx a : default_tool idx a <> ε.
Proof. destruct a as [a|]; simpl; [by apply or_else_nonempty | done]. Qed.
Lemma checkAdapter_complete idx a now :
  asr_Tool (checkAdapter idx a now) <> ε /\ asr_Status (checkAdapter idx a now) <> ε.
Proof.
  pose proof (default_tool_nonempty idx a) as Hd. unfold checkAdapter. cbn zeta.
  destruct a as [[t [r|what]]|]; cbn [ad_CheckAuth asr_Tool asr_Status report_of]; split; try done;
    by apply or_else_nonempty.
Qed.
Lemma runCheck_complete l now :
  length (runCheck l now) = length l /\
  Forall (fun rep => asr_Tool rep <> ε /\ asr_Status rep <> ε) (runCheck l now).
Proof.
  unfold runCheck. split; [apply length_imap|]. apply Forall_forall. intros rep Hin.
  apply list_elem_of_lookup in Hin as [i Hi]. rewrite list_lookup_imap in Hi.
  destruct (l !! i); simplify_eq/=. apply checkAdapter_complete.
Qed.
Lemma update_fst reports st :
  (foldl update_one st reports).1 = foldl (fun m rep => <[asr_Tool rep := asr_Status rep]> m) st.1 reports.
Proof. revert st. induction reports as [|rep l IH]; intros [m b]; [done|]. simpl. by rewrite IH. Qed.
Lemma updateLastState_lookup last reports tool :
  (updateLastState last reports).1 !! tool =
    match RegistryFacts.last_report tool reports with Some rep => Some (asr_Status rep) | None => last !! tool end.
Proof.
  unfold updateLastState. rewrite update_fst. apply foldl_insert_lookup.
Qed.

(** *** The login command's output *)
Lemma leftmost_Some {A} (f : string -> option A) s a : leftmost f s = Some a -> exists t, f t = Some a.
Proof.
  induction s as [|c s IH]; simpl; destruct (f _) eqn:E; intros Hs; simplify_eq/=; eauto.
Qed.
Lemma span_all f s : Strings.str_forallb f (span f s).1 = true.
Proof. induction s as [|c s IH]; [done|]. simpl. destruct (f c) eqn:Ec; [|done]. destruct (span f s). simpl in *. by rewrite Ec. Qed.
Lemma forallb_append f a b :
  Strings.str_forallb f (a +:+ b)%stdpp = Strings.str_forallb f a && Strings.str_forallb f b.
Proof. induction a as [|c a IH]; [done|]. simpl. rewrite IH. by destruct (f c). Qed.
Lemma trim_right_forallb f s : Strings.str_forallb f s = true -> Strings.str_forallb f (Strings.TrimRightSpace s) = true.
Proof.
  induction s as [|c s IH]; [done|]. simpl. intros [Hc Hs]%andb_true_iff. destruct (_ && _); [done|].
  simpl. by rewrite Hc, IH.
Qed.
Definition not_space (c : ascii) : bool := negb (Strings.is_space c).
Lemma trim_right_id s : Strings.str_forallb not_space s = true -> Strings.TrimRightSpace s = s.
Proof.
  induction s as [|c s IH]; [done|]. simpl. unfold not_space at 1. intros [Hc Hs]%andb_true_iff.
  apply negb_true_iff in Hc. by rewrite Hc, IH.
Qed.
Lemma trim_id s : Strings.str_forallb not_space s = true -> Strings.TrimSpace s = s.
Proof.
  intros Hs. unfold Strings.TrimSpace. destruct s as [|c s]; [done|]. simpl in *.
  destruct (Strings.is_space c) eqn:Ec; [by unfold not_space in Hs; rewrite Ec in Hs|]. by apply (trim_right_id (String c s)).
Qed.
Lemma forallb_impl (f g : ascii -> bool) s :
  (forall c, f c = true -> g c = true) -> Strings.str_forallb f s = true -> Strings.str_forallb g s = true.
Proof. intros Hfg. induction s as [|c s IH]; [done|]. simpl. intros [Hc Hs]%andb_true_iff. by rewrite Hfg, IH. Qed.
Lemma code_char_not_space c : code_char c = true -> not_space c = true.
Proof. destruct c as [[] [] [] [] [] [] [] []]; by vm_compute. Qed.

Definition no_white (c : ascii) : bool := negb (re_space c).
Lemma url_here_spec s u :
  url_here s = Some u ->
  (exists host, u = "https://" +:+ host \/ u = "http://" +:+ host)%stdpp /\ Strings.str_forallb no_white u = true.
Proof.
  unfold url_here. cbn zeta.
  assert (Hr : forall scheme, Strings.str_forallb no_white scheme = true ->
    forall v, (r ← Strings.CutPrefix s scheme; let host := (span (fun c => negb (re_space c)) r).1 in
      if str_empty host then None else Some (scheme +:+ host)%stdpp) = Some v ->
    exists host, (v = scheme +:+ host)%stdpp /\ Strings.str_forallb no_white v = true).
  { intros scheme Hsc v Hv. destruct (Strings.CutPrefix s scheme) as [r|]; [|done]. simpl in Hv.
    destruct (str_empty _); [done|]. injection Hv as <-. eexists. split; [done|].
    rewrite forallb_append, Hsc. simpl. apply span_all. }
  destruct (r ← Strings.CutPrefix s "https://"; _) as [v|] eqn:E1.
  - intros [= <-]. apply Hr in E1 as (host & -> & Hw); [eauto | done].
  - intros E2. apply Hr in E2 as (host & -> & Hw); [eauto | done].
Qed.
Lemma code_group_spec s c :
  code_group s = Some c -> (4 <= String.length c)%nat /\ Strings.str_forallb code_char c = true.
Proof.
  unfold code_group. destruct (4 <=? _)%nat eqn:E; [|done]. intros [= <-]. split; [by apply Nat.leb_le | apply span_all].
Qed.
Lemma code_here_spec s c :
  code_here s = Some c \/ enter_code_here s = Some c ->
  (4 <= String.length c)%nat /\ Strings.str_forallb code_char c = true.
Proof.
  unfold code_here, enter_code_here. intros [Hc|Hc].
  - destruct (label_here s) as [r|]; [|done]. simpl in Hc. destruct (span re_space r).2; [done|].
    destruct (_ || _); [|done]. by eapply code_group_spec.
  - repeat match type of Hc with (?o ≫= _) = _ => destruct o; [|done]; simpl in Hc end. by eapply code_group_spec.
Qed.
(** The code that is read from an output, when one is. *)
Lemma parsed_code_spec output :
  let code := (parseOAuthChallenge output).2 in
  code <> ε -> (4 <= String.length code)%nat /\ Strings.str_forallb code_char code = true.
Proof.
  cbn zeta. unfold parseOAuthChallenge. simpl.
  assert (Hc : forall c, (4 <= String.length c)%nat /\ Strings.str_forallb code_char c = true ->
    (4 <= String.length (Strings.TrimSpace c))%nat /\ Strings.str_forallb code_char (Strings.TrimSpace c) = true).
  { intros c [Hl Hw]. rewrite trim_id; [done|]. eapply forallb_impl, Hw. apply code_char_not_space. }
  destruct (leftmost code_here output) as [c|] eqn:E1.
  - intros _. apply Hc. apply leftmost_Some in E1 as [t Ht]. eapply code_here_spec. by left.
  - destruct (leftmost enter_code_here output) as [c|] eqn:E2; [|done]. intros _. apply Hc.
    apply leftmost_Some in E2 as [t Ht]. eapply code_here_spec. by right.
Qed.
Lemma parsed_url_spec output :
  let url := (parseOAuthChallenge output).1 in
  url <> ε -> Strings.HasPrefix url "http" = true /\ Strings.str_forallb no_white url = true.
Proof.
  cbn zeta. unfold parseOAuthChallenge. simpl.
  destruct (leftmost url_here output) as [u|] eqn:El; [|done]. intros _. simpl.
  apply leftmost_Some in El as [t Ht]. apply url_here_spec in Ht as [[host [->| ->]] Hw];
    (split; [by apply StringsFacts.HasPrefix_true; eexists; reflexivity | exact (trim_right_forallb no_white _ Hw)]).
Qed.
End ToolAuthFacts.

(** ** Properties *)
Section Properties.
Import ToolAuth ToolAuthFacts.
Context `{JL : JsonLaws (list AuthStateReport)} {DB E : Type} `{KT : KeyedTable DB NodeRow E}.

(** C36: whatever the checks of the tools do, a panic or an empty answer included,
    a turn of the reporter reports every adapter once, with a tool and a status;
    and once the supervisor has handled the message of a registered agent, it
    holds for every tool the last report of it, with the status the agent kept. *)
Theorem auth_reports_reach_registry (adapters : list (option adapter)) (last last' : gmap string string)
    (changed : bool) (env : Envelope) (t0 t1 t2 : Time.t)
    (decode_sync : string -> res string CredentialSyncPayload)
    (h : Hub.Hub DB) (i : nat) (conn : AgentConn) (r : Registry.NodeRegistry DB) (node : NodeEntry) :
  let reports := runCheck adapters t0 in
  let id := ac_agentID conn in
  adapters <> [] -> json_plain reports ->
  report_turn adapters last t0 t1 = (last', changed, Some env) ->
  Hub.conns h !! i = Some conn -> Hub.registry h = Some r -> id <> ε -> Registry.nodes r !! id = Some node ->
  length reports = length adapters /\
  Forall (fun rep => asr_Tool rep <> ε /\ asr_Status rep <> ε) reports /\
  exists r', Hub.registry (Hub.handleEnvelope decode_sync json_unmarshal h i t2 env).1 = Some r' /\
    forall tool,
      match RegistryFacts.last_report tool reports with
      | Some rep => last' !! tool = Some (asr_Status rep) /\
          (Registry.GetAuthState r' id).2 !! tool = Some (Registry.auth_state_of rep)
      | None => last' !! tool = last !! tool /\
          (Registry.GetAuthState r' id).2 !! tool = (Registry.GetAuthState r id).2 !! tool
      end.
Proof.
  intros reports id Hne Hplain Hturn Hconn Hreg Hid Hnode.
  destruct (runCheck_complete adapters t0) as [Hlen Hall]. split_and!; [done | done |].
  unfold report_turn in Hturn. fold reports in Hturn.
  destruct (updateLastState last reports) as [last1 changed1] eqn:Eu.
  unfold SendAuthState in Hturn. destruct (json_marshal reports) as [payload|] eqn:Ej; [|done].
  injection Hturn as <- _ <-. unfold Hub.handleEnvelope. rewrite Hconn. simpl.
  unfold Hub.reconcileAuthState. simpl. rewrite Hreg. simpl. eexists. split; [done|].
  pose proof (json_round_trip _ _ Hplain Ej) as Hdec.
  set (res := Registry.HandleAuthStateMessage json_unmarshal r t2 id payload).
  assert (Hok : res = (res.1, Ok ())).
  { unfold res, Registry.HandleAuthStateMessage. apply str_empty_false in Hid. rewrite Hid, Hdec.
    destruct reports as [|rep0 reps] eqn:Er; [by destruct adapters|].
    unfold Registry.UpdateAuthState, Registry.lookup_or_read. by rewrite Hnode. }
  apply RegistryFacts.HandleAuthStateMessage_merges with (reports := reports) in Hok as (_ & _ & Hm & _); [|done].
  intros tool. specialize (Hm tool). fold id. fold res. rewrite Hm. pose proof (updateLastState_lookup last reports tool) as Hl.
  rewrite Eu in Hl. simpl in Hl. rewrite Hl. by destruct (RegistryFacts.last_report tool reports).
Qed.

(** A login challenge is only ever passed on for a tool that can log in
    remotely, with an address that is a web address without white space and a code
    of at least four letters, digits and dashes, both taken from the output of the
    tool's login command. *)
Theorem challenge_is_wellformed (run : list string -> AuthRunResult) (tool : string) :
  let r := Trigger (Some run) tool in
  ot_Status r = "challenge"%string ->
  (tool = ToolCodex \/ tool = ToolOpencode) /\
  Strings.HasPrefix (ot_ChallengeURL r) "http" = true /\
  Strings.str_forallb no_white (ot_ChallengeURL r) = true /\
  (4 <= String.length (ot_UserCode r))%nat /\ Strings.str_forallb code_char (ot_UserCode r) = true.
Proof.
  cbn zeta. unfold Trigger. destruct (GetToolCapability tool) as [cap|] eqn:Ec; [|done].
  destruct (negb _ || negb _) eqn:Er; [done|]. set (result := run (oauthDeviceCommand tool)).
  destruct (ar_TimedOut result); [done|]. intros Hs.
  assert (Ho : ot_Status (trigger_output result) = "challenge"%string /\
    match ar_Err result with
    | Some e => if negb (ar_ExitCode result =? 0)
                then mkTrigger "failure" ε ε (or_else (Strings.TrimSpace (ar_Stderr result)) e) else trigger_output result
    | None => trigger_output result
    end = trigger_output result).
  { destruct (ar_Err result); [destruct (negb (ar_ExitCode result =? 0))|]; [discriminate Hs | by split..]. }
  destruct Ho as [Hc ->]. clear Hs. split.
  { unfold GetToolCapability, GetToolCapabilities in Ec.
    repeat (apply lookup_insert_Some in Ec as [[<- <-]|[_ Ec]];
      [solve [by left | by right | vm_compute in Er; discriminate]|]).
    apply lookup_singleton_Some in Ec as [<- <-]. solve [by left | by right | vm_compute in Er; discriminate]. }
  unfold trigger_output in *. set (output := (ar_Stdout result +:+ _)%stdpp) in *.
  pose proof (parsed_url_spec output) as Hu. pose proof (parsed_code_spec output) as Hk.
  destruct (parseOAuthChallenge output) as [url code].
  destruct (negb (str_empty url) && negb (str_empty code)) eqn:En; [|by destruct (_ =? 0)].
  apply andb_true_iff in En as [Eu%negb_true_iff%str_empty_false Ek%negb_true_iff%str_empty_false]. simpl in *.
  specialize (Hu Eu) as [? ?]. specialize (Hk Ek) as [? ?]. by split_and!.
Qed.
End Properties.

(** ** Witnesses *)
Module ToolAuthWitness.
Import ToolAuth CommandWitness.

Fixpoint reports_text (l : list AuthStateReport) : string :=
  match l with
  | [] => ε
  | r :: l' => (field_text (asr_Tool r) +:+ (field_text (asr_Status r) +:+ (field_text (asr_Reason r) +:+
      (num_text (asr_CheckedAt r) +:+ reports_text l'))))%stdpp
  end.
Fixpoint read_reports (n : nat) (s : string) : option (list AuthStateReport) :=
  match n with
  | O => Some []
  | S n' =>
      '(t, s) ← read_field s; '(st, s) ← read_field s; '(r, s) ← read_field s; '(at_, s) ← read_num s;
      l ← read_reports n' s; Some (mkAuthStateReport t st r at_ :: l)
  end.
Lemma read_reports_text l : read_reports (length l) (reports_text l) = Some l.
Proof.
  induction l as [|[t st r at_] l IH]; [done|]. cbn [length reports_text read_reports].
  rewrite read_field_text; simpl. rewrite read_field_text; simpl. rewrite read_field_text; simpl.
  rewrite read_num_text; simpl. by rewrite IH.
Qed.
#[export] Instance reports_json : Json (list AuthStateReport) := {
  json_marshal l := Ok (unary (length l) +:+ reports_text l)%stdpp;
  json_unmarshal s :=
    match '(n, s) ← parse_unary s; read_reports n s with
    | Some l => Ok l
    | None => Err "unexpected end of JSON input"%string
    end }.
#[export] Instance reports_json_laws : JsonLaws (list AuthStateReport).
Proof.
  refine {| json_plain _ := True |}. intros l s _ [= <-]. simpl. rewrite parse_unary_app. simpl.
  by rewrite read_reports_text.
Defined.

(** One adapter panics, one answers nothing, one is logged in. *)
Definition adapters : list (option adapter) :=
  [Some (mkAdapter "opencode" (Panicked "index out of range"));
   Some (mkAdapter ε (Reported (mkAuthStateReport ε ε ε 0)));
   Some (mkAdapter ε (Reported (mkAuthStateReport "codex" "authenticated" "ok" 7)))]%string.
Definition turn := report_turn adapters ∅ 7000 (62135596805 * 1000000000).
Definition sent_env : Envelope := default (mkEnvelope 0 ε ε 0 ε) turn.2.
Definition reg1 : Registry.NodeRegistry (mem_table NodeRow) :=
  (Registry.Register (Registry.NewNodeRegistry mem_empty) 7000
     (mkNodeEntry "n1" "h" ε [] [] ε 0 0 ε 0 None 0)).1.
Definition conn1 : AgentConn := mkConn "n1" [] false true 1 Reading true.
Definition hub1 : Hub.Hub (mem_table NodeRow) :=
  Hub.with_conns {[ 0%nat := conn1 ]} (Hub.ConfigureRegistry reg1 1 (Hub.NewHub "t" [] 30 3)).
Definition node1 : NodeEntry := default (mkNodeEntry ε ε ε [] [] ε 0 0 ε 0 None 0) (Registry.nodes reg1 !! "n1"%string).

Lemma auth_reports_reach_registry_witness :
  length (runCheck adapters 7000) = 3%nat /\
  Forall (fun rep => asr_Tool rep <> ε /\ asr_Status rep <> ε) (runCheck adapters 7000) /\
  exists r', Hub.registry (Hub.handleEnvelope HubWitness.no_sync json_unmarshal hub1 0 9 sent_env).1 = Some r' /\
    forall tool,
      match RegistryFacts.last_report tool (runCheck adapters 7000) with
      | Some rep => turn.1.1 !! tool = Some (asr_Status rep) /\
          (Registry.GetAuthState r' "n1").2 !! tool = Some (Registry.auth_state_of rep)
      | None => turn.1.1 !! tool = (∅ : gmap string string) !! tool /\
          (Registry.GetAuthState r' "n1").2 !! tool = (Registry.GetAuthState reg1 "n1").2 !! tool
      end.
Proof.
  apply (auth_reports_reach_registry adapters ∅ turn.1.1 turn.1.2 sent_env 7000 (62135596805 * 1000000000) 9
    HubWitness.no_sync hub1 0 conn1 reg1 node1); try done; vm_compute; reflexivity.
Defined.
Example three_tools :
  (fun r => (asr_Tool r, asr_Status r)) <$> runCheck adapters 7000 =
    [("opencode", "error"); ("adapter_1", "error"); ("codex", "authenticated")]%string.
Proof. vm_compute. reflexivity. Qed.

Definition login (_ : list string) : AuthRunResult :=
  mkRunResult "Open https://auth.example.com/device and enter code AB12-CD34" ε 0 None false.
Lemma challenge_is_wellformed_witness :
  (ToolCodex = ToolCodex \/ ToolCodex = ToolOpencode) /\
  Strings.HasPrefix (ot_ChallengeURL (Trigger (Some login) ToolCodex)) "http" = true /\
  Strings.str_forallb ToolAuthFacts.no_white (ot_ChallengeURL (Trigger (Some login) ToolCodex)) = true /\
  (4 <= String.length (ot_UserCode (Trigger (Some login) ToolCodex)))%nat /\
  Strings.str_forallb code_char (ot_UserCode (Trigger (Some login) ToolCodex)) = true.
Proof. apply (challenge_is_wellformed login ToolCodex). vm_compute. reflexivity. Defined.
Example the_challenge :
  Trigger (Some login) ToolCodex = mkTrigger "challenge" "https://auth.example.com/device" "AB12-CD34" ε.
Proof. vm_compute. reflexivity. Qed.

(** A tool that runs and says it found no credentials is reported as not
    installed. *)
Example credentials_not_found :
  asr_Status (claude_CheckAuth
    (fun _ => mkRunResult ε "credentials not found" 1 (Some "exit status 1"%string) false)
    (status_command ToolClaudeCode) 7) = AuthStatusNotInstalled.
Proof. vm_compute. reflexivity. Qed.
Example nested_tokens :
  countCredentialNodes (VObj [("anthropic", VObj [("type", VStr "api")]); ("tokens", VArr [])])%string = 1%nat.
Proof. vm_compute. reflexivity. Qed.
End ToolAuthWitness.
