(* ===== verification/Agent.v ===== *)
(** * Agent

    internal/agent/projects.go and agent.go: the agent's projects and the assembly
    of its parts, with the register functions of credential_apply.go and
    oauth_trigger.go.  The parts that [Start] makes are options until then. *)

From S2P Require Import Prelude GoStd Commands Config CredentialApplier WSClient EnvCheck Provision OpenCode.
From S2P Require Import SqlStore NodeRegistry SessionCommands ToolAuth.
Import ToolAuth.

(** ** projects.go *)
Record ProjectInfo := mkProject { prj_Name : string; prj_Directory : string }.
Inductive project_error :=
  | project_name_empty (i : nat)
  | project_directory_empty (i : nat)
  | project_directory_absent (i : nat) (name directory : string)
  | project_stat_failed (i : nat) (name : string)
  | project_not_a_directory (i : nat) (name directory : string)
  | project_duplicate (name : string).

(** ** agent.go *)
Inductive agent_handler := SessionHandler | CredentialPushHandler | OAuthTriggerHandler.
Inductive register_error :=
  | ws_client_required
  | credential_applier_required
  | node_id_required
  | oauth_executor_required.
Inductive agent_error :=
  | agent_projects (e : project_error)
  | agent_already_running
  | agent_not_running
  | agent_push_handler (e : register_error)
  | agent_credential_sync (e : register_error)
  | agent_oauth_handler (e : register_error)
  | agent_project_not_found (name : string).

(** ** The register functions; [None] is the nil pointer.  The client's hooks refer
    to the agent's applier. *)
Module Register.
Notation AgentClient := (Client.WSClient agent_handler Applier.CredentialApplier).
Section Defs.
Context `{Json CredentialVersionReport}.

Definition RegisterCredentialPushHandler (client : option AgentClient) (applier : option Applier.CredentialApplier)
    : res register_error AgentClient :=
  match client, applier with
  | None, _ => Err ws_client_required
  | _, None => Err credential_applier_required
  | Some c, Some _ => Ok (Client.RegisterCommandHandler CommandTypeCredentialPush CredentialPushHandler c)
  end.

(** The hook, given the applier as it is when it runs, up to its
    [SendEnvelope]. *)
Definition sync_envelope (now : Time.t) (payload : string) : Envelope :=
  mkEnvelope ProtocolVersion MessageTypeCredentialSync ε (Time.Unix now) payload.
Definition sync_hook (nodeID : string) (applier : Applier.CredentialApplier) (now : Time.t) : res string Envelope :=
  let? payload := json_marshal (Applier.BuildVersionReport applier nodeID) in Ok (sync_envelope now payload).
Definition RegisterCredentialSyncOnReconnect (client : option AgentClient)
    (applier : option Applier.CredentialApplier) (nodeID : string) : res register_error AgentClient :=
  match client, applier with
  | None, _ => Err ws_client_required
  | _, None => Err credential_applier_required
  | Some c, Some _ =>
      reject (str_empty nodeID) with_err node_id_required in
      Ok (Client.WithOnConnectHook (Some (sync_hook nodeID)) c)
  end.

Definition RegisterOAuthTriggerHandler {Runner} (client : option AgentClient) (executor : option (option Runner))
    : res register_error AgentClient :=
  match client, executor with
  | None, _ => Err ws_client_required
  | _, None => Err oauth_executor_required
  | Some c, Some _ => Ok (Client.RegisterCommandHandler CommandTypeOAuthTrigger OAuthTriggerHandler c)
  end.
(** The values of the log entry; the executor is its runner. *)
Definition HandleOAuthTrigger (decode : string -> res string (string * string))
    (executor : option (option (list string -> AuthRunResult))) (envelope : option Envelope)
    : res trigger_error (string * OAuthTriggerResult) :=
  match executor, envelope with
  | None, _ => Err trigger_executor
  | Some runner, _ =>
      let? result := ExecuteOAuthTriggerCommand decode runner envelope in
      Ok (match envelope with Some env => env_RequestID env | None => ε end, result)
  end.
End Defs.
End Register.
Import Register.

Module Assembly.
Notation ProjectRegistry := (gmap string ProjectInfo).
Section Projects.
Context {F : Type} `{FileSystem F}.

(** [f] is the file system [os.Stat] looks at. *)
Fixpoint register_projects (f : F) (i : nat) (projects : list ProjectDir) (registry : ProjectRegistry)
    : res project_error ProjectRegistry :=
  match projects with
  | [] => Ok registry
  | proj :: projects' =>
      let name := pd_Name proj in
      let directory := pd_Directory proj in
      reject (str_empty name) with_err (project_name_empty i) in
      reject (str_empty directory) with_err (project_directory_empty i) in
      match fs_stat f directory with
      | NotExist => Err (project_directory_absent i name directory)
      | StatError => Err (project_stat_failed i name)
      | Exists info =>
          reject (negb (fi_IsDir info)) with_err (project_not_a_directory i name directory) in
          reject (bool_decide (is_Some (registry !! name))) with_err (project_duplicate name) in
          register_projects f (S i) projects' (<[name := mkProject name directory]> registry)
      end
  end.
Definition NewProjectRegistry (f : F) (projects : list ProjectDir) : res project_error ProjectRegistry :=
  register_projects f 0 projects ∅.
Definition GetProject (r : ProjectRegistry) (name : string) : option ProjectInfo := r !! name.
Definition ListProjects `{MapRange} (r : ProjectRegistry) : list ProjectInfo := (range_of r).*2.
Definition ProjectCount (r : ProjectRegistry) : nat := size r.
End Projects.

Section Agent.
Context {F S C : Type} `{FileSystem F} `{OpencodeSDK S C} `{Semver} `{MapRange} `{Json CredentialVersionReport}.

(** [ag_checkers] keeps the directory of each checker; [ag_auth] the tool and
    the command of each authentication adapter, and the reporter's interval. *)
Record Agent := mkAgentProc {
  ag_cfg : AgentConfig;
  ag_registry : ProjectRegistry;
  ag_checkers : gmap string string;
  ag_lastEnvCheck : gmap string CheckResult;
  ag_running : bool;
  ag_wsClient : option AgentClient;
  ag_adapter : option (Adapter.RealAdapter C);
  ag_applier : option Applier.CredentialApplier;
  ag_auth : option (list (string * list string) * Z);
  ag_nodeID : string }.

Definition NewAgent (f : F) (cfg : AgentConfig) : res agent_error Agent :=
  match NewProjectRegistry f (ac_Projects cfg) with
  | Err e => Err (agent_projects e)
  | Ok registry =>
      let checkers := foldl (fun m p => <[prj_Name p := prj_Directory p]> m) ∅ (ListProjects registry) in
      Ok (mkAgentProc cfg registry checkers ∅ false None None None None ε)
  end.

Definition nodeIdentifier (hostname : res string string) : string :=
  match hostname with Err _ => "unknown-node"%string | Ok h => h end.
Definition opencode_url (cfg : AgentConfig) : string :=
  ("http://127.0.0.1:" +:+ Itoa (ac_OpencodePort cfg))%stdpp.
Definition adapter_of (cfg : AgentConfig) : Adapter.RealAdapter C :=
  foldl (fun a p => Adapter.RegisterProjectClient (pd_Name p) (pd_Directory p) (opencode_url cfg) a)
    (Adapter.NewOpencodeAdapter (opencode_url cfg) ε) (ac_Projects cfg).
Definition new_client (cfg : AgentConfig) (nodeID : string) : AgentClient :=
  Client.NewWSClient (ac_SupervisorURL cfg) (ac_AuthToken cfg) [Client.WithNodeID nodeID].
Definition auth_adapters (stat_of : string -> option FileInfo) (in_path : string -> bool) (cfg : AgentConfig)
    : list (string * list string) :=
  let paths := ac_ToolPaths cfg in
  let one tool path := (tool, adapter_command tool (resolveStatusCommand stat_of in_path tool path)) in
  [one ToolOpencode (tp_Opencode paths); one ToolClaudeCode (tp_Claude paths); one ToolCodex (tp_Codex paths)].

Definition with_started (client : option AgentClient) (adapter : option (Adapter.RealAdapter C))
    (applier : option Applier.CredentialApplier) (auth : option (list (string * list string) * Z))
    (nodeID : string) (running : bool) (a : Agent) : Agent :=
  mkAgentProc (ag_cfg a) (ag_registry a) (ag_checkers a) (ag_lastEnvCheck a) running client adapter applier auth nodeID.
Definition Start (hostname : res string string) (stat_of : string -> option FileInfo) (in_path : string -> bool)
    (a : Agent) : Agent * res agent_error () :=
  if ag_running a then (a, Err agent_already_running)
  else
    let cfg := ag_cfg a in
    let nodeID := nodeIdentifier hostname in
    let applier := Some Applier.NewCredentialApplier in
    let failed client e :=
      (with_started (Some client) (Some (adapter_of cfg)) applier (ag_auth a) nodeID false a, Err e) in
    let c := Session.RegisterSessionCommandHandlers SessionHandler (new_client cfg nodeID) in
    match RegisterCredentialPushHandler (Some c) applier with
    | Err e => failed c (agent_push_handler e)
    | Ok c =>
        match RegisterCredentialSyncOnReconnect (Some c) applier nodeID with
        | Err e => failed c (agent_credential_sync e)
        | Ok c =>
            match RegisterOAuthTriggerHandler (Some c) (Some (Some RunAuthCheck)) with
            | Err e => failed c (agent_oauth_handler e)
            | Ok c =>
                let interval := report_interval (Time.mul_duration (ac_AuthReportIntervalSec cfg) Time.Second) in
                (with_started (Some c) (Some (adapter_of cfg)) applier
                   (Some (auth_adapters stat_of in_path cfg, interval)) nodeID true a, Ok ())
            end
        end
    end.
Definition Stop (a : Agent) : Agent * res agent_error () :=
  if negb (ag_running a) then (a, Err agent_not_running)
  else (with_started (Client.closeConn <$> ag_wsClient a) (ag_adapter a) (ag_applier a) (ag_auth a) (ag_nodeID a) false a, Ok ()).

Definition CheckEnv (m : Machine) (now : Time.t) (a : Agent) (projectName : string)
    (reqs : option ManifestRequirements) : Agent * option CheckResult :=
  match ag_checkers a !! projectName with
  | None => (a, None)
  | Some directory =>
      let result := EnvCheck.Check m directory now reqs in
      (mkAgentProc (ag_cfg a) (ag_registry a) (ag_checkers a) (<[projectName := result]> (ag_lastEnvCheck a))
         (ag_running a) (ag_wsClient a) (ag_adapter a) (ag_applier a) (ag_auth a) (ag_nodeID a), Some result)
  end.
Definition GetLastEnvCheck (a : Agent) (projectName : string) : option CheckResult := ag_lastEnvCheck a !! projectName.
Definition ProvisionProject (tokens : nat -> string) (env : string -> string) (home : res string string)
    (now : Time.t) (f : F) (a : Agent) (projectName : string) (manifest : option EnvManifest) (templateDir : string)
    : res agent_error (Provision.progress F * ProvisionResult * res provision_error ()) :=
  match GetProject (ag_registry a) projectName with
  | None => Err (agent_project_not_found projectName)
  | Some proj =>
      Ok (Provision.Provision tokens now f
            (Provision.mkProvisioner (prj_Directory proj) (prj_Name proj) manifest templateDir env home))
  end.
(** [None] is the nil map. *)
Definition GetCredentialEnv (a : Agent) : option (gmap string string) := Applier.GetEnv <$> ag_applier a.
Definition IsRunning (a : Agent) : bool := ag_running a.
Definition GetRegistry (a : Agent) : ProjectRegistry := ag_registry a.
Definition GetConfig (a : Agent) : AgentConfig := ag_cfg a.
End Agent.
Arguments Agent : clear implicits.
End Assembly.

(** ** Lemmas *)
Module AssemblyFacts.
Import Assembly.
Section Facts.
Context {F : Type} `{FileSystem F} (f : F).

(** A project that can be registered. *)
Definition usable (p : ProjectDir) : Prop :=
  pd_Name p <> ε /\ pd_Directory p <> ε /\
  exists info, fs_stat f (pd_Directory p) = Exists info /\ fi_IsDir info = true.
Definition entry (p : ProjectDir) : string * ProjectInfo := (pd_Name p, mkProject (pd_Name p) (pd_Directory p)).

Lemma register_projects_Ok i ps r r' :
  register_projects f i ps r = Ok r' <->
  Forall usable ps /\ NoDup (pd_Name <$> ps) /\ (forall p, p ∈ ps -> r !! pd_Name p = None) /\
  r' = (list_to_map (entry <$> ps) : gmap string ProjectInfo) ∪ r.
Proof.
  revert i r. induction ps as [|p ps IH]; intros i r; cbn [register_projects].
  { simpl. rewrite (left_id_L ∅ (∪)). split; [intros [= <-]|by intros (_ & _ & _ & ->)].
    split_and!; [constructor | constructor | by intros ? ?%elem_of_nil | done]. }
  destruct (str_empty (pd_Name p)) eqn:En.
  { apply str_empty_true in En. split; [done|]. intros ([[? _] _]%Forall_cons & _). done. }
  destruct (str_empty (pd_Directory p)) eqn:Ed.
  { apply str_empty_true in Ed. split; [done|]. intros ([(_ & ? & _) _]%Forall_cons & _). done. }
  apply str_empty_false in En, Ed. destruct (fs_stat f (pd_Directory p)) as [info| |] eqn:Es.
  2,3: split; [done|]; intros ([(_ & _ & ? & ? & _) _]%Forall_cons & _); congruence.
  destruct (fi_IsDir info) eqn:Ei; cbn [negb].
  2: { split; [done|]. intros ([(_ & _ & ? & ? & ?) _]%Forall_cons & _). congruence. }
  case_bool_decide as Hr.
  { split; [done|]. intros (_ & _ & Hnone & _). rewrite (Hnone p) in Hr by (by left). by destruct Hr. }
  assert (Hnone : r !! pd_Name p = None) by (by apply eq_None_not_Some).
  assert (Hfst : forall l, (entry <$> l).*1 = pd_Name <$> l) by (intros l; by rewrite <- list_fmap_compose).
  assert (Hmap : pd_Name p ∉ pd_Name <$> ps ->
    (list_to_map (entry <$> ps) ∪ <[pd_Name p := mkProject (pd_Name p) (pd_Directory p)]> r : gmap string ProjectInfo) =
    list_to_map (entry <$> p :: ps) ∪ r).
  { intros Hnin. assert (entry <$> p :: ps = (pd_Name p, mkProject (pd_Name p) (pd_Directory p)) :: (entry <$> ps)) as -> by done.
    rewrite list_to_map_cons, <- insert_union_l. symmetry.
    apply insert_union_r, not_elem_of_list_to_map_1. by rewrite Hfst. }
  rewrite IH, Forall_cons, fmap_cons, NoDup_cons. split.
  - intros (Hus & Hnd & Hk & ->). assert (Hnin : pd_Name p ∉ pd_Name <$> ps).
    { intros (q & Heq & Hq)%list_elem_of_fmap. specialize (Hk q Hq). by rewrite <- Heq, lookup_insert_eq in Hk. }
    split_and!; [split_and!; eauto | done | done | done | | by apply Hmap].
    intros q [->|Hq]%elem_of_cons; [done|]. specialize (Hk q Hq). by apply lookup_insert_None in Hk as [? _].
  - intros ([_ Hus] & [Hnin Hnd] & Hk & ->). split_and!; [done | done | | by rewrite Hmap].
    intros q Hq. rewrite lookup_insert_ne; [apply Hk; by right|]. intros Heq. apply Hnin. rewrite Heq.
    by apply list_elem_of_fmap_2.
Qed.
End Facts.

(** The client of an agent that runs. *)
Definition client_of `{Json CredentialVersionReport} (cfg : AgentConfig) (nodeID : string) : AgentClient :=
  Client.RegisterCommandHandler CommandTypeOAuthTrigger OAuthTriggerHandler
    (Client.WithOnConnectHook (Some (sync_hook nodeID))
      (Client.RegisterCommandHandler CommandTypeCredentialPush CredentialPushHandler
        (Session.RegisterSessionCommandHandlers SessionHandler (new_client cfg nodeID)))).
Lemma Start_Ok {S C : Type} `{OpencodeSDK S C} `{Json CredentialVersionReport}
    (hostname : res string string) (stat_of : string -> option FileInfo) (in_path : string -> bool) (a a' : Agent C) :
  Start hostname stat_of in_path a = (a', Ok ()) ->
  nodeIdentifier hostname <> ε /\ ag_nodeID a' = nodeIdentifier hostname /\
  ag_wsClient a' = Some (client_of (ag_cfg a) (nodeIdentifier hostname)) /\
  ag_applier a' = Some Applier.NewCredentialApplier.
Proof.
  unfold Start. destruct (ag_running a); [done|]. simpl.
  destruct (str_empty _) eqn:En; [done|]. apply str_empty_false in En. by intros [= <-].
Qed.
End AssemblyFacts.

(** ** Properties *)
Section Properties.
Import Assembly AssemblyFacts.

(** An agent has projects exactly when each of them has a name of its own and a
    directory that exists; it then knows every one of them by its name, and no
    others. *)
Theorem projects_registered_iff {F : Type} `{FileSystem F} (f : F) (ps : list ProjectDir) (r : ProjectRegistry) :
  NewProjectRegistry f ps = Ok r <->
  Forall (usable f) ps /\ NoDup (pd_Name <$> ps) /\
  forall name info, GetProject r name = Some info <-> exists p, p ∈ ps /\ entry p = (name, info).
Proof.
  unfold NewProjectRegistry, GetProject. rewrite register_projects_Ok. rewrite (right_id_L ∅ (∪)).
  assert (Hfst : (entry <$> ps).*1 = pd_Name <$> ps) by (by rewrite <- list_fmap_compose).
  split.
  - intros (Hus & Hnd & _ & ->). split_and!; [done | done|]. intros name info.
    rewrite <- elem_of_list_to_map by (by rewrite Hfst). rewrite list_elem_of_fmap. naive_solver.
  - intros (Hus & Hnd & Hr). split_and!; [done | done | intros; apply lookup_empty |].
    apply map_eq. intros name. apply option_eq. intros info.
    rewrite Hr, <- elem_of_list_to_map by (by rewrite Hfst). rewrite list_elem_of_fmap. naive_solver.
Qed.

(** An agent that has started has a handler for every command that the
    supervisor accepts, and it is the one for that kind of command, except for the
    handover, which no agent handles. *)
Theorem started_agent_handles {S C : Type} `{OpencodeSDK S C} `{Json CredentialVersionReport}
    (hostname : res string string) (stat_of : string -> option FileInfo) (in_path : string -> bool)
    (a a' : Agent C) (intent t : string) :
  Start hostname stat_of in_path a = (a', Ok ()) -> ParseCommandIntent intent = Ok t ->
  exists client, ag_wsClient a' = Some client /\
    Client.commandHandlers client !! t =
      if String.eqb t CommandTypeHandover then None
      else Some (if String.eqb t CommandTypeCredentialPush then CredentialPushHandler
                 else if String.eqb t CommandTypeOAuthTrigger then OAuthTriggerHandler else SessionHandler).
Proof.
  intros Hrun Ht. destruct (Start_Ok _ _ _ _ _ Hrun) as (_ & _ & -> & _).
  eexists. split; [done|]. apply CommandFacts.parse_result_supported in Ht as [Hs _].
  unfold IsSupportedCommandType in Hs. apply existsb_exists in Hs as (x & Hin%list_elem_of_In & ->%String.eqb_eq).
  repeat (apply elem_of_cons in Hin as [->|Hin]; [vm_compute; reflexivity|]). by apply elem_of_nil in Hin.
Qed.
End Properties.

(** ** Witness *)
Module AgentWitness.
Import Assembly AdapterWitness ProvisionWitness ApplierWitness.
#[local] Existing Instance sorted_range.

Definition disk : gmap string (option string) := {[ "/p" := None; "/q" := None ]}%string.
Definition projects : list ProjectDir := [mkProjectDir "p" "/p"; mkProjectDir "q" "/q"]%string.
Definition cfg : AgentConfig := mkAgent "ws://s" "t" 4096 0 (mkToolPaths "/opt/opencode" ε ε) projects.
Definition agent0 : res agent_error (Agent string) := NewAgent disk cfg.
Definition idle_agent : Agent string := mkAgentProc cfg ∅ ∅ ∅ false None None None None ε.
Definition started : Agent string :=
  (Start (S := Z * bool) (Ok "host1"%string) (fun _ => None) (fun _ => false)
    (match agent0 with Ok a => a | Err _ => idle_agent end)).1.

Lemma started_agent_handles_witness :
  exists client, ag_wsClient started = Some client /\
    Client.commandHandlers client !! "prompt_session"%string = Some SessionHandler.
Proof.
  apply (started_agent_handles (S := Z * bool) (Ok "host1"%string) (fun _ => None) (fun _ => false)
    (match agent0 with Ok a => a | Err _ => idle_agent end) started "/resume" "prompt_session");
    [apply injective_projections; [reflexivity | vm_compute; reflexivity] | vm_compute; reflexivity].
Defined.
Example two_projects : ProjectCount (ag_registry started) = 2%nat /\ ag_nodeID started = "host1"%string.
Proof. vm_compute. by split. Qed.
Example reporter : ag_auth started =
  Some ([(ToolOpencode, ["/opt/opencode"; "auth"; "list"]); (ToolClaudeCode, ["claude"; "auth"; "status"]);
         (ToolCodex, ["codex"; "login"; "--status"])]%string, 30 * Time.Second).
Proof. vm_compute. reflexivity. Qed.
Example twice_the_same_name :
  NewProjectRegistry disk [mkProjectDir "p" "/p"; mkProjectDir "p" "/q"]%string = Err (project_duplicate "p").
Proof. vm_compute. reflexivity. Qed.
End AgentWitness.
