(* ===== verification/OAuth.v ===== *)
(** * OAuth

    internal/supervisor/oauth_orchestrator.go and manual_auth_guidance.go: the
    start of a tool's remote login through the agent that runs it, or the
    guidance for doing it by hand.  What the dispatcher answers and the decoder of
    the agent's output are arguments. *)

From S2P Require Import Prelude GoStd Commands ToolAuth.
Import ToolAuth.

Record ManualAuthGuidance := mkGuidance {
  mg_Tool : string; mg_ReasonCode : string; mg_Reason : string; mg_Steps : list string;
  mg_LoginCommand : string; mg_NodeID : string }.
Record OAuthResult := mkOAuthResult {
  or_Status : string; or_ChallengeURL : string; or_UserCode : string; or_Reason : string;
  or_ManualGuidance : option ManualAuthGuidance }.

Module OAuth.

(** [findSubstring] is [strings.Index] written out. *)
Definition findSubstring (s sub : string) : option nat := Strings.index_nat s sub.
Definition extractLoginCommand (hint : string) : string :=
  if str_empty hint then ε
  else
    match findSubstring hint "run: " with
    | Some i => Strings.drop_bytes (i + 5) hint
    | None =>
        match findSubstring hint "run:" with
        | Some i => Strings.drop_bytes (i + 4) hint
        | None => hint
        end
    end.
Definition joinCommand (parts : list string) : string :=
  match parts with
  | [] => ε
  | p :: rest => foldl (fun r q => (r +:+ " " +:+ q)%stdpp) p rest
  end.

Definition GenerateManualGuidance (tool nodeID : string) : ManualAuthGuidance :=
  let capability := GetToolCapability tool in
  let '(code, reason, login) :=
    match capability with
    | None =>
        ("provider_unsupported"%string,
         ("Tool " +:+ Quote tool +:+ " is not supported for remote OAuth")%stdpp,
         (tool +:+ " auth login")%stdpp)
    | Some cap =>
        if negb (tc_RemoteOAuth cap) then
          ("no_remote_oauth"%string,
           ("Tool " +:+ Quote (tc_Name cap) +:+ " does not support remote OAuth flows")%stdpp,
           extractLoginCommand (tc_ManualLoginHint cap))
        else
          ("no_remote_oauth"%string,
           ("Tool " +:+ Quote tool +:+ " requires manual authentication")%stdpp,
           extractLoginCommand (tc_ManualLoginHint cap))
    end in
  let sshTarget := if str_empty nodeID then "the target agent server"%string else ("user@" +:+ nodeID)%stdpp in
  mkGuidance tool code reason
    ([("SSH into the agent server: ssh " +:+ sshTarget)%stdpp;
      ("Run the login command: " +:+ login)%stdpp;
      "Follow the browser-based authentication flow"%string] ++
     match capability with
     | Some cap =>
         match tc_StatusCommand cap with
         | [] => []
         | cmd => [("Verify auth status: " +:+ joinCommand cmd)%stdpp]
         end
     | None => []
     end)
    login nodeID.

(** [decode] is [json.Unmarshal] into a result. *)
Definition parseOAuthCommandOutput (decode : string -> res string OAuthResult) (output : string)
    : option OAuthResult :=
  let trimmed := Strings.TrimSpace output in
  if str_empty trimmed then None
  else match decode trimmed with Ok r => Some r | Err _ => None end.

Inductive oauth_error := dispatcher_unavailable | oauth_dispatch (e : string) | empty_oauth_result.

Definition oauth_command (nodeID tool : string) : Command :=
  mkCommand ε CommandTypeOAuthTrigger ε (mkTarget ε nodeID) {[ "tool"%string := VStr tool ]} 0.
(** What a command result means. *)
Definition oauth_result_of (decode : string -> res string OAuthResult) (r : CommandResult) : OAuthResult :=
  match parseOAuthCommandOutput decode (cr_Output r) with
  | Some parsed =>
      let status := or_else (or_Status parsed) (cr_Status r) in
      let reason := if String.eqb status "failure" && str_empty (or_Reason parsed) then cr_Error r
                    else or_Reason parsed in
      mkOAuthResult status (or_ChallengeURL parsed) (or_UserCode parsed) reason (or_ManualGuidance parsed)
  | None =>
      if negb (String.eqb (cr_Status r) CommandStatusSuccess) then
        mkOAuthResult "failure" ε ε (or_else (cr_Error r) (cr_Output r)) None
      else mkOAuthResult "success" ε ε (cr_Output r) None
  end.

(** Whether a tool can log in remotely. *)
Definition tool_remote (tool : string) : bool :=
  match GetToolCapability tool with
  | Some cap => tc_RemoteOAuth cap && oauthFlowSupported (tc_OAuthFlows cap) "device_code"
  | None => false
  end.

(** [D] is the state behind the dispatcher, and [available] whether there is one. *)
Definition TriggerOAuth {D : Type} (dispatch : D -> Command -> D * res string (option CommandResult))
    (decode : string -> res string OAuthResult) (available : bool) (w : D) (nodeID tool : string)
    : D * res oauth_error OAuthResult :=
  if negb available then (w, Err dispatcher_unavailable)
  else
    match GetToolCapability tool with
    | None =>
        (w, Ok (mkOAuthResult "manual_required" ε ε
                 ("tool " +:+ Quote tool +:+ " is not supported for remote oauth")%stdpp
                 (Some (GenerateManualGuidance tool nodeID))))
    | Some cap =>
        if negb (tc_RemoteOAuth cap) || negb (oauthFlowSupported (tc_OAuthFlows cap) "device_code") then
          (w, Ok (mkOAuthResult "manual_required" ε ε
                   (if str_empty (Strings.TrimSpace (tc_ManualLoginHint cap))
                    then ("tool " +:+ Quote tool +:+ " requires manual authentication")%stdpp
                    else tc_ManualLoginHint cap)
                   (Some (GenerateManualGuidance tool nodeID))))
        else
          match dispatch w (oauth_command nodeID tool) with
          | (w, Err e) => (w, Err (oauth_dispatch e))
          | (w, Ok None) => (w, Err empty_oauth_result)
          | (w, Ok (Some r)) => (w, Ok (oauth_result_of decode r))
          end
    end.
End OAuth.

(** ** Properties *)
Section Properties.
Import OAuth.
Context {D : Type} (dispatch : D -> Command -> D * res string (option CommandResult))
  (decode : string -> res string OAuthResult).

(** What an agent's answer looks like to the orchestrator. *)
Definition as_oauth (r : OAuthTriggerResult) : OAuthResult :=
  mkOAuthResult (ot_Status r) (ot_ChallengeURL r) (ot_UserCode r) (ot_Reason r) None.
Lemma trigger_status run tool :
  ot_Status (Trigger run tool) ∈ ["challenge"; "success"; "failure"; "manual_required"]%string.
Proof.
  unfold Trigger, stubOAuthChallenge, unsupported_tool, trigger_output.
  repeat case_match; subst; simpl; set_solver.
Qed.

(** A tool that cannot log in remotely is answered with guidance and nothing is
    dispatched; for the others one command goes to the node, and the answer of the
    agent's executor comes back with its status, address and code. *)
Theorem oauth_trigger_exact (w : D) (nodeID tool : string) :
  match tool_remote tool with
  | false => exists reason, TriggerOAuth dispatch decode true w nodeID tool =
      (w, Ok (mkOAuthResult "manual_required" ε ε reason (Some (GenerateManualGuidance tool nodeID))))
  | true => forall w' cr run,
      dispatch w (oauth_command nodeID tool) = (w', Ok (Some cr)) ->
      Strings.TrimSpace (cr_Output cr) <> ε ->
      decode (Strings.TrimSpace (cr_Output cr)) = Ok (as_oauth (Trigger run tool)) ->
      exists result, TriggerOAuth dispatch decode true w nodeID tool = (w', Ok result) /\
        or_Status result = ot_Status (Trigger run tool) /\
        or_ChallengeURL result = ot_ChallengeURL (Trigger run tool) /\
        or_UserCode result = ot_UserCode (Trigger run tool)
  end.
Proof.
  unfold tool_remote, TriggerOAuth. simpl. destruct (GetToolCapability tool) as [cap|]; [|by eexists].
  rewrite <- negb_andb. destruct (tc_RemoteOAuth cap && _); simpl; [|by eexists].
  intros w' cr run -> Hne Hd. eexists. split; [done|]. unfold oauth_result_of, parseOAuthCommandOutput.
  apply str_empty_false in Hne. rewrite Hne, Hd. simpl. split; [|done].
  unfold or_else. destruct (str_empty (ot_Status _)) eqn:Es; [|done].
  pose proof (trigger_status run tool) as Ht. apply str_empty_true in Es. rewrite Es in Ht. set_solver.
Qed.
End Properties.

(** ** Examples *)
Module OAuthExamples.
Import OAuth.
Example claude_by_hand :
  mg_Steps (GenerateManualGuidance ToolClaudeCode "n1") =
    ["SSH into the agent server: ssh user@n1"; "Run the login command: claude auth login";
     "Follow the browser-based authentication flow"; "Verify auth status: claude auth status"]%string.
Proof. vm_compute. reflexivity. Qed.
Example unknown_tool :
  mg_LoginCommand (GenerateManualGuidance "foo" ε) = "foo auth login"%string.
Proof. vm_compute. reflexivity. Qed.
End OAuthExamples.
