(* ===== verification/Health.v ===== *)
(** * Health

    internal/supervisor/health.go: liveness and readiness.  The parts that may be
    missing are options; of the database only the answer to a ping matters, of the
    hub the number of its clients. *)

From S2P Require Import Prelude GoStd.

Definition StatusOK : string := "ok".
Definition StatusError : string := "error".
Definition StatusUnavailable : string := "unavailable".
Definition HealthHealthy : string := "healthy".
Definition HealthDegraded : string := "degraded".
Definition HealthUnhealthy : string := "unhealthy".

Record ComponentHealth := mkComponentHealth { ch_Status : string; ch_Error : string }.
Record HealthCheckResult := mkHealthResult {
  hr_Status : string; hr_Components : gmap string ComponentHealth; hr_Timestamp : Time.t }.

(** [hc_db] is what a ping of the database answers, [hc_hub] the number of the
    hub's clients. *)
Record HealthChecker := mkHealthChecker {
  hc_db : option (res string ()); hc_hub : option nat; hc_dispatcher : bool; hc_costs : bool }.

Module Health.

Definition ok : ComponentHealth := mkComponentHealth StatusOK ε.

Definition checkDatabase (hc : HealthChecker) : ComponentHealth :=
  match hc_db hc with
  | None => mkComponentHealth StatusUnavailable "database not configured"
  | Some (Err e) => mkComponentHealth StatusError e
  | Some (Ok _) => ok
  end.
Definition checkHub (hc : HealthChecker) : ComponentHealth :=
  match hc_hub hc with
  | None => mkComponentHealth StatusUnavailable "websocket hub not configured"
  | Some n =>
      if 0 <=? Z.of_nat n then ok else mkComponentHealth StatusError "websocket hub not responding"
  end.
Definition checkDispatcher (hc : HealthChecker) : ComponentHealth :=
  if hc_dispatcher hc then ok else mkComponentHealth StatusUnavailable "command dispatcher not configured".
Definition checkCostAggregator (hc : HealthChecker) : ComponentHealth :=
  if hc_costs hc then ok else mkComponentHealth StatusUnavailable "cost aggregator not configured".

(** The loop over the components: it stops at the first error. *)
Fixpoint overall (status : string) (l : list (string * ComponentHealth)) : string :=
  match l with
  | [] => status
  | (_, comp) :: l' =>
      if String.eqb (ch_Status comp) StatusError then HealthUnhealthy
      else overall (if String.eqb (ch_Status comp) StatusUnavailable then HealthDegraded else status) l'
  end.

Definition components (hc : HealthChecker) : gmap string ComponentHealth :=
  <["cost_aggregator" := checkCostAggregator hc]>
    (<["command_dispatcher" := checkDispatcher hc]>
      (<["websocket_hub" := checkHub hc]> (<["database" := checkDatabase hc]> ∅)))%string.

Definition CheckLiveness (now : Time.t) : HealthCheckResult := mkHealthResult HealthHealthy ∅ now.
Definition CheckReadiness `{MapRange} (now : Time.t) (hc : HealthChecker) : HealthCheckResult :=
  mkHealthResult (overall HealthHealthy (range_of (components hc))) (components hc) now.
End Health.

(** ** Lemmas *)
Module HealthFacts.
Import Health.

Definition shows (status : string) (c : string * ComponentHealth) : bool := String.eqb (ch_Status c.2) status.
(** The worst status wins. *)
Lemma overall_spec s l :
  overall s l =
    if existsb (shows StatusError) l then HealthUnhealthy
    else if existsb (shows StatusUnavailable) l then HealthDegraded else s.
Proof.
  revert s. induction l as [|[name comp] l IH]; intros s; [done|]. cbn [overall existsb]. rewrite IH.
  assert (Hs : forall st, shows st (name, comp) = String.eqb (ch_Status comp) st) by done. rewrite !Hs.
  destruct (String.eqb (ch_Status comp) StatusError); [done|]. simpl.
  destruct (existsb (shows StatusError) l); [done|].
  destruct (String.eqb (ch_Status comp) StatusUnavailable); simpl; [by destruct (existsb _ l) | done].
Qed.
Lemma existsb_perm {A} (f : A -> bool) l l' : l ≡ₚ l' -> existsb f l = existsb f l'.
Proof.
  intros Hp. apply eq_true_iff_eq. rewrite !existsb_exists. split; intros (x & Hin%list_elem_of_In & Hf);
    exists x; (split; [apply list_elem_of_In | done]); [by rewrite <- Hp | by rewrite Hp].
Qed.
(** A number of clients is never negative, so the hub never shows an error. *)
Lemma checkHub_spec hc :
  checkHub hc =
    if hc_hub hc is Some _ then ok else mkComponentHealth StatusUnavailable "websocket hub not configured".
Proof. unfold checkHub. destruct (hc_hub hc) as [n|]; [|done]. by rewrite (proj2 (Z.leb_le 0 (Z.of_nat n)) (Nat2Z.is_nonneg n)). Qed.
Lemma components_perm hc :
  map_to_list (components hc) ≡ₚ
    [("cost_aggregator", checkCostAggregator hc); ("command_dispatcher", checkDispatcher hc);
     ("websocket_hub", checkHub hc); ("database", checkDatabase hc)]%string.
Proof.
  unfold components. rewrite !map_to_list_insert, map_to_list_empty; [done | by simplify_map_eq..].
Qed.
End HealthFacts.

(** ** Properties *)
Section Properties.
Import Health HealthFacts.

(** The service is unhealthy exactly when it has a database that does not
    answer a ping, degraded when it is not and one of the four parts is missing,
    and healthy otherwise, whatever order the components are ranged over. *)
Theorem readiness_exact `{MapRange} (now : Time.t) (hc : HealthChecker) :
  let missing := negb (bool_decide (is_Some (hc_db hc))) || negb (bool_decide (is_Some (hc_hub hc))) ||
                 negb (hc_dispatcher hc) || negb (hc_costs hc) in
  hr_Status (CheckReadiness now hc) =
    match hc_db hc with
    | Some (Err _) => HealthUnhealthy
    | _ => if missing then HealthDegraded else HealthHealthy
    end.
Proof.
  simpl. rewrite overall_spec, !(existsb_perm _ _ _ (range_of_ok _ (components hc))).
  rewrite !(existsb_perm _ _ _ (components_perm hc)).
  unfold shows, checkCostAggregator, checkDispatcher, checkDatabase. rewrite !checkHub_spec.
  by destruct hc as [[[[]|e]|] [n|] [] []].
Qed.
End Properties.
