(* ===== verification/Metrics.v ===== *)
(** * Metrics

    internal/supervisor/metrics.go: the global metrics, made once, and the methods
    that record.  The Prometheus client is what is called; of it the model keeps
    the names registered with it, and of each [Metrics] the list of calls made on
    its vectors, oldest first.  [globals] are the package's variables; a nil
    [*Metrics] is [None]. *)

From S2P Require Import Prelude GoStd.

Module Metric.
Inductive kind := Counter | Gauge | Histogram.
Record vec := mkVec { vec_Kind : kind; vec_Name : string; vec_Labels : list string }.
#[export] Instance kind_eq_dec : EqDecision kind.
Proof. solve_decision. Defined.
#[export] Instance vec_eq_dec : EqDecision vec.
Proof. solve_decision. Defined.
Inductive sample := Inc | SetTo (v : Float64.t) | Observe (v : Float64.t).
(** [vec.WithLabelValues(values...)] and the call on it. *)
Record call := mkCall { c_Vec : vec; c_Values : list string; c_Sample : sample }.

Record Metrics := mkMetrics {
  CommandsTotal : vec; EventsTotal : vec; ConnectionsTotal : vec; ErrorsTotal : vec;
  ConnectionsActive : vec; SessionsActive : vec; NodesOnline : vec;
  CommandDuration : vec; EventProcessingDuration : vec;
  calls : list call }.
Definition vectors (m : Metrics) : list vec :=
  [CommandsTotal m; EventsTotal m; ConnectionsTotal m; ErrorsTotal m; ConnectionsActive m; SessionsActive m;
   NodesOnline m; CommandDuration m; EventProcessingDuration m].

Definition commands_total : vec := mkVec Counter "hal_o_swarm_commands_total" ["type"; "status"].
Definition events_total : vec := mkVec Counter "hal_o_swarm_events_total" ["type"].
Definition connections_total : vec := mkVec Counter "hal_o_swarm_connections_total" ["status"].
Definition errors_total : vec := mkVec Counter "hal_o_swarm_errors_total" ["component"; "type"].
Definition connections_active : vec := mkVec Gauge "hal_o_swarm_connections_active" [].
Definition sessions_active : vec := mkVec Gauge "hal_o_swarm_sessions_active" ["status"].
Definition nodes_online : vec := mkVec Gauge "hal_o_swarm_nodes_online" [].
Definition command_duration : vec := mkVec Histogram "hal_o_swarm_command_duration_seconds" ["type"].
Definition event_processing_duration : vec := mkVec Histogram "hal_o_swarm_event_processing_duration_seconds" ["type"].
Definition initial : Metrics :=
  mkMetrics commands_total events_total connections_total errors_total connections_active sessions_active
    nodes_online command_duration event_processing_duration [].

(** ** The global metrics *)
Record globals := mkGlobals { globalMetrics : option Metrics; metricsOnce : bool; registered : list string }.
Definition fresh : globals := mkGlobals None false [].
Definition InitMetrics (g : globals) : globals * option Metrics :=
  if metricsOnce g then (g, globalMetrics g)
  else (mkGlobals (Some initial) true (registered g ++ (vec_Name <$> vectors initial)), Some initial).
Definition GetMetrics (g : globals) : globals * option Metrics :=
  match globalMetrics g with
  | None => InitMetrics g
  | Some m => (g, Some m)
  end.

(** ** Recording: nothing on a nil pointer *)
Definition called (l : list call) (m : Metrics) : Metrics :=
  mkMetrics (CommandsTotal m) (EventsTotal m) (ConnectionsTotal m) (ErrorsTotal m) (ConnectionsActive m)
    (SessionsActive m) (NodesOnline m) (CommandDuration m) (EventProcessingDuration m) (calls m ++ l).
Definition record (field : Metrics -> vec) (values : list string) (s : sample) (m : option Metrics) : option Metrics :=
  (fun m => called [mkCall (field m) values s] m) <$> m.
Definition RecordCommand (commandType status : string) := record CommandsTotal [commandType; status] Inc.
Definition RecordCommandDuration (commandType : string) (seconds : Float64.t) :=
  record CommandDuration [commandType] (Observe seconds).
Definition RecordEvent (eventType : string) := record EventsTotal [eventType] Inc.
Definition RecordEventProcessingDuration (eventType : string) (seconds : Float64.t) :=
  record EventProcessingDuration [eventType] (Observe seconds).
Definition RecordConnection (status : string) := record ConnectionsTotal [status] Inc.
Definition SetActiveConnections (count : Z) := record ConnectionsActive [] (SetTo (Float64.of_Z count)).
Definition SetActiveSessions (status : string) (count : Z) :=
  record SessionsActive [status] (SetTo (Float64.of_Z count)).
Definition SetOnlineNodes (count : Z) := record NodesOnline [] (SetTo (Float64.of_Z count)).
Definition RecordError (component errorType : string) := record ErrorsTotal [component; errorType] Inc.

(** ** What the client makes of the calls

    [WithLabelValues] panics unless it is given a value for each label; the value
    of a counter is the number of its [Inc]s. *)
Definition fits (c : call) : Prop :=
  length (c_Values c) = length (vec_Labels (c_Vec c)) /\
  match vec_Kind (c_Vec c), c_Sample c with
  | Counter, Inc | Gauge, SetTo _ | Histogram, Observe _ => True
  | _, _ => False
  end.
Definition count_in (v : vec) (l : list call) : nat := length (filter (fun c => c_Vec c = v) l).
Definition count (v : vec) (m : Metrics) : nat := count_in v (calls m).
End Metric.

(** ** Lemmas *)
Module MetricFacts.
Import Metric.

Definition accepted (c : call) : Prop := c_Vec c ∈ vectors initial /\ fits c.
(** The vectors are those [InitMetrics] made, whose names differ, and every call
    is one the client accepts. *)
Record metrics_ok (m : Metrics) : Prop := {
  mo_vectors : vectors m = vectors initial;
  mo_calls : Forall accepted (calls m) }.
Lemma initial_ok : metrics_ok initial.
Proof. split; [done | constructor]. Qed.
Lemma names_differ : NoDup (vec_Name <$> vectors initial).
Proof. by apply (bool_decide_unpack _). Qed.

Lemma called_ok l m : Forall accepted l -> metrics_ok m -> metrics_ok (called l m).
Proof. intros Hl [Hv Hc]. split; [exact Hv|]. by apply Forall_app. Qed.
(** Whatever is recorded, the client accepts. *)
Inductive recording : (option Metrics -> option Metrics) -> Prop :=
  | rec_command t s : recording (RecordCommand t s)
  | rec_duration t d : recording (RecordCommandDuration t d)
  | rec_event t : recording (RecordEvent t)
  | rec_event_duration t d : recording (RecordEventProcessingDuration t d)
  | rec_connection s : recording (RecordConnection s)
  | rec_connections n : recording (SetActiveConnections n)
  | rec_sessions s n : recording (SetActiveSessions s n)
  | rec_nodes n : recording (SetOnlineNodes n)
  | rec_error c t : recording (RecordError c t).
Lemma recording_ok f m : recording f -> metrics_ok m -> exists l, f (Some m) = Some (called l m) /\ Forall accepted l.
Proof.
  intros Hf [Hv _]. unfold vectors in Hv. injection Hv as E1 E2 E3 E4 E5 E6 E7 E8 E9.
  destruct Hf; (eexists; split; [reflexivity|]); apply Forall_singleton; unfold accepted, fits; simpl;
    rewrite ?E1, ?E2, ?E3, ?E4, ?E5, ?E6, ?E7, ?E8, ?E9; (split; [apply list_elem_of_In; simpl; tauto | done]).
Qed.

(** [m] has so many more commands, errors and durations than [m0], and nothing
    else more. *)
Record grown (m0 m : Metrics) (commands errors durations : nat) : Prop := {
  gr_ok : metrics_ok m;
  gr_commands : count commands_total m = (count commands_total m0 + commands)%nat;
  gr_errors : count errors_total m = (count errors_total m0 + errors)%nat;
  gr_durations : count command_duration m = (count command_duration m0 + durations)%nat;
  gr_others : forall v, v ∉ [commands_total; errors_total; command_duration] -> count v m = count v m0 }.
Lemma grown_refl m : metrics_ok m -> grown m m 0 0 0.
Proof. intros Hm. split; [done | lia.. | done]. Qed.
Lemma grown_trans m0 m1 m2 c1 e1 d1 c2 e2 d2 :
  grown m0 m1 c1 e1 d1 -> grown m1 m2 c2 e2 d2 -> grown m0 m2 (c1 + c2) (e1 + e2) (d1 + d2).
Proof.
  intros [_ Hc1 He1 Hd1 Ho1] [Hok Hc2 He2 Hd2 Ho2]. split; [done | lia.. |].
  intros v Hv. by rewrite Ho2, Ho1.
Qed.
Lemma count_called v l m : count v (called l m) = (count v m + count_in v l)%nat.
Proof. unfold count, count_in. simpl. by rewrite filter_app, length_app. Qed.
Lemma grown_called l m : metrics_ok m -> Forall accepted l ->
  Forall (fun c => c_Vec c ∈ [commands_total; errors_total; command_duration]) l ->
  grown m (called l m) (count_in commands_total l) (count_in errors_total l) (count_in command_duration l).
Proof.
  intros Hm Hl Hin. split; [by apply called_ok | apply count_called.. |].
  intros v Hv. rewrite count_called. replace (count_in v l) with 0%nat; [lia|]. symmetry. unfold count_in.
  apply length_zero_iff_nil. induction Hin as [|c l Hc Hin IH]; [done|]. rewrite filter_cons_False by (by intros <-).
  apply IH. by inversion Hl.
Qed.
Lemma ok_fields m : metrics_ok m ->
  CommandsTotal m = commands_total /\ ErrorsTotal m = errors_total /\ CommandDuration m = command_duration.
Proof. intros [Hv _]. unfold vectors in Hv. by injection Hv. Qed.
Lemma called_twice l1 l2 m : called l2 (called l1 m) = called (l1 ++ l2) m.
Proof. unfold called. simpl. by rewrite <- app_assoc. Qed.
(** A command that failed, and one that came back. *)
Ltac grown_calls m Hm :=
  destruct (ok_fields m Hm) as (Hc & He & Hd); eexists; split; [simpl; rewrite called_twice; reflexivity|];
  simpl; rewrite Hc, ?He, ?Hd; apply grown_called; [exact Hm | |];
    apply Forall_cons; (split; [|apply Forall_singleton]); unfold accepted, fits; simpl;
    repeat split; apply list_elem_of_In; simpl; tauto.
Lemma grown_failed t m : metrics_ok m ->
  exists m', RecordError "dispatcher" "dispatch_failed" (RecordCommand t "error" (Some m)) = Some m' /\ grown m m' 1 1 0.
Proof. intros Hm. grown_calls m Hm. Qed.
Lemma grown_done t status d m : metrics_ok m ->
  exists m', RecordCommandDuration t d (RecordCommand t status (Some m)) = Some m' /\ grown m m' 1 0 1.
Proof. intros Hm. grown_calls m Hm. Qed.

(** Making and getting the metrics, in any order, registers each name once and
    gives the same metrics. *)
Definition global_step (g : globals) (init : bool) : globals := ((if init then InitMetrics else GetMetrics) g).1.
Lemma metrics_registered_once (ops : list bool) :
  let g := foldl global_step fresh ops in
  NoDup (registered g) /\ (ops <> [] -> globalMetrics g = Some initial /\ forall op, global_step g op = g).
Proof.
  cbn zeta. set (done_ := mkGlobals (Some initial) true (vec_Name <$> vectors initial)).
  destruct ops as [|op ops]; [split; [constructor | done]|].
  assert (foldl global_step fresh (op :: ops) = done_) as ->.
  { simpl. replace (global_step fresh op) with done_ by (by destruct op). clear op.
    induction ops as [|op ops IH]; [done|]. simpl. by destruct op. }
  split; [apply names_differ|]. intros _. split; [done|]. by intros [|].
Qed.
End MetricFacts.
