(* ===== verification/HttpApi.v ===== *)
(** * HttpApi

    internal/supervisor/http_api.go: the REST interface.  The handlers reach the
    rest of the supervisor through the class [ApiParts], whose type [W] is the
    state of the registry, the tracker, the dispatcher, the database and the audit
    log together.  Pointers that may be nil are flags of [HTTPAPI].  Decoders of
    request bodies and [json.Encode] (what it refuses) are arguments.  What the
    handlers count is recorded in [api_metrics], a field of [HTTPAPI]. *)

From S2P Require Import Prelude GoStd SqlStore NodeRegistry SessionTracker Commands Cost Health ToolAuth OAuth Metrics.

(** ** Requests and responses

    [rq_Segments] are the segments of the escaped path, each unescaped, with "/"
    for a slash at the end; [rq_Clean] says that the path is its own
    [path.Clean]. *)
Record HttpRequest := mkHttpRequest {
  hq_Method : string; hq_Clean : bool; hq_Segments : list string; hq_Authorization : string;
  hq_Query : string -> string; hq_Body : string; hq_RemoteAddr : string;
  hq_Now : Time.t; hq_Elapsed : Z }.

Record apiMeta := mkMeta { meta_Total : Z; meta_Limit : Z; meta_Offset : Z }.
Record sessionJSON := mkSessionJSON {
  sj_ID : string; sj_NodeID : string; sj_Project : string; sj_Status : string; sj_Tokens : Z;
  sj_Cost : Float64.t; sj_StartedAt : Time.t }.
Record nodeJSON := mkNodeJSON {
  nj_ID : string; nj_Hostname : string; nj_Status : string; nj_LastHeartbeat : Time.t; nj_ConnectedAt : Time.t }.
Record nodeAuthJSON := mkNodeAuthJSON {
  naj_NodeID : string; naj_AuthStates : gmap string NodeAuthState; naj_CredentialSync : string;
  naj_CredentialVersion : Z }.
Record driftNodeJSON := mkDriftNode { dn_NodeID : string; dn_CredentialSync : string; dn_CredentialVersion : Z }.
Record eventJSON := mkEventJSON {
  ej_ID : string; ej_SessionID : string; ej_Type : string; ej_Data : string; ej_Timestamp : Time.t }.

(** A response: the status, and the value written as JSON.  [NoBody] is what an
    encoder that fails leaves. *)
Inductive body :=
  | NoBody
  | ApiError (error code : string)
  | StatusText (status : string)
  | HealthReport (r : HealthCheckResult)
  | HealthSummary (status : string) (components : list (string * string)) (now : Time.t)
  | Sessions (l : list sessionJSON) (meta : apiMeta)
  | OneSession (s : sessionJSON)
  | Nodes (l : list nodeJSON) (meta : apiMeta)
  | OneNode (n : nodeJSON)
  | NodeAuth (n : nodeAuthJSON)
  | Drift (l : list driftNodeJSON) (meta : apiMeta)
  | Events (l : list eventJSON) (meta : apiMeta)
  | Command_result (r : CommandResult)
  | OAuthBody (r : OAuthResult)
  | CostBody (r : CostReport)
  | JsonObject (m : gmap string value)
  | MuxText (text : string)
  | MetricsText
  | AgentSocket.
Record response := mkResponse { rs_Status : Z; rs_Body : body }.

(** Bodies of requests. *)
Record commandRequest := mkCommandRequest {
  cq_Type : string; cq_Target : string; cq_Args : gmap string value; cq_IdempotencyKey : string; cq_Timeout : Z }.
Record pushRequest := mkPushRequest {
  pq_TargetNode : string; pq_EnvVars : gmap string string; pq_Version : Z; pq_IdempotencyKey : string }.
Record oauthTriggerRequest := mkOAuthRequest { oq_NodeID : string; oq_Tool : string }.

(** ** The parts the handlers use *)
Inductive lookup_error := lookup_not_found | lookup_failed (e : string).
Inductive sql_arg := ArgText (s : string) | ArgInt (n : Z).
Record event_row := mkEventRow {
  er_id : string; er_session_id : string; er_type : string; er_data : string; er_timestamp : string }.

Class ApiParts (W : Type) := {
  (** the tracker's sessions and the registry's nodes, in the order of ranging *)
  tracker_sessions : W -> list (string * TrackedSession);
  registry_nodes : W -> list (string * NodeEntry);
  get_session : W -> string -> W * res lookup_error TrackedSession;
  get_node : W -> string -> W * res lookup_error NodeEntry;
  get_auth_state : W -> string -> W * gmap string NodeAuthState;
  (** [DispatchCommand] under a context that ends after the given time *)
  dispatch_command : W -> option Z -> Command -> W * res string CommandResult;
  (** whether it panics instead, since the transport sends on a channel that was
      closed meanwhile, and what it leaves then.  The bot recovers; under a handler
      of the REST API net/http does, and drops the connection without an answer,
      so that the handlers below are about dispatches that return *)
  dispatch_panics : W -> option Z -> Command -> option W;
  (** a query of the events, a row that does not scan as [None] *)
  query_rows : W -> string -> list sql_arg -> res string (list (option event_row));
  ping_db : W -> res string ();
  cost_report : W -> Time.t -> string -> res string CostReport;
  (** [AuditLogger.LogCommand] *)
  log_command : W -> Time.t -> Command -> option CommandResult -> string -> string -> Z -> W;
}.

Record HTTPAPI (W : Type) := mkAPI {
  api_world : W;
  api_dispatcher : bool; api_hub : bool; api_costs : bool; api_db : bool; api_audit : bool;
  (** the orchestrator, and whether it has a dispatcher *)
  api_oauth : option bool;
  (** the health checker looks at its own parts *)
  api_health : option (W -> HealthChecker);
  api_authToken : string;
  credentialIdempotencyCache : gmap string CommandResult;
  credentialIdempotencyOrder : list string;
  api_metrics : option Metric.Metrics }.
Arguments mkAPI {W}.
Arguments api_world {W}.
Arguments api_dispatcher {W}.
Arguments api_hub {W}.
Arguments api_costs {W}.
Arguments api_db {W}.
Arguments api_audit {W}.
Arguments api_oauth {W}.
Arguments api_health {W}.
Arguments api_authToken {W}.
Arguments credentialIdempotencyCache {W}.
Arguments credentialIdempotencyOrder {W}.
Arguments api_metrics {W}.

Definition maxCredentialIdempotencyEntries : nat := 1000.

Module Api.

(** *** Small helpers *)
Definition parseIntParam (s : string) (defaultVal : Z) : Z :=
  if str_empty s then defaultVal
  else match Atoi s with
       | Some v => if v <=? 0 then defaultVal else v
       | None => defaultVal
       end.
Definition writeError (status : Z) (message code : string) : response := mkResponse status (ApiError message code).
Definition unauthorized : response := writeError 401 "unauthorized" "AUTH_REQUIRED".
Definition unavailable (what : string) : response := writeError 503 (what +:+ " unavailable")%stdpp "SERVICE_UNAVAILABLE".
Definition bad_request (message : string) : response := writeError 400 message "BAD_REQUEST".
Definition not_found (message : string) : response := writeError 404 message "NOT_FOUND".
Definition internal_error : response := writeError 500 "internal error" "INTERNAL_ERROR".
Definition dispatch_error (message : string) : response := writeError 500 message "DISPATCH_ERROR".

Definition toSessionJSON (s : TrackedSession) : sessionJSON :=
  mkSessionJSON (ses_SessionID s) (ses_NodeID s) (ses_Project s) (ses_Status s)
    (tu_Total (ses_TokenUsage s)) (ses_SessionCost s) (ses_StartedAt s).
Definition toNodeJSON (n : NodeEntry) : nodeJSON :=
  mkNodeJSON (node_ID n) (node_Hostname n) (node_Status n) (node_LastHeartbeat n) (node_ConnectedAt n).

(** *** The cache of credential pushes *)
Section Cache.
Context {W : Type}.
Implicit Types a : HTTPAPI W.

Definition with_world (w : W) a : HTTPAPI W :=
  mkAPI w (api_dispatcher a) (api_hub a) (api_costs a) (api_db a) (api_audit a) (api_oauth a) (api_health a)
    (api_authToken a) (credentialIdempotencyCache a) (credentialIdempotencyOrder a) (api_metrics a).
Definition with_cache (cache : gmap string CommandResult) (order : list string) a : HTTPAPI W :=
  mkAPI (api_world a) (api_dispatcher a) (api_hub a) (api_costs a) (api_db a) (api_audit a) (api_oauth a)
    (api_health a) (api_authToken a) cache order (api_metrics a).
Definition recorded (f : option Metric.Metrics -> option Metric.Metrics) a : HTTPAPI W :=
  mkAPI (api_world a) (api_dispatcher a) (api_hub a) (api_costs a) (api_db a) (api_audit a) (api_oauth a) (api_health a)
    (api_authToken a) (credentialIdempotencyCache a) (credentialIdempotencyOrder a) (f (api_metrics a)).

(** [g]: the package's metrics. *)
Definition NewHTTPAPI (g : Metric.globals) (w : W) (dispatcher db : bool) (authToken : string) : HTTPAPI W :=
  mkAPI w dispatcher false false db false (if dispatcher then Some true else None) None authToken ∅ []
    (Metric.GetMetrics g).2.
Definition SetCostAggregator a : HTTPAPI W :=
  mkAPI (api_world a) (api_dispatcher a) (api_hub a) true (api_db a) (api_audit a) (api_oauth a) (api_health a)
    (api_authToken a) (credentialIdempotencyCache a) (credentialIdempotencyOrder a) (api_metrics a).
Definition SetHealthChecker (hc : W -> HealthChecker) a : HTTPAPI W :=
  mkAPI (api_world a) (api_dispatcher a) (api_hub a) (api_costs a) (api_db a) (api_audit a) (api_oauth a) (Some hc)
    (api_authToken a) (credentialIdempotencyCache a) (credentialIdempotencyOrder a) (api_metrics a).
Definition SetAuditLogger a : HTTPAPI W :=
  mkAPI (api_world a) (api_dispatcher a) (api_hub a) (api_costs a) (api_db a) true (api_oauth a) (api_health a)
    (api_authToken a) (credentialIdempotencyCache a) (credentialIdempotencyOrder a) (api_metrics a).
Definition SetOAuthOrchestrator (orchestrator : option bool) a : HTTPAPI W :=
  mkAPI (api_world a) (api_dispatcher a) (api_hub a) (api_costs a) (api_db a) (api_audit a) orchestrator (api_health a)
    (api_authToken a) (credentialIdempotencyCache a) (credentialIdempotencyOrder a) (api_metrics a).
Definition SetHub a : HTTPAPI W :=
  mkAPI (api_world a) (api_dispatcher a) true (api_costs a) (api_db a) (api_audit a) (api_oauth a) (api_health a)
    (api_authToken a) (credentialIdempotencyCache a) (credentialIdempotencyOrder a) (api_metrics a).

Definition credentialPushIdempotencyGet a (key : string) : option CommandResult :=
  if str_empty key then None else credentialIdempotencyCache a !! key.
Definition credentialPushIdempotencySet a (key : string) (result : CommandResult) : HTTPAPI W :=
  if str_empty key then a
  else
    let cache := credentialIdempotencyCache a in
    let order := credentialIdempotencyOrder a in
    match cache !! key with
    | Some _ => with_cache (<[key := result]> cache) order a
    | None =>
        let order := order ++ [key] in
        if (maxCredentialIdempotencyEntries <? length order)%nat then
          match order with
          | evicted :: order' => with_cache (<[key := result]> (delete evicted cache)) order' a
          | [] => with_cache (<[key := result]> cache) order a
          end
        else with_cache (<[key := result]> cache) order a
    end.
End Cache.

(** *** Handlers *)
Section Handlers.
Context {W : Type} `{ApiParts W} `{TimeText} `{MapRange}.
Context (encodes : body -> bool) (decode_command : string -> res string commandRequest)
  (decode_push : string -> res string pushRequest) (decode_oauth : string -> res string oauthTriggerRequest)
  (decode_object : string -> res string (gmap string value)) (decode_result : string -> res string OAuthResult).
Implicit Types (a : HTTPAPI W) (rq : HttpRequest).

(** An encoding that fails is not noticed, but nothing of it is written. *)
Definition writeJSON (status : Z) (data : body) : response :=
  mkResponse status (if encodes data then data else NoBody).

Definition handleLiveness a rq : HTTPAPI W * response :=
  (a, match api_health a with
      | None => writeJSON 200 (StatusText "alive")
      | Some hc =>
          let result := Health.CheckLiveness (hq_Now rq) in
          writeJSON (if String.eqb (hr_Status result) HealthHealthy then 200 else 503) (HealthReport result)
      end).
Definition handleReadiness a rq : HTTPAPI W * response :=
  (a, match api_health a with
      | None => writeJSON 200 (StatusText "ready")
      | Some hc =>
          let result := Health.CheckReadiness (hq_Now rq) (hc (api_world a)) in
          writeJSON (if String.eqb (hr_Status result) HealthDegraded then 503
                     else if String.eqb (hr_Status result) HealthUnhealthy then 503 else 200)
            (HealthReport result)
      end).
Definition checkDBHealth a : string :=
  if negb (api_db a) then "unavailable"%string
  else match ping_db (api_world a) with Err _ => "unavailable"%string | Ok _ => "ok"%string end.
Definition checkDispatcherHealth a : string := if api_dispatcher a then "ok"%string else "unavailable"%string.
Definition handleHealth a rq : HTTPAPI W * response :=
  let components := [("database", checkDBHealth a); ("websocket_hub", "ok"); ("command_dispatcher", checkDispatcherHealth a)]%string in
  let status := if existsb (fun c => negb (String.eqb c.2 "ok")) components then "degraded"%string else "healthy"%string in
  (a, writeJSON 200 (HealthSummary status components (hq_Now rq))).

(** The loop of the listing: it stops as soon as it has [limit] sessions. *)
Fixpoint filter_sessions (status nodeID : string) (limit : Z) (filtered : list sessionJSON)
    (sessions : list TrackedSession) : list sessionJSON :=
  match sessions with
  | [] => filtered
  | s :: sessions' =>
      if negb (str_empty status) && negb (String.eqb (ses_Status s) status) then
        filter_sessions status nodeID limit filtered sessions'
      else if negb (str_empty nodeID) && negb (String.eqb (ses_NodeID s) nodeID) then
        filter_sessions status nodeID limit filtered sessions'
      else
        let filtered := filtered ++ [toSessionJSON s] in
        if limit <=? Z.of_nat (length filtered) then filtered
        else filter_sessions status nodeID limit filtered sessions'
  end.
Definition handleListSessions a rq : HTTPAPI W * response :=
  let project := hq_Query rq "project" in
  let limit := parseIntParam (hq_Query rq "limit") 100 in
  let order := tracker_sessions (api_world a) in
  let sessions := if str_empty project then Tracker.GetAllSessions order
                  else Tracker.GetSessionsByProject order project in
  let filtered := filter_sessions (hq_Query rq "status") (hq_Query rq "node_id") limit [] sessions in
  (a, writeJSON 200 (Sessions filtered (mkMeta (Z.of_nat (length filtered)) limit 0))).
Definition handleGetSession a (id : string) : HTTPAPI W * response :=
  let '(w, r) := get_session (api_world a) id in
  (with_world w a,
   match r with
   | Err lookup_not_found => not_found "session not found"
   | Err (lookup_failed _) => internal_error
   | Ok session => writeJSON 200 (OneSession (toSessionJSON session))
   end).

Definition handleListNodes a : HTTPAPI W * response :=
  let out := toNodeJSON <$> Registry.ListNodes (registry_nodes (api_world a)) in
  (a, writeJSON 200 (Nodes out (mkMeta (Z.of_nat (length out)) 0 0))).
Definition handleGetNode a (id : string) : HTTPAPI W * response :=
  let '(w, r) := get_node (api_world a) id in
  (with_world w a,
   match r with
   | Err lookup_not_found => not_found "node not found"
   | Err (lookup_failed _) => internal_error
   | Ok node => writeJSON 200 (OneNode (toNodeJSON node))
   end).
Definition handleNodeAuth a (id : string) : HTTPAPI W * response :=
  match get_node (api_world a) id with
  | (w, Err lookup_not_found) => (with_world w a, not_found "node not found")
  | (w, Err (lookup_failed _)) => (with_world w a, internal_error)
  | (w, Ok node) =>
      let '(w, authStates) := get_auth_state w id in
      (with_world w a,
       writeJSON 200 (NodeAuth (mkNodeAuthJSON (node_ID node) authStates (node_CredSyncStatus node) (node_CredVersion node))))
  end.
Definition handleAuthDrift a : HTTPAPI W * response :=
  let drifted := (fun n => mkDriftNode (node_ID n) (node_CredSyncStatus n) (node_CredVersion n)) <$>
    filter (fun n => node_CredSyncStatus n = CredentialSyncStatusDriftDetected)
      (Registry.ListNodes (registry_nodes (api_world a))) in
  (a, writeJSON 200 (Drift drifted (mkMeta (Z.of_nat (length drifted)) 0 0))).

(** The text of the query and its arguments. *)
Definition events_query (sessionID eventType since : string) (limit : Z) : string * list sql_arg :=
  let add (cond : string) (v : string) (q : string * list sql_arg) :=
    if str_empty v then q else ((q.1 +:+ cond)%stdpp, q.2 ++ [ArgText v]) in
  let q := ("SELECT id, session_id, type, data, timestamp FROM events WHERE 1=1"%string, []) in
  let q := add " AND session_id = ?"%string sessionID q in
  let q := add " AND type = ?"%string eventType q in
  let q := add " AND timestamp >= ?"%string since q in
  ((q.1 +:+ " ORDER BY timestamp DESC LIMIT ?")%stdpp, q.2 ++ [ArgInt limit]).
Definition event_of_row (row : event_row) : eventJSON :=
  mkEventJSON (er_id row) (er_session_id row) (er_type row) (er_data row)
    (default Time.zero (parseSQLiteTimestamp (er_timestamp row))).
Definition handleListEvents a rq : HTTPAPI W * response :=
  (a, if negb (api_db a) then unavailable "event storage"
      else
        let limit := parseIntParam (hq_Query rq "limit") 100 in
        let '(query, args) := events_query (hq_Query rq "session_id") (hq_Query rq "type") (hq_Query rq "since") limit in
        match query_rows (api_world a) query args with
        | Err _ => internal_error
        | Ok rows =>
            let events := event_of_row <$> omap id rows in
            writeJSON 200 (Events events (mkMeta (Z.of_nat (length events)) limit 0))
        end).

(** *** Commands *)

(** The context of a dispatch ends five seconds after the command's own timeout. *)
Definition deadline_of (cmd : Command) : Z := i64 (EffectiveTimeout cmd + 5 * Time.Second).
Definition command_of (req : commandRequest) (commandType : string) : Command :=
  mkCommand ε commandType (cq_IdempotencyKey req) (mkTarget (cq_Target req) ε) (cq_Args req)
    (Time.mul_duration (cq_Timeout req) Time.Second).
(** What is counted of a command; its type is the one the client wrote. *)
Definition dispatch_failed (type : string) (m : option Metric.Metrics) : option Metric.Metrics :=
  Metric.RecordError "dispatcher" "dispatch_failed" (Metric.RecordCommand type "error" m).
Definition dispatch_done (type : string) (result : CommandResult) (elapsed : Z) (m : option Metric.Metrics)
    : option Metric.Metrics :=
  Metric.RecordCommandDuration type (Float64.Seconds elapsed) (Metric.RecordCommand type (cr_Status result) m).
Definition handleCommand a rq : HTTPAPI W * response :=
  if negb (api_dispatcher a) then (a, unavailable "command dispatcher")
  else
    match decode_command (hq_Body rq) with
    | Err _ => (a, bad_request "invalid request body")
    | Ok req =>
        if str_empty (cq_Type req) then (a, bad_request "type is required")
        else
          match ParseCommandIntent (cq_Type req) with
          | Err intent => (a, bad_request ("unsupported command intent " +:+ Quote intent)%stdpp)
          | Ok commandType =>
              let cmd := command_of req commandType in
              match dispatch_command (api_world a) (Some (deadline_of cmd)) cmd with
              | (w, Err _) =>
                  (recorded (dispatch_failed (cq_Type req)) (with_world w a), dispatch_error "command dispatch failed")
              | (w, Ok result) =>
                  (recorded (dispatch_done (cq_Type req) result (hq_Elapsed rq)) (with_world w a),
                   writeJSON 200 (Command_result result))
              end
          end
    end.

Definition push_error_text (e : credential_push_error) : string :=
  match e with
  | target_node_empty => "validation error: credential_push.target_node must not be empty"
  | env_vars_empty => "validation error: credential_push.env_vars must not be empty"
  | env_var_value_empty key => ("validation error: credential_push.env_vars." +:+ key +:+ " must not be empty")%stdpp
  end.
Definition payload_of (req : pushRequest) : CredentialPushPayload :=
  mkCredentialPush (pq_TargetNode req) (pq_EnvVars req) (pq_Version req).
(** The version is an [int] in the map of arguments; a [value] has numbers of
    JSON only. *)
Definition command_of_push (req : pushRequest) : Command :=
  mkCommand ε CommandTypeCredentialPush (pq_IdempotencyKey req) (mkTarget ε (pq_TargetNode req))
    {[ "env_vars" := VObj ((fun kv => (kv.1, VStr kv.2)) <$> range_of (pq_EnvVars req));
       "version" := VNum (Float64.of_Z (pq_Version req)) ]}%string 0.
(** A push whose key is remembered is answered from the cache, any other is
    dispatched and remembered if that went well. *)
Definition push_result a (req : pushRequest) : HTTPAPI W * res string CommandResult :=
  match credentialPushIdempotencyGet a (pq_IdempotencyKey req) with
  | Some result => (a, Ok result)
  | None =>
      let cmd := command_of_push req in
      match dispatch_command (api_world a) (Some (deadline_of cmd)) cmd with
      | (w, Err e) => (with_world w a, Err e)
      | (w, Ok result) => (credentialPushIdempotencySet (with_world w a) (pq_IdempotencyKey req) result, Ok result)
      end
  end.
Definition audited a rq (cmd : Command) (result : option CommandResult) : HTTPAPI W :=
  if api_audit a
  then with_world (log_command (api_world a) (hq_Now rq) cmd result "api" (hq_RemoteAddr rq) (hq_Elapsed rq)) a
  else a.
Definition handleCredentialPush a rq : HTTPAPI W * response :=
  if negb (api_dispatcher a) then (a, unavailable "command dispatcher")
  else
    match decode_push (hq_Body rq) with
    | Err _ => (a, bad_request "invalid request body")
    | Ok req =>
        match CredentialPushPayload_Validate (payload_of req) (range_of (pq_EnvVars req)) with
        | Err e => (a, writeError 400 (push_error_text e) "VALIDATION_ERROR")
        | Ok _ =>
            match push_result a req with
            | (a, Err _) =>
                (recorded (dispatch_failed CommandTypeCredentialPush) (audited a rq (command_of_push req) None),
                 dispatch_error "command dispatch failed")
            | (a, Ok result) =>
                (recorded (dispatch_done CommandTypeCredentialPush result (hq_Elapsed rq))
                   (audited a rq (command_of_push req) (Some result)),
                 writeJSON 200 (Command_result result))
            end
        end
    end.

Definition handleOAuthTrigger a rq : HTTPAPI W * response :=
  match api_oauth a with
  | None => (a, unavailable "oauth orchestrator")
  | Some available =>
      match decode_oauth (hq_Body rq) with
      | Err _ => (a, bad_request "invalid request body")
      | Ok req =>
          if str_empty (Strings.TrimSpace (oq_NodeID req)) then (a, bad_request "node_id is required")
          else if str_empty (Strings.TrimSpace (oq_Tool req)) then (a, bad_request "tool is required")
          else
            let dispatch w cmd :=
              let '(w, r) := dispatch_command w None cmd in (w, let? result := r in Ok (Some result)) in
            match OAuth.TriggerOAuth dispatch decode_result available (api_world a) (oq_NodeID req) (oq_Tool req) with
            | (w, Err _) => (with_world w a, dispatch_error "oauth trigger failed")
            | (w, Ok result) => (with_world w a, writeJSON 200 (OAuthBody result))
            end
      end
  end.

Definition dispatchJSONCommand (w : W) (cmd : Command) : W * res string (gmap string value) :=
  match dispatch_command w (Some (deadline_of cmd)) cmd with
  | (w, Err e) => (w, Err ("command dispatch failed: " +:+ e)%stdpp)
  | (w, Ok result) =>
      (w, if negb (String.eqb (cr_Status result) CommandStatusSuccess) then
            Err (if negb (str_empty (cr_Error result)) then cr_Error result
                 else ("command failed with status " +:+ cr_Status result)%stdpp)
          else if str_empty (cr_Output result) then Ok ∅
          else res_map_err (fun e => ("invalid command output: " +:+ e)%stdpp) (decode_object (cr_Output result)))
  end.
(** [handleEnvStatus] and [handleAgentMDDiff] differ in the command's type. *)
Definition handleProject (commandType : string) a (pathValue : string) : HTTPAPI W * response :=
  if negb (api_dispatcher a) then (a, unavailable "command dispatcher")
  else
    let project := Strings.TrimSpace pathValue in
    if str_empty project then (a, bad_request "project is required")
    else
      match dispatchJSONCommand (api_world a) (mkCommand ε commandType ε (mkTarget project ε) ∅ 0) with
      | (w, Err e) => (with_world w a, dispatch_error e)
      | (w, Ok output) => (with_world w a, writeJSON 200 (JsonObject output))
      end.
Definition handleEnvStatus := handleProject CommandTypeEnvCheck.
Definition handleAgentMDDiff := handleProject CommandTypeAgentMDDiff.

Definition report_for a rq (period : string) : HTTPAPI W * response :=
  (a, if negb (api_costs a) then unavailable "cost aggregator"
      else
        match cost_report (api_world a) (hq_Now rq) (if str_empty period then "today"%string else period) with
        | Err _ => internal_error
        | Ok report => writeJSON 200 (CostBody report)
        end).
Definition handleCostReport a rq : HTTPAPI W * response := report_for a rq (Strings.ToLower (hq_Query rq "period")).
Definition handleCostReportByPath a rq (pathValue : string) : HTTPAPI W * response :=
  report_for a rq (Strings.ToLower (Strings.TrimSpace pathValue)).

(** *** Routes

    The handler that a pattern names; [{id}] and the like are looked up in what
    the pattern matched. *)
Inductive endpoint :=
  | EHealth | ELiveness | EReadiness | EMetrics | EListSessions | EGetSession | EListNodes | EGetNode
  | ENodeAuth | EAuthDrift | EListEvents | ECostReport | ECostReportByPath | EEnvStatus | EAgentMDDiff
  | ECommand | ECredentialPush | EOAuthTrigger | EAgentSocket.
Inductive segment := Lit (s : string) | Wild (name : string).
Record route := mkRoute { rt_Method : string; rt_Path : list segment; rt_Auth : bool; rt_Endpoint : endpoint }.

Definition public_routes : list route :=
  [mkRoute "GET" [Lit "api"; Lit "v1"; Lit "health"] false EHealth;
   mkRoute "GET" [Lit "healthz"] false ELiveness;
   mkRoute "GET" [Lit "readyz"] false EReadiness;
   mkRoute "GET" [Lit "metrics"] false EMetrics]%string.
Definition private_routes : list route :=
  let api (method : string) (path : list segment) := mkRoute method (Lit "api" :: Lit "v1" :: path) true in
  [api "GET" [Lit "sessions"] EListSessions;
   api "GET" [Lit "sessions"; Wild "id"] EGetSession;
   api "GET" [Lit "nodes"] EListNodes;
   api "GET" [Lit "nodes"; Wild "id"] EGetNode;
   api "GET" [Lit "nodes"; Wild "id"; Lit "auth"] ENodeAuth;
   api "GET" [Lit "auth"; Lit "drift"] EAuthDrift;
   api "GET" [Lit "events"] EListEvents;
   api "GET" [Lit "cost"] ECostReport;
   api "GET" [Lit "cost"; Wild "period"] ECostReportByPath;
   api "GET" [Lit "env"; Lit "status"; Wild "project"] EEnvStatus;
   api "GET" [Lit "agentmd"; Lit "diff"; Wild "project"] EAgentMDDiff;
   api "POST" [Lit "commands"] ECommand;
   api "POST" [Lit "commands"; Lit "credentials"; Lit "push"] ECredentialPush;
   api "POST" [Lit "oauth"; Lit "trigger"] EOAuthTrigger]%string.
Definition socket_routes : list route := [mkRoute "GET" [Lit "ws"; Lit "agent"] false EAgentSocket]%string.
Definition routes a : list route := public_routes ++ private_routes ++ (if api_hub a then socket_routes else []).

(** [http.ServeMux]: a wildcard matches one segment, but not a slash at the end;
    a pattern for GET serves HEAD too. *)
Fixpoint match_path (pattern : list segment) (path : list string) : option (list (string * string)) :=
  match pattern, path with
  | [], [] => Some []
  | Lit s :: pattern', x :: path' => if String.eqb s x then match_path pattern' path' else None
  | Wild name :: pattern', x :: path' =>
      if String.eqb x "/" then None
      else match match_path pattern' path' with Some values => Some ((name, x) :: values) | None => None end
  | _, _ => None
  end.
Definition match_method (pattern method : string) : bool :=
  String.eqb pattern method || (String.eqb pattern "GET" && String.eqb method "HEAD").
Definition match_route rq (r : route) : option (endpoint * bool * list (string * string)) :=
  if match_method (rt_Method r) (hq_Method rq)
  then option_map (fun values => (rt_Endpoint r, rt_Auth r, values)) (match_path (rt_Path r) (hq_Segments rq))
  else None.
Fixpoint find_route rq (l : list route) : option (endpoint * bool * list (string * string)) :=
  match l with
  | [] => None
  | r :: l' => match match_route rq r with Some found => Some found | None => find_route rq l' end
  end.
Definition PathValue (values : list (string * string)) (name : string) : string :=
  match list_find (fun kv => kv.1 = name) values with Some (_, (_, v)) => v | None => ε end.

Definition bearer_token rq : string :=
  if Strings.HasPrefix (hq_Authorization rq) "Bearer "
  then Strings.TrimPrefix (hq_Authorization rq) "Bearer " else ε.
Definition token_ok a rq : bool :=
  let token := bearer_token rq in negb (str_empty token || negb (String.eqb token (api_authToken a))).
Definition requireAuth (next : HTTPAPI W -> HttpRequest -> HTTPAPI W * response) a rq : HTTPAPI W * response :=
  if negb (token_ok a rq) then (a, unauthorized) else next a rq.

Definition serve (e : endpoint) (values : list (string * string)) a rq : HTTPAPI W * response :=
  match e with
  | EHealth => handleHealth a rq
  | ELiveness => handleLiveness a rq
  | EReadiness => handleReadiness a rq
  | EMetrics => (a, mkResponse 200 MetricsText)
  | EListSessions => handleListSessions a rq
  | EGetSession => handleGetSession a (PathValue values "id")
  | EListNodes => handleListNodes a
  | EGetNode => handleGetNode a (PathValue values "id")
  | ENodeAuth => handleNodeAuth a (PathValue values "id")
  | EAuthDrift => handleAuthDrift a
  | EListEvents => handleListEvents a rq
  | ECostReport => handleCostReport a rq
  | ECostReportByPath => handleCostReportByPath a rq (PathValue values "period")
  | EEnvStatus => handleEnvStatus a (PathValue values "project")
  | EAgentMDDiff => handleAgentMDDiff a (PathValue values "project")
  | ECommand => handleCommand a rq
  | ECredentialPush => handleCredentialPush a rq
  | EOAuthTrigger => handleOAuthTrigger a rq
  | EAgentSocket => (a, mkResponse 101 AgentSocket)
  end.
(** [Handler]: a path that is not clean is redirected to the clean one; without a
    pattern that matches, 405 if one matches but for its method. *)
Definition Handler a rq : HTTPAPI W * response :=
  if negb (hq_Clean rq) && negb (String.eqb (hq_Method rq) "CONNECT") then (a, mkResponse 301 (MuxText "Moved Permanently"))
  else
    match find_route rq (routes a) with
    | Some (e, auth, values) =>
        if (auth : bool) then requireAuth (serve e values) a rq else serve e values a rq
    | None =>
        if existsb (fun r => bool_decide (is_Some (match_path (rt_Path r) (hq_Segments rq)))) (routes a)
        then (a, mkResponse 405 (MuxText "Method Not Allowed"))
        else (a, mkResponse 404 (MuxText "404 page not found"))
    end.
End Handlers.
End Api.

(** ** Lemmas *)
Module ApiFacts.
Import Api.

(** *** Routes *)
Definition seg_overlap (x y : segment) : bool :=
  match x, y with Lit s, Lit t => String.eqb s t | _, _ => true end.
Fixpoint path_overlap (p q : list segment) : bool :=
  match p, q with
  | [], [] => true
  | x :: p', y :: q' => seg_overlap x y && path_overlap p' q'
  | _, _ => false
  end.
Definition overlap (r r' : route) : bool :=
  String.eqb (rt_Method r) (rt_Method r') && path_overlap (rt_Path r) (rt_Path r').
(** The routes are requested by GET or POST only. *)
Definition plain_method (r : route) : bool :=
  String.eqb (rt_Method r) "GET" || String.eqb (rt_Method r) "POST".

Lemma match_path_overlap p q path :
  is_Some (match_path p path) -> is_Some (match_path q path) -> path_overlap p q = true.
Proof.
  revert q path. induction p as [|x p IH]; intros [|y q] [|s path]; simpl; intros [a Ha] [b Hb]; try done;
    try (by destruct x); try (by destruct y).
  enough (seg_overlap x y = true /\ is_Some (match_path p path) /\ is_Some (match_path q path)) as (-> & Hp & Hq)
    by (by apply (IH q path)).
  destruct x as [l|n], y as [l'|n']; simpl in *; repeat (case_match; simplify_eq/=); split_and!; try done; eauto.
  apply String.eqb_eq in H as ->. by apply String.eqb_eq in H0 as ->; rewrite String.eqb_refl.
Qed.
Lemma match_method_true p m : match_method p m = true <-> p = m \/ p = "GET"%string /\ m = "HEAD"%string.
Proof. unfold match_method. by rewrite orb_true_iff, andb_true_iff, !String.eqb_eq. Qed.
Lemma plain_method_true r : plain_method r = true <-> rt_Method r = "GET"%string \/ rt_Method r = "POST"%string.
Proof. unfold plain_method. by rewrite orb_true_iff, !String.eqb_eq. Qed.
Lemma match_method_same r r' m :
  plain_method r = true -> plain_method r' = true ->
  match_method (rt_Method r) m = true -> match_method (rt_Method r') m = true ->
  String.eqb (rt_Method r) (rt_Method r') = true.
Proof.
  rewrite !plain_method_true, !match_method_true, String.eqb_eq. intros [-> | ->] [-> | ->]; naive_solver.
Qed.
Section Routes.
Context {W : Type} (rq : HttpRequest).
Implicit Types a : HTTPAPI W.

Lemma match_route_overlap r r' :
  plain_method r = true -> plain_method r' = true ->
  is_Some (match_route rq r) -> is_Some (match_route rq r') -> overlap r r' = true.
Proof.
  unfold match_route, overlap. intros Hr Hr' Hm Hm'.
  destruct (match_method (rt_Method r) _) eqn:E; [|by destruct Hm].
  destruct (match_method (rt_Method r') _) eqn:E'; [|by destruct Hm'].
  apply andb_true_iff. split; [by eapply match_method_same|]. apply (match_path_overlap _ _ (hq_Segments rq)).
  - destruct (match_path (rt_Path r) _); [eauto | by destruct Hm].
  - destruct (match_path (rt_Path r') _); [eauto | by destruct Hm'].
Qed.

(** No two routes are requested alike. *)
Fixpoint apart (l : list route) : bool :=
  match l with
  | [] => true
  | r :: l' => plain_method r && forallb (fun r' => negb (overlap r r')) l' && apart l'
  end.
Lemma routes_apart a : apart (routes a) = true.
Proof. unfold routes. destruct (api_hub a); vm_compute; reflexivity. Qed.
Lemma apart_plain l r : apart l = true -> r ∈ l -> plain_method r = true.
Proof.
  induction l as [|r0 l IH]; intros Ha Hin; [by apply elem_of_nil in Hin|]. simpl in Ha. bool_props.
  apply elem_of_cons in Hin as [->|?]; auto.
Qed.
Lemma find_route_Some l found :
  find_route rq l = Some found -> exists r, r ∈ l /\ match_route rq r = Some found.
Proof.
  induction l as [|r l IH]; simpl; [done|]. destruct (match_route rq r) eqn:E.
  - intros [= ->]. exists r. by split; [left|].
  - intros (r' & ? & ?)%IH. exists r'. by split; [right|].
Qed.
Lemma find_route_apart l r found :
  apart l = true -> r ∈ l -> match_route rq r = Some found -> find_route rq l = Some found.
Proof.
  induction l as [|r0 l IH]; intros Ha Hin Hm; [by apply elem_of_nil in Hin|]. simpl in *.
  apply andb_true_iff in Ha as [[Hp Hf]%andb_true_iff Ha].
  apply elem_of_cons in Hin as [->|Hin]; [by rewrite Hm|].
  destruct (match_route rq r0) as [found'|] eqn:E; [|by apply IH].
  rewrite forallb_forall in Hf. specialize (Hf r ltac:(by apply list_elem_of_In)). apply negb_true_iff in Hf.
  assert (overlap r0 r = true); [|congruence].
  apply match_route_overlap; [done | by eapply apart_plain | eauto | eauto].
Qed.
End Routes.

(** *** The listing of sessions *)
Definition wanted (status nodeID : string) (s : TrackedSession) : Prop :=
  (status = ε \/ ses_Status s = status) /\ (nodeID = ε \/ ses_NodeID s = nodeID).
#[export] Instance wanted_dec status nodeID s : Decision (wanted status nodeID s).
Proof. unfold wanted. apply _. Defined.
Lemma skip_spec (v x : string) : negb (str_empty v) && negb (String.eqb x v) = negb (bool_decide (v = ε \/ x = v)).
Proof.
  destruct (str_empty v) eqn:E; simpl.
  - apply str_empty_true in E. by rewrite bool_decide_eq_true_2 by auto.
  - apply str_empty_false in E. destruct (String.eqb_spec x v); [by rewrite bool_decide_eq_true_2 by auto|].
    by rewrite bool_decide_eq_false_2 by naive_solver.
Qed.
Lemma filter_sessions_spec status nodeID limit acc l :
  Z.of_nat (length acc) < limit ->
  filter_sessions status nodeID limit acc l =
    acc ++ take (Z.to_nat limit - length acc) (toSessionJSON <$> filter (wanted status nodeID) l).
Proof.
  revert acc. induction l as [|s l IH]; intros acc Hl; [by rewrite filter_nil, fmap_nil, take_nil, app_nil_r|].
  cbn [filter_sessions]. rewrite !skip_spec. destruct (decide (wanted status nodeID s)) as [[H1 H2]|Hn].
  - rewrite !bool_decide_eq_true_2 by done. simpl. rewrite filter_cons_True by done. cbn [fmap list_fmap].
    destruct (Z.to_nat limit - length acc)%nat as [|n] eqn:En; [lia|]. simpl. rewrite length_app. simpl.
    destruct (Z.leb_spec limit (Z.of_nat (length acc + 1))).
    + assert (n = 0%nat) as -> by lia. done.
    + rewrite IH by (rewrite length_app; simpl; lia). rewrite length_app, <- app_assoc. simpl.
      by replace (Z.to_nat limit - (length acc + 1))%nat with n by lia.
  - rewrite filter_cons_False by done. rewrite <- (IH acc Hl).
    unfold wanted in Hn. apply not_and_l in Hn as [Hn|Hn].
    + by rewrite (bool_decide_eq_false_2 _ Hn).
    + rewrite (bool_decide_eq_false_2 _ Hn). by destruct (negb _).
Qed.
Lemma parseIntParam_range s dflt :
  0 < dflt < 2 ^ 63 -> 1 <= parseIntParam s dflt < 2 ^ 63.
Proof.
  intros Hd. unfold parseIntParam. destruct (str_empty s); [lia|].
  assert (Hr : forall v, Atoi s = Some v -> v < 2 ^ 63).
  { intros v. unfold Atoi. destruct s; [done|]. destruct (str_empty _); [done|].
    generalize (if (a =? "-")%char then option_map Z.opp (digits_value 0 (if (a =? "-")%char || (a =? "+")%char then s else String a s))
                else digits_value 0 (if (a =? "-")%char || (a =? "+")%char then s else String a s)).
    intros [n|]; [|done]. unfold in_int. destruct (_ && _) eqn:E; [|done]. intros [= ->]. bool_props. lia. }
  destruct (Atoi s) as [v|]; [|lia]. specialize (Hr v eq_refl). destruct (Z.leb_spec v 0); lia.
Qed.

(** *** The cache of pushes *)
Section CacheFacts.
Context {W : Type}.
Implicit Types a : HTTPAPI W.

Record cache_ok a : Prop := {
  co_dom : dom (credentialIdempotencyCache a) = list_to_set (credentialIdempotencyOrder a);
  co_nodup : NoDup (credentialIdempotencyOrder a);
  co_bound : (length (credentialIdempotencyOrder a) <= maxCredentialIdempotencyEntries)%nat }.
Definition same_cache a a' : Prop :=
  credentialIdempotencyCache a' = credentialIdempotencyCache a /\
  credentialIdempotencyOrder a' = credentialIdempotencyOrder a.
(** What a request may do to the cache. *)
Definition cache_step a a' : Prop :=
  same_cache a a' \/
  exists key r, credentialPushIdempotencyGet a key = None /\ same_cache (credentialPushIdempotencySet a key r) a'.

Lemma entries_many : (1 < maxCredentialIdempotencyEntries)%nat.
Proof. by apply Nat.ltb_lt. Qed.
#[local] Opaque maxCredentialIdempotencyEntries.
Lemma Set_new a key r :
  cache_ok a -> key <> ε -> credentialPushIdempotencyGet a key = None ->
  let a' := credentialPushIdempotencySet a key r in
  cache_ok a' /\ exists gone,
    credentialIdempotencyOrder a ++ [key] = gone ++ credentialIdempotencyOrder a' /\
    credentialIdempotencyCache a' = <[key := r]> (foldr delete (credentialIdempotencyCache a) gone) /\
    (gone = [] \/ (length (credentialIdempotencyOrder a') = maxCredentialIdempotencyEntries)%nat).
Proof.
  intros [Hd Hn Hb] Hk. unfold credentialPushIdempotencyGet, credentialPushIdempotencySet.
  apply str_empty_false in Hk. rewrite Hk. intros Hg. rewrite Hg.
  assert (Hnk : key ∉ credentialIdempotencyOrder a) by (apply not_elem_of_dom in Hg; rewrite Hd in Hg; set_solver).
  assert (Hnd : NoDup (credentialIdempotencyOrder a ++ [key])).
  { apply NoDup_app. split_and!; [done | | apply NoDup_singleton]. by intros x Hx ->%list_elem_of_singleton. }
  pose proof (length_app (credentialIdempotencyOrder a) [key]) as Hl. simpl in Hl.
  destruct (Nat.ltb_spec maxCredentialIdempotencyEntries (length (credentialIdempotencyOrder a ++ [key]))) as [Hlt|Hge].
  - destruct (credentialIdempotencyOrder a ++ [key]) as [|old order'] eqn:Eo; [simpl in Hl; lia|].
    simpl in Hlt. apply NoDup_cons in Hnd as [Hold Hnd']. split.
    + split; simpl in *; [| done | lia]. rewrite dom_insert_L, dom_delete_L, Hd.
      assert (list_to_set (credentialIdempotencyOrder a) ∪ {[key]} = {[old]} ∪ list_to_set order' :> gset string) as Hs.
      { transitivity (list_to_set (credentialIdempotencyOrder a ++ [key]) : gset string); [|by rewrite Eo].
        rewrite list_to_set_app_L. simpl. set_solver. }
      assert (Hin : key ∈ order').
      { assert (last (old :: order') = Some key) as Hlast by (rewrite <- Eo; apply last_snoc).
        destruct order' as [|y order']; [pose proof entries_many; simpl in Hlt; lia|].
        change (last (y :: order') = Some key) in Hlast. by apply last_Some_elem_of. }
      apply set_eq. intros x. apply (f_equal (elem_of x)) in Hs.
      assert (Hx : x ∈ credentialIdempotencyOrder a \/ x = key <-> x = old \/ x ∈ order').
      { by rewrite <- (elem_of_list_to_set (C := gset string)), <- (elem_of_singleton (C := gset string) x key),
          <- elem_of_union, Hs, elem_of_union, elem_of_singleton, elem_of_list_to_set. }
      rewrite elem_of_union, elem_of_difference, !elem_of_singleton, !elem_of_list_to_set.
      destruct (decide (x = old)) as [->|]; naive_solver.
    + exists [old]. simpl in *. split_and!; [done | done | right; lia].
  - split.
    + split; simpl; [| done | lia]. rewrite dom_insert_L, Hd, list_to_set_app_L. simpl. set_solver.
    + exists []. simpl. split_and!; auto.
Qed.
Lemma cache_step_ok a a' : cache_ok a -> cache_step a a' -> cache_ok a'.
Proof.
  intros Hok [[Hc Ho]|(key & r & Hg & Hc & Ho)].
  - destruct Hok. split; by rewrite ?Hc, ?Ho.
  - destruct (decide (key = ε)) as [->|Hk].
    + destruct Hok. split; by rewrite ?Hc, ?Ho.
    + destruct (Set_new a key r Hok Hk Hg) as [[] _]. split; by rewrite ?Hc, ?Ho.
Qed.

(** A key with at most [n] later ones after it. *)
Definition held (key : string) (r : CommandResult) (n : nat) a : Prop :=
  credentialIdempotencyCache a !! key = Some r /\
  exists pre post, credentialIdempotencyOrder a = pre ++ key :: post /\ (length post <= n)%nat.
Lemma held_step key r n a a' :
  cache_ok a -> held key r n a -> (S (S n) <= maxCredentialIdempotencyEntries)%nat -> cache_step a a' -> held key r (S n) a'.
Proof.
  intros Hok (Hc & pre & post & Ho & Hl) Hn [[Hc' Ho']|(key' & r' & Hg & Hc' & Ho')].
  { split; [by rewrite Hc'|]. exists pre, post. rewrite Ho'. split; [done | lia]. }
  unfold held. rewrite Hc', Ho'. destruct (decide (key' = ε)) as [->|Hk].
  { simpl. split; [done|]. exists pre, post. split; [done | lia]. }
  destruct (Set_new a key' r' Hok Hk Hg) as (Hok' & gone & Heq & -> & Hgone).
  assert (Hne : key' <> key).
  { intros ->. unfold credentialPushIdempotencyGet in Hg. apply str_empty_false in Hk. by rewrite Hk, Hc in Hg. }
  rewrite Ho in Heq. rewrite <- app_assoc in Heq. simpl in Heq.
  destruct Hgone as [->|Hlen].
  { simpl in *. split; [by rewrite lookup_insert_ne|]. exists pre, (post ++ [key']). rewrite <- Heq, length_app. simpl. split; [done|lia]. }
  assert (length pre + length post + 2 = length gone + maxCredentialIdempotencyEntries)%nat as Hlens.
  { apply (f_equal length) in Heq. rewrite !length_app in Heq. simpl in Heq. rewrite length_app in Heq. simpl in Heq. lia. }
  assert (exists pre', pre = gone ++ pre') as [pre' ->].
  { exists (drop (length gone) pre). rewrite <- (take_drop (length gone) pre) at 1. f_equal.
    apply (f_equal (take (length gone))) in Heq. rewrite take_app_length in Heq.
    rewrite take_app_le in Heq by lia. done. }
  rewrite <- app_assoc in Heq. apply app_inv_head in Heq. split.
  - rewrite lookup_insert_ne by done. pose proof (co_nodup a Hok) as Hnd. rewrite Ho in Hnd.
    assert (Hng : key ∉ gone) by (rewrite <- app_assoc in Hnd; apply NoDup_app in Hnd as (_ & Hx & _); set_solver).
    clear -Hc Hng. induction gone as [|g gone IH]; [done|]. simpl. rewrite lookup_delete_ne by set_solver. set_solver.
  - exists pre', (post ++ [key']). rewrite <- Heq, length_app. simpl. split; [done | lia].
Qed.
End CacheFacts.

(** *** What requests change *)
Section HandlerFacts.
Context {W : Type} `{ApiParts W} `{TimeText} `{MapRange}.
Context (encodes : body -> bool) (decode_command : string -> res string commandRequest)
  (decode_push : string -> res string pushRequest) (decode_oauth : string -> res string oauthTriggerRequest)
  (decode_object : string -> res string (gmap string value)) (decode_result : string -> res string OAuthResult).
Implicit Types (a : HTTPAPI W) (rq : HttpRequest).
Notation Handler := (Handler encodes decode_command decode_push decode_oauth decode_object decode_result).
Notation serve := (serve encodes decode_command decode_push decode_oauth decode_object decode_result).

Lemma same_cache_refl a : same_cache a a.
Proof. done. Qed.
Lemma with_world_cache w a : same_cache a (with_world w a).
Proof. done. Qed.
Lemma audited_cache a rq cmd result : same_cache a (audited a rq cmd result).
Proof. unfold audited. by destruct (api_audit a). Qed.
Lemma push_result_cache a req : cache_step a (push_result a req).1.
Proof.
  unfold push_result. destruct (credentialPushIdempotencyGet a _) as [r|] eqn:Eg; [by left|].
  destruct (dispatch_command _ _ _) as [w [r|e]]; simpl; [|by left].
  right. exists (pq_IdempotencyKey req), r. split; [done|].
  unfold credentialPushIdempotencySet. simpl. repeat case_match; done.
Qed.
Lemma serve_cache e values a rq : cache_step a (serve e values a rq).1.
Proof.
  destruct e; try (by left); cbn [Api.serve];
    unfold handleGetSession, handleGetNode, handleNodeAuth, handleEnvStatus, handleAgentMDDiff, handleProject,
      handleCommand, handleCredentialPush, handleOAuthTrigger; repeat case_match; try (by left).
  all: match goal with E : push_result ?a0 ?req = (_, _) |- _ =>
         pose proof (push_result_cache a0 req) as Hs; rewrite E in Hs; simpl in Hs end.
  all: destruct Hs as [[Hc Ho]|(key' & r' & Hg & Hc & Ho)];
    [left | right; exists key', r'; split; [done|]]; simpl;
    match goal with |- context [audited ?a0 ?q ?c ?r0] =>
      destruct (audited_cache a0 q c r0) as [Hc' Ho']; split; simpl; congruence end.
Qed.
Lemma Handler_cache a rq : cache_step a (Handler a rq).1.
Proof.
  unfold Api.Handler. destruct (negb _ && _); [by left|].
  destruct (find_route rq (routes a)) as [[[e auth] values]|]; [|case_match; by left].
  destruct auth; [|apply serve_cache]. unfold requireAuth. destruct (negb _); [by left | apply serve_cache].
Qed.

(** What is counted: a command that was dispatched. *)
Inductive counted (m : option Metric.Metrics) (resp : response) : option Metric.Metrics -> Prop :=
  | counted_done t r d : rs_Status resp = 200 -> counted m resp (dispatch_done t r d m)
  | counted_failed t : rs_Status resp = 500 -> counted m resp (dispatch_failed t m)
  | not_counted : rs_Status resp ∉ [200; 500] -> counted m resp m.
Lemma push_result_metrics a req : api_metrics (push_result a req).1 = api_metrics a.
Proof. unfold push_result, credentialPushIdempotencySet. by repeat case_match. Qed.
Lemma audited_metrics a rq cmd result : api_metrics (audited a rq cmd result) = api_metrics a.
Proof. unfold audited. by destruct (api_audit a). Qed.
Definition counts (e : endpoint) : bool := match e with ECommand | ECredentialPush => true | _ => false end.
Lemma serve_counts e values a rq :
  if counts e
  then counted (api_metrics a) (serve e values a rq).2 (api_metrics (serve e values a rq).1)
  else api_metrics (serve e values a rq).1 = api_metrics a.
Proof.
  assert (Hno : forall (x y : HTTPAPI W) (m : string), api_metrics x = api_metrics y ->
    counted (api_metrics y) (bad_request m) (api_metrics x)).
  { intros x y m ->. apply not_counted. set_solver. }
  destruct e; cbn [counts Api.serve]; try done.
  all: try (unfold handleGetSession, handleGetNode, handleNodeAuth, handleEnvStatus, handleAgentMDDiff, handleProject,
      handleOAuthTrigger; repeat case_match; done).
  - unfold handleCommand. destruct (negb _); [apply not_counted; set_solver|].
    destruct (decode_command _) as [req|]; [|by apply Hno]. destruct (str_empty _); [by apply Hno|].
    destruct (ParseCommandIntent _) as [t|]; [|by apply Hno].
    destruct (dispatch_command _ _ _) as [w [r|e]]; [by apply counted_done | by apply counted_failed].
  - unfold handleCredentialPush. destruct (negb _); [apply not_counted; set_solver|].
    destruct (decode_push _) as [req|]; [|by apply Hno].
    destruct (CredentialPushPayload_Validate _ _); [|apply not_counted; set_solver].
    pose proof (push_result_metrics a req) as Hm. destruct (push_result a req) as [a' [r|e]]; simpl in *;
      rewrite audited_metrics, Hm; [by apply counted_done | by apply counted_failed].
Qed.

(** The API after a list of requests. *)
Definition after_requests a (rqs : list HttpRequest) : HTTPAPI W := foldl (fun a rq => (Handler a rq).1) a rqs.
Lemma after_requests_ok a rqs : cache_ok a -> cache_ok (after_requests a rqs).
Proof. intros Ha. unfold after_requests. apply (foldl_inv cache_ok); [done|]. intros b rq _ Hb. eapply cache_step_ok; [exact Hb | apply Handler_cache]. Qed.
Lemma after_requests_held a rqs key r n :
  cache_ok a -> held key r n a -> (length rqs + n < maxCredentialIdempotencyEntries)%nat ->
  held key r (length rqs + n) (after_requests a rqs).
Proof.
  revert a n. induction rqs as [|rq rqs IH]; intros a n Hok Hh Hl; [done|]. simpl in Hl |- *.
  rewrite <- Nat.add_succ_r. apply IH; [|apply (held_step key r n a); [done | done | lia | apply Handler_cache] | lia].
  eapply cache_step_ok; [exact Hok | apply Handler_cache].
Qed.
Lemma dispatched_held a req r a' :
  cache_ok a -> pq_IdempotencyKey req <> ε -> credentialPushIdempotencyGet a (pq_IdempotencyKey req) = None ->
  push_result a req = (a', Ok r) -> cache_ok a' /\ held (pq_IdempotencyKey req) r 0 a'.
Proof.
  intros Hok Hk Hg. unfold push_result. rewrite Hg. destruct (dispatch_command _ _ _) as [w [r'|e]]; [|done].
  intros [= <- ->]. destruct (Set_new (with_world w a) (pq_IdempotencyKey req) r) as (Hok' & gone & Heq & Hc & _);
    [by destruct Hok | done | done |]. split; [done|]. split; [by rewrite Hc, lookup_insert_eq|].
  destruct (decide (length gone <= length (credentialIdempotencyOrder (with_world w a)))%nat) as [Hl|Hl].
  - exists (drop (length gone) (credentialIdempotencyOrder (with_world w a))), []. split; [|done].
    apply (f_equal (drop (length gone))) in Heq. by rewrite drop_app_length, drop_app_le in Heq.
  - exfalso. apply (f_equal length) in Heq. pose proof (co_dom _ Hok') as Hd. rewrite Hc in Hd.
    rewrite !length_app in Heq. simpl in Heq. simpl in Hl.
    destruct (credentialIdempotencyOrder (credentialPushIdempotencySet _ _ _)) as [|x l]; [|simpl in Heq; lia].
    rewrite dom_insert_L in Hd. simpl in Hd. set_solver.
Qed.
End HandlerFacts.
End ApiFacts.

(** ** Properties *)
Section Properties.
Import Api ApiFacts.
Context {W : Type} `{ApiParts W} `{TimeText} `{MapRange}.
Context (encodes : body -> bool) (decode_command : string -> res string commandRequest)
  (decode_push : string -> res string pushRequest) (decode_oauth : string -> res string oauthTriggerRequest)
  (decode_object : string -> res string (gmap string value)) (decode_result : string -> res string OAuthResult).
Implicit Types (a : HTTPAPI W) (rq : HttpRequest).
Notation Handler := (Api.Handler encodes decode_command decode_push decode_oauth decode_object decode_result).
Notation serve := (Api.serve encodes decode_command decode_push decode_oauth decode_object decode_result).
Notation after_requests :=
  (ApiFacts.after_requests encodes decode_command decode_push decode_oauth decode_object decode_result).

(** C16: without the token nothing is shown and nothing happens: a request whose
    [Authorization] is not the bearer of the configured token, or any request when
    no token is configured, leaves everything as it was and is answered 301, 401,
    404 or 405, but for health, metrics and the agents' socket. *)
Theorem api_needs_token a rq :
  (api_authToken a = ε \/ hq_Authorization rq <> ("Bearer " +:+ api_authToken a)%stdpp) ->
  let '(a', resp) := Handler a rq in
  a' = a /\ (rs_Status resp ∈ [301; 401; 404; 405] \/
             exists r, r ∈ public_routes ++ socket_routes /\ is_Some (match_route rq r)).
Proof.
  intros Hno. assert (Htok : token_ok a rq = false).
  { unfold token_ok, bearer_token. destruct (Strings.HasPrefix _ _) eqn:Ep; [|done].
    apply StringsFacts.HasPrefix_true in Ep as [t Et]. rewrite Et, StringsFacts.TrimPrefix_append.
    destruct (str_empty t) eqn:E0; [done|]. destruct (String.eqb_spec t (api_authToken a)) as [->|]; [|done].
    apply str_empty_false in E0. naive_solver. }
  unfold Api.Handler. destruct (negb _ && _); [split; [done | left; set_solver]|].
  destruct (find_route rq (routes a)) as [[[e auth] values]|] eqn:Ef.
  2: { destruct (existsb _ _); (split; [done | left; set_solver]). }
  destruct auth.
  { unfold requireAuth. rewrite Htok. split; [done | left; set_solver]. }
  apply find_route_Some in Ef as (r & Hin & Hm).
  assert (Hopen : forall l, Forall (fun r => rt_Auth r = true) l -> r ∉ l).
  { intros l Hl Hr. rewrite Forall_forall in Hl. specialize (Hl r Hr). unfold match_route in Hm.
    destruct (match_method _ _); [|done]. destruct (match_path _ _); simpl in Hm; congruence. }
  assert (Hr : r ∈ public_routes ++ socket_routes).
  { unfold routes in Hin. rewrite !elem_of_app in Hin. rewrite elem_of_app.
    destruct Hin as [?|[Hin|Hin]]; [by left | | right; destruct (api_hub a); [done | by apply elem_of_nil in Hin]].
    exfalso. revert Hin. apply Hopen. by repeat constructor. }
  assert (exists resp, serve e values a rq = (a, resp)) as [resp ->]; [|split; [done | right; eauto]].
  unfold match_route in Hm. destruct (match_method _ _); [|done].
  destruct (match_path _ _); [|done]. simpl in Hm. injection Hm as <- _ _.
  repeat (apply elem_of_cons in Hr as [->|Hr]; [by eexists|]). by apply elem_of_nil in Hr.
Qed.

(** A request that matches a route is served by that route's handler, whatever
    other routes there are, once its token is accepted if the route asks for one;
    a request that matches none is answered 404, or 405 if only its method is
    wrong, and changes nothing. *)
Theorem requests_reach_their_route a rq :
  hq_Clean rq = true ->
  (forall r e auth values, r ∈ routes a -> match_route rq r = Some (e, auth, values) ->
     Handler a rq = if auth && negb (token_ok a rq) then (a, unauthorized) else serve e values a rq) /\
  ((forall r, r ∈ routes a -> match_route rq r = None) ->
     Handler a rq = (a, if bool_decide (Exists (fun r => is_Some (match_path (rt_Path r) (hq_Segments rq))) (routes a))
                        then mkResponse 405 (MuxText "Method Not Allowed")
                        else mkResponse 404 (MuxText "404 page not found"))).
Proof.
  intros Hc. unfold Api.Handler. rewrite Hc. cbn [negb andb]. split.
  - intros r e auth values Hin Hm. rewrite (find_route_apart rq (routes a) r _ (routes_apart a) Hin Hm).
    destruct auth; [|done]. unfold requireAuth. by destruct (token_ok a rq).
  - intros Hnone. destruct (find_route rq (routes a)) as [found|] eqn:Ef.
    { apply find_route_Some in Ef as (r & Hin & Hm). by rewrite (Hnone r Hin) in Hm. }
    case_bool_decide as He.
    + assert (existsb (fun r => bool_decide (is_Some (match_path (rt_Path r) (hq_Segments rq)))) (routes a) = true) as ->; [|done].
      apply Exists_exists in He as (r & Hin & Hs). apply existsb_exists. exists r.
      split; [by apply list_elem_of_In | by apply bool_decide_eq_true_2].
    + destruct (existsb _ _) eqn:Eb; [|done]. destruct He. apply existsb_exists in Eb as (r & Hin & Hs%bool_decide_eq_true_1).
      apply Exists_exists. exists r. split; [by apply list_elem_of_In | done].
Qed.

(** A listing of sessions shows, of the tracked sessions of the project, the
    status and the node asked for, the first [limit] in the order they are ranged
    over, where [limit] is the parameter if it is a positive [int] and 100 if it is
    anything else; it changes nothing. *)
Theorem sessions_page_bounded a rq :
  let limit := parseIntParam (hq_Query rq "limit") 100 in
  let project := hq_Query rq "project" in
  let page := take (Z.to_nat limit) (toSessionJSON <$>
    filter (wanted (hq_Query rq "status") (hq_Query rq "node_id"))
      (filter (fun s => project = ε \/ ses_Project s = project) (tracker_sessions (api_world a)).*2)) in
  handleListSessions encodes a rq =
    (a, writeJSON encodes 200 (Sessions page (mkMeta (Z.of_nat (length page)) limit 0))) /\
  1 <= limit < 2 ^ 63 /\ Z.of_nat (length page) <= limit /\
  limit = match Atoi (hq_Query rq "limit") with Some n => if 0 <? n then n else 100 | None => 100 end.
Proof.
  cbn zeta. assert (Hr : 1 <= parseIntParam (hq_Query rq "limit") 100 < 2 ^ 63) by (by apply parseIntParam_range).
  unfold handleListSessions. rewrite filter_sessions_spec by (simpl; lia). simpl app. rewrite Nat.sub_0_r.
  assert ((if str_empty (hq_Query rq "project") then Tracker.GetAllSessions (tracker_sessions (api_world a))
           else Tracker.GetSessionsByProject (tracker_sessions (api_world a)) (hq_Query rq "project")) =
    filter (fun s => hq_Query rq "project" = ε \/ ses_Project s = hq_Query rq "project") (tracker_sessions (api_world a)).*2) as ->.
  { unfold Tracker.GetAllSessions, Tracker.GetSessionsByProject. destruct (str_empty _) eqn:Ep.
    - apply str_empty_true in Ep. rewrite Ep. symmetry. induction (tracker_sessions (api_world a)).*2 as [|s l IH]; [done|].
      rewrite filter_cons_True by (by left). by rewrite IH.
    - apply str_empty_false in Ep. apply list_filter_iff. naive_solver. }
  split_and!; [done | lia | lia | rewrite length_take; lia |].
  unfold parseIntParam. destruct (str_empty (hq_Query rq "limit")) eqn:El.
  { apply str_empty_true in El. by rewrite El. }
  destruct (Atoi (hq_Query rq "limit")) as [n|]; [|done].
  destruct (Z.leb_spec n 0), (Z.ltb_spec 0 n); lia.
Qed.

(** C25: once a credential push with a key has been dispatched and answered, the
    same key is answered with the same result, without dispatching anything, for
    as long as fewer than a thousand requests of any kind came in between,
    whatever they were; and the memory of keys never exceeds a thousand. *)
Theorem push_replayed (a0 a1 : HTTPAPI W) (before between : list HttpRequest) (req again : pushRequest)
    (result : CommandResult) :
  credentialIdempotencyCache a0 = ∅ -> credentialIdempotencyOrder a0 = [] ->
  let a := after_requests a0 before in
  pq_IdempotencyKey req <> ε -> credentialPushIdempotencyGet a (pq_IdempotencyKey req) = None ->
  push_result a req = (a1, Ok result) ->
  (length between < maxCredentialIdempotencyEntries)%nat -> pq_IdempotencyKey again = pq_IdempotencyKey req ->
  let a2 := after_requests a1 between in
  push_result a2 again = (a2, Ok result) /\
  (size (credentialIdempotencyCache a2) <= maxCredentialIdempotencyEntries)%nat.
Proof.
  intros Hc0 Ho0 a Hk Hg Hp Hl Hagain a2.
  assert (Hok0 : cache_ok a0) by (split; rewrite ?Hc0, ?Ho0; [done | apply NoDup_nil_2 | simpl; lia]).
  assert (Hok : cache_ok a) by (by apply after_requests_ok).
  destruct (dispatched_held a req result a1 Hok Hk Hg Hp) as [Hok1 Hheld].
  split.
  - eapply (after_requests_held _ _ _ _ _ _ a1 between) in Hheld as [Hc _]; [|done|lia].
    unfold push_result, credentialPushIdempotencyGet. rewrite Hagain.
    apply str_empty_false in Hk. rewrite Hk. unfold a2. by rewrite Hc.
  - assert (Hok2 : cache_ok a2) by (by apply after_requests_ok). destruct Hok2 as [Hd Hn Hb].
    rewrite <- size_dom, Hd, size_list_to_set by done. done.
Qed.

(** The context of a command given a timeout of at most 9223372031 seconds
    outlives the command's own timeout by five seconds, so that the dispatcher's
    answer to a timeout is what the caller sees. *)
Theorem command_deadline_bounds (req : commandRequest) (commandType : string) :
  -9223372036 <= cq_Timeout req <= 9223372031 ->
  let cmd := command_of req commandType in
  deadline_of cmd = EffectiveTimeout cmd + 5 * Time.Second /\
  0 < EffectiveTimeout cmd < deadline_of cmd /\ is_i64 (deadline_of cmd) /\
  (0 < cq_Timeout req -> EffectiveTimeout cmd = cq_Timeout req * Time.Second).
Proof.
  intros Hr cmd. pose proof (CommandFacts.EffectiveTimeout_pos cmd) as Hpos.
  assert (Ht : cmd_Timeout cmd = cq_Timeout req * Time.Second).
  { unfold cmd, command_of, Time.mul_duration. cbn [cmd_Timeout]. unfold Time.Second.
    rewrite (i64_small (cq_Timeout req)) by (unfold is_i64; lia). apply i64_small. unfold is_i64. lia. }
  assert (Hmax : EffectiveTimeout cmd <= 9223372031 * Time.Second).
  { unfold EffectiveTimeout. rewrite Ht. unfold HandoverCommandTimeout, DefaultCommandTimeout, Time.Second.
    repeat case_match; lia. }
  unfold deadline_of. rewrite i64_small by (unfold is_i64, Time.Second in *; lia).
  unfold is_i64, Time.Second in *. split_and!; try lia.
  intros Hp. unfold EffectiveTimeout. rewrite Ht. by rewrite (proj2 (Z.ltb_lt 0 _)) by lia.
Qed.

(** A POST that is refused, with a status from 400 to 499 or with 503, has
    dispatched nothing and changed nothing. *)
Theorem refused_posts_change_nothing (e : endpoint) values a rq :
  e ∈ [ECommand; ECredentialPush; EOAuthTrigger] ->
  let '(a', resp) := serve e values a rq in
  (400 <= rs_Status resp <= 499 \/ rs_Status resp = 503) -> a' = a.
Proof.
  intros He. repeat (apply elem_of_cons in He as [->|He]); [..| by apply elem_of_nil in He]; cbn [Api.serve].
  - unfold handleCommand. go_case; try done; intros; exfalso; lia.
  - unfold handleCredentialPush. go_case; try done; intros; exfalso; lia.
  - unfold handleOAuthTrigger. go_case; try done; intros; exfalso; lia.
Qed.
End Properties.

(** ** Witness: a supervisor that counts what it dispatches *)
Module ApiWitness.
Import Api ApiFacts.
#[local] Existing Instance sorted_range.

Record small := mkSmall { sm_sessions : list TrackedSession; sm_sent : nat }.
Definition done_by (n : nat) : CommandResult := mkResult "c1" "success" (Itoa (Z.of_nat n)) ε 7.
#[export] Instance small_parts : ApiParts small := {
  tracker_sessions w := (fun s => (ses_SessionID s, s)) <$> sm_sessions w;
  registry_nodes _ := [];
  get_session w _ := (w, Err lookup_not_found);
  get_node w _ := (w, Err lookup_not_found);
  get_auth_state w _ := (w, ∅);
  dispatch_command w _ _ := (mkSmall (sm_sessions w) (S (sm_sent w)), Ok (done_by (sm_sent w)));
  dispatch_panics _ _ _ := None;
  query_rows _ _ _ := Ok [];
  ping_db _ := Ok ();
  cost_report _ _ _ := Err "no costs"%string;
  log_command w _ _ _ _ _ _ := w }.

Definition ses (id node : string) : TrackedSession :=
  mkSession id node "p1" "running" (mkTokenUsage 1 2 3) 0 "t" 5 (Float64.of_Z 0) "m" 5.
Definition api0 : HTTPAPI small :=
  SetHub (NewHTTPAPI Metric.fresh (mkSmall [ses "s1" "n1"; ses "s2" "n2"; ses "s3" "n1"] 0) true true "t0k").

(** A push is written as its key, its version, always 1, and one variable. *)
Definition push_of (key : string) : pushRequest := mkPushRequest "n1" {[ "API_KEY" := "k" ]}%string 1 key.
Definition decode_push (body : string) : res string pushRequest :=
  if str_empty body then Err "EOF"%string else Ok (push_of body).
Definition no_json {A} (_ : string) : res string A := Err "EOF"%string.
Definition rq (method : string) (path : list string) (authorization body : string) : HttpRequest :=
  mkHttpRequest method true path authorization
    (fun k => if String.eqb k "limit" then "2" else if String.eqb k "node_id" then "n1" else ε)%string body "::1" 9 0.
Definition bearer : string := "Bearer t0k".
Definition push_rq (key : string) : HttpRequest :=
  rq "POST" ["api"; "v1"; "commands"; "credentials"; "push"]%string bearer key.
Definition handle := Handler (W := small) (fun _ => true) no_json decode_push no_json no_json no_json.

Lemma api_needs_token_witness :
  let '(a', resp) := handle api0 (rq "GET" ["api"; "v1"; "sessions"] "Bearer other" ε) in
  a' = api0 /\ (rs_Status resp ∈ [301; 401; 404; 405] \/
    exists r, r ∈ public_routes ++ socket_routes /\ is_Some (match_route (rq "GET" ["api"; "v1"; "sessions"] "Bearer other" ε) r)).
Proof.
  apply (api_needs_token (W := small) (fun _ => true) no_json decode_push no_json no_json no_json api0). right. discriminate.
Defined.

(** With a wildcard: the node's authentication is served by [handleNodeAuth]. *)
Lemma requests_reach_their_route_witness :
  handle api0 (rq "HEAD" ["api"; "v1"; "nodes"; "n1"; "auth"] bearer ε) = handleNodeAuth (fun _ => true) api0 "n1" /\
  handle api0 (rq "PUT" ["api"; "v1"; "nodes"] bearer ε) = (api0, mkResponse 405 (MuxText "Method Not Allowed")).
Proof.
  split.
  - pose proof (proj1 (requests_reach_their_route (W := small) (fun _ => true) no_json decode_push no_json no_json no_json api0
      (rq "HEAD" ["api"; "v1"; "nodes"; "n1"; "auth"] bearer ε) eq_refl)) as Hr.
    apply (Hr (mkRoute "GET" [Lit "api"; Lit "v1"; Lit "nodes"; Wild "id"; Lit "auth"] true ENodeAuth)
      ENodeAuth true [("id", "n1")]%string); [|reflexivity].
    apply list_elem_of_In. vm_compute. tauto.
  - pose proof (proj2 (requests_reach_their_route (W := small) (fun _ => true) no_json decode_push no_json no_json no_json api0
      (rq "PUT" ["api"; "v1"; "nodes"] bearer ε) eq_refl)) as Hr.
    apply Hr. apply Forall_forall. repeat constructor.
Defined.

Definition api1 : HTTPAPI small := (push_result api0 (push_of "k1")).1.
Definition between : list HttpRequest := [push_rq "k2"; push_rq "k3"; rq "GET" ["healthz"] ε ε].
Lemma push_replayed_witness :
  let a2 := after_requests (fun _ => true) no_json decode_push no_json no_json no_json api1 between in
  push_result a2 (push_of "k1") = (a2, Ok (done_by 0)) /\
  (size (credentialIdempotencyCache a2) <= maxCredentialIdempotencyEntries)%nat.
Proof.
  apply (push_replayed (fun _ => true) no_json decode_push no_json no_json no_json api0 api1 [] between
    (push_of "k1") (push_of "k1") (done_by 0)); try reflexivity; [discriminate|].
  apply Nat.ltb_lt. reflexivity.
Defined.
Example three_dispatched :
  sm_sent (api_world (after_requests (fun _ => true) no_json decode_push no_json no_json no_json api1 between)) = 3%nat.
Proof. vm_compute. reflexivity. Qed.

Lemma command_deadline_bounds_witness :
  let cmd := command_of (mkCommandRequest "status" "p1" ∅ ε 90) CommandTypeSessionStatus in
  deadline_of cmd = EffectiveTimeout cmd + 5 * Time.Second /\
  0 < EffectiveTimeout cmd < deadline_of cmd /\ is_i64 (deadline_of cmd) /\
  (0 < 90 -> EffectiveTimeout cmd = 90 * Time.Second).
Proof.
  apply (command_deadline_bounds (mkCommandRequest "status" "p1" ∅ ε 90) CommandTypeSessionStatus). simpl. lia.
Defined.
(** Beyond the bound the multiplication wraps: 18446744074 seconds become less
    than one. *)
Example long_timeout_wraps :
  EffectiveTimeout (command_of (mkCommandRequest "status" "p1" ∅ ε 18446744074) CommandTypeSessionStatus) = 290448384.
Proof. vm_compute. reflexivity. Qed.
Example page_of_two :
  rs_Body (handle api0 (rq "GET" ["api"; "v1"; "sessions"] bearer ε)).2 =
    Sessions [toSessionJSON (ses "s1" "n1"); toSessionJSON (ses "s3" "n1")] (mkMeta 2 2 0).
Proof. vm_compute. reflexivity. Qed.
End ApiWitness.
