(* ===== verification/Server.v ===== *)
(** * Server

    internal/supervisor/server.go: the supervisor's life cycle around the hub.  The
    server owns the context of the hub: cancelling it is the hub's action
    [ACancel], and [ctx_done] reads the hub's flag.  Started goroutines and
    listeners are listed; [config.LoadSupervisorConfig] of the rotation's file is
    an argument of the tick. *)

From S2P Require Import Prelude GoStd SqlStore NodeRegistry Commands Config Security Hub Health Metrics HttpApi.

Inductive task := HubRun | MaintenanceLoop | TokenRotationLoop | CostPolling | WSServer (port : Z) | HTTPServer (port : Z).

Record Server (DB W : Type) := mkSupServer {
  sv_cfg : SupervisorConfig;
  sv_configPath : string;
  sv_system : Hub.System DB;
  sv_running : bool;
  sv_httpAPI : option (HTTPAPI W);
  sv_wsShutdown : bool;
  sv_httpShutdown : bool;
  sv_costs : bool;
  sv_audit : bool;
  sv_tls : bool;
  sv_tasks : list task }.
Arguments mkSupServer {DB W}.
Arguments sv_cfg {DB W}.
Arguments sv_configPath {DB W}.
Arguments sv_system {DB W}.
Arguments sv_running {DB W}.
Arguments sv_httpAPI {DB W}.
Arguments sv_wsShutdown {DB W}.
Arguments sv_httpShutdown {DB W}.
Arguments sv_costs {DB W}.
Arguments sv_audit {DB W}.
Arguments sv_tls {DB W}.
Arguments sv_tasks {DB W}.

Inductive server_error := token_too_short | already_running | not_running.

Module Serving.
Section Defs.
Context {DB E W : Type} `{KeyedTable DB NodeRow E} `{TimeText}.
Implicit Types s : Server DB W.

Definition the_hub s : Hub.Hub DB := Hub.hub (sv_system s).
Definition ctx_done s : bool := Hub.cancelled (the_hub s).
Definition with_hub (h : Hub.Hub DB) s : Server DB W :=
  mkSupServer (sv_cfg s) (sv_configPath s)
    (Hub.mkSystem h (Hub.inflight (sv_system s)) (Hub.results (sv_system s)))
    (sv_running s) (sv_httpAPI s) (sv_wsShutdown s) (sv_httpShutdown s) (sv_costs s) (sv_audit s) (sv_tls s) (sv_tasks s).
Definition with_cfg (cfg : SupervisorConfig) s : Server DB W :=
  mkSupServer cfg (sv_configPath s) (sv_system s) (sv_running s) (sv_httpAPI s) (sv_wsShutdown s)
    (sv_httpShutdown s) (sv_costs s) (sv_audit s) (sv_tls s) (sv_tasks s).
Definition with_api (api : option (HTTPAPI W)) s : Server DB W :=
  mkSupServer (sv_cfg s) (sv_configPath s) (sv_system s) (sv_running s) api (sv_wsShutdown s)
    (sv_httpShutdown s) (sv_costs s) (sv_audit s) (sv_tls s) (sv_tasks s).
Definition with_parts (costs audit tls : bool) (path : string) s : Server DB W :=
  mkSupServer (sv_cfg s) path (sv_system s) (sv_running s) (sv_httpAPI s) (sv_wsShutdown s)
    (sv_httpShutdown s) costs audit tls (sv_tasks s).
Definition with_run (running ws http : bool) (tasks : list task) s : Server DB W :=
  mkSupServer (sv_cfg s) (sv_configPath s) (sv_system s) running (sv_httpAPI s) ws http
    (sv_costs s) (sv_audit s) (sv_tls s) tasks.

(** The allow list of the security section replaces the origins of the server's. *)
Definition origins_of (cfg : SupervisorConfig) : list string :=
  match sec_OriginAllowlist (sc_Security cfg) with
  | [] => srv_AllowedOrigins (sc_Server cfg)
  | l => l
  end.
Definition strict_of (cfg : SupervisorConfig) : bool :=
  (0 <? length (sec_OriginAllowlist (sc_Security cfg)))%nat.
Definition NewServer (cfg : SupervisorConfig) : Server DB W :=
  let srv := sc_Server cfg in
  let hub := Hub.NewHub (srv_AuthToken srv) (origins_of cfg)
    (Time.mul_duration (srv_HeartbeatIntervalSec srv) Time.Second) (srv_HeartbeatTimeoutCount srv) in
  let hub := if strict_of cfg then Hub.SetStrictOrigin true hub else hub in
  mkSupServer cfg ε (Hub.mkSystem hub [] []) false None false false false false false [].

Definition SetTLSConfig s : Server DB W := with_parts (sv_costs s) (sv_audit s) true (sv_configPath s) s.
Definition SetAuditLogger s : Server DB W := with_parts (sv_costs s) true (sv_tls s) (sv_configPath s) s.
Definition SetConfigPath (path : string) s : Server DB W := with_parts (sv_costs s) (sv_audit s) (sv_tls s) path s.

Definition set_token (t : string) (cfg : SupervisorConfig) : SupervisorConfig :=
  let srv := sc_Server cfg in
  mkSupervisor
    (mkServer (srv_Port srv) (srv_HTTPPort srv) t (srv_HeartbeatIntervalSec srv) (srv_HeartbeatTimeoutCount srv)
       (srv_AllowedOrigins srv))
    (sc_Channels cfg) (sc_DatabasePath cfg) (sc_Cost cfg) (sc_Routes cfg) (sc_Policies cfg) (sc_Dependencies cfg)
    (sc_Security cfg) (sc_Credentials cfg).
(** The REST interface keeps the token it was made with. *)
Definition RotateToken s (newToken : string) : Server DB W * res server_error () :=
  if (String.length newToken <? 32)%nat then (s, Err token_too_short)
  else (with_hub (Hub.UpdateAuthToken newToken (the_hub s)) (with_cfg (set_token newToken (sv_cfg s)) s), Ok ()).
(** A tick of [tokenRotationLoop]. *)
Definition rotation_tick (loaded : res string SupervisorConfig) s : Server DB W :=
  match loaded with
  | Err _ => s
  | Ok newCfg =>
      let token := srv_AuthToken (sc_Server newCfg) in
      if negb (String.eqb token (srv_AuthToken (sc_Server (sv_cfg s)))) then (RotateToken s token).1 else s
  end.

(** What [maintenanceLoop] starts. *)
Definition rotation_tasks s : list task :=
  if sec_RotationEnabled (sc_Security (sv_cfg s)) && negb (str_empty (sv_configPath s)) then [TokenRotationLoop] else [].
Definition Start s : Server DB W * res server_error () :=
  if sv_running s then (s, Err already_running)
  else
    let srv := sc_Server (sv_cfg s) in
    let http := bool_decide (is_Some (sv_httpAPI s)) && (0 <? srv_HTTPPort srv) in
    (with_run true true (sv_httpShutdown s || http)
       (sv_tasks s ++ [HubRun; MaintenanceLoop] ++ rotation_tasks s ++
        (if sv_costs s then [CostPolling] else []) ++ [WSServer (srv_Port srv)] ++
        (if http then [HTTPServer (srv_HTTPPort srv)] else [])) s, Ok ()).
(** The listeners are shut down, then the context is cancelled; whether the wait
    for the goroutines timed out is only logged. *)
Definition Stop s : Server DB W * res server_error () :=
  if negb (sv_running s) then (s, Err not_running)
  else
    let s := with_hub (Hub.with_flags true (Hub.stopped (the_hub s)) (the_hub s)) s in
    (with_run false (sv_wsShutdown s) (sv_httpShutdown s) (sv_tasks s) s, Ok ()).
Definition IsRunning s : bool := sv_running s.

Definition SetRegistry (r : Registry.NodeRegistry DB) s : Server DB W :=
  with_hub (Hub.ConfigureRegistry r (cd_Version (sc_Credentials (sv_cfg s))) (the_hub s)) s.
(** The health checker is made with the hub and the cost aggregator only. *)
Definition checker_of s (_ : W) : HealthChecker :=
  mkHealthChecker None (Some (size (Hub.clients (the_hub s)))) false (sv_costs s).
Definition SetHTTPAPI (api : HTTPAPI W) s : Server DB W :=
  let api := Api.SetHub api in
  let api := if sv_costs s then Api.SetCostAggregator api else api in
  with_api (Some (Api.SetHealthChecker (checker_of s) api)) s.
Definition SetCostAggregator s : Server DB W :=
  with_api (Api.SetCostAggregator <$> sv_httpAPI s)
    (with_parts true (sv_audit s) (sv_tls s) (sv_configPath s) s).

(** *** Everything that can happen to a server *)
Inductive server_action :=
  | SRotate (token : string)
  | STick (loaded : res string SupervisorConfig)
  | SStart
  | SStop
  | SSetRegistry (r : Registry.NodeRegistry DB)
  | SSetHTTPAPI (api : HTTPAPI W)
  | SSetCostAggregator
  | SSetConfigPath (path : string)
  | SSetTLSConfig
  | SSetAuditLogger
  | SHub (a : Hub.action).

Context (upgrade : Request -> bool -> res string ())
  (decode_sync : string -> res string CredentialSyncPayload)
  (decode_auth : string -> res string (list AuthStateReport)).

(** [None]: the hub's action is blocked or panics. *)
Definition server_step s (a : server_action) : option (Server DB W) :=
  match a with
  | SRotate token => Some (RotateToken s token).1
  | STick loaded => Some (rotation_tick loaded s)
  | SStart => Some (Start s).1
  | SStop => Some (Stop s).1
  | SSetRegistry r => Some (SetRegistry r s)
  | SSetHTTPAPI api => Some (SetHTTPAPI api s)
  | SSetCostAggregator => Some (SetCostAggregator s)
  | SSetConfigPath path => Some (SetConfigPath path s)
  | SSetTLSConfig => Some (SetTLSConfig s)
  | SSetAuditLogger => Some (SetAuditLogger s)
  | SHub a =>
      match Hub.exec upgrade decode_sync decode_auth (sv_system s) a with
      | Hub.Next sys =>
          Some (mkSupServer (sv_cfg s) (sv_configPath s) sys (sv_running s) (sv_httpAPI s) (sv_wsShutdown s)
                  (sv_httpShutdown s) (sv_costs s) (sv_audit s) (sv_tls s) (sv_tasks s))
      | _ => None
      end
  end.
Inductive server_reaches (s0 : Server DB W) : Server DB W -> Prop :=
  | server_start : server_reaches s0 s0
  | server_more s a s' : server_reaches s0 s -> server_step s a = Some s' -> server_reaches s0 s'.
End Defs.
Arguments server_action : clear implicits.
End Serving.

(** ** Lemmas *)
Module ServerFacts.
Import Serving.

(** *** The hub's own steps keep its configuration, and a cancelled context. *)
Section HubConfig.
Context {DB E : Type} `{KT : KeyedTable DB NodeRow E} `{TT : TimeText}.
Implicit Types h : Hub.Hub DB.

Record keeps h h' : Prop := {
  kp_token : Hub.authToken h' = Hub.authToken h;
  kp_origins : Hub.allowedOrigins h' = Hub.allowedOrigins h;
  kp_strict : Hub.strictOrigin h' = Hub.strictOrigin h;
  kp_cancelled : Hub.cancelled h = true -> Hub.cancelled h' = true }.
#[export] Instance keeps_preorder : PreOrder keeps.
Proof. split; [by split | intros h1 h2 h3 [] []; split; [congruence.. | auto]]. Qed.

Lemma keeps_upd i f h : keeps h (Hub.upd i f h).
Proof. by split. Qed.
Lemma keeps_clients m h : keeps h (Hub.with_clients m h).
Proof. by split. Qed.
Lemma keeps_conns m h : keeps h (Hub.with_conns m h).
Proof. by split. Qed.
Lemma keeps_broadcast l h : keeps h (Hub.with_broadcast l h).
Proof. by split. Qed.
Lemma keeps_registry r h : keeps h (Hub.with_registry r h).
Proof. by split. Qed.
Lemma keeps_emit ev h : keeps h (Hub.emit ev h).
Proof. unfold Hub.emit. by case_match. Qed.
#[local] Hint Resolve keeps_upd keeps_clients keeps_conns keeps_broadcast keeps_registry keeps_emit : keeps.
Lemma keeps_online now id h : keeps h (Hub.registerNodeOnline h now id).
Proof. unfold Hub.registerNodeOnline. repeat case_match; auto with keeps; done. Qed.
Lemma keeps_offline now id h : keeps h (Hub.registerNodeOffline h now id).
Proof. unfold Hub.registerNodeOffline. repeat case_match; auto with keeps; done. Qed.
Lemma keeps_close_send i h h' : Hub.close_send h i = Some h' -> keeps h h'.
Proof. unfold Hub.close_send. destruct (Hub.conns h !! i); simpl; [|done]. case_match; [done|]. intros [= <-]. auto with keeps. Qed.
Lemma keeps_try_send i m b h h' : Hub.try_send h i m = Some (h', b) -> keeps h h'.
Proof.
  unfold Hub.try_send. destruct (Hub.conns h !! i); simpl; [|done]. repeat (case_match; [done|] || case_match);
    intros; simplify_eq; auto with keeps; done.
Qed.
#[local] Hint Resolve keeps_online keeps_offline : keeps.
(** Chains of steps: each [bind] that succeeded is one of the above. *)
Ltac keeps_chain :=
  repeat match goal with
  | H : Some _ = Some _ |- _ => injection H as <-
  | H : None = Some _ |- _ => discriminate H
  | H : option_bind _ _ _ _ = Some _ |- _ => apply bind_Some in H as (? & ? & ?)
  | H : fmap _ _ = Some _ |- _ => apply fmap_Some in H as (? & ? & ->)
  | H : _ ≫= _ = Some _ |- _ => apply bind_Some in H as (? & ? & ?)
  | H : Hub.close_send _ _ = Some _ |- _ => apply keeps_close_send in H
  | H : Hub.try_send _ _ _ = Some (_, _) |- _ => apply keeps_try_send in H
  | x : _ * _ |- _ => destruct x
  end.
Lemma keeps_broadcast_loop msg order h h' : Hub.broadcast_loop h msg order = Some h' -> keeps h h'.
Proof.
  revert h. induction order as [|[id i] order IH]; intros h; simpl; [by intros [= <-]|]. intros Hb. keeps_chain.
  destruct b; keeps_chain; [etrans; [eassumption | by apply IH]|].
  etrans; [eassumption|]. etrans; [eassumption|]. etrans; [|by apply IH]. apply keeps_clients.
Qed.
Lemma keeps_close_loop order h h' : Hub.close_loop h order = Some h' -> keeps h h'.
Proof.
  revert h. induction order as [|[id i] order IH]; intros h; simpl; [by intros [= <-]|]. intros Hb. keeps_chain.
  etrans; [eassumption|]. etrans; [|by apply IH]. etrans; [apply keeps_upd | apply keeps_clients].
Qed.
Lemma keeps_heartbeats now order h : keeps h (Hub.checkHeartbeats h now order).
Proof.
  unfold Hub.checkHeartbeats. apply (foldl_inv (keeps h)); [done|]. intros h1 [i c] _ Hk. etrans; [exact Hk|].
  unfold Hub.expire. etrans; [apply keeps_offline|]. etrans; [apply keeps_emit | apply keeps_upd].
Qed.
Lemma keeps_register i now h h' : Hub.run_register h i now = Some h' -> keeps h h'.
Proof.
  unfold Hub.run_register. intros Hb. keeps_chain.
  match goal with Hx : match _ with _ => _ end = Some ?h1 |- _ => assert (keeps h h1) as Hk1 end.
  { repeat case_match; keeps_chain; try done. etrans; [eassumption | apply keeps_upd]. }
  etrans; [exact Hk1|]. etrans; [|apply keeps_emit]. etrans; [|apply keeps_online]. apply keeps_clients.
Qed.
Lemma keeps_unregister i now h h' : Hub.run_unregister h i now = Some h' -> keeps h h'.
Proof.
  unfold Hub.run_unregister. intros Hb. keeps_chain. case_bool_decide; keeps_chain; [|done].
  etrans; [apply (keeps_clients (delete (ac_agentID x) (Hub.clients h)))|]. etrans; [eassumption | apply keeps_offline].
Qed.
Lemma keeps_envelope ds da i now env h : keeps h (Hub.handleEnvelope ds da h i now env).1.
Proof.
  unfold Hub.handleEnvelope, Hub.reconcileCredentialSync, Hub.reconcileAuthState.
  repeat case_match; simpl; try apply keeps_upd; (etrans; [apply (keeps_upd i (Hub.set_heartbeat now)) | apply keeps_registry]).
Qed.
Lemma keeps_write_turn i ok h h' : Hub.write_turn h i ok = Some h' -> keeps h h'.
Proof.
  unfold Hub.write_turn. intros Hb. keeps_chain. repeat case_match; simplify_eq; try apply keeps_upd.
  etrans; [|apply keeps_upd]. apply keeps_upd.
Qed.
Lemma keeps_push id i m r h h' : Hub.send_push h id i m = Some (h', r) -> keeps h h'.
Proof. unfold Hub.send_push. intros Hb. keeps_chain. case_match; simplify_eq; done. Qed.

Lemma keeps_exec upgrade ds da s a s' :
  Hub.exec upgrade ds da s a = Hub.Next s' -> keeps (Hub.hub s) (Hub.hub s').
Proof.
  assert (Hafter : forall o, Hub.after s o = Hub.Next s' -> exists h, o = Some h /\ Hub.hub s' = h).
  { intros [h|]; [|done]. intros [= <-]. by exists h. }
  assert (Hwhen : forall b o, Hub.when b o = Hub.Next s' -> o = Hub.Next s') by (by intros []).
  destruct a; cbn [Hub.exec]; try (intros H%Hwhen; revert H).
  - destruct (Hub.ServeWS _ _ _ _); by intros [= <-].
  - intros (h & (h1 & Hr & ->)%fmap_Some & ->)%Hafter. etrans; [by eapply keeps_register | apply keeps_upd].
  - intros (h & (h1 & Hr & ->)%fmap_Some & ->)%Hafter. etrans; [by eapply keeps_unregister | apply keeps_upd].
  - intros (h & [= <-] & ->)%Hafter. apply keeps_broadcast.
  - destruct (Hub.broadcast (Hub.hub s)) as [|msg rest]; [done|]. intros (h & Hb & ->)%Hafter.
    etrans; [apply (keeps_broadcast rest) | by eapply keeps_broadcast_loop].
  - intros (h & [= <-] & ->)%Hafter. apply keeps_heartbeats.
  - intros (h & [= <-] & ->)%Hafter. by split.
  - intros (h & (h1 & Hc & ->)%fmap_Some & ->)%Hafter. apply keeps_close_loop in Hc. etrans; [exact Hc | by split].
  - pose proof (keeps_envelope ds da i now env (Hub.hub s)) as Hk.
    destruct (Hub.handleEnvelope ds da (Hub.hub s) i now env) as [h r]. by intros [= <-].
  - intros (h & [= <-] & ->)%Hafter. apply keeps_upd.
  - intros (h & [= <-] & ->)%Hafter. apply keeps_upd.
  - destruct (Hub.write_turn _ _ _) as [h|] eqn:Ew; [|done]. intros (h1 & [= <-] & ->)%Hafter. by eapply keeps_write_turn.
  - intros (h & [= <-] & ->)%Hafter. apply keeps_upd.
  - destruct (Hub.send_lookup _ _); by intros [= <-].
  - destruct (Hub.inflight s !! k) as [[[nodeID i] data]|]; [|done].
    destruct (Hub.send_push _ _ _ _) as [[h r]|] eqn:Ep; [|done]. intros [= <-]. by eapply keeps_push.
Qed.
End HubConfig.

Section Facts.
Context {DB E W : Type} `{KT : KeyedTable DB NodeRow E} `{TT : TimeText}.
Context (upgrade : Request -> bool -> res string ())
  (decode_sync : string -> res string CredentialSyncPayload)
  (decode_auth : string -> res string (list AuthStateReport)).
Implicit Types s : Server DB W.

(** What holds of a server made from a configuration, whatever happens to it. *)
Record server_ok (cfg : SupervisorConfig) s : Prop := {
  so_token : Hub.authToken (the_hub s) = srv_AuthToken (sc_Server (sv_cfg s));
  so_rotated : srv_AuthToken (sc_Server (sv_cfg s)) = srv_AuthToken (sc_Server cfg) \/
    (32 <= String.length (srv_AuthToken (sc_Server (sv_cfg s))))%nat;
  so_origins : Hub.allowedOrigins (the_hub s) = origins_of cfg;
  so_strict : Hub.strictOrigin (the_hub s) = strict_of cfg }.
Lemma NewServer_ok cfg : server_ok cfg (NewServer cfg).
Proof. unfold NewServer. by split; unfold the_hub; simpl; destruct (strict_of cfg); auto. Qed.
Lemma RotateToken_ok cfg s t : server_ok cfg s -> server_ok cfg (RotateToken s t).1.
Proof.
  intros [Ht Hr Ho Hs]. unfold RotateToken. destruct (Nat.ltb_spec (String.length t) 32) as [|Hl]; [by split|].
  split; simpl; auto.
Qed.
Lemma server_step_ok cfg s a s' :
  server_ok cfg s -> server_step upgrade decode_sync decode_auth s a = Some s' -> server_ok cfg s'.
Proof.
  intros Hok. destruct a; cbn [server_step]; try (intros [= <-]; destruct Hok; by split).
  - intros [= <-]. by apply RotateToken_ok.
  - intros [= <-]. unfold rotation_tick. destruct loaded; [|done]. case_match; [by apply RotateToken_ok | done].
  - intros [= <-]. unfold Start. destruct (sv_running s); destruct Hok; by split.
  - intros [= <-]. unfold Stop. destruct (negb (sv_running s)); destruct Hok; by split.
  - destruct (Hub.exec _ _ _ _ _) as [sys| |] eqn:Ee; [|done..]. intros [= <-].
    apply keeps_exec in Ee as [Ht Ho Hs _]. destruct Hok. unfold the_hub in *. split; unfold the_hub; simpl; first [done | congruence].
Qed.
Lemma server_reaches_ok cfg s :
  server_reaches upgrade decode_sync decode_auth (NewServer cfg) s -> server_ok cfg s.
Proof. induction 1; [apply NewServer_ok | by eapply server_step_ok]. Qed.

Lemma ctx_done_step s a s' :
  ctx_done s = true -> server_step upgrade decode_sync decode_auth s a = Some s' -> ctx_done s' = true.
Proof.
  intros Hc. destruct a; cbn [server_step]; try (by intros [= <-]).
  - intros [= <-]. unfold RotateToken. by case_match.
  - intros [= <-]. unfold rotation_tick, RotateToken. by repeat case_match.
  - intros [= <-]. unfold Start. by case_match.
  - intros [= <-]. unfold Stop. by case_match.
  - destruct (Hub.exec _ _ _ _ _) as [sys| |] eqn:Ee; [|done..]. intros [= <-].
    apply keeps_exec in Ee as [_ _ _ Hk]. by apply Hk.
Qed.
(** The actions that are possible, one after the other. *)
Definition run_actions s (l : list (server_action DB W)) : Server DB W :=
  foldl (fun s a => default s (server_step upgrade decode_sync decode_auth s a)) s l.
Lemma run_actions_reaches s l : server_reaches upgrade decode_sync decode_auth s (run_actions s l).
Proof.
  unfold run_actions. apply (foldl_inv (server_reaches upgrade decode_sync decode_auth s)); [constructor|].
  intros s1 a _ Hs1. destruct (server_step _ _ _ s1 a) as [s2|] eqn:Es; [by eapply server_more | done].
Qed.
End Facts.
End ServerFacts.

(** ** Properties *)
Section Properties.
Import Serving ServerFacts.
Context {DB E W : Type} `{KT : KeyedTable DB NodeRow E} `{TT : TimeText}.
Context (upgrade : Request -> bool -> res string ())
  (decode_sync : string -> res string CredentialSyncPayload)
  (decode_auth : string -> res string (list AuthStateReport)).
Implicit Types s : Server DB W.

(** C21: whatever happens to a server, rotations, restarts and every step of its hub
    included, the hub asks for the token that the configuration has at that time,
    which is the first one or one of at least 32 bytes; an agent that is accepted
    has shown it, and, when there is an allow list, comes from an origin that
    matches it. *)
Theorem agents_show_the_current_token (cfg : SupervisorConfig) s (rq : Request) (uuid agentID : string) :
  server_reaches upgrade decode_sync decode_auth (NewServer cfg) s ->
  (forall rq, exists e, upgrade rq false = Err e) ->
  let token := srv_AuthToken (sc_Server (sv_cfg s)) in
  Hub.authToken (the_hub s) = token /\
  (token = srv_AuthToken (sc_Server cfg) \/ (32 <= String.length token)%nat) /\
  (Hub.ServeWS upgrade (the_hub s) rq uuid = Accepted agentID ->
   Hub.request_token rq = token /\
   (sec_OriginAllowlist (sc_Security cfg) <> [] ->
    exists allowed, allowed ∈ sec_OriginAllowlist (sc_Security cfg) /\
      Security.MatchOrigin (rq_Origin rq) allowed = true)).
Proof.
  intros [Ht Hr Ho Hs]%server_reaches_ok Hup. split_and!; [done | done |].
  unfold Hub.ServeWS. destruct (String.eqb_spec (Hub.request_token rq) (Hub.authToken (the_hub s))) as [Htok|]; [|done].
  simpl. destruct (upgrade rq (Hub.checkOrigin (the_hub s) rq)) eqn:Eu; [|done]. intros _.
  split; [congruence|]. intros Hlist. destruct (Hub.checkOrigin (the_hub s) rq) eqn:Ec.
  2: { destruct (Hup rq) as [e He]. congruence. }
  unfold Hub.checkOrigin in Ec. rewrite Hs in Ec. unfold strict_of in Ec.
  destruct (sec_OriginAllowlist (sc_Security cfg)) as [|o l] eqn:El; [done|]. simpl in Ec.
  unfold Hub.checkOriginStrict in Ec. destruct (str_empty (rq_Origin rq)); [done|].
  rewrite Ho in Ec. unfold origins_of in Ec. rewrite El in Ec.
  apply existsb_exists in Ec as (allowed & Hin%list_elem_of_In & Hm). eauto.
Qed.

(** A server that was stopped never runs again: it can be started, and says it
    is running, but its context stays cancelled. *)
Theorem stop_is_final s s' :
  sv_running s = true -> server_reaches upgrade decode_sync decode_auth (Stop s).1 s' -> ctx_done s' = true.
Proof.
  intros Hrun Hr. induction Hr as [|s1 a s2 _ IH Hs]; [unfold Stop; by rewrite Hrun|]. by eapply ctx_done_step.
Qed.
End Properties.

(** ** Witness *)
Module ServerWitness.
Import Serving.

Definition provider : CostProviderConfig := mkProvider ε None ∅ ε ε ε.
Definition cfg : SupervisorConfig :=
  mkSupervisor (mkServer 8420 8421 "secret-token" 30 3 ["https://other"]) VNil ε (mkCost 0 provider provider 0 0 0)
    VNil (mkPolicies (mkIdlePolicy false 0 0 0) (mkCompactionPolicy false 0 0 0) (mkCostPolicy false (Float64.of_Z 0) 0 0) 0)
    VNil (mkSecurity (mkTLS false ε ε) ["https://*.example.com"] true 60 false 0) (mkCredentials 4 ∅ ∅).
Definition upgrade (_ : Request) (ok : bool) : res string () := if ok then Ok () else Err "403"%string.
Definition no_sync (_ : string) : res string CredentialSyncPayload := Err ε.
Definition no_auth (_ : string) : res string (list AuthStateReport) := Err ε.
Definition server0 : Server (mem_table NodeRow) () := NewServer cfg.
Definition new_token : string := "0123456789abcdef0123456789abcdef".
Definition api : HTTPAPI () := Api.NewHTTPAPI Metric.fresh () true true "secret-token".
Definition actions : list (server_action (mem_table NodeRow) ()) :=
  [SSetHTTPAPI api; SSetConfigPath "supervisor.json"; SStart;
   STick (Ok (set_token "short" cfg)); STick (Ok (set_token new_token cfg))].
Definition server1 := ServerFacts.run_actions upgrade no_sync no_auth server0 actions.
Definition agent_rq : Request := mkRequest ("Bearer " +:+ new_token)%stdpp ε "n1" "https://a.example.com".

Lemma agents_show_the_current_token_witness :
  let token := srv_AuthToken (sc_Server (sv_cfg server1)) in
  Hub.authToken (the_hub server1) = token /\
  (token = srv_AuthToken (sc_Server cfg) \/ (32 <= String.length token)%nat) /\
  (Hub.ServeWS upgrade (the_hub server1) agent_rq "u" = Accepted "n1" ->
   Hub.request_token agent_rq = token /\
   (sec_OriginAllowlist (sc_Security cfg) <> [] ->
    exists allowed, allowed ∈ sec_OriginAllowlist (sc_Security cfg) /\
      Security.MatchOrigin (rq_Origin agent_rq) allowed = true)).
Proof.
  apply (agents_show_the_current_token upgrade no_sync no_auth cfg server1 agent_rq "u" "n1").
  - apply ServerFacts.run_actions_reaches.
  - intros q. by exists "403"%string.
Defined.
Example accepted : Hub.ServeWS upgrade (the_hub server1) agent_rq "u" = Accepted "n1".
Proof. vm_compute. reflexivity. Qed.
(** The REST interface still asks for the first token. *)
Example api_keeps_first_token : Hub.authToken (the_hub server1) = new_token /\
  api_authToken <$> sv_httpAPI server1 = Some "secret-token"%string.
Proof. vm_compute. split; reflexivity. Qed.
Example readiness_never_healthy :
  (sv_httpAPI server1 ≫= api_health) <> None /\
  forall hc, sv_httpAPI server1 ≫= api_health = Some hc ->
    Health.checkDispatcher (hc ()) = mkComponentHealth StatusUnavailable "command dispatcher not configured".
Proof. vm_compute. split; [discriminate | by intros hc [= <-]]. Qed.
Example restarted_but_cancelled :
  let s := (Start (Stop server1).1).1 in IsRunning s = true /\ ctx_done s = true.
Proof. vm_compute. split; reflexivity. Qed.
End ServerWitness.
