(* ===== verification/Discord.v ===== *)
(** * Discord

    internal/supervisor/discord.go: the slash commands of the Discord bot.  The
    parts it calls are those of the REST API ([ApiParts]) and the hub's count of
    clients.  discordgo is not part of the repository: a session is the class
    [DiscordSession], an option of a command the class [DiscordOption], whose
    [StringValue] and [IntValue] panic (here: are [None]) on an option of another
    type.  A handler is a computation over the supervisor that may panic, for a
    cause: without a dispatcher, on an option of the wrong type, or because the
    transport sends on the closed queue of a connection ([dispatch_panics]);
    [handleInteraction] recovers.

    The last part follows the bot's commands to the agent's handler. *)

From stdpp Require Import sorting.
From S2P Require Import Prelude GoStd SqlStore NodeRegistry SessionTracker Commands Dispatcher Config.
From S2P Require Import AuditLog Hub EnvCheck Provision OpenCode SessionCommands HttpApi.

(** ** Data *)
Definition colorSuccess : Z := 0x00CC66.
Definition colorFailure : Z := 0xCC3333.
Definition colorTimeout : Z := 0xFF9900.
Definition colorInfo : Z := 0x3399FF.
Definition colorError : Z := 0xCC3333.

Record MessageEmbedField := mkField { ef_Name : string; ef_Value : string; ef_Inline : bool }.
Record MessageEmbed := mkEmbed {
  em_Title : string; em_Description : string; em_Color : Z; em_Fields : list MessageEmbedField;
  em_Timestamp : string }.

Inductive option_type := OptionString | OptionInteger | OptionOther.
Record option_decl := mkOption {
  od_Type : option_type; od_Name : string; od_Description : string; od_Required : bool }.
Record ApplicationCommand := mkAppCommand {
  ac_Name : string; ac_Description : string; ac_Options : list option_decl }.

(** An option of an interaction, as discordgo decodes it. *)
Class DiscordOption (O : Type) := {
  opt_Name : O -> string;
  opt_Type : O -> option_type;
  StringValue : O -> option string;
  IntValue : O -> option Z;
}.
Class DiscordOptionLaws (O : Type) `{DiscordOption O} := {
  string_has_value o : opt_Type o = OptionString -> is_Some (StringValue o);
  integer_has_value o : opt_Type o = OptionInteger -> is_Some (IntValue o);
}.

(** A session with Discord; [ds_AppID] is the user of its state, when it has one. *)
Class DiscordSession (S : Type) := {
  ds_AddHandler : S -> S * nat;
  ds_RemoveHandler : S -> nat -> S;
  ds_Open : S -> S * res string ();
  ds_Close : S -> S * res string ();
  ds_CommandCreate : S -> string -> string -> ApplicationCommand -> S * res string string;
  ds_CommandDelete : S -> string -> string -> string -> S * res string ();
  ds_Respond : S -> string -> S * res string ();
  ds_Followup : S -> string -> MessageEmbed -> S * res string ();
  ds_AppID : S -> option string;
}.

Record Interaction (O : Type) := mkInteraction {
  in_ID : string; in_IsCommand : bool; in_Name : string; in_Options : list O }.
Arguments mkInteraction {O}.
Arguments in_ID {O}.
Arguments in_IsCommand {O}.
Arguments in_Name {O}.
Arguments in_Options {O}.

(** The parts the bot was made with, and what it has at Discord. *)
Record DiscordBot := mkBot {
  guildID : string;
  bot_dispatcher : bool; bot_registry : bool; bot_hub : bool; bot_tracker : bool;
  commandIDs : list string; running : bool; removeHandler : option nat }.

Module Bot.

Definition project_option : option_decl := mkOption OptionString "project" "Project name" true.
Definition slashCommands : list ApplicationCommand := [
  mkAppCommand "status" "Show session status for a project" [project_option];
  mkAppCommand "nodes" "List connected agent nodes" [];
  mkAppCommand "logs" "Fetch recent session logs"
    [mkOption OptionString "session_id" "Session ID to fetch logs for" true;
     mkOption OptionInteger "limit" "Number of log lines (default 20)" false];
  mkAppCommand "resume" "Resume a project session with a message"
    [project_option; mkOption OptionString "message" "Message to send" true];
  mkAppCommand "inject" "Inject a message into a session"
    [mkOption OptionString "session_id" "Target session ID" true;
     mkOption OptionString "message" "Message to inject" true];
  mkAppCommand "restart" "Restart a session"
    [mkOption OptionString "session_id" "Session ID to restart" true];
  mkAppCommand "kill" "Kill a session" [mkOption OptionString "session_id" "Session ID to kill" true];
  mkAppCommand "start" "Start a new session for a project" [project_option];
  mkAppCommand "cost" "Show cost summary"
    [mkOption OptionString "period" "Time period: today, week, month (default today)" false]]%string.

(** *** Embeds *)
Section Embeds.
(** [Time.Format] with a layout. *)
Context (Format : string -> Time.t -> string) (now : Time.t).

Definition errorEmbed (title description : string) : MessageEmbed :=
  mkEmbed title description colorError [] (Format RFC3339 now).
Definition validationErrorEmbed (description : string) : MessageEmbed :=
  mkEmbed "Validation Error" description colorError [] (Format RFC3339 now).

Definition sanitizeError (err : string) : string :=
  if Strings.Contains err "node" && Strings.Contains err "not connected" then "Target node is not connected."
  else if Strings.Contains err "not found" then "The requested resource was not found."
  else if Strings.Contains err "offline" then "Target node is offline."
  else if Strings.Contains err "timed out" then "The command timed out. Please try again."
  else if Strings.Contains err "saturated" then "Target node is busy. Please try again later."
  else "An error occurred while processing the command."%string.
Definition valueOrDash (v : string) : string := if str_empty v then "-"%string else v.

Definition status_color (status : string) : Z :=
  if String.eqb status CommandStatusFailure then colorFailure
  else if String.eqb status CommandStatusTimeout then colorTimeout
  else colorSuccess.
Definition commandResultEmbed (title : string) (result : option CommandResult) : MessageEmbed :=
  match result with
  | None => errorEmbed title "No result received."
  | Some r =>
      mkEmbed title
        (if negb (str_empty (cr_Error r)) then sanitizeError (cr_Error r) else cr_Output r)
        (status_color (cr_Status r))
        [mkField "Status" (cr_Status r) true; mkField "Command ID" (cr_CommandID r) true]
        (Format RFC3339 (cr_Timestamp r))
  end.
End Embeds.

(** *** The commands the handlers dispatch *)
Definition bot_command (t : string) (target : CommandTarget) (args : gmap string value) : Command :=
  mkCommand ε t ε target args 0.
Definition status_command (project : string) : Command :=
  bot_command CommandTypeSessionStatus (mkTarget project ε) ∅.
Definition resume_command (project message : string) : Command :=
  bot_command CommandTypePromptSession (mkTarget project ε) {[ "message"%string := VStr message ]}.
Definition inject_command (target : CommandTarget) (sessionID message : string) : Command :=
  bot_command CommandTypePromptSession target
    (<["message"%string := VStr message]> {[ "session_id"%string := VStr sessionID ]}).
Definition restart_command (target : CommandTarget) (sessionID : string) : Command :=
  bot_command CommandTypeRestartSession target {[ "session_id"%string := VStr sessionID ]}.
Definition kill_command (target : CommandTarget) (sessionID : string) : Command :=
  bot_command CommandTypeKillSession target {[ "session_id"%string := VStr sessionID ]}.
Definition start_command (project : string) : Command :=
  bot_command CommandTypeCreateSession (mkTarget project ε) ∅.
Definition dispatch_timeout : Z := 30 * Time.Second.

(** *** Computations that may panic *)
Section Panics.
Inductive panic_cause :=
  | nil_dispatcher
  | wrong_option_type
  | closed_queue (cmd : Command).
Context {W : Type}.
Definition P (A : Type) : Type := W -> W * res panic_cause A.
Definition ret {A} (a : A) : P A := fun w => (w, Ok a).
Definition panic {A} (c : panic_cause) : P A := fun w => (w, Err c).
Definition bind {A B} (m : P A) (k : A -> P B) : P B :=
  fun w => match m w with (w', Ok a) => k a w' | (w', Err c) => (w', Err c) end.
Definition must {A} (o : option A) : P A := match o with Some a => ret a | None => panic wrong_option_type end.
Definition state {A} (f : W -> W * A) : P A := fun w => let '(w', a) := f w in (w', Ok a).
Definition reads {A} (f : W -> A) : P A := fun w => (w, Ok (f w)).
End Panics.
Arguments P : clear implicits.
Notation "'run!' x ':=' m 'in' k" := (bind m (fun x => k))
  (at level 10, x pattern, m at level 200, k at level 200).

(** *** The handlers *)
Section Handlers.
Context {W O : Type} `{ApiParts W} `{DiscordOption O}.
Context (client_count : W -> Z) (Format : string -> Time.t -> string) (now : Time.t).
Context (b : DiscordBot).
Implicit Types opts : gmap string O.

(** The guard [opt, ok := opts[name]; if !ok]. *)
Definition required opts (name : string) (k : O -> P W MessageEmbed) : P W MessageEmbed :=
  match opts !! name with
  | None => ret (validationErrorEmbed Format now ("Missing required argument: `" +:+ name +:+ "`")%stdpp)
  | Some o => k o
  end.
(** A nil dispatcher panics when it resolves the target, another one when its
    transport sends on the queue of a connection that was closed. *)
Definition dispatch (cmd : Command) : P W (res string CommandResult) :=
  if bot_dispatcher b then
    fun w => match dispatch_panics w (Some dispatch_timeout) cmd with
             | Some w' => (w', Err (closed_queue cmd))
             | None => state (fun w => dispatch_command w (Some dispatch_timeout) cmd) w
             end
  else panic nil_dispatcher.
Definition answer (title failed advice : string) (r : res string CommandResult) : MessageEmbed :=
  match r with
  | Err _ => errorEmbed Format now failed advice
  | Ok result => commandResultEmbed Format now title (Some result)
  end.
(** The node of a tracked session, when there is one. *)
Definition session_target (sessionOpt : O) : P W CommandTarget :=
  if bot_tracker b then
    run! id := must (StringValue sessionOpt) in
    run! s := state (fun w => get_session w id) in
    ret (mkTarget ε (match s with Ok session => ses_NodeID session | Err _ => ε end))
  else ret (mkTarget ε ε).

Definition handleStatus opts : P W MessageEmbed :=
  required opts "project" (fun projectOpt =>
    run! project := must (StringValue projectOpt) in
    run! r := dispatch (status_command project) in
    ret (answer ("Status: " +:+ project)%stdpp "Status Failed"
           "Could not retrieve status. Please try again later." r)).

Definition node_le (x y : NodeEntry) : Prop := String.leb (node_ID x) (node_ID y) = true.
#[export] Instance node_le_dec : RelDecision node_le.
Proof. intros x y. unfold node_le. apply _. Defined.
Definition maxNodeLines : nat := 10.
Definition node_line (node : NodeEntry) : string :=
  let lastHeartbeat :=
    if Time.IsZero (node_LastHeartbeat node) then "-"%string
    else Format "2006-01-02 15:04:05"%string (node_LastHeartbeat node) in
  ("`" +:+ valueOrDash (node_ID node) +:+ "` (" +:+ valueOrDash (node_Hostname node) +:+ ") - " +:+
   node_Status node +:+ " - hb: " +:+ lastHeartbeat)%stdpp.
Definition newline : string := String (ascii_of_nat 10) EmptyString.
Definition node_lines (count : Z) (nodes : list NodeEntry) : list string :=
  [("**Connected:** " +:+ Itoa count)%stdpp;
   ("**Known nodes:** " +:+ Itoa (Z.of_nat (length nodes)))%stdpp] ++
  (node_line <$> take maxNodeLines nodes) ++
  (if (maxNodeLines <? length nodes)%nat
   then [("...and " +:+ Itoa (Z.of_nat (length nodes - maxNodeLines)) +:+ " more")%stdpp] else []).
Definition nodes_description (w : W) : string :=
  let count := if bot_hub b then client_count w else 0 in
  let nodes := if bot_dispatcher b && bot_registry b then Registry.ListNodes (registry_nodes w) else [] in
  if (0 <? length nodes)%nat then Strings.Join (node_lines count (merge_sort node_le nodes)) newline
  else if bot_tracker b then
    let nodeSet := list_to_set (C := gset string) (ses_NodeID <$> Tracker.GetAllSessions (tracker_sessions w)) in
    ("**Connected:** " +:+ Itoa count +:+ newline +:+ "**Known nodes:** " +:+ Itoa (Z.of_nat (size nodeSet)))%stdpp
  else ("**Connected:** " +:+ Itoa count)%stdpp.
Definition handleNodes : P W MessageEmbed :=
  reads (fun w => mkEmbed "Agent Nodes" (nodes_description w) colorInfo [] (Format RFC3339 now)).

Definition log_limit opts : P W Z :=
  match opts !! "limit"%string with
  | None => ret 20
  | Some o => run! limit := must (IntValue o) in ret (if limit <=? 0 then 20 else limit)
  end.
Definition log_embed (sessionID : string) (session : TrackedSession) (limit : Z) : MessageEmbed :=
  mkEmbed ("Logs: " +:+ sessionID)%stdpp
    ("Session for project **" +:+ ses_Project session +:+ "** on node `" +:+ ses_NodeID session +:+ "`" +:+
     newline +:+ "Status: **" +:+ ses_Status session +:+ "**" +:+ newline +:+ "Requested lines: " +:+
     Itoa limit)%stdpp
    colorInfo
    [mkField "Model" (valueOrDash (ses_Model session)) true;
     mkField "Task" (valueOrDash (ses_CurrentTask session)) true;
     mkField "Tokens" (Itoa (tu_Total (ses_TokenUsage session))) true]
    (Format RFC3339 now).
Definition handleLogs opts : P W MessageEmbed :=
  required opts "session_id" (fun sessionOpt =>
    run! sessionID := must (StringValue sessionOpt) in
    if negb (bot_tracker b) then ret (errorEmbed Format now "Logs Unavailable" "Session tracker is not available.")
    else
      run! found := state (fun w => get_session w sessionID) in
      match found with
      | Err _ => ret (errorEmbed Format now "Session Not Found"
                        ("No session found with ID `" +:+ sessionID +:+ "`.")%stdpp)
      | Ok session => run! limit := log_limit opts in ret (log_embed sessionID session limit)
      end).

Definition handleResume opts : P W MessageEmbed :=
  required opts "project" (fun projectOpt => required opts "message" (fun messageOpt =>
    run! project := must (StringValue projectOpt) in
    run! message := must (StringValue messageOpt) in
    run! r := dispatch (resume_command project message) in
    ret (answer ("Resume: " +:+ project)%stdpp "Resume Failed"
           "Could not resume session. Please try again later." r))).
Definition handleInject opts : P W MessageEmbed :=
  required opts "session_id" (fun sessionOpt => required opts "message" (fun messageOpt =>
    run! target := session_target sessionOpt in
    run! message := must (StringValue messageOpt) in
    run! sessionID := must (StringValue sessionOpt) in
    run! r := dispatch (inject_command target sessionID message) in
    ret (answer ("Inject: " +:+ sessionID)%stdpp "Inject Failed"
           "Could not inject message. Please try again later." r))).
Definition handleRestart opts : P W MessageEmbed :=
  required opts "session_id" (fun sessionOpt =>
    run! target := session_target sessionOpt in
    run! sessionID := must (StringValue sessionOpt) in
    run! r := dispatch (restart_command target sessionID) in
    ret (answer ("Restart: " +:+ sessionID)%stdpp "Restart Failed"
           "Could not restart session. Please try again later." r)).
Definition handleKill opts : P W MessageEmbed :=
  required opts "session_id" (fun sessionOpt =>
    run! target := session_target sessionOpt in
    run! sessionID := must (StringValue sessionOpt) in
    run! r := dispatch (kill_command target sessionID) in
    ret (answer ("Kill: " +:+ sessionID)%stdpp "Kill Failed"
           "Could not kill session. Please try again later." r)).
Definition handleStart opts : P W MessageEmbed :=
  required opts "project" (fun projectOpt =>
    run! project := must (StringValue projectOpt) in
    run! r := dispatch (start_command project) in
    ret (answer ("Start: " +:+ project)%stdpp "Start Failed"
           "Could not start session. Please try again later." r)).

Definition cost_period opts : P W string :=
  match opts !! "period"%string with
  | None => ret "today"%string
  | Some o =>
      run! period := must (StringValue o) in
      let period := Strings.ToLower period in
      ret (if negb (String.eqb period "today") && negb (String.eqb period "week") && negb (String.eqb period "month")
           then "today"%string else period)
  end.
(** [totalTokens] is an [int]; both sums range over a map. *)
Definition cost_totals (sessions : list TrackedSession) : Float64.t * Z :=
  foldl (fun acc s => (Float64.add acc.1 (ses_SessionCost s), i64 (acc.2 + tu_Total (ses_TokenUsage s))))
    (Float64.zero, 0) sessions.
Definition handleCost opts : P W MessageEmbed :=
  run! period := cost_period opts in
  if negb (bot_tracker b) then ret (errorEmbed Format now "Cost Unavailable" "Session tracker is not available.")
  else
    reads (fun w =>
      let sessions := Tracker.GetAllSessions (tracker_sessions w) in
      let '(totalCost, totalTokens) := cost_totals sessions in
      mkEmbed "Cost Summary" ("Period: **" +:+ period +:+ "**")%stdpp colorInfo
        [mkField "Total Cost" ("$" +:+ Fixed2 totalCost)%stdpp true;
         mkField "Total Tokens" (Itoa totalTokens) true;
         mkField "Sessions" (Itoa (Z.of_nat (length sessions))) true]
        (Format RFC3339 now)).

(** The switch of [handleInteraction]. *)
Definition handle_command (cmdName : string) opts : P W MessageEmbed :=
  if String.eqb cmdName "status" then handleStatus opts
  else if String.eqb cmdName "nodes" then handleNodes
  else if String.eqb cmdName "logs" then handleLogs opts
  else if String.eqb cmdName "resume" then handleResume opts
  else if String.eqb cmdName "inject" then handleInject opts
  else if String.eqb cmdName "restart" then handleRestart opts
  else if String.eqb cmdName "kill" then handleKill opts
  else if String.eqb cmdName "start" then handleStart opts
  else if String.eqb cmdName "cost" then handleCost opts
  else ret (errorEmbed Format now "Unknown Command"
              ("Command `/" +:+ cmdName +:+ "` is not recognized.")%stdpp).

(** The options by name; a later one of the same name wins. *)
Definition options_of (l : list O) : gmap string O := foldl (fun m o => <[opt_Name o := o]> m) ∅ l.

Context {S : Type} `{DiscordSession S}.
(** The embed of a handler that returned, and that of the deferred [recover]. *)
Definition recovery : MessageEmbed := errorEmbed Format now "Internal Error" "An unexpected error occurred. Please try again.".
Definition follow_up (outcome : res panic_cause MessageEmbed) : MessageEmbed :=
  match outcome with Ok embed => embed | Err _ => recovery end.
(** The last component lists the embeds handed to [FollowupMessageCreate], whose
    errors are only logged. *)
Definition handleInteraction (w : W) (s : S) (i : Interaction O) : W * S * list MessageEmbed :=
  if negb (in_IsCommand i) then (w, s, [])
  else
    match ds_Respond s (in_ID i) with
    | (s, Err _) => (w, s, [])
    | (s, Ok _) =>
        let '(w, outcome) := handle_command (in_Name i) (options_of (in_Options i)) w in
        let embed := follow_up outcome in
        (w, (ds_Followup s (in_ID i) embed).1, [embed])
    end.
End Handlers.

(** *** Starting and stopping *)
Section Lifecycle.
Context {S : Type} `{DiscordSession S}.

Inductive bot_error :=
  | token_required
  | create_session_failed (e : string)
  | bot_already_running
  | open_failed (e : string)
  | close_failed (e : string).

(** [connect] is [discordgo.New], of which only the error matters. *)
Definition NewDiscordBot (connect : string -> res string ()) (token guild : string)
    (dispatcher registry hub tracker : bool) : res bot_error DiscordBot :=
  reject str_empty token with_err token_required in
  let? _ := res_map_err create_session_failed (connect ("Bot " +:+ token)%stdpp) in
  Ok (mkBot guild dispatcher registry hub tracker [] false None).

Definition NewDiscordBotWithSession (guild : string) (dispatcher hub tracker : bool) : DiscordBot :=
  mkBot guild dispatcher false hub tracker [] false None.

Fixpoint register_commands (appID guild : string) (s : S) (cmds : list ApplicationCommand) : S * list string :=
  match cmds with
  | [] => (s, [])
  | cmd :: cmds' =>
      match ds_CommandCreate s appID guild cmd with
      | (s, Err _) => register_commands appID guild s cmds'
      | (s, Ok id) => let '(s, ids) := register_commands appID guild s cmds' in (s, id :: ids)
      end
  end.
Definition delete_commands (appID guild : string) (s : S) (ids : list string) : S :=
  foldl (fun s id => (ds_CommandDelete s appID guild id).1) s ids.

Definition with_handler (b : DiscordBot) (hd : nat) : DiscordBot :=
  mkBot (guildID b) (bot_dispatcher b) (bot_registry b) (bot_hub b) (bot_tracker b) (commandIDs b) (running b) (Some hd).
Definition with_commands (b : DiscordBot) (ids : list string) (run : bool) : DiscordBot :=
  mkBot (guildID b) (bot_dispatcher b) (bot_registry b) (bot_hub b) (bot_tracker b) ids run (removeHandler b).

Definition Start (b : DiscordBot) (s : S) : DiscordBot * S * res bot_error () :=
  if running b then (b, s, Err bot_already_running)
  else
    let '(s, hd) := ds_AddHandler s in
    let b := with_handler b hd in
    match ds_Open s with
    | (s, Err e) => (b, s, Err (open_failed e))
    | (s, Ok _) =>
        let '(s, ids) := register_commands (default ε (ds_AppID s)) (guildID b) s slashCommands in
        (with_commands b ids true, s, Ok ())
    end.
Definition Stop (b : DiscordBot) (s : S) : DiscordBot * S * res bot_error () :=
  if negb (running b) then (b, s, Ok ())
  else
    let ids := commandIDs b in
    let b := with_commands b [] (running b) in
    let s := delete_commands (default ε (ds_AppID s)) (guildID b) s ids in
    let s := match removeHandler b with Some hd => ds_RemoveHandler s hd | None => s end in
    match ds_Close s with
    | (s, Err e) => (b, s, Err (close_failed e))
    | (s, Ok _) => (with_commands b (commandIDs b) false, s, Ok ())
    end.
End Lifecycle.
End Bot.

(** ** Laws of a session

    Creating a command that exists already replaces it, under its id. *)
Class DiscordSessionLaws (S : Type) `{DiscordSession S} := {
  registered : S -> gset string;
  handlers : S -> gset nat;
  add_handler_ok s s' hd : ds_AddHandler s = (s', hd) ->
    hd ∉ handlers s /\ handlers s' = {[hd]} ∪ handlers s /\ registered s' = registered s;
  remove_handler_ok s hd :
    handlers (ds_RemoveHandler s hd) = handlers s ∖ {[hd]} /\ registered (ds_RemoveHandler s hd) = registered s;
  open_keeps s : handlers (ds_Open s).1 = handlers s /\ registered (ds_Open s).1 = registered s;
  close_keeps s : handlers (ds_Close s).1 = handlers s /\ registered (ds_Close s).1 = registered s;
  create_ok s app guild cmd s' r : ds_CommandCreate s app guild cmd = (s', r) ->
    handlers s' = handlers s /\
    registered s' = match r with Ok id => {[id]} ∪ registered s | Err _ => registered s end;
  delete_ok s app guild id s' r : ds_CommandDelete s app guild id = (s', r) ->
    handlers s' = handlers s /\
    registered s' = match r with Ok _ => registered s ∖ {[id]} | Err _ => registered s end;
}.

(** ** Lemmas *)
Module BotFacts.
Import Bot.

(** *** A logic of handlers

    [wp crash m Q]: what [m] returns satisfies [Q], and it panics only for a cause
    that satisfies [crash]. *)
Section Logic.
Context {W : Type} (crash : panic_cause -> Prop).
Definition wp {A} (m : P W A) (Q : A -> Prop) : Prop :=
  forall w, match (m w).2 with Ok a => Q a | Err c => crash c end.

Lemma wp_ret {A} (a : A) (Q : A -> Prop) : Q a -> wp (ret a) Q.
Proof. by intros ? w. Qed.
Lemma wp_must {A} (o : option A) (Q : A -> Prop) :
  (o = None -> crash wrong_option_type) -> (forall a, o = Some a -> Q a) -> wp (must o) Q.
Proof. intros Hn Hs w. destruct o; simpl; auto. Qed.
Lemma wp_bind {A B} (m : P W A) (k : A -> P W B) (R : A -> Prop) (Q : B -> Prop) :
  wp m R -> (forall a, R a -> wp (k a) Q) -> wp (bind m k) Q.
Proof.
  intros Hm Hk w. specialize (Hm w). unfold bind. destruct (m w) as [w' [a|]]; simpl in *; [|done].
  by apply Hk.
Qed.
Lemma wp_state {A} (f : W -> W * A) (Q : A -> Prop) : (forall w, Q (f w).2) -> wp (state f) Q.
Proof. intros Hf w. specialize (Hf w). unfold state. by destruct (f w). Qed.
Lemma wp_reads {A} (f : W -> A) (Q : A -> Prop) : (forall w, Q (f w)) -> wp (reads f) Q.
Proof. intros Hf w. apply Hf. Qed.
Lemma wp_mono {A} (m : P W A) (Q Q' : A -> Prop) : wp m Q -> (forall a, Q a -> Q' a) -> wp m Q'.
Proof. intros Hm Hq w. specialize (Hm w). destruct (m w).2; auto. Qed.
End Logic.

Section Facts.
Context {W O : Type} `{ApiParts W} `{DiscordOption O}.
Context (client_count : W -> Z) (Format : string -> Time.t -> string) (now : Time.t) (b : DiscordBot).
Implicit Types opts : gmap string O.

Lemma options_of_Some (l : list O) n o : options_of l !! n = Some o -> o ∈ l /\ opt_Name o = n.
Proof.
  unfold options_of. induction l as [|x l IH] using rev_ind; simpl; [by rewrite lookup_empty|].
  rewrite foldl_app. simpl. destruct (decide (opt_Name x = n)) as [<-|Hne].
  - rewrite lookup_insert_eq. intros [= <-]. set_solver.
  - rewrite lookup_insert_ne by done. intros [Hin ?]%IH. set_solver.
Qed.
Lemma options_of_has (l : list O) o : o ∈ l -> is_Some (options_of l !! opt_Name o).
Proof.
  unfold options_of. induction l as [|x l IH] using rev_ind; [by intros ?%elem_of_nil|].
  rewrite elem_of_app, list_elem_of_singleton, foldl_app. simpl.
  destruct (decide (opt_Name x = opt_Name o)) as [->|Hne]; [rewrite lookup_insert_eq; eauto|].
  intros [Hin| ->]; [|done]. rewrite lookup_insert_ne by done. by apply IH.
Qed.

Lemma wp_required (crash : panic_cause -> Prop) opts name (k : O -> P W MessageEmbed) (Q : MessageEmbed -> Prop) :
  (opts !! name = None ->
     Q (validationErrorEmbed Format now ("Missing required argument: `" +:+ name +:+ "`")%stdpp)) ->
  (forall o, opts !! name = Some o -> wp crash (k o) Q) ->
  wp crash (required Format now opts name k) Q.
Proof. intros Hn Hs. unfold required. destruct (opts !! name) eqn:E; auto using wp_ret. Qed.

(** What a dispatch can have answered. *)
Definition dispatched (cmd : Command) (r : res string CommandResult) : Prop :=
  exists w, r = (dispatch_command w (Some dispatch_timeout) cmd).2.
(** The transport met a closed queue when the command was sent to it. *)
Definition queue_closed (c : panic_cause) : Prop :=
  exists w cmd w', c = closed_queue cmd /\ dispatch_panics (W := W) w (Some dispatch_timeout) cmd = Some w'.
Lemma wp_dispatch (crash : panic_cause -> Prop) cmd (Q : res string CommandResult -> Prop) :
  (bot_dispatcher b = false -> crash nil_dispatcher) -> (forall c, queue_closed c -> crash c) ->
  (forall r, dispatched cmd r -> Q r) ->
  wp crash (dispatch b cmd) Q.
Proof.
  intros Hc Hp Hq. unfold dispatch. destruct (bot_dispatcher b); [|by intros ?; apply Hc].
  intros w. destruct (dispatch_panics w _ cmd) as [w'|] eqn:Ep; [apply Hp; by exists w, cmd, w'|].
  apply (wp_state crash). intros w1. apply Hq. by exists w1.
Qed.
Lemma wp_session_target (crash : panic_cause -> Prop) o :
  (StringValue o = None -> crash wrong_option_type) -> wp crash (session_target b o) (fun _ => True).
Proof.
  intros Hc. unfold session_target. destruct (bot_tracker b); [|by apply wp_ret].
  apply wp_bind with (fun _ => True); [by apply wp_must|]. intros id _.
  apply wp_bind with (fun _ => True); [by apply wp_state|]. intros s _. by apply wp_ret.
Qed.
End Facts.

(** One step through a handler. *)
Ltac wp_step :=
  lazymatch goal with
  | |- wp _ (required _ _ _ _ _) _ => apply wp_required; [|intros ? ?]
  | |- wp _ (bind (dispatch _ _) _) _ => eapply wp_bind; [apply wp_dispatch; [| |intros ? Hd; exact Hd]|intros ? ?]
  | |- wp _ (bind (session_target _ _) _) _ => eapply wp_bind; [apply wp_session_target|intros ? _]
  | |- wp _ (bind (must ?o) _) _ =>
      eapply (wp_bind _ _ _ (fun a => o = Some a)); [apply wp_must; [|by intros]|intros ? ?]
  | |- wp _ (bind (state _) _) _ => eapply (wp_bind _ _ _ (fun _ => True)); [by apply wp_state|intros ? _]
  | |- wp _ (ret _) _ => apply wp_ret
  | |- wp _ (reads _) _ => apply wp_reads; intros ?
  | |- wp _ (match ?x with _ => _ end) _ => destruct x eqn:?
  end.

(** *** The agent's side *)
Section Agent.
Import Adapter.
Context {S C F : Type} `{OpencodeSDK S C} `{FileSystem F} `{Semver} `{MapRange}
  `{Json command_output} `{Json sessionCommandResult}.
Context (h : Session.host C).

Lemma CreateSession_project order project prompt (w w' : world S C) id :
  CreateSession order project prompt w = (w', Ok id) -> sessionProjects (adapter w') !! id = Some project.
Proof.
  unfold CreateSession, bind, reads. destruct (clientForProject (adapter w) project) as [[c d]|] eqn:Ec; [|done].
  destruct (call VNew c d ε _ w) as [w1 [x|]] eqn:En; [|done]. simpl.
  set (w2 := mkWorld (record_session (sdk_ID x) project SessionStatusRunning (adapter w1)) (servers w1) (calls w1)).
  assert (Hw2 : sessionProjects (adapter w2) !! sdk_ID x = Some project) by (simpl; apply lookup_insert_eq).
  destruct (str_empty prompt); [by intros [= <- <-]|].
  unfold PromptSession, clientForSession, bind, reads, Adapter.ret. rewrite Hw2.
  destruct (clientForProject (adapter w2) project) as [[c2 d2]|]; [|done].
  destruct (call VPrompt c2 d2 (sdk_ID x) _ w2) as [w3 [[]|]]; [|done]. simpl. intros [= <- <-].
  simpl. apply lookup_insert_eq.
Qed.
End Agent.
End BotFacts.

(** ** Properties *)

(** The command as the agent's handler reads it, under the id it was given. *)
Definition at_agent (id : string) (cmd : Command) : sessionCommand :=
  mkSessionCommand id (cmd_Type cmd) (tgt_Project (cmd_Target cmd)) (cmd_Args cmd).

(** The options Discord lets a user send for a declaration. *)
Definition well_typed {O} `{DiscordOption O} (decls : list option_decl) (l : list O) : Prop :=
  (forall d, d ∈ decls -> od_Required d = true -> exists o, o ∈ l /\ opt_Name o = od_Name d) /\
  (forall d o, d ∈ decls -> o ∈ l -> opt_Name o = od_Name d -> opt_Type o = od_Type d).

Definition sanitized_texts : list string :=
  ["Target node is not connected."; "The requested resource was not found."; "Target node is offline.";
   "The command timed out. Please try again."; "Target node is busy. Please try again later.";
   "An error occurred while processing the command."]%string.
Definition own_texts : list string :=
  ["Missing required argument: `project`"; "Missing required argument: `message`";
   "Missing required argument: `session_id`"; "An unexpected error occurred. Please try again.";
   "Could not retrieve status. Please try again later."; "Could not resume session. Please try again later.";
   "Could not inject message. Please try again later."; "Could not restart session. Please try again later.";
   "Could not kill session. Please try again later."; "Could not start session. Please try again later."]%string.
Definition dispatching : list string := ["status"; "resume"; "inject"; "restart"; "kill"; "start"]%string.

Section Properties.
Import Bot BotFacts.
Context {W O S : Type} `{ApiParts W} `{DiscordOptionLaws O} `{DiscordSession S}.
Context (client_count : W -> Z) (Format : string -> Time.t -> string).

Lemma sanitized err : sanitizeError err ∈ sanitized_texts.
Proof. unfold sanitizeError. go_case; unfold sanitized_texts; set_solver. Qed.

Definition declares (decls : list option_decl) (n : string) (p : option_decl -> bool) : bool :=
  existsb (fun d => String.eqb (od_Name d) n && p d) decls.
Definition is_string (d : option_decl) : bool := match od_Type d with OptionString => true | _ => false end.
Definition is_integer (d : option_decl) : bool := match od_Type d with OptionInteger => true | _ => false end.
Lemma declares_ok decls n p : declares decls n p = true -> exists d, d ∈ decls /\ od_Name d = n /\ p d = true.
Proof.
  intros (d & Hin & [Hn%String.eqb_eq Hp]%andb_true_iff)%existsb_exists. exists d.
  split; [by apply list_elem_of_In | done].
Qed.
Lemma has_argument decls (l : list O) n :
  well_typed decls l -> declares decls n od_Required = true -> options_of l !! n = None -> False.
Proof.
  intros [Hreq _] (d & Hd & <- & Hr)%declares_ok. destruct (Hreq d Hd Hr) as (o & Hin & <-).
  by destruct (options_of_has l o Hin) as [o' ->].
Qed.
Lemma string_argument decls (l : list O) n o :
  well_typed decls l -> declares decls n is_string = true -> options_of l !! n = Some o ->
  StringValue o = None -> False.
Proof.
  intros [_ Hty] (d & Hd & <- & Ht)%declares_ok [Hin Hn]%options_of_Some Hv.
  destruct (string_has_value o) as [s Hs]; [|congruence].
  rewrite (Hty d o Hd Hin Hn). unfold is_string in Ht. by destruct (od_Type d).
Qed.
Lemma integer_argument decls (l : list O) n o :
  well_typed decls l -> declares decls n is_integer = true -> options_of l !! n = Some o ->
  IntValue o = None -> False.
Proof.
  intros [_ Hty] (d & Hd & <- & Ht)%declares_ok [Hin Hn]%options_of_Some Hv.
  destruct (integer_has_value o) as [s Hs]; [|congruence].
  rewrite (Hty d o Hd Hin Hn). unfold is_integer in Ht. by destruct (od_Type d).
Qed.

(** Titles of refusals. *)
Definition refused_titles : list string := ["Validation Error"; "Unknown Command"; "Internal Error"]%string.
Definition accepted (e : MessageEmbed) : Prop := existsb (String.eqb (em_Title e)) refused_titles = false.
Lemma answer_accepted now title failed advice r :
  (forall d, accepted (errorEmbed Format now title d)) -> (forall d, accepted (errorEmbed Format now failed d)) ->
  accepted (answer Format now title failed advice r).
Proof. intros Ht Hf. destruct r; [apply (Ht ε) | apply Hf]. Qed.

(** Closes what is left after the steps, from the declarations. *)
Ltac declared Hty :=
  intros;
  solve [ done | congruence
        | exfalso; eapply (has_argument _ _ _ Hty); [|eassumption]; reflexivity
        | exfalso; match goal with Hv : StringValue ?o = None |- _ =>
            eapply (string_argument _ _ _ o Hty); [|eassumption|exact Hv]; reflexivity end
        | exfalso; match goal with Hv : IntValue ?o = None |- _ =>
            eapply (integer_argument _ _ _ o Hty); [|eassumption|exact Hv]; reflexivity end
        | apply answer_accepted; reflexivity ].

Lemma handle_command_accepts now b (l : list O) cmd :
  cmd ∈ slashCommands -> well_typed (ac_Options cmd) l -> bot_dispatcher b = true ->
  wp (queue_closed (W := W)) (handle_command client_count Format now b (ac_Name cmd) (options_of l)) accepted.
Proof.
  intros Hin Hty Hb. unfold slashCommands in Hin.
  repeat (apply elem_of_cons in Hin as [->|Hin]); [..|by apply elem_of_nil in Hin];
    cbn [ac_Options ac_Name] in *; cbv [handle_command String.eqb Ascii.eqb Bool.eqb];
    cbv [handleStatus handleNodes handleLogs handleResume handleInject handleRestart handleKill handleStart];
    repeat wp_step; try declared Hty.
  - eapply (wp_bind _ _ _ (fun _ => True)); [unfold log_limit; repeat wp_step; declared Hty|].
    intros. by apply wp_ret.
  - eapply (wp_bind _ _ _ (fun _ => True)); [unfold cost_period; repeat wp_step; declared Hty|].
    intros. repeat wp_step; [done|]. unfold accepted. by case_match.
Qed.

Lemma one_followup now b (w : W) (s : S) (i : Interaction O) :
  in_IsCommand i = true -> is_Ok (ds_Respond s (in_ID i)).2 = true ->
  exists w', handleInteraction client_count Format now b w s i =
    (w', (ds_Followup (ds_Respond s (in_ID i)).1 (in_ID i)
            (follow_up Format now
               (handle_command client_count Format now b (in_Name i) (options_of (in_Options i)) w).2)).1,
     [follow_up Format now (handle_command client_count Format now b (in_Name i) (options_of (in_Options i)) w).2]).
Proof.
  intros Hc Hr. unfold handleInteraction. rewrite Hc. destruct (ds_Respond s (in_ID i)) as [s' [[]|]]; [|done].
  destruct (handle_command _ _ _ _ _ _ w) as [w' o]. by exists w'.
Qed.

(** C26: what Discord lets users send is served: an interaction whose options fit
    the declaration its command was registered with is, once acknowledged,
    answered exactly once, and not with a validation error, an unknown command or
    the recovery from a panic; unless the handler's dispatch panicked, because the
    transport sent the command on a connection's queue that was closed: then the
    answer is the recovery's, for this cause and no other. *)
Theorem declared_interactions_accepted (now : Time.t) (b : DiscordBot) (w : W) (s : S) (i : Interaction O)
    (cmd : ApplicationCommand) :
  cmd ∈ slashCommands -> ac_Name cmd = in_Name i -> well_typed (ac_Options cmd) (in_Options i) ->
  in_IsCommand i = true -> is_Ok (ds_Respond s (in_ID i)).2 = true -> bot_dispatcher b = true ->
  exists w' e,
    handleInteraction client_count Format now b w s i =
      (w', (ds_Followup (ds_Respond s (in_ID i)).1 (in_ID i) e).1, [e]) /\
    match (handle_command client_count Format now b (in_Name i) (options_of (in_Options i)) w).2 with
    | Ok embed => e = embed /\ em_Title e ∉ refused_titles
    | Err cause =>
        e = recovery Format now /\
        exists w1 sent w2, cause = closed_queue sent /\ dispatch_panics w1 (Some dispatch_timeout) sent = Some w2
    end.
Proof.
  intros Hin Hn Hty Hc Hr Hb. destruct (one_followup now b w s i Hc Hr) as [w' Hi].
  pose proof (handle_command_accepts now b _ cmd Hin Hty Hb w) as Ha. rewrite Hn in Ha. eexists w', _.
  split; [exact Hi|]. destruct (handle_command _ _ _ _ _ _ w).2 as [e|c]; [|by split]. split; [done|].
  intros Hbad%list_elem_of_In. apply not_true_iff_false in Ha. apply Ha, existsb_exists.
  exists (em_Title e). simpl in *. by rewrite String.eqb_refl.
Qed.

Lemma followup_wp now b (w : W) (s : S) (i : Interaction O) (Q : MessageEmbed -> Prop) e :
  wp (W := W) (fun _ => True) (handle_command client_count Format now b (in_Name i) (options_of (in_Options i))) Q ->
  Q (recovery Format now) ->
  e ∈ (handleInteraction client_count Format now b w s i).2 -> Q e.
Proof.
  intros Hwp Hint. destruct (in_IsCommand i) eqn:Hc; [|unfold handleInteraction; rewrite Hc; by intros ?%elem_of_nil].
  destruct (is_Ok (ds_Respond s (in_ID i)).2) eqn:Hr.
  - destruct (one_followup now b w s i Hc Hr) as [w' ->]. intros ->%list_elem_of_singleton.
    specialize (Hwp w). by destruct (handle_command _ _ _ _ _ _ w).2.
  - unfold handleInteraction. rewrite Hc. destruct (ds_Respond s (in_ID i)) as [s' [|]]; [done|].
    by intros ?%elem_of_nil.
Qed.

(** What the embed of a dispatched command shows: a text of the bot's own and no
    fields, or the output and the status of a result without error, or a
    sanitized text and the status of one with an error. *)
Definition discreet (e : MessageEmbed) : Prop :=
  (em_Description e ∈ own_texts /\ em_Fields e = []) \/
  exists cmd r, dispatched (W := W) cmd (Ok r) /\
    em_Fields e = [mkField "Status" (cr_Status r) true; mkField "Command ID" (cr_CommandID r) true] /\
    (if str_empty (cr_Error r) then em_Description e = cr_Output r else em_Description e ∈ sanitized_texts).

Lemma own_discreet now title text : existsb (String.eqb text) own_texts = true -> discreet (errorEmbed Format now title text).
Proof.
  intros (x & Hin & ->%String.eqb_eq)%existsb_exists. left. split; [by apply list_elem_of_In | done].
Qed.
Lemma answer_discreet now title failed advice cmd r :
  dispatched (W := W) cmd r -> existsb (String.eqb advice) own_texts = true -> discreet (answer Format now title failed advice r).
Proof.
  intros Hd Ha. destruct r as [r|]; [|by apply own_discreet]. right. exists cmd, r. split_and!; [done | done|].
  simpl. destruct (str_empty (cr_Error r)); [done | apply sanitized].
Qed.
Lemma handle_command_discreet now b opts name :
  name ∈ dispatching -> wp (W := W) (fun _ => True) (handle_command client_count Format now b name opts) discreet.
Proof.
  intros Hin. unfold dispatching in Hin.
  repeat (apply elem_of_cons in Hin as [->|Hin]); [..|by apply elem_of_nil in Hin];
    cbv [handle_command String.eqb Ascii.eqb Bool.eqb];
    cbv [handleStatus handleResume handleInject handleRestart handleKill handleStart];
    repeat wp_step; try done; intros;
    solve [ by apply own_discreet | eapply answer_discreet; [eassumption | reflexivity] ].
Qed.

(** The bot keeps errors to itself: however the supervisor and the agents
    answer, and also when a handler panics, the follow-up to a command that is
    dispatched says one of the bot's own texts, the output of a result without
    an error, or a sanitized text; no error text of the program gets through. *)
Theorem bot_hides_error_texts (now : Time.t) (b : DiscordBot) (w : W) (s : S) (i : Interaction O)
    (e : MessageEmbed) :
  in_Name i ∈ dispatching -> e ∈ (handleInteraction client_count Format now b w s i).2 -> discreet e.
Proof.
  intros Hn. apply followup_wp; [by apply handle_command_discreet | by apply own_discreet].
Qed.
End Properties.

Section AgentProperties.
Import Bot BotFacts Adapter.
Context {S C F : Type} `{OpencodeSDK S C} `{FileSystem F} `{Semver} `{MapRange}
  `{Json command_output} `{Json sessionCommandResult}.
Context (h : Session.host C).
Notation run st now id cmd := (Session.executeSessionCommand h st now (at_agent id cmd)).

Lemma status_refused (st : Session.agent_state S C F) now id project :
  run st now id (status_command project) = (st, Err session_id_required).
Proof.
  unfold Session.executeSessionCommand, at_agent. simpl.
  unfold Session.with_session_id, readStringArg. simpl. by rewrite lookup_empty.
Qed.
Lemma resume_refused (st : Session.agent_state S C F) now id project message :
  run st now id (resume_command project message) = (st, Err session_id_required).
Proof.
  unfold Session.executeSessionCommand, at_agent. simpl.
  unfold Session.run_prompt, Session.with_session_id, readStringArg. simpl. by rewrite lookup_singleton_ne.
Qed.

(** C18: what the bot's commands come to at the agent.  [/inject] prompts and
    [/kill] kills the session that was named, [/start] makes a session of the
    project; but [/status] and [/resume] send no session id and are always
    refused, and [/restart] names no project, so that the session is killed and
    the new one is kept under the empty project, whichever project the old one
    was of. *)
Theorem bot_commands_at_the_agent (st : Session.agent_state S C F) (now : Time.t) (target : CommandTarget)
    (id project message sessionID : string) :
  sessionID <> ε -> message <> ε -> tgt_Project target = ε ->
  run st now id (inject_command target sessionID message) =
    Session.silent (Session.adapt st (PromptSession (Session.h_order h) sessionID message)) /\
  run st now id (kill_command target sessionID) =
    Session.silent (Session.adapt st (KillSession (Session.h_order h) sessionID)) /\
  run st now id (start_command project) =
    Session.adapt st (CreateSession (Session.h_order h) project ε) /\
  run st now id (status_command project) = (st, Err session_id_required) /\
  run st now id (resume_command project message) = (st, Err session_id_required) /\
  (let killed := (Session.adapt st (KillSession (Session.h_order h) sessionID)).1 in
   run st now id (restart_command target sessionID) =
     Session.adapt killed (CreateSession (Session.h_order h) ε "restart") /\
   forall st' new, run st now id (restart_command target sessionID) = (st', Ok new) ->
     sessionProjects (adapter (Session.sessions st')) !! new = Some ε).
Proof.
  intros Hs%str_empty_false Hm%str_empty_false Ht.
  assert (Hr : run st now id (restart_command target sessionID) =
    Session.adapt (Session.adapt st (KillSession (Session.h_order h) sessionID)).1
      (CreateSession (Session.h_order h) ε "restart")).
  { unfold Session.executeSessionCommand, at_agent. simpl. unfold Session.run_restart, readStringArg. simpl.
    rewrite lookup_singleton_eq, Hs, Ht. done. }
  split_and!; [| | done | apply status_refused | apply resume_refused | cbv zeta; split; [exact Hr|]].
  - unfold Session.executeSessionCommand, at_agent. simpl.
    unfold Session.run_prompt, Session.with_session_id, readStringArg. simpl.
    rewrite lookup_insert_ne, lookup_singleton_eq, lookup_insert_eq by done. by rewrite Hs, Hm.
  - unfold Session.executeSessionCommand, at_agent. simpl.
    unfold Session.with_session_id, readStringArg. simpl. by rewrite lookup_singleton_eq, Hs.
  - intros st' new. rewrite Hr. unfold Session.adapt at 1.
    destruct (CreateSession _ ε _ _) as [w' [x|]] eqn:Ec; [|done]. intros [= <- <-].
    by apply CreateSession_project in Ec.
Qed.

Context {W O D : Type} `{ApiParts W} `{DiscordOption O} `{DiscordSession D}.
Context (client_count : W -> Z) (Format : string -> Time.t -> string).

(** Neither [/status] nor [/resume] is ever answered with a success: where
    a dispatch returns a failure, a timeout, or what an agent answered to the
    command, the follow-up is an error, a failure or a timeout. *)
Theorem status_and_resume_never_succeed (errtext : command_error -> string) (now : Time.t) (b : DiscordBot)
    (w : W) (s : D) (i : Interaction O) (e : MessageEmbed) :
  (forall w cmd r, (dispatch_command w (Some dispatch_timeout) cmd).2 = Ok r ->
     cr_Status r = CommandStatusFailure \/ cr_Status r = CommandStatusTimeout \/
     exists (st : Session.agent_state S C F) id now',
       r = as_result (Session.command_result errtext id now' (run st now' id cmd).2)) ->
  in_Name i ∈ ["status"; "resume"]%string ->
  e ∈ (handleInteraction client_count Format now b w s i).2 -> em_Color e <> colorSuccess.
Proof.
  intros Hans Hn Hin.
  assert (Hwp : wp (W := W) (fun _ => True) (handle_command client_count Format now b (in_Name i) (options_of (in_Options i)))
    (fun e => em_Color e <> colorSuccess)).
  { assert (Hcmd : forall title failed advice cmd r, dispatched (W := W) cmd r ->
      (forall (st : Session.agent_state S C F) id now', (run st now' id cmd).2 = Err session_id_required) ->
      em_Color (answer Format now title failed advice r) <> colorSuccess).
    { intros title failed advice cmd r [w0 Hr] Hrun. destruct r as [r|]; [|done]. simpl.
      symmetry in Hr. apply Hans in Hr as [-> | [-> | (st & id & now' & ->)]]; [done..|]. by rewrite Hrun. }
    repeat (apply elem_of_cons in Hn as [->|Hn]); [..|by apply elem_of_nil in Hn];
      cbv [handle_command String.eqb Ascii.eqb Bool.eqb]; cbv [handleStatus handleResume];
      repeat wp_step; try done; intros;
      (eapply Hcmd; [eassumption | intros; by rewrite ?status_refused, ?resume_refused]). }
  by apply (followup_wp client_count Format now b w s i (fun e => em_Color e <> colorSuccess) e Hwp).
Qed.
End AgentProperties.

Section Lifecycle.
Import Bot.
Context {S : Type} `{DiscordSessionLaws S}.

Lemma register_commands_ok appID guild cmds : forall (s s' : S) ids,
  register_commands appID guild s cmds = (s', ids) ->
  handlers s' = handlers s /\ registered s' = list_to_set ids ∪ registered s.
Proof.
  induction cmds as [|cmd cmds IH]; intros s s' ids; simpl; [intros [= <- <-]; set_solver|].
  destruct (ds_CommandCreate s appID guild cmd) as [s1 r] eqn:Ec. apply create_ok in Ec as [Hh Hr].
  destruct r as [id|e]; [|intros [-> ->]%IH; by rewrite Hh, Hr].
  destruct (register_commands appID guild s1 cmds) as [s2 ids'] eqn:Er. intros [= <- <-].
  apply IH in Er as [-> ->]. rewrite Hh, Hr. split; [done|]. simpl. set_solver.
Qed.
Lemma delete_commands_ok appID guild ids : forall s : S,
  (forall s id, is_Ok (ds_CommandDelete s appID guild id).2 = true) ->
  handlers (delete_commands appID guild s ids) = handlers s /\
  registered (delete_commands appID guild s ids) = registered s ∖ list_to_set ids.
Proof.
  unfold delete_commands. induction ids as [|id ids IH]; intros s Hok; simpl; [set_solver|].
  destruct (IH (ds_CommandDelete s appID guild id).1 Hok) as [-> ->].
  specialize (Hok s id). destruct (ds_CommandDelete s appID guild id) as [s1 r] eqn:Ec.
  apply delete_ok in Ec as [Hh Hr]. simpl in *. rewrite Hh, Hr. destruct r; [|done]. split; [done|]. set_solver.
Qed.

(** [Stop] undoes [Start]: the commands that were created are deleted, the
    handler is removed, and the bot runs no more unless the session failed to
    close, in which case it can be stopped again. *)
Theorem stop_undoes_start (b b1 b2 : DiscordBot) (s s1 s' s2 : S) (r : res bot_error ()) :
  Start b s = (b1, s1, Ok ()) -> handlers s' = handlers s1 -> registered s' = registered s1 ->
  (forall s guild app id, is_Ok (ds_CommandDelete s app guild id).2 = true) ->
  Stop b1 s' = (b2, s2, r) ->
  handlers s2 = handlers s /\ registered s2 = registered s ∖ list_to_set (commandIDs b1) /\
  commandIDs b2 = [] /\ (running b2 = false <-> r = Ok ()).
Proof.
  intros Hstart Hh Hr Hdel Hstop. unfold Start in Hstart. destruct (running b) eqn:Erun; [done|].
  destruct (ds_AddHandler s) as [sa hd] eqn:Ea. apply add_handler_ok in Ea as (Hnew & Hha & Hra).
  pose proof (open_keeps sa) as [Hho Hro]. destruct (ds_Open sa) as [so [[]|]]; [|done]. simpl in Hho, Hro.
  destruct (register_commands _ _ so slashCommands) as [sr ids] eqn:Er. injection Hstart as <- <-.
  apply register_commands_ok in Er as [Hhr Hrr].
  unfold Stop in Hstop. simpl in Hstop.
  destruct (delete_commands_ok (default ε (ds_AppID s')) (guildID b) ids s' (fun s => Hdel s _ _)) as [Hhd Hrd].
  set (sd := delete_commands _ _ s' ids) in *.
  pose proof (remove_handler_ok sd hd) as [Hhm Hrm]. set (sm := ds_RemoveHandler sd hd) in *.
  pose proof (close_keeps sm) as [Hhc Hrc]. destruct (ds_Close sm) as [sc [[]|e]];
    injection Hstop as <- <- <-; simpl in *; rewrite Hhc, Hrc, Hhm, Hrm, Hhd, Hrd, Hh, Hr, Hhr, Hrr, Hho, Hro, Hha, Hra;
    (split_and!; [set_solver | set_solver | done | by split]).
Qed.
End Lifecycle.

(** ** Witnesses: a supervisor with one agent, and two options *)
Module BotWitness.
Import Bot SessionWitness AdapterWitness ProvisionWitness.
#[local] Existing Instance sorted_range.

Definition agent := Session.agent_state (Z * bool) string ProvisionWitness.tree.
Definition answered (w : agent) (cmd : Command) : agent * CommandResult :=
  let '(st, outcome) := Session.executeSessionCommand demo_host w 7 (at_agent "c1" cmd) in
  (st, as_result (Session.command_result errtext "c1" 7 outcome)).
#[export] Instance agent_parts : ApiParts agent := {
  tracker_sessions _ := [];
  registry_nodes _ := [];
  get_session w _ := (w, Err lookup_not_found);
  get_node w _ := (w, Err lookup_not_found);
  get_auth_state w _ := (w, ∅);
  dispatch_command w _ cmd := let '(w, r) := answered w cmd in (w, Ok r);
  dispatch_panics w _ cmd := if String.eqb (tgt_Project (cmd_Target cmd)) "leaving" then Some w else None;
  query_rows _ _ _ := Ok [];
  ping_db _ := Ok ();
  cost_report _ _ _ := Err "no costs"%string;
  log_command w _ _ _ _ _ _ := w }.
(** An option is a name and a string. *)
#[export] Instance demo_option : DiscordOption (string * string) := {
  opt_Name := fst; opt_Type _ := OptionString; StringValue o := Some o.2; IntValue _ := None }.
#[export] Instance demo_option_laws : DiscordOptionLaws (string * string).
Proof. split; [eauto | done]. Defined.
(** A session that keeps the follow-ups. *)
#[export] Instance demo_session : DiscordSession (list MessageEmbed) := {
  ds_AddHandler s := (s, 0%nat); ds_RemoveHandler s _ := s;
  ds_Open s := (s, Ok ()); ds_Close s := (s, Ok ());
  ds_CommandCreate s _ _ cmd := (s, Ok (ac_Name cmd)); ds_CommandDelete s _ _ _ := (s, Ok ());
  ds_Respond s _ := (s, Ok ()); ds_Followup s _ e := (s ++ [e], Ok ()); ds_AppID _ := Some "bot"%string }.

Definition fmt (layout : string) (t : Time.t) : string := Itoa t.
Definition bot : DiscordBot := mkBot "g" true true true true [] true (Some 0%nat).
Definition say (name : string) (l : list (string * string)) : Interaction (string * string) := mkInteraction "i1" true name l.
Definition react (name : string) (l : list (string * string)) :=
  handleInteraction (fun _ => 1) fmt 5 bot st0 [] (say name l).

Definition status_says : MessageEmbed :=
  mkEmbed "Status: p" "An error occurred while processing the command." colorFailure
    [mkField "Status" "failure" true; mkField "Command ID" "c1" true] "7".
Example status_refused_here : (react "status" [("project", "p")]%string).2 = [status_says].
Proof. vm_compute. reflexivity. Qed.
Example started_here : (em_Color <$> (react "start" [("project", "p")]%string).2) = [colorSuccess].
Proof. vm_compute. reflexivity. Qed.

Definition resume : Interaction (string * string) := say "resume" [("project", "p"); ("message", "go")]%string.
Definition resume_decl : ApplicationCommand :=
  mkAppCommand "resume" "Resume a project session with a message"
    [project_option; mkOption OptionString "message" "Message to send" true].
Lemma resume_typed : well_typed (ac_Options resume_decl) (in_Options resume).
Proof.
  split.
  - intros d Hd _. repeat (apply elem_of_cons in Hd as [->|Hd]); [..|by apply elem_of_nil in Hd].
    + exists ("project", "p")%string. split; [apply list_elem_of_here | done].
    + exists ("message", "go")%string. split; [apply list_elem_of_further, list_elem_of_here | done].
  - intros d o Hd _ _. by repeat (apply elem_of_cons in Hd as [->|Hd]); [..|apply elem_of_nil in Hd].
Qed.
Lemma declared_interactions_accepted_witness :
  exists w' e,
    handleInteraction (fun _ => 1) fmt 5 bot st0 [] resume = (w', (ds_Followup (S := list MessageEmbed) [] "i1" e).1, [e]) /\
    em_Title e ∉ refused_titles.
Proof.
  assert (Hin : resume_decl ∈ slashCommands) by (apply list_elem_of_In; vm_compute; tauto).
  destruct (declared_interactions_accepted (W := agent) (S := list MessageEmbed) (fun _ => 1) fmt 5 bot st0 [] resume resume_decl)
    as (w' & e & Hi & He); [exact Hin | reflexivity | exact resume_typed | reflexivity.. |].
  exists w', e. split; [exact Hi|]. exact (proj2 He).
Defined.
(** A command for a node whose connection is being dropped. *)
Example recovered_here : (react "status" [("project", "leaving")]%string).2 = [recovery fmt 5].
Proof. vm_compute. reflexivity. Qed.
Lemma bot_hides_error_texts_witness : discreet (W := agent) status_says.
Proof.
  apply (bot_hides_error_texts (O := string * string) (fun _ => 1) fmt 5 bot st0 [] (say "status" [("project", "p")]%string)).
  - left.
  - vm_compute. left.
Defined.
Lemma bot_commands_at_the_agent_witness :
  (Session.executeSessionCommand demo_host st0 7 (at_agent "c1" (status_command "p"))) = (st0, Err session_id_required) /\
  forall new, (Session.executeSessionCommand demo_host st0 7 (at_agent "c1" (restart_command (mkTarget ε "n1") "s1"))).2 = Ok new ->
    Adapter.sessionProjects (Adapter.adapter (Session.sessions
      (Session.executeSessionCommand demo_host st0 7 (at_agent "c1" (restart_command (mkTarget ε "n1") "s1"))).1)) !! new = Some ε.
Proof.
  destruct (bot_commands_at_the_agent demo_host st0 7 (mkTarget ε "n1") "c1" "p" "m" "s1")
    as (_ & _ & _ & Hs & _ & _ & Hr); [discriminate | discriminate | reflexivity |].
  split; [exact Hs|]. intros new Hnew. apply Hr. rewrite <- Hnew.
  apply surjective_pairing.
Defined.
Lemma status_and_resume_never_succeed_witness : em_Color status_says <> colorSuccess.
Proof.
  apply (status_and_resume_never_succeed (O := string * string) demo_host (fun _ => 1) fmt errtext 5 bot st0 []
    (say "status" [("project", "p")]%string)).
  - intros w cmd r. simpl. unfold answered.
    destruct (Session.executeSessionCommand demo_host w 7 (at_agent "c1" cmd)) as [st o] eqn:Ex.
    intros [= <-]. right. right. exists w, "c1"%string, 7. by rewrite Ex.
  - left.
  - vm_compute. left.
Defined.
End BotWitness.
