(* ===== verification/Supervisor.v ===== *)
(** * Supervisor

    cmd/supervisor/main.go: the parts of the supervisor put together.  One registry,
    tracker, dispatcher and audit log are shared by the REST API and the Discord
    bot.  [parts] is their state, with the commands handed to the transport so far;
    it is an instance of [ApiParts], so that the handlers of [HttpApi] and
    [Discord] run over the definitions of [NodeRegistry], [SessionTracker],
    [Dispatcher] and [AuditLog].  What a command is answered by its node is an
    argument, as are the clock, read twice by a dispatch, and new ids; the rows of
    events and the costs of the database are read only, and arguments too.

    [input] is what comes from outside, a request or an interaction, and [runs] a
    sequence of them.  The theorems follow a slash command from Discord to the node
    of its session, and show what the shared audit log has in it. *)

From S2P Require Import Prelude GoStd SqlStore NodeRegistry SessionTracker Commands Dispatcher Cost Security AuditLog.
From S2P Require Import Health ToolAuth OAuth Metrics HttpApi Discord.

Module Assembled.
Import Dispatch.
Section Defs.
Context {DB TDB IDB ADB E : Type} `{KeyedTable DB NodeRow E} `{KeyedTable TDB SessionRow E} `{TimeText}.
Context `{KeyedTable IDB IdemRow E} `{!KeyedDelete IDB E} `{Json CommandResult} `{Json canonical}.
Context `{AuditTable ADB E} `{MapRange}.
Context (uuid_parse : string -> bool) (sha256_hex : string -> string) (errtext : registry_error E -> string)
  (disptext : dispatch_error E -> string) (sestext : session_error E -> string)
  (marshal : value -> res string string).
(** The order in which the maps of nodes and of sessions are ranged over. *)
Context (node_order : Registry.NodeRegistry DB -> list (string * NodeEntry))
  (session_order : Tracker.SessionTracker TDB -> list (string * TrackedSession)).
(** What a command sent to a node comes back with; new ids and the clock, by the
    number of those drawn before. *)
Context (reply : string -> Command -> res string (option CommandResult)) (new_uuid : nat -> string)
  (clock : nat -> Time.t).
(** The commands for which the transport finds the node's connection closed. *)
Context (crash : string -> Command -> bool).
Context (rows : string -> list sql_arg -> res string (list (option event_row))) (ping : res string ())
  (report : Time.t -> string -> res string CostReport).

Record parts := mkParts {
  pt_dispatcher : CommandDispatcher DB IDB;
  pt_tracker : Tracker.SessionTracker TDB;
  pt_audit : Audit.AuditLogger (DB := ADB);
  pt_sent : list (string * Command);
  pt_count : nat }.
(** The dispatcher has the tracker that the others have. *)
Definition dispatcher_now (p : parts) : CommandDispatcher DB IDB :=
  mkDispatcher (disp_db (pt_dispatcher p)) (disp_registry (pt_dispatcher p)) (Some (session_order (pt_tracker p))).
Definition with_registry_of (r : Registry.NodeRegistry DB) (p : parts) : parts :=
  mkParts (with_registry (pt_dispatcher p) r) (pt_tracker p) (pt_audit p) (pt_sent p) (pt_count p).

Definition dispatch_on (p : parts) (cmd : Command) : parts * res string CommandResult :=
  let '(d, r, sends) := DispatchCommand uuid_parse sha256_hex errtext node_order reply (new_uuid (pt_count p))
                          (clock (2 * pt_count p)%nat) (clock (2 * pt_count p + 1)%nat) (dispatcher_now p) cmd in
  (mkParts d (pt_tracker p) (pt_audit p) (pt_sent p ++ sends) (S (pt_count p)), res_map_err disptext r).
(** The dispatch as far as the transport, when that panics: the target has been
    looked up, the command handed over, and nothing is remembered. *)
Definition dispatch_crash (p : parts) (cmd : Command) : option parts :=
  let '(d, _, sends) := DispatchCommand uuid_parse sha256_hex errtext node_order (fun _ _ => Err ε) (new_uuid (pt_count p))
                          (clock (2 * pt_count p)%nat) (clock (2 * pt_count p + 1)%nat) (dispatcher_now p) cmd in
  match sends with
  | (node, sent) :: _ =>
      if crash node sent then Some (mkParts d (pt_tracker p) (pt_audit p) (pt_sent p ++ sends) (S (pt_count p))) else None
  | [] => None
  end.
Definition session_of (p : parts) (id : string) : parts * res lookup_error TrackedSession :=
  let '(t, r) := Tracker.GetSession (pt_tracker p) id in
  (mkParts (pt_dispatcher p) t (pt_audit p) (pt_sent p) (pt_count p),
   res_map_err (fun e => match e with
                         | SessionTracker.ErrSessionNotFound => lookup_not_found
                         | _ => lookup_failed (sestext e)
                         end) r).
(** [main] gives the dispatcher a registry; without one the source would panic. *)
Definition node_of (p : parts) (id : string) : parts * res lookup_error NodeEntry :=
  match disp_registry (pt_dispatcher p) with
  | None => (p, Err (lookup_failed ε))
  | Some r =>
      let '(r, n) := Registry.GetNode r id in
      (with_registry_of r p,
       res_map_err (fun e => match e with ErrNodeNotFound => lookup_not_found | _ => lookup_failed (errtext e) end) n)
  end.
Definition auth_of (p : parts) (id : string) : parts * gmap string NodeAuthState :=
  match disp_registry (pt_dispatcher p) with
  | None => (p, ∅)
  | Some r => let '(r, m) := Registry.GetAuthState r id in (with_registry_of r p, m)
  end.
Definition audit_on (p : parts) (now : Time.t) (cmd : Command) (result : option CommandResult)
    (actor ipAddr : string) (duration : Z) : parts :=
  mkParts (pt_dispatcher p) (pt_tracker p)
    (Audit.LogCommand marshal (pt_audit p) (new_uuid (pt_count p)) now cmd result actor ipAddr duration)
    (pt_sent p) (S (pt_count p)).
#[export] Instance assembled : ApiParts parts := {
  tracker_sessions p := session_order (pt_tracker p);
  registry_nodes p := match disp_registry (pt_dispatcher p) with Some r => node_order r | None => [] end;
  get_session := session_of;
  get_node := node_of;
  get_auth_state := auth_of;
  dispatch_command p _ cmd := dispatch_on p cmd;
  dispatch_panics p _ cmd := dispatch_crash p cmd;
  query_rows _ := rows;
  ping_db _ := ping;
  cost_report _ := report;
  log_command := audit_on }.

(** ** The program

    [main_parts]: what [main] makes before it starts anything, over databases that
    were opened and migrated.  [main_api]: the API, with the audit log, and the hub
    and the health checker that [SetHTTPAPI] of the server gives it. *)
Definition main_parts (db : DB) (tdb : TDB) (idb : IDB) (adb : ADB) : parts :=
  let tracker := Tracker.NewSessionTracker tdb in
  mkParts (mkDispatcher (Some idb) (Some (Registry.NewNodeRegistry db)) (Some (session_order tracker)))
    tracker (Some adb) [] 0.
Definition main_api (token : string) (hc : parts -> HealthChecker) (p : parts) : HTTPAPI parts :=
  Api.SetHealthChecker hc (Api.SetHub (Api.SetAuditLogger (Api.NewHTTPAPI (Metric.InitMetrics Metric.fresh).1 p true true token))).
Definition main_bot (connect : string -> res string ()) (token guild : string) : res Bot.bot_error DiscordBot :=
  Bot.NewDiscordBot connect token guild true true true true.
End Defs.
Arguments parts : clear implicits.

(** ** What comes from outside

    The decoders of the requests are arguments. *)
Section Inputs.
Context {W O S : Type} `{ApiParts W} `{TimeText} `{MapRange} `{DiscordOption O} `{DiscordSession S}.
Context (encodes : body -> bool) (decode_command : string -> res string commandRequest)
  (decode_push : string -> res string pushRequest) (decode_oauth : string -> res string oauthTriggerRequest)
  (decode_object : string -> res string (gmap string value)) (decode_result : string -> res string OAuthResult).
Context (client_count : W -> Z) (Format : string -> Time.t -> string) (b : DiscordBot).
Inductive input :=
  | Request (rq : HttpRequest)
  | Interacts (now : Time.t) (i : Interaction O).
Definition react (st : HTTPAPI W * S) (x : input) : HTTPAPI W * S :=
  let '(a, s) := st in
  match x with
  | Request rq =>
      ((Api.Handler encodes decode_command decode_push decode_oauth decode_object decode_result a rq).1, s)
  | Interacts now i =>
      let '(p, s, _) := Bot.handleInteraction client_count Format now b (api_world a) s i in
      (Api.with_world p a, s)
  end.
Definition runs (st : HTTPAPI W * S) (xs : list input) : HTTPAPI W * S := foldl react st xs.
End Inputs.
Arguments input : clear implicits.
End Assembled.

(** ** Lemmas

    A handler of the bot touches the state only by what [get_session] and
    [dispatch_command] do to it; the same holds of every route but the push. *)
Module AssembledFacts.
Import Assembled.
(** *** The routes of commands *)
Section Posts.
Context {W : Type}.
Implicit Types a : HTTPAPI W.
Definition commands_path : list string := ["api"; "v1"; "commands"]%string.
Definition push_path : list string := ["api"; "v1"; "commands"; "credentials"; "push"]%string.
Definition posts : list (list string * Api.endpoint) :=
  [(commands_path, Api.ECommand); (push_path, Api.ECredentialPush)].
Lemma match_literal l path vs : Api.match_path (Api.Lit <$> l) path = Some vs -> path = l /\ vs = [].
Proof.
  revert path. induction l as [|x l IH]; intros [|y path]; simpl; try done; [by intros [= <-]|].
  destruct (String.eqb_spec x y) as [<-|]; [|done]. by intros [-> ->]%IH.
Qed.
Lemma match_itself l : Api.match_path (Api.Lit <$> l) l = Some [].
Proof. induction l as [|x l IH]; [done|]. simpl. by rewrite String.eqb_refl. Qed.
Lemma post_route_only a rq l e auth values :
  (l, e) ∈ posts -> Api.find_route rq (Api.routes a) = Some (e, auth, values) ->
  hq_Method rq = "POST"%string /\ hq_Segments rq = l.
Proof.
  intros Hl (r & Hin & Hm)%ApiFacts.find_route_Some. unfold Api.match_route in Hm.
  destruct (Api.match_method _ _) eqn:Em; [|done].
  destruct (Api.match_path (Api.rt_Path r) (hq_Segments rq)) as [vs|] eqn:Ep; [|done]. injection Hm as He _ _.
  assert (r = Api.mkRoute "POST" (Api.Lit <$> l) true e) as ->.
  { unfold Api.routes in Hin. apply list_elem_of_In in Hin, Hl. simpl in Hin, Hl.
    destruct (api_hub a), Hl as [[= <- <-]|[[= <- <-]|[]]]; simpl in Hin; repeat destruct Hin as [<-|Hin]; by simpl in He. }
  apply ApiFacts.match_method_true in Em as [Em | [? _]]; [|done]. simpl in Em. split; [done|].
  by destruct (match_literal _ _ _ Ep).
Qed.
Lemma post_route_found a rq l e :
  (l, e) ∈ posts -> hq_Method rq = "POST"%string -> hq_Segments rq = l ->
  Api.find_route rq (Api.routes a) = Some (e, true, []).
Proof.
  intros Hl Hm Hs.
  rewrite (ApiFacts.find_route_apart rq _ (Api.mkRoute "POST" (Api.Lit <$> l) true e) (e, true, []));
    [done | apply ApiFacts.routes_apart | |].
  - apply list_elem_of_In. unfold Api.routes. apply in_or_app. right. apply in_or_app. left.
    apply list_elem_of_In in Hl. simpl in Hl |- *. destruct Hl as [[= <- <-]|[[= <- <-]|[]]]; simpl; tauto.
  - unfold Api.match_route. rewrite Hm, Hs. cbn [Api.rt_Method Api.rt_Path]. by rewrite match_itself.
Qed.
End Posts.

Section Keeps.
Context {W A : Type} `{ApiParts W} `{TimeText} `{MapRange} (view : W -> A).
Hypothesis get_session_keeps : forall w id, view (get_session w id).1 = view w.
Hypothesis get_node_keeps : forall w id, view (get_node w id).1 = view w.
Hypothesis get_auth_state_keeps : forall w id, view (get_auth_state w id).1 = view w.
Hypothesis dispatch_command_keeps : forall w d cmd, view (dispatch_command w d cmd).1 = view w.
Hypothesis dispatch_panics_keeps : forall w d cmd w', dispatch_panics w d cmd = Some w' -> view w' = view w.

Definition keeps {B} (m : Bot.P W B) : Prop := forall w, view (m w).1 = view w.
Lemma keeps_ret {B} (x : B) : keeps (Bot.ret x).
Proof. done. Qed.
Lemma keeps_must {B} (o : option B) : keeps (Bot.must o).
Proof. by destruct o. Qed.
Lemma keeps_reads {B} (f : W -> B) : keeps (Bot.reads f).
Proof. done. Qed.
Lemma keeps_state {B} (f : W -> W * B) : (forall w, view (f w).1 = view w) -> keeps (Bot.state f).
Proof. intros Hf w. unfold Bot.state. rewrite <- (Hf w). by destruct (f w). Qed.
Lemma keeps_bind {B C} (m : Bot.P W B) (k : B -> Bot.P W C) :
  keeps m -> (forall x, keeps (k x)) -> keeps (Bot.bind m k).
Proof.
  intros Hm Hk w. unfold Bot.bind. rewrite <- (Hm w). destruct (m w) as [w' [x|]]; [apply Hk | done].
Qed.
Context {O S : Type} `{DiscordOption O} `{DiscordSession S}.
Context (client_count : W -> Z) (Format : string -> Time.t -> string) (now : Time.t) (b : DiscordBot).
Lemma keeps_dispatch cmd : keeps (Bot.dispatch b cmd).
Proof.
  unfold Bot.dispatch. destruct (bot_dispatcher b); [|done]. intros w.
  destruct (dispatch_panics w _ cmd) as [w'|] eqn:Ep; [by eapply dispatch_panics_keeps|].
  rewrite <- (dispatch_command_keeps w (Some Bot.dispatch_timeout) cmd). unfold Bot.state. by destruct (dispatch_command w _ cmd).
Qed.
Lemma keeps_target (o : O) : keeps (Bot.session_target b o).
Proof.
  unfold Bot.session_target. destruct (bot_tracker b); [|done].
  apply keeps_bind; [apply keeps_must|]. intros id. apply keeps_bind; [|done]. apply keeps_state. auto.
Qed.
Lemma keeps_required (opts : gmap string O) name k :
  (forall o, keeps (k o)) -> keeps (Bot.required Format now opts name k).
Proof. intros Hk. unfold Bot.required. by destruct (opts !! name). Qed.

Lemma handle_command_keeps name (opts : gmap string O) : keeps (Bot.handle_command client_count Format now b name opts).
Proof.
  unfold Bot.handle_command, Bot.handleStatus, Bot.handleNodes, Bot.handleLogs, Bot.handleResume, Bot.handleInject,
    Bot.handleRestart, Bot.handleKill, Bot.handleStart, Bot.handleCost, Bot.log_limit, Bot.cost_period.
  repeat first [apply keeps_ret | apply keeps_must | apply keeps_reads | apply keeps_dispatch | apply keeps_target
    | (apply keeps_state; auto) | (apply keeps_required; intros ?) | (apply keeps_bind; [|intros ?]) | case_match].
Qed.
Lemma handleInteraction_keeps w (s : S) (i : Interaction O) :
  view (Bot.handleInteraction client_count Format now b w s i).1.1 = view w.
Proof.
  unfold Bot.handleInteraction. destruct (negb _); [done|]. destruct (ds_Respond s (in_ID i)) as [s' [|]]; [|done].
  pose proof (handle_command_keeps (in_Name i) (Bot.options_of (in_Options i)) w) as Hk.
  by destruct (Bot.handle_command _ _ _ _ _ _ w).
Qed.

Context (encodes : body -> bool) (decode_command : string -> res string commandRequest)
  (decode_push : string -> res string pushRequest) (decode_oauth : string -> res string oauthTriggerRequest)
  (decode_object : string -> res string (gmap string value)) (decode_result : string -> res string OAuthResult).
Implicit Types a : HTTPAPI W.
Notation serve := (Api.serve encodes decode_command decode_push decode_oauth decode_object decode_result).
Lemma project_keeps t a v : view (api_world (Api.handleProject encodes decode_object t a v).1) = view (api_world a).
Proof.
  unfold Api.handleProject, Api.dispatchJSONCommand. destruct (negb _); [done|]. case_match; [done|].
  set (cmd := mkCommand _ _ _ _ _ _). rewrite <- (dispatch_command_keeps (api_world a) (Some (Api.deadline_of cmd)) cmd).
  destruct (dispatch_command _ _ cmd) as [w [r|e]]; simpl; [|done]. go_case; done.
Qed.
Lemma oauth_keeps a rq :
  view (api_world (Api.handleOAuthTrigger encodes decode_oauth decode_result a rq).1) = view (api_world a).
Proof.
  unfold Api.handleOAuthTrigger, OAuth.TriggerOAuth. go_case; try done.
  all: match goal with E : dispatch_command _ _ ?cmd = _ |- _ =>
         rewrite <- (dispatch_command_keeps (api_world a) None cmd), E; done end.
Qed.
Lemma command_keeps a rq :
  view (api_world (Api.handleCommand encodes decode_command a rq).1) = view (api_world a).
Proof.
  unfold Api.handleCommand. go_case; try done.
  all: match goal with E : dispatch_command _ _ ?cmd = _ |- _ =>
         rewrite <- (dispatch_command_keeps (api_world a) (Some (Api.deadline_of cmd)) cmd), E; done end.
Qed.
Lemma serve_keeps e values a rq :
  e <> Api.ECredentialPush -> view (api_world (serve e values a rq).1) = view (api_world a).
Proof.
  intros He. destruct e; try done; cbn [Api.serve]; try apply project_keeps; try apply oauth_keeps; try apply command_keeps.
  - unfold Api.handleGetSession. rewrite <- (get_session_keeps (api_world a) (Api.PathValue values "id")).
    by destruct (get_session _ _).
  - unfold Api.handleGetNode. rewrite <- (get_node_keeps (api_world a) (Api.PathValue values "id")).
    by destruct (get_node _ _).
  - unfold Api.handleNodeAuth. rewrite <- (get_node_keeps (api_world a) (Api.PathValue values "id")).
    destruct (get_node _ _) as [w [n|[|]]]; [|done..]. simpl. rewrite <- (get_auth_state_keeps w (Api.PathValue values "id")).
    by destruct (get_auth_state _ _).
Qed.
End Keeps.
End AssembledFacts.

(** ** Properties *)
Section Properties.
Import Dispatch Registry RegistryFacts DispatchFacts Assembled AssembledFacts Bot BotFacts.
Context {DB TDB IDB ADB E : Type} `{KeyedTable DB NodeRow E} `{!KeyedTableLaws DB NodeRow E}
  `{KeyedTable TDB SessionRow E} `{TimeTextLaws}.
Context `{KeyedTable IDB IdemRow E} `{!KeyedDelete IDB E} `{Json CommandResult} `{Json canonical}.
Context `{AuditTable ADB E} `{MapRange}.
Context (uuid_parse : string -> bool) (sha256_hex : string -> string) (errtext : registry_error E -> string)
  (disptext : dispatch_error E -> string) (sestext : session_error E -> string)
  (marshal : value -> res string string).
Context (node_order : NodeRegistry DB -> list (string * NodeEntry))
  (session_order : Tracker.SessionTracker TDB -> list (string * TrackedSession)).
Context (reply : string -> Command -> res string (option CommandResult)) (new_uuid : nat -> string)
  (clock : nat -> Time.t) (crash : string -> Command -> bool).
Context (rows : string -> list sql_arg -> res string (list (option event_row))) (ping : res string ())
  (report : Time.t -> string -> res string CostReport).
Notation whole := (parts DB TDB IDB ADB).
#[local] Instance here : ApiParts whole :=
  assembled uuid_parse sha256_hex errtext disptext sestext marshal node_order session_order reply new_uuid clock
    crash rows ping report.
Notation dispatch_crash := (dispatch_crash uuid_parse sha256_hex errtext node_order session_order new_uuid clock crash).
Notation dispatch_on := (dispatch_on uuid_parse sha256_hex errtext disptext node_order session_order reply new_uuid clock).
Notation session_of := (session_of sestext).
Implicit Types p : whole.

(** A command without id and key for a node that is online is handed to it,
    whatever it is answered. *)
Lemma sent_to_node answer p (r : NodeRegistry DB) node n t args :
  disp_registry (pt_dispatcher p) = Some r -> registry_inv r ->
  (GetNode r node).2 = Ok n -> node_Status n = NodeStatusOnline -> node <> ε -> ParseCommandIntent t = Ok t ->
  let cmd := bot_command t (mkTarget ε node) args in
  (DispatchCommand uuid_parse sha256_hex errtext node_order answer (new_uuid (pt_count p)) (clock (2 * pt_count p)%nat)
     (clock (2 * pt_count p + 1)%nat) (dispatcher_now session_order p) cmd).2 =
  [(node, set_id_type (new_uuid (pt_count p)) t cmd)].
Proof.
  intros Hr Hinv Hg Hs Hne%str_empty_false Ht cmd. unfold DispatchCommand.
  change (cmd_Type cmd) with t. rewrite Ht. cbn [cmd cmd_CommandID cmd_IdempotencyKey bot_command str_empty negb andb set_id_type].
  unfold dispatchToTarget, resolveTarget. cbn [dispatcher_now disp_registry]. rewrite Hr.
  change (tgt_NodeID (cmd_Target _)) with node. rewrite Hne. cbn [negb].
  pose proof (GetNode_spec r node Hinv) as Hsp. destruct (GetNode r node) as [r' [m|e]]; [|done].
  simpl in Hg. injection Hg as ->. destruct Hsp as (_ & _ & _ & Hid).
  rewrite Hs, String.eqb_refl. cbn [negb]. rewrite Hid. reflexivity.
Qed.

(** Whether the transport panics over it or not, the command was handed to it. *)
Lemma dispatch_sent b p cmd x :
  bot_dispatcher b = true ->
  (forall answer, (DispatchCommand uuid_parse sha256_hex errtext node_order answer (new_uuid (pt_count p))
     (clock (2 * pt_count p)%nat) (clock (2 * pt_count p + 1)%nat) (dispatcher_now session_order p) cmd).2 = [x]) ->
  pt_sent (dispatch b cmd p).1 = pt_sent p ++ [x].
Proof.
  intros Hb Hsent. unfold dispatch. rewrite Hb. cbn [dispatch_panics here assembled]. unfold Assembled.dispatch_crash.
  pose proof (Hsent (fun _ _ => Err ε)) as Hcrash. destruct (DispatchCommand _ _ _ _ (fun _ _ => _) _ _ _ _ _) as [[d r] sends].
  cbn [snd] in Hcrash. subst sends. destruct x as [node c]. destruct (crash node c); [done|].
  unfold state. cbn [dispatch_command here assembled]. unfold Assembled.dispatch_on.
  specialize (Hsent reply). by destruct (DispatchCommand _ _ _ _ reply _ _ _ _ _) as [[d' r'] sends]; cbn [snd] in Hsent; subst.
Qed.

Context {O S : Type} `{DiscordOption O} `{DiscordSession S}.
Context (client_count : whole -> Z) (Format : string -> Time.t -> string).

(** C17: [/kill] and [/restart] through the whole supervisor: for a session the
    tracker knows, on a node that is registered and online, exactly one command
    is handed to the transport, for that node, of the right type and with the
    session's id, and the user gets exactly one answer, also when the transport
    panics over the command. *)
Theorem bot_command_reaches_the_sessions_node (now : Time.t) (b : DiscordBot) (p p' : whole) (s s' : S)
    (i : Interaction O) (o : O) (id : string) (x : TrackedSession) (r : NodeRegistry DB) (n : NodeEntry)
    (answers : list MessageEmbed) :
  bot_dispatcher b = true -> bot_tracker b = true -> in_IsCommand i = true ->
  is_Ok (ds_Respond s (in_ID i)).2 = true -> in_Name i ∈ ["kill"; "restart"]%string ->
  options_of (in_Options i) !! "session_id"%string = Some o -> StringValue o = Some id ->
  (Tracker.GetSession (pt_tracker p) id).2 = Ok x -> ses_NodeID x <> ε ->
  disp_registry (pt_dispatcher p) = Some r -> registry_inv r ->
  (GetNode r (ses_NodeID x)).2 = Ok n -> node_Status n = NodeStatusOnline ->
  handleInteraction client_count Format now b p s i = (p', s', answers) ->
  let target := mkTarget ε (ses_NodeID x) in
  let cmd := if String.eqb (in_Name i) "kill" then kill_command target id else restart_command target id in
  pt_sent p' = pt_sent p ++
    [(ses_NodeID x, set_id_type (new_uuid (pt_count p)) (cmd_Type cmd) cmd)] /\
  length answers = 1%nat.
Proof.
  intros Hb Ht Hc Hresp Hname Ho Hv Hsession Hnode Hr Hinv Hg Hs Hi target cmd.
  assert (Hrun : (handle_command client_count Format now b (in_Name i) (options_of (in_Options i)) p).1 =
    (dispatch b cmd (session_of p id).1).1).
  { assert (Hses : session_of p id = ((session_of p id).1, Ok x)).
    { unfold session_of. destruct (Tracker.GetSession (pt_tracker p) id) as [t' y]. simpl in Hsession. by rewrite Hsession. }
    unfold cmd, target. repeat (apply elem_of_cons in Hname as [->|Hname]); [..|by apply elem_of_nil in Hname];
      cbv [handle_command String.eqb Ascii.eqb Bool.eqb]; cbv [handleKill handleRestart]; unfold required; rewrite Ho;
      unfold session_target; rewrite Ht, Hv; cbn [must]; unfold bind, ret, state;
      change (get_session p id) with (session_of p id); rewrite Hses; cbn [fst snd];
      match goal with |- context [dispatch b ?c ?q] => destruct (dispatch b c q) as [? []] end; done. }
  unfold handleInteraction in Hi. rewrite Hc in Hi. destruct (ds_Respond s (in_ID i)) as [s1 [|]]; [|done].
  cbn [negb] in Hi. destruct (handle_command _ _ _ _ _ _ p) as [p1 e]. injection Hi as <- _ <-.
  split; [|done]. cbn [fst] in Hrun. rewrite Hrun.
  assert (Hsame : pt_dispatcher (session_of p id).1 = pt_dispatcher p /\ pt_sent (session_of p id).1 = pt_sent p /\
    pt_count (session_of p id).1 = pt_count p) by (unfold session_of; by destruct (Tracker.GetSession _ _)).
  destruct Hsame as (Hd & Hsent & Hcount). rewrite <- Hsent, <- Hcount.
  assert (Hcmd : exists t args, cmd = bot_command t target args /\ ParseCommandIntent t = Ok t).
  { unfold cmd. destruct (String.eqb (in_Name i) "kill"); by do 2 eexists. }
  destruct Hcmd as (t & args & -> & Hp).
  apply dispatch_sent; [done|]. intros answer.
  apply (sent_to_node answer (session_of p id).1 r (ses_NodeID x) n t args); try done. by rewrite Hd.
Qed.

(** *** The audit log *)
Context (encodes : body -> bool) (decode_command : string -> res string commandRequest)
  (decode_push : string -> res string pushRequest) (decode_oauth : string -> res string oauthTriggerRequest)
  (decode_object : string -> res string (gmap string value)) (decode_result : string -> res string OAuthResult).
Notation runs b := (runs encodes decode_command decode_push decode_oauth decode_object decode_result client_count Format b).
Notation react b := (react encodes decode_command decode_push decode_oauth decode_object decode_result client_count Format b).
Notation LogCommand := (Audit.LogCommand marshal).

(** A request for the route of [handleCredentialPush]. *)
Definition is_push (x : input O) : bool :=
  match x with
  | Request rq => String.eqb (hq_Method rq) "POST" && bool_decide (hq_Segments rq = push_path)
  | Interacts _ _ => false
  end.
Lemma push_route_only (a : HTTPAPI whole) rq auth values :
  Api.find_route rq (Api.routes a) = Some (Api.ECredentialPush, auth, values) -> is_push (Request rq) = true.
Proof.
  intros [Hm Hs]%(post_route_only a rq push_path); [|by right; left]. simpl. by rewrite Hm, bool_decide_eq_true_2.
Qed.
(** Everything but the audit log's own writing leaves it alone. *)
Lemma lookups_keep_audit p id :
  pt_audit (session_of p id).1 = pt_audit p /\ pt_audit (node_of errtext p id).1 = pt_audit p /\
  pt_audit (auth_of p id).1 = pt_audit p.
Proof.
  unfold Assembled.session_of, node_of, auth_of. destruct (Tracker.GetSession _ _); split; [done|].
  destruct (disp_registry _) as [reg|]; [|done].
  by destruct (GetNode _ id), (GetAuthState _ id).
Qed.
Lemma dispatch_keeps_audit p cmd : pt_audit (dispatch_on p cmd).1 = pt_audit p.
Proof. unfold Assembled.dispatch_on. by destruct (DispatchCommand _ _ _ _ _ _ _ _ _ _) as [[d r] sends]. Qed.
Lemma crash_keeps_audit p cmd p' : dispatch_crash p cmd = Some p' -> pt_audit p' = pt_audit p.
Proof.
  unfold Assembled.dispatch_crash. destruct (DispatchCommand _ _ _ _ _ _ _ _ _ _) as [[d r] [|[node c] sends]]; [done|].
  by destruct (crash node c); [intros [= <-]|].
Qed.
Lemma react_keeps_audit b st x :
  is_push x = false -> pt_audit (api_world (react b st x).1) = pt_audit (api_world st.1).
Proof.
  intros Hx. destruct st as [a s], x as [rq|now i]; cbn [Assembled.react fst].
  - unfold Api.Handler. destruct (negb _ && _); [done|].
    destruct (Api.find_route rq (Api.routes a)) as [[[e auth] values]|] eqn:Ef; [|by case_match].
    assert (He : e <> Api.ECredentialPush) by (intros ->; apply push_route_only in Ef; congruence).
    assert (Hserve : pt_audit (api_world (Api.serve encodes decode_command decode_push decode_oauth decode_object
      decode_result e values a rq).1) = pt_audit (api_world a)).
    { apply (serve_keeps pt_audit); try done; try (intros; apply lookups_keep_audit). intros; apply dispatch_keeps_audit. }
    destruct auth; [|done]. unfold Api.requireAuth. by destruct (negb _).
  - pose proof (handleInteraction_keeps pt_audit (fun w id => proj1 (lookups_keep_audit w id))
      (fun w _ cmd => dispatch_keeps_audit w cmd) (fun w _ cmd => crash_keeps_audit w cmd) client_count Format now b (api_world a) s i) as Hk.
    by destruct (Bot.handleInteraction _ _ _ _ _ s i) as [[p' s'] es].
Qed.

(** C23: the audit log is the log of the credential pushes, of nothing else.  No
    run of requests and interactions without a request for the push route, whatever
    commands it dispatches, writes a line to it.  A push that is let in, decoded
    and valid writes one, with the client's address, whether it was dispatched,
    failed or was answered from the cache. *)
Theorem audit_log_has_the_pushes_only (b : DiscordBot) (st : HTTPAPI whole * S) (xs : list (input O))
    (rq : HttpRequest) (req : pushRequest) :
  (Forall (fun x => is_push x = false) xs ->
   pt_audit (api_world (runs b st xs).1) = pt_audit (api_world st.1)) /\
  (is_push (Request rq) = true -> hq_Clean rq = true -> Api.token_ok st.1 rq = true ->
   api_dispatcher st.1 = true -> api_audit st.1 = true -> decode_push (hq_Body rq) = Ok req ->
   is_Ok (CredentialPushPayload_Validate (Api.payload_of req) (range_of (pq_EnvVars req))) = true ->
   exists n result,
     pt_audit (api_world (react b st (Request rq)).1) =
       LogCommand (pt_audit (api_world st.1)) (new_uuid n) (hq_Now rq) (Api.command_of_push req) result "api"
         (hq_RemoteAddr rq) (hq_Elapsed rq)).
Proof.
  split.
  - intros Hxs. unfold Assembled.runs. revert st. induction Hxs as [|x xs Hx Hxs IH]; intros st; simpl; [done|].
    rewrite IH. by apply react_keeps_audit.
  - destruct st as [a s]. cbn [fst]. intros [Hm%String.eqb_eq Hp%bool_decide_eq_true]%andb_true_iff Hc Ht Hd Ha Hdec Hv.
    cbn [Assembled.react fst]. unfold Api.Handler. rewrite Hc. cbn [negb andb].
    rewrite (post_route_found a rq push_path Api.ECredentialPush) by (done || (right; left)).
    unfold Api.requireAuth. rewrite Ht. cbn [negb Api.serve]. unfold Api.handleCredentialPush.
    rewrite Hd, Hdec. cbn [negb]. destruct (CredentialPushPayload_Validate _ _) as [|]; [|done].
    assert (Hpush : exists r, (Api.push_result a req).2 = r /\
      pt_audit (api_world (Api.push_result a req).1) = pt_audit (api_world a) /\
      api_audit (Api.push_result a req).1 = true).
    { unfold Api.push_result. destruct (Api.credentialPushIdempotencyGet _ _); [eauto|].
      pose proof (dispatch_keeps_audit (api_world a) (Api.command_of_push req)) as Hk.
      change (dispatch_command (api_world a) _ ?c) with (dispatch_on (api_world a) c).
      destruct (dispatch_on (api_world a) _) as [w [r|e]]; [|eauto].
      exists (Ok r). unfold Api.credentialPushIdempotencySet. by repeat case_match. }
    destruct Hpush as (r & _ & Hk & Hau).
    destruct (Api.push_result a req) as [a' [res|e]]; cbn [fst] in *; unfold Api.audited; rewrite Hau; rewrite <- Hk; eauto.
Qed.
End Properties.

(** *** The metrics *)
Section CountProperties.
Import Assembled AssembledFacts Metric MetricFacts.
Context {W O S : Type} `{ApiParts W} `{TimeText} `{MapRange} `{DiscordOption O} `{DiscordSession S}.
Context (encodes : body -> bool) (decode_command : string -> res string commandRequest)
  (decode_push : string -> res string pushRequest) (decode_oauth : string -> res string oauthTriggerRequest)
  (decode_object : string -> res string (gmap string value)) (decode_result : string -> res string OAuthResult).
Context (client_count : W -> Z) (Format : string -> Time.t -> string) (b : DiscordBot).
Notation Handler := (Api.Handler encodes decode_command decode_push decode_oauth decode_object decode_result).
Notation runs := (runs encodes decode_command decode_push decode_oauth decode_object decode_result client_count Format b).
Notation react := (react encodes decode_command decode_push decode_oauth decode_object decode_result client_count Format b).
Implicit Types (st : HTTPAPI W * S) (xs : list (input O)).

(** The answers to the requests of a run, and how many of them answer a POST of a
    command with one of the given statuses. *)
Fixpoint answers st xs : list (HttpRequest * response) :=
  match xs with
  | [] => []
  | x :: xs =>
      (match x with Request rq => [(rq, (Handler st.1 rq).2)] | Interacts _ _ => [] end) ++ answers (react st x) xs
  end.
Definition is_command (rq : HttpRequest) : bool :=
  String.eqb (hq_Method rq) "POST" && bool_decide (hq_Segments rq ∈ posts.*1).
Definition tally (codes : list Z) (l : list (HttpRequest * response)) : nat :=
  length (filter (fun x => is_command x.1 = true /\ rs_Status x.2 ∈ codes) l).
Definition counted_as (l : list (HttpRequest * response)) (m0 m : Metrics) : Prop :=
  grown m0 m (tally [200; 500] l) (tally [500] l) (tally [200] l).
Lemma tally_app codes l1 l2 : tally codes (l1 ++ l2) = (tally codes l1 + tally codes l2)%nat.
Proof. unfold tally. by rewrite filter_app, length_app. Qed.
Lemma tally_one codes rq resp :
  tally codes [(rq, resp)] = if is_command rq && bool_decide (rs_Status resp ∈ codes) then 1%nat else 0%nat.
Proof.
  unfold tally. destruct (is_command rq) eqn:E1; simpl; [case_bool_decide as E2|].
  - by rewrite filter_cons_True.
  - rewrite filter_cons_False; [done|]. by intros [_ ?].
  - rewrite filter_cons_False; [done|]. simpl. rewrite E1. by intros [? _].
Qed.
Lemma is_command_route (a : HTTPAPI W) rq :
  if is_command rq
  then exists e, ApiFacts.counts e = true /\ Api.find_route rq (Api.routes a) = Some (e, true, [])
  else forall e auth values, Api.find_route rq (Api.routes a) = Some (e, auth, values) -> ApiFacts.counts e = false.
Proof.
  destruct (is_command rq) eqn:E.
  - apply andb_true_iff in E as [Hm%String.eqb_eq Hs%bool_decide_eq_true].
    apply list_elem_of_fmap in Hs as ([l e] & Hs & Hin). exists e. split.
    + apply list_elem_of_In in Hin. simpl in Hin. by destruct Hin as [[= <- <-]|[[= <- <-]|[]]].
    + by apply (post_route_found a rq l e).
  - intros e auth values Hf. destruct (ApiFacts.counts e) eqn:Ee; [|done].
    assert (exists l, (l, e) ∈ posts) as [l Hl].
    { destruct e; try done; [exists commands_path; left | exists push_path; right; left]. }
    destruct (post_route_only a rq l e auth values Hl Hf) as [Hm Hs]. unfold is_command in E.
    rewrite Hm, Hs, bool_decide_eq_true_2 in E; [done|]. apply list_elem_of_fmap. by exists (l, e).
Qed.
Lemma counted_grown m resp m' rq : is_command rq = true -> metrics_ok m ->
  ApiFacts.counted (Some m) resp m' -> exists m1, m' = Some m1 /\ counted_as [(rq, resp)] m m1.
Proof.
  intros Hc Hm Hcount. unfold counted_as. rewrite !tally_one, Hc. destruct Hcount as [t r d Hs|t Hs|Hs].
  - rewrite Hs. destruct (grown_done t (cr_Status r) (Float64.Seconds d) m Hm) as (m1 & E & Hg). by exists m1.
  - rewrite Hs. destruct (grown_failed t m Hm) as (m1 & E & Hg). by exists m1.
  - exists m. split; [done|]. rewrite !bool_decide_eq_false_2 by set_solver. by apply grown_refl.
Qed.
Lemma request_counted (a : HTTPAPI W) m rq : api_metrics a = Some m -> metrics_ok m ->
  exists m', api_metrics (Handler a rq).1 = Some m' /\ counted_as [(rq, (Handler a rq).2)] m m'.
Proof.
  intros Ha Hm. assert (Hstay : forall resp, rs_Status resp ∉ [200; 500] ->
    exists m', api_metrics a = Some m' /\ counted_as [(rq, resp)] m m').
  { intros resp Hr. exists m. split; [done|]. unfold counted_as. rewrite !tally_one, !bool_decide_eq_false_2 by set_solver.
    rewrite andb_false_r. by apply grown_refl. }
  unfold Api.Handler. destruct (negb _ && _); [apply Hstay; set_solver|].
  pose proof (is_command_route a rq) as Hroute. destruct (is_command rq) eqn:Ec.
  - destruct Hroute as (e & He & ->). unfold Api.requireAuth. destruct (negb _); [apply Hstay; set_solver|].
    pose proof (ApiFacts.serve_counts encodes decode_command decode_push decode_oauth decode_object decode_result
      e [] a rq) as Hs. rewrite He, Ha in Hs. by apply counted_grown.
  - assert (Hsame : forall r : HTTPAPI W * response, api_metrics r.1 = Some m ->
      exists m', api_metrics r.1 = Some m' /\ counted_as [(rq, r.2)] m m').
    { intros r Hr. exists m. split; [done|]. unfold counted_as. rewrite !tally_one, Ec. by apply grown_refl. }
    destruct (Api.find_route rq (Api.routes a)) as [[[e auth] values]|]; [|by case_match; apply Hstay; set_solver].
    specialize (Hroute e auth values eq_refl).
    pose proof (ApiFacts.serve_counts encodes decode_command decode_push decode_oauth decode_object decode_result
      e values a rq) as Hs. rewrite Hroute, Ha in Hs.
    destruct auth; [|by apply Hsame]. unfold Api.requireAuth. destruct (negb _); [apply Hstay; set_solver | by apply Hsame].
Qed.

(** C24: what the metrics say: after any run of requests and interactions, the
    commands counted are exactly the POSTs of commands and credential pushes that
    were answered 200 or 500, the errors counted those answered 500 and the
    durations those answered 200; nothing else was recorded, of the bot's commands
    as little as of events, connections, sessions or nodes; and every call was one
    that the client accepts. *)
Theorem metrics_count_the_posted_commands st xs (m0 : Metrics) :
  api_metrics st.1 = Some m0 -> metrics_ok m0 ->
  let l := answers st xs in
  exists m, api_metrics (runs st xs).1 = Some m /\ metrics_ok m /\
    count commands_total m = (count commands_total m0 + tally [200; 500]%Z l)%nat /\
    count errors_total m = (count errors_total m0 + tally [500]%Z l)%nat /\
    count command_duration m = (count command_duration m0 + tally [200]%Z l)%nat /\
    forall v, v ∉ [commands_total; errors_total; command_duration] -> count v m = count v m0.
Proof.
  intros Hst Hm. cbn zeta. enough (exists m, api_metrics (runs st xs).1 = Some m /\ counted_as (answers st xs) m0 m)
    as (m & Hr & [Hok Hc He Hd Ho]) by (by exists m).
  revert st m0 Hst Hm. unfold Assembled.runs. induction xs as [|x xs IH]; intros st m0 Hst Hm.
  { exists m0. split; [done|]. by apply grown_refl. }
  assert (exists m1, api_metrics (react st x).1 = Some m1 /\
    counted_as (match x with Request rq => [(rq, (Handler st.1 rq).2)] | Interacts _ _ => [] end) m0 m1) as (m1 & Hr1 & Hg1).
  { destruct st as [a s], x as [rq|now i]; cbn [Assembled.react fst]; [by apply request_counted|].
    exists m0. split; [by destruct (Bot.handleInteraction _ _ _ _ _ s i) as [[p' s'] es] | by apply grown_refl]. }
  destruct (IH (react st x) m1 Hr1 (gr_ok _ _ _ _ _ Hg1)) as (m2 & Hr2 & Hg2). exists m2. split; [done|].
  cbn [answers]. unfold counted_as. rewrite !tally_app. exact (grown_trans _ _ _ _ _ _ _ _ _ Hg1 Hg2).
Qed.
End CountProperties.

(** ** Witnesses: two nodes, two sessions, and a bot *)
Module SupervisorWitness.
Import Assembled Dispatch Registry RegistryFacts DispatcherWitness AuditWitness BotWitness.
#[local] Existing Instance sorted_range.

Notation one := (parts (mem_table NodeRow) (mem_table SessionRow) (mem_table IdemRow) (list AuditRow)).
Definition ids (n : nat) : string := String "u" (String (ascii_of_nat (48 + n)) ε).
Definition text {A} (_ : A) : string := "error".
Definition ticks (n : nat) : Time.t := Z.of_nat n.
Definition sessions_of (t : Tracker.SessionTracker (mem_table SessionRow)) := map_to_list (Tracker.sessions t).
#[export] Instance one_parts : ApiParts one :=
  assembled all_ids id text text text AuditWitness.marshal order sessions_of sent ids ticks
    (fun _ _ => false) (fun _ _ => Ok []) (Ok ()) (fun _ _ => Err "no costs"%string).

Definition started : one := main_parts sessions_of mem_empty mem_empty mem_empty [].
Definition p1 : one :=
  mkParts (with_registry (pt_dispatcher started) reg) TrackerWitness.tr1 (Some []) [] 4.
Definition api1 : HTTPAPI one := main_api "t0k" (fun _ => mkHealthChecker (Some (Ok ())) (Some 1%nat) true false) p1.
Definition n1 : NodeEntry := default (mkNodeEntry ε ε ε [] [] ε 0 0 ε 0 None 0) (nodes reg !! "n1"%string).

Definition kill : Interaction (string * string) := say "kill" [("session_id", "s1")]%string.
Lemma bot_command_reaches_the_sessions_node_witness :
  let '(p', _, answers) := Bot.handleInteraction (fun _ => 1) fmt 5 bot p1 ([] : list MessageEmbed) kill in
  pt_sent p' = [("n1"%string, set_id_type "u4" "kill_session" (Bot.kill_command (mkTarget ε "n1") "s1"))] /\
  length answers = 1%nat.
Proof.
  destruct (Bot.handleInteraction (fun _ => 1) fmt 5 bot p1 ([] : list MessageEmbed) kill) as [[p' s'] answers] eqn:Ei.
  assert (Hname : in_Name kill ∈ ["kill"; "restart"]%string) by left.
  assert (Hne : ses_NodeID TrackerWitness.cached <> ε) by discriminate.
  assert (Hs : (Tracker.GetSession (pt_tracker p1) "s1").2 = Ok TrackerWitness.cached) by (vm_compute; reflexivity).
  assert (Hn : (GetNode reg "n1").2 = Ok n1) by (vm_compute; reflexivity).
  assert (Hon : node_Status n1 = NodeStatusOnline) by (vm_compute; reflexivity).
  assert (Ho : Bot.options_of (in_Options kill) !! "session_id"%string = Some ("session_id", "s1")%string) by (vm_compute; reflexivity).
  exact (bot_command_reaches_the_sessions_node all_ids id text text text AuditWitness.marshal order sessions_of sent ids ticks
    (fun _ _ => false) (fun _ _ => Ok []) (Ok ()) (fun _ _ => Err "no costs"%string) (fun _ => 1) fmt 5 bot p1 p' [] s' kill
    ("session_id", "s1")%string "s1" TrackerWitness.cached reg n1 answers
    eq_refl eq_refl eq_refl eq_refl Hname Ho eq_refl Hs Hne eq_refl reg_inv Hn Hon Ei).
Defined.

Definition push_body : string := "push".
Definition pushed : pushRequest := mkPushRequest "n1" {[ "API_KEY" := "k" ]}%string 1 "key".
Definition push_rq : HttpRequest :=
  mkHttpRequest "POST" true ["api"; "v1"; "commands"; "credentials"; "push"]%string "Bearer t0k" (fun _ => ε)
    push_body "::1" 9 0.
Lemma audit_log_has_the_pushes_only_witness :
  let react := Assembled.react (S := list MessageEmbed) (fun _ => true) ApiWitness.no_json (fun _ => Ok pushed) ApiWitness.no_json
    ApiWitness.no_json ApiWitness.no_json (fun _ => 1) fmt bot in
  pt_audit (api_world (react (api1, []) (Interacts 5 kill)).1) = Some [] /\
  exists n result, pt_audit (api_world (react (api1, []) (Request push_rq)).1) =
    Audit.LogCommand AuditWitness.marshal (Some []) (ids n) 9 (Api.command_of_push pushed) result "api" "::1" 0.
Proof.
  destruct (audit_log_has_the_pushes_only all_ids id text text text AuditWitness.marshal order sessions_of sent ids ticks
    (fun _ _ => false) (fun _ _ => Ok []) (Ok ()) (fun _ _ => Err "no costs"%string) (fun _ => 1) fmt
    (fun _ => true) ApiWitness.no_json (fun _ => Ok pushed) ApiWitness.no_json
    ApiWitness.no_json ApiWitness.no_json bot (api1, []) [Interacts 5 kill] push_rq pushed) as [Hq Hp].
  split.
  - apply Hq. by repeat constructor.
  - apply Hp; vm_compute; reflexivity.
Defined.
Example one_line : length (default [] (pt_audit (api_world (Assembled.react (S := list MessageEmbed) (fun _ => true) ApiWitness.no_json
  (fun _ => Ok pushed) ApiWitness.no_json ApiWitness.no_json ApiWitness.no_json (fun _ => 1) fmt bot
  (api1, []) (Request push_rq)).1))) = 1%nat.
Proof. vm_compute. reflexivity. Qed.

(** A kill over the bot, a push, a repeated push and a listing: two commands. *)
Definition list_rq : HttpRequest :=
  mkHttpRequest "GET" true ["api"; "v1"; "sessions"]%string "Bearer t0k" (fun _ => ε) ε "::1" 9 0.
Definition inputs : list (input (string * string)) := [Interacts 5 kill; Request push_rq; Request push_rq; Request list_rq].
Definition counted_after : option Metric.Metrics :=
  api_metrics (Assembled.runs (S := list MessageEmbed) (fun _ => true) ApiWitness.no_json (fun _ => Ok pushed) ApiWitness.no_json
    ApiWitness.no_json ApiWitness.no_json (fun _ => 1) fmt bot (api1, []) inputs).1.
Lemma metrics_count_the_posted_commands_witness :
  exists m, counted_after = Some m /\ MetricFacts.metrics_ok m /\
    Metric.count Metric.commands_total m = 2%nat /\ Metric.count Metric.nodes_online m = 0%nat.
Proof.
  destruct (metrics_count_the_posted_commands (S := list MessageEmbed) (fun _ => true) ApiWitness.no_json (fun _ => Ok pushed)
    ApiWitness.no_json ApiWitness.no_json ApiWitness.no_json (fun _ => 1) fmt bot (api1, []) inputs Metric.initial
    eq_refl MetricFacts.initial_ok) as (m & Hm & Hok & Hc & _ & _ & Ho).
  exists m. split; [exact Hm|]. split; [exact Hok|]. split.
  - rewrite Hc. vm_compute. reflexivity.
  - rewrite Ho; [reflexivity|]. repeat (apply not_elem_of_cons; split; [discriminate|]). apply not_elem_of_nil.
Defined.
End SupervisorWitness.
