(* ===== verification/Daemons.v ===== *)
(** * Daemons

    cmd/supervisor/main.go and cmd/agent/main.go: the two programs from their
    configuration to the signal that ends them.  Loading the configuration, making
    the logger, opening the database and what it is made of (the tables of nodes,
    of sessions, of idempotent results and of the audit log, as the parts take
    them) are arguments; so are the two fields of the Discord section, which
    [Config] keeps as JSON.  What is logged is left out.

    The theorem says what a running supervisor consists of, whatever its
    configuration asks for. *)

From S2P Require Import Prelude GoStd SqlStore NodeRegistry SessionTracker Commands Dispatcher Cost Config Security AuditLog CredentialApplier.
From S2P Require Import Migrations Hub Health EnvCheck Provision OpenCode WSClient Agent ToolAuth OAuth Metrics HttpApi Server Discord Supervisor.

Module Daemon.

(** ** The supervisor *)
Section SupervisorMain.
Context {SDB DB TDB IDB ADB E S : Type} `{SchemaDB SDB} `{KeyedTable DB NodeRow E} `{KeyedTable TDB SessionRow E} `{TimeText}.
Context `{DiscordSession S}.
Notation whole := (Assembled.parts DB TDB IDB ADB).
Context (session_order : Tracker.SessionTracker TDB -> list (string * TrackedSession)).
Context (loaded : res (load_error config_error) SupervisorConfig) (logger : res string ())
  (open : string -> res string SDB) (migrations : res string (list Migration))
  (tables : SDB -> DB * TDB * IDB * ADB).
Context (bot_token guild_id : value -> string) (connect : string -> res string ()) (session : S).

Inductive startup_error :=
  | logger_failed (e : string)
  | config_failed (e : load_error config_error)
  | database_failed (e : string)
  | migrations_failed (e : migrate_failure)
  | server_failed (e : server_error).
Record running_supervisor := mkUp {
  up_server : Server DB whole; up_parts : whole; up_bot : option (DiscordBot * S) }.

(** A bot that cannot be made or started is logged and left away. *)
Definition start_bot (cfg : SupervisorConfig) : option (DiscordBot * S) :=
  let token := bot_token (sc_Channels cfg) in
  if str_empty token then None
  else
    match Bot.NewDiscordBot connect token (guild_id (sc_Channels cfg)) true true true true with
    | Err _ => None
    | Ok bot =>
        match Bot.Start bot session with
        | (bot, s, Ok _) => Some (bot, s)
        | (_, _, Err _) => None
        end
    end.
(** The server before it starts. *)
Definition configured (cfg : SupervisorConfig) (db : SDB) : Server DB whole * whole :=
  let '(nodes, sessions, idempotent, audit) := tables db in
  let p := Assembled.main_parts session_order nodes sessions idempotent audit in
  let s := Serving.SetRegistry (Registry.NewNodeRegistry nodes) (Serving.SetAuditLogger (Serving.NewServer cfg)) in
  let g := (Metric.InitMetrics Metric.fresh).1 in
  let srv := sc_Server cfg in
  (if 0 <? srv_HTTPPort srv
   then Serving.SetHTTPAPI (Api.SetAuditLogger (Api.NewHTTPAPI g p true true (srv_AuthToken srv))) s else s, p).
Definition supervisor_main : res startup_error running_supervisor :=
  let? _ := res_map_err logger_failed logger in
  let? cfg := res_map_err config_failed loaded in
  let? db := res_map_err database_failed (open (sc_DatabasePath cfg)) in
  match Migrate.Migrate migrations db with
  | (_, Err e) => Err (migrations_failed e)
  | (db, Ok _) =>
      let '(s, p) := configured cfg db in
      match Serving.Start s with
      | (_, Err e) => Err (server_failed e)
      | (s, Ok _) => Ok (mkUp s p (start_bot cfg))
      end
  end.
(** After a signal: the bot is stopped, whether or not that fails, then the
    server; the exit status. *)
Definition supervisor_stop (r : running_supervisor) : running_supervisor * Z :=
  let bot := (fun bs : DiscordBot * S => (Bot.Stop bs.1 bs.2).1) <$> up_bot r in
  match Serving.Stop (up_server r) with
  | (s, Ok _) => (mkUp s (up_parts r) bot, 0)
  | (s, Err _) => (mkUp s (up_parts r) bot, 1)
  end.
End SupervisorMain.

(** ** The agent *)
Section AgentMain.
Context {F S C : Type} `{FileSystem F} `{OpencodeSDK S C} `{Semver} `{MapRange}
  `{Json CredentialVersionReport}.
Inductive agent_failure :=
  | agent_config_failed (e : load_error agent_config_error)
  | agent_logger_failed (e : string)
  | agent_not_made (e : agent_error)
  | agent_not_started (e : agent_error).
(** The agent, and what is printed when it runs. *)
Definition agent_main (loaded : res (load_error agent_config_error) AgentConfig) (logger : res string ()) (f : F)
    (hostname : res string string) (stat_of : string -> option FileInfo) (in_path : string -> bool)
    : res agent_failure (Assembly.Agent C * list string) :=
  let? cfg := res_map_err agent_config_failed loaded in
  let? _ := res_map_err agent_logger_failed logger in
  let? ag := res_map_err agent_not_made (Assembly.NewAgent f cfg) in
  match Assembly.Start (S := S) hostname stat_of in_path ag with
  | (_, Err e) => Err (agent_not_started e)
  | (ag, Ok _) =>
      Ok (ag, ("Agent started with " +:+ Itoa (Z.of_nat (Assembly.ProjectCount (Assembly.ag_registry ag))) +:+ " projects")%stdpp ::
              ((fun p => ("  - " +:+ prj_Name p +:+ ": " +:+ prj_Directory p)%stdpp) <$> Assembly.ListProjects (Assembly.ag_registry ag)))
  end.
Definition agent_stop (ag : Assembly.Agent C) : Assembly.Agent C * Z :=
  match Assembly.Stop ag with (ag, Ok _) => (ag, 0) | (ag, Err _) => (ag, 1) end.
End AgentMain.
End Daemon.

(** ** Properties *)
Section Properties.
Import Daemon.
Context {SDB DB TDB IDB ADB E S : Type} `{SchemaDB SDB} `{KeyedTable DB NodeRow E} `{KeyedTable TDB SessionRow E} `{TimeText}.
Context `{DiscordSession S}.
Context (session_order : Tracker.SessionTracker TDB -> list (string * TrackedSession)).
Context (loaded : res (load_error config_error) SupervisorConfig) (logger : res string ())
  (open : string -> res string SDB) (migrations : res string (list Migration))
  (tables : SDB -> DB * TDB * IDB * ADB).
Context (bot_token guild_id : value -> string) (connect : string -> res string ()) (session : S).
Notation start := (supervisor_main session_order loaded logger open migrations tables bot_token guild_id connect session).

(** What the server of a configuration runs, and the API it serves. *)
Definition tasks_of (cfg : SupervisorConfig) : list task :=
  [HubRun; MaintenanceLoop; WSServer (srv_Port (sc_Server cfg))] ++
  (if 0 <? srv_HTTPPort (sc_Server cfg) then [HTTPServer (srv_HTTPPort (sc_Server cfg))] else []).
Lemma configured_runs cfg db s p : configured session_order tables cfg db = (s, p) ->
  exists s', Serving.Start s = (s', Ok ()) /\ sv_tasks s' = tasks_of cfg /\
  sv_running s' = true /\ Serving.ctx_done s' = false /\
  sv_httpAPI s' = if 0 <? srv_HTTPPort (sc_Server cfg)
                  then Some (Assembled.main_api (srv_AuthToken (sc_Server cfg))
                               (Serving.checker_of (Serving.SetRegistry (Registry.NewNodeRegistry (tables db).1.1.1)
                                  (Serving.SetAuditLogger (Serving.NewServer cfg)))) p)
                  else None.
Proof.
  unfold configured, tasks_of. destruct (tables db) as [[[nodes sessions] idem] audit]. intros [= <- <-].
  destruct (0 <? srv_HTTPPort (sc_Server cfg)) eqn:Ep; (eexists; split; [reflexivity|]; split_and!; [| done | | done]).
  all: unfold Serving.rotation_tasks, Serving.NewServer; destruct (Serving.strict_of cfg); simpl;
    rewrite ?andb_false_r, ?Ep; done.
Qed.

(** What a supervisor is, whatever its configuration asks for: it comes up
    exactly if the logger, the configuration, the database and the migrations do;
    it then runs the hub, the maintenance, the agents' listener and, with a port
    for it, the REST API over its parts, and nothing else: no rotation of tokens
    and no polling of costs; it has no bot without a token; and a signal ends it
    with status 0, with the hub cancelled for good. *)
Theorem supervisor_runs_these_only :
  ((exists r, start = Ok r) <->
   exists cfg db, logger = Ok () /\ loaded = Ok cfg /\ open (sc_DatabasePath cfg) = Ok db /\
                  (Migrate.Migrate migrations db).2 = Ok ()) /\
  forall r, start = Ok r -> exists cfg,
    loaded = Ok cfg /\ sv_tasks (up_server r) = tasks_of cfg /\
    TokenRotationLoop ∉ sv_tasks (up_server r) /\ CostPolling ∉ sv_tasks (up_server r) /\
    (exists hc, sv_httpAPI (up_server r) =
       if 0 <? srv_HTTPPort (sc_Server cfg)
       then Some (Assembled.main_api (srv_AuthToken (sc_Server cfg)) hc (up_parts r)) else None) /\
    (bot_token (sc_Channels cfg) = ε -> up_bot r = None) /\
    let '(r', code) := supervisor_stop r in
    code = 0 /\ sv_running (up_server r') = false /\ Serving.ctx_done (up_server r') = true.
Proof.
  unfold supervisor_main. destruct logger as [[]|e]; [|split; [split; [by intros [r Hr] | by intros (cfg & db & ? & _)] | done]].
  destruct loaded as [cfg|e]; [|split; [split; [by intros [r Hr] | by intros (cfg & db & _ & ? & _)] | done]].
  cbn [res_map_err res_bind]. destruct (open (sc_DatabasePath cfg)) as [db|e] eqn:Eo; cbn [res_map_err res_bind].
  2: { split; [split; [by intros [r Hr] | intros (cfg' & db & _ & [= <-] & Ho & _); congruence] | done]. }
  destruct (Migrate.Migrate migrations db) as [db' [[]|e]] eqn:Em.
  2: { split; [split; [by intros [r Hr] | intros (cfg' & d & _ & [= <-] & Ho & Hm)] | done].
       rewrite Eo in Ho. injection Ho as <-. by rewrite Em in Hm. }
  destruct (configured session_order tables cfg db') as [s p] eqn:Ec.
  destruct (configured_runs cfg db' s p Ec) as (s' & Hs & Htasks & Hrun & Hctx & Hapi). rewrite Hs. split.
  - split; [intros _ | by eexists]. exists cfg, db. by rewrite Em.
  - intros r [= <-]. exists cfg. cbn [up_server up_parts up_bot].
    assert (Hnot : forall t, t ∈ tasks_of cfg -> t <> TokenRotationLoop /\ t <> CostPolling).
    { unfold tasks_of. intros t Ht%list_elem_of_In. destruct (0 <? _); simpl in Ht;
        repeat destruct Ht as [<-|Ht]; done. }
    split_and!; [done | done | | | by eexists | | ].
    + rewrite Htasks. by intros [? _]%Hnot.
    + rewrite Htasks. by intros [_ ?]%Hnot.
    + intros Hb. unfold start_bot. by rewrite Hb.
    + unfold supervisor_stop, Serving.Stop. cbn [up_server]. by rewrite Hrun.
Qed.
End Properties.

(** ** Witness: a configuration that asks for the rotation of tokens *)
Module DaemonWitness.
Import Daemon MigrateWitness AdapterWitness ProvisionWitness BotWitness ApplierWitness.
Notation nothing := (fun _ : small_db => (mem_empty : mem_table NodeRow, mem_empty : mem_table SessionRow,
  mem_empty : mem_table IdemRow, [] : list AuditRow)).
Definition roomy : small_db := mkSmall 9 ∅ ∅.
Definition up := supervisor_main (fun _ => []) (Ok ServerWitness.cfg) (Ok ()) (fun _ => Ok roomy) (Ok two) nothing
  (fun _ => ε) (fun _ => ε) (fun _ => Ok ()) ([] : list MessageEmbed).
Lemma supervisor_runs_these_only_witness :
  sec_RotationEnabled (sc_Security ServerWitness.cfg) = true /\
  exists r, up = Ok r /\ TokenRotationLoop ∉ sv_tasks (up_server r).
Proof.
  split; [reflexivity|].
  destruct (supervisor_runs_these_only (fun _ => []) (Ok ServerWitness.cfg) (Ok ()) (fun _ => Ok roomy) (Ok two) nothing
    (fun _ => ε) (fun _ => ε) (fun _ => Ok ()) ([] : list MessageEmbed)) as [[_ Hup] Hall].
  destruct Hup as [r Hr].
  - exists ServerWitness.cfg, roomy. repeat split; vm_compute; reflexivity.
  - exists r. split; [exact Hr|]. by destruct (Hall r Hr) as (cfg & _ & _ & H & _).
Defined.

#[local] Existing Instance sorted_range.
Example agent_says : match agent_main (S := Z * bool) (C := string) (Ok AgentWitness.cfg) (Ok ()) AgentWitness.disk
    (Ok "host1"%string) (fun _ => None) (fun _ => false) with Ok (_, said) => said | Err _ => [] end =
  ["Agent started with 2 projects"; "  - q: /q"; "  - p: /p"]%string.
Proof. vm_compute. reflexivity. Qed.
End DaemonWitness.
