(* ===== verification/Tabwriter.v ===== *)
(** * Tabwriter

    text/tabwriter with the parameters halctl gives it: minimal width 0, padding 2
    with spaces, no flags.  Cells end at a tab and lines at a newline; a column is
    a run of lines that all have a cell, ended by a tab, at that place, and is as
    wide as the widest of these cells.  Widths count runes.  Escapes, which begin
    with a byte that no UTF-8 text has, are left out.

    [Tabwriter] is the writer with its state, the buffered lines, and its recursive
    [format]; the lemmas show what comes of a table, whose lines all have the same
    number of cells, and that a table can be read back from its text. *)

From S2P Require Import Prelude GoStd.

Module Tabwriter.

(** ** [utf8.RuneCountInString]: a byte that begins no rune counts as one *)
Definition between (lo hi : nat) (c : ascii) : bool := ((lo <=? nat_of_ascii c) && (nat_of_ascii c <=? hi))%nat.
Definition continues : ascii -> bool := between 128 191.
Definition two (a b : ascii) : bool := between 194 223 a && continues b.
Definition three (a b c : ascii) : bool :=
  ((between 224 224 a && between 160 191 b) || (between 225 236 a && continues b) ||
   (between 237 237 a && between 128 159 b) || (between 238 239 a && continues b)) && continues c.
Definition four (a b c d : ascii) : bool :=
  ((between 240 240 a && between 144 191 b) || (between 241 243 a && continues b) ||
   (between 244 244 a && between 128 143 b)) && continues c && continues d.
Fixpoint runes (s : string) : nat :=
  match s with
  | EmptyString => 0
  | String a s1 =>
      S match s1 with
        | EmptyString => 0
        | String b s2 =>
            if two a b then runes s2
            else
              match s2 with
              | EmptyString => runes s1
              | String c s3 =>
                  if three a b c then runes s3
                  else
                    match s3 with
                    | EmptyString => runes s1
                    | String d s4 => if four a b c d then runes s4 else runes s1
                    end
              end
        end
  end.

Fixpoint spaces (n : nat) : string := match n with O => ε | S n => String " " (spaces n) end.
(** [%-15s] and the like. *)
Definition left_in (w : nat) (s : string) : string := (s +:+ spaces (w - runes s))%stdpp.

(** ** The writer *)
Definition tab : ascii := ascii_of_nat 9.
Definition newline : ascii := ascii_of_nat 10.
Definition vtab : ascii := ascii_of_nat 11.
Definition formfeed : ascii := ascii_of_nat 12.
Definition padding : nat := 2.

(** A line with its cells and whether a newline ended it. *)
Record line := mkLine { ln_cells : list string; ln_ended : bool }.
Record Writer := mkWriter {
  (** the lines ended, the cells of the current one, the current cell *)
  w_lines : list line; w_line : list string; w_cell : string;
  w_out : string }.
Definition NewWriter : Writer := mkWriter [] [] ε ε.

(** *** [format] *)
Fixpoint write_cells (widths : list nat) (cells : list string) : string :=
  match cells, widths with
  | [], _ => ε
  | c :: cells, w :: widths => (left_in w c +:+ write_cells widths cells)%stdpp
  | c :: cells, [] => (c +:+ write_cells [] cells)%stdpp
  end.
Definition write_line (widths : list nat) (l : line) : string :=
  (write_cells widths (ln_cells l) +:+ if ln_ended l then String newline ε else ε)%stdpp.
Fixpoint text_concat (l : list string) : string :=
  match l with [] => ε | s :: l => (s +:+ text_concat l)%stdpp end.
Definition writeLines (widths : list nat) (lines : list line) : string := text_concat (write_line widths <$> lines).
(** Whether a line has a cell in the column, the last cell of a line not being
    one, and the lines cut where that changes. *)
Definition has_cell (column : nat) (l : line) : bool := (column <? length (ln_cells l) - 1)%nat.
Fixpoint blocks (has : line -> bool) (lines : list line) : list (bool * list line) :=
  match lines with
  | [] => []
  | l :: lines =>
      match blocks has lines with
      | (b, block) :: rest =>
          if Bool.eqb b (has l) then (b, l :: block) :: rest else (has l, [l]) :: (b, block) :: rest
      | [] => [(has l, [l])]
      end
  end.
Definition column_width (column : nat) (lines : list line) : nat :=
  max_list ((fun l => runes (default ε (ln_cells l !! column)) + padding)%nat <$> lines).
(** One unit of fuel a column. *)
Fixpoint format (fuel : nat) (widths : list nat) (lines : list line) : string :=
  match fuel with
  | O => writeLines widths lines
  | S fuel =>
      let column := length widths in
      text_concat ((fun bl : bool * list line =>
        if bl.1 then format fuel (widths ++ [column_width column bl.2]) bl.2 else writeLines widths bl.2)
        <$> blocks (has_cell column) lines)
  end.
Definition Flush (w : Writer) : Writer :=
  let cells := if str_empty (w_cell w) then w_line w else w_line w ++ [w_cell w] in
  let lines := w_lines w ++ [mkLine cells false] in
  mkWriter [] [] ε (w_out w +:+ format (max_list (length ∘ ln_cells <$> lines)) [] lines)%stdpp.

(** *** [Write], byte for byte *)
Definition write_byte (w : Writer) (c : ascii) : Writer :=
  if Ascii.eqb c tab || Ascii.eqb c vtab then mkWriter (w_lines w) (w_line w ++ [w_cell w]) ε (w_out w)
  else if Ascii.eqb c newline || Ascii.eqb c formfeed then
    let cells := w_line w ++ [w_cell w] in
    let w := mkWriter (w_lines w ++ [mkLine cells true]) [] ε (w_out w) in
    if Ascii.eqb c formfeed || (length cells =? 1)%nat then Flush w else w
  else mkWriter (w_lines w) (w_line w) (w_cell w +:+ String c ε)%stdpp (w_out w).
Fixpoint Write (w : Writer) (s : string) : Writer :=
  match s with EmptyString => w | String c s => Write (write_byte w c) s end.
(** What is printed of a text that is written and flushed. *)
Definition written (s : string) : string := w_out (Flush (Write NewWriter s)).

(** ** Tables *)
Fixpoint joined (cells : list string) : string :=
  match cells with
  | [] => ε
  | [c] => c
  | c :: cells => (c +:+ String tab (joined cells))%stdpp
  end.
Definition row_text (cells : list string) : string := (joined cells +:+ String newline ε)%stdpp.
Definition table_text (rows : list (list string)) : string := written (text_concat (row_text <$> rows)).

(** The table as it should be: each column but the last as wide as its widest
    cell and two more. *)
Definition widths_of (n : nat) (rows : list (list string)) : list nat :=
  (fun j => (max_list ((fun r => runes (default ε (r !! j))) <$> rows) + padding)%nat) <$> seq 0 (n - 1).
Definition grid (n : nat) (rows : list (list string)) : string :=
  text_concat ((fun r => (write_cells (widths_of n rows) r +:+ String newline ε)%stdpp) <$> rows).

(** Reading it: lines end at newlines, cells where two spaces or more are. *)
Fixpoint fields (cur : string) (gap : nat) (s : string) : list string :=
  match s with
  | EmptyString => [cur]
  | String c s =>
      if Ascii.eqb c " " then fields cur (S gap) s
      else if (2 <=? gap)%nat then cur :: fields (String c ε) 0 s
      else fields (cur +:+ spaces gap +:+ String c ε)%stdpp 0 s
  end.
Definition read_table (text : string) : list (list string) :=
  fields ε 0 <$> removelast (Strings.SplitByte text newline).

(** Cells that can be told apart: not empty, without control characters that the
    writer knows, and with single spaces only, between other characters. *)
Definition control (c : ascii) : bool :=
  Ascii.eqb c tab || Ascii.eqb c newline || Ascii.eqb c vtab || Ascii.eqb c formfeed.
Fixpoint neat_from (after_space : bool) (s : string) : bool :=
  match s with
  | EmptyString => negb after_space
  | String c s =>
      if Ascii.eqb c " " then negb after_space && neat_from true s else negb (control c) && neat_from false s
  end.
Definition neat : string -> bool := neat_from true.
Definition unbroken : string -> bool := Strings.str_forallb (fun c => negb (control c)).
End Tabwriter.

(** ** Lemmas *)
Module TabwriterFacts.
Import Tabwriter.

Lemma text_concat_app l1 l2 : text_concat (l1 ++ l2) = (text_concat l1 +:+ text_concat l2)%stdpp.
Proof. induction l1 as [|s l1 IH]; [done|]. simpl. by rewrite IH, StringsFacts.append_assoc. Qed.
Lemma text_concat_one s : text_concat [s] = s.
Proof. apply StringsFacts.append_nil_r. Qed.

(** *** Writing *)
Lemma Write_app w s t : Write w (s +:+ t)%stdpp = Write (Write w s) t.
Proof. revert w. induction s as [|c s IH]; intros w; [done|]. apply IH. Qed.
Lemma Write_plain lines cells cell out s : unbroken s = true ->
  Write (mkWriter lines cells cell out) s = mkWriter lines cells (cell +:+ s)%stdpp out.
Proof.
  revert cell. induction s as [|c s IH]; intros cell; simpl; [by rewrite StringsFacts.append_nil_r|].
  intros [Hc Hs]%andb_true_iff. assert (write_byte (mkWriter lines cells cell out) c =
    mkWriter lines cells (cell +:+ String c ε)%stdpp out) as ->.
  { unfold control in Hc. unfold write_byte. by destruct (Ascii.eqb c tab), (Ascii.eqb c newline), (Ascii.eqb c vtab),
      (Ascii.eqb c formfeed). }
  rewrite IH by done. by rewrite StringsFacts.append_assoc.
Qed.
Lemma Write_row lines pre cells out :
  Forall (fun c => unbroken c = true) cells -> cells <> [] -> (2 <= length (pre ++ cells))%nat ->
  Write (mkWriter lines pre ε out) (row_text cells) = mkWriter (lines ++ [mkLine (pre ++ cells) true]) [] ε out.
Proof.
  intros Hall. revert pre. induction Hall as [|c cells Hc Hall IH]; intros pre Hne Hl; [done|].
  unfold row_text. destruct cells as [|c' cells].
  - simpl joined. rewrite Write_app, Write_plain by done. simpl. unfold write_byte. simpl.
    rewrite length_app in *. simpl in *. by destruct (Nat.eqb_spec (length pre + 1) 1); [lia|].
  - change (joined (c :: c' :: cells)) with (c +:+ String tab (joined (c' :: cells)))%stdpp.
    rewrite StringsFacts.append_assoc, Write_app, Write_plain by done. simpl Write at 1.
    change (write_byte _ tab) with (mkWriter lines (pre ++ [c]) ε out).
    specialize (IH (pre ++ [c])). rewrite <- app_assoc in IH. by apply IH.
Qed.
Lemma Write_rows n rows lines out : (2 <= n)%nat -> Forall (fun r => length r = n) rows ->
  Forall (Forall (fun c => unbroken c = true)) rows ->
  Write (mkWriter lines [] ε out) (text_concat (row_text <$> rows)) =
    mkWriter (lines ++ ((fun r => mkLine r true) <$> rows)) [] ε out.
Proof.
  intros Hn. revert lines. induction rows as [|r rows IH]; intros lines; simpl; [by rewrite app_nil_r|].
  intros [Hl Hls]%Forall_cons [Hr Hrs]%Forall_cons. rewrite Write_app, Write_row; [|done| |simpl; lia].
  - rewrite IH by done. by rewrite <- app_assoc.
  - intros ->. simpl in Hl. lia.
Qed.

(** *** Formatting a table *)
Lemma blocks_same has b lines : lines <> [] -> Forall (fun l => has l = b) lines -> blocks has lines = [(b, lines)].
Proof.
  intros Hne Hall. induction Hall as [|l lines Hl Hall IH]; [done|]. simpl. destruct lines as [|l' lines].
  - simpl. by rewrite Hl.
  - rewrite IH by done. rewrite Hl. by destruct b.
Qed.
Lemma blocks_then has lines l : lines <> [] -> Forall (fun l => has l = true) lines -> has l = false ->
  blocks has (lines ++ [l]) = [(true, lines); (false, [l])].
Proof.
  intros Hne Hall Hl. induction Hall as [|l' lines Hl' Hall IH]; [done|]. simpl. destruct lines as [|l'' lines].
  - simpl. by rewrite Hl, Hl'.
  - rewrite IH by done. by rewrite Hl'.
Qed.
Definition lines_of (rows : list (list string)) : list line := (fun r => mkLine r true) <$> rows.
Lemma lines_of_ne rows : rows <> [] -> lines_of rows <> [].
Proof. by destruct rows. Qed.
Lemma has_cell_rows n j rows : Forall (fun r => length r = n) rows ->
  Forall (fun l => has_cell j l = (j <? n - 1)%nat) (lines_of rows).
Proof. intros Hn. apply Forall_fmap. eapply Forall_impl; [exact Hn|]. by intros r <-. Qed.
Lemma width_rows j rows : rows <> [] ->
  column_width j (lines_of rows) = (max_list ((fun r => runes (default ε (r !! j))) <$> rows) + padding)%nat.
Proof.
  induction rows as [|r rows IH]; [done|]. intros _. destruct rows as [|r' rows]; [unfold column_width; simpl; lia|].
  change (column_width j (lines_of (r :: r' :: rows))) with
    (Nat.max (runes (default ε (r !! j)) + padding) (column_width j (lines_of (r' :: rows)))).
  rewrite IH by done. simpl. lia.
Qed.
Lemma format_rows n k fuel widths rows : rows <> [] -> Forall (fun r => length r = n) rows -> (k <= fuel)%nat ->
  (length widths + k = n - 1)%nat ->
  format fuel widths (lines_of rows) =
    writeLines (widths ++ ((fun j => column_width j (lines_of rows)) <$> seq (length widths) k)) (lines_of rows).
Proof.
  intros Hne Hn. revert fuel widths. induction k as [|k IH]; intros fuel widths Hk Hl.
  - simpl. rewrite app_nil_r. destruct fuel as [|fuel]; [done|]. simpl.
    rewrite (blocks_same _ false); [apply text_concat_one | by apply lines_of_ne |].
    eapply Forall_impl; [exact (has_cell_rows n (length widths) rows Hn)|]. simpl. intros l ->. apply Nat.ltb_ge. lia.
  - destruct fuel as [|fuel]; [lia|]. cbn [format].
    rewrite (blocks_same _ true); [|by apply lines_of_ne|].
    + cbn [fmap list_fmap fst snd]. rewrite text_concat_one, IH by (rewrite ?length_app; simpl; lia).
      rewrite length_app, <- app_assoc. simpl. by rewrite Nat.add_1_r.
    + eapply Forall_impl; [exact (has_cell_rows n (length widths) rows Hn)|]. simpl. intros l ->. apply Nat.ltb_lt. lia.
Qed.
(** The text of a table is its grid. *)
Lemma table_text_grid n rows : (2 <= n)%nat -> rows <> [] -> Forall (fun r => length r = n) rows ->
  Forall (Forall (fun c => unbroken c = true)) rows -> table_text rows = grid n rows.
Proof.
  intros Hn Hne Hl Hu. unfold table_text, written, NewWriter. rewrite (Write_rows n) by done.
  unfold Flush. cbn [w_cell w_line w_lines w_out str_empty]. cbn [app]. change (_ <$> rows) with (lines_of rows).
  set (m := max_list _). assert (Hm : (n <= m)%nat).
  { destruct rows as [|r rows]; [done|]. apply Forall_cons in Hl as [<- _]. unfold m. simpl. lia. }
  destruct m as [|m]; [lia|]. cbn [format]. rewrite (blocks_then _ (lines_of rows)); [|by apply lines_of_ne | |done].
  - cbn [fmap list_fmap fst snd app length]. simpl text_concat. rewrite (format_rows n (n - 2)) by (simpl; lia || done).
    change (writeLines [] [mkLine [] false]) with ε. rewrite !StringsFacts.append_nil_r. simpl.
    unfold grid, writeLines, lines_of. rewrite <- list_fmap_compose. f_equal. apply list_fmap_ext. intros i r _. simpl.
    unfold write_line, widths_of. simpl. do 2 f_equal. replace (n - 1)%nat with (S (n - 2)) by lia. simpl. f_equal.
    + by rewrite <- (width_rows 0 rows Hne).
    + apply list_fmap_ext. intros j x _. by rewrite <- (width_rows x rows Hne).
  - eapply Forall_impl; [exact (has_cell_rows n 0 rows Hl)|]. simpl. intros l ->. apply Nat.ltb_lt. lia.
Qed.

(** *** Reading *)
Lemma neat_start c : neat c = true -> exists a s, c = String a s /\ Ascii.eqb a " " = false /\ neat_from false s = true.
Proof.
  destruct c as [|a s]; [done|]. unfold neat. simpl. destruct (Ascii.eqb a " ") eqn:E; [done|]. intros [_ H]%andb_true_iff.
  by exists a, s.
Qed.
Lemma neat_unbroken b c : neat_from b c = true -> unbroken c = true.
Proof.
  revert b. induction c as [|a c IH]; intros b; [done|]. change (unbroken (String a c)) with (negb (control a) && unbroken c).
  simpl. destruct (Ascii.eqb_spec a " ") as [->|].
  - intros [_ H]%andb_true_iff. by rewrite (IH _ H).
  - intros [-> H]%andb_true_iff. by rewrite (IH _ H).
Qed.
Lemma unbroken_app s t : unbroken (s +:+ t)%stdpp = unbroken s && unbroken t.
Proof. induction s as [|c s IH]; [done|]. unfold unbroken in *. simpl. by rewrite IH, andb_assoc. Qed.
Lemma unbroken_spaces k : unbroken (spaces k) = true.
Proof. by induction k. Qed.
Lemma spaces_one b : spaces (if b : bool then 1 else 0) = if b then " "%string else ε.
Proof. by destruct b. Qed.
Lemma fields_neat b s cur rest : neat_from b s = true ->
  fields cur (if b then 1 else 0)%nat (s +:+ rest)%stdpp =
    fields (cur +:+ (if b then " " else ε) +:+ s)%stdpp 0 rest.
Proof.
  revert b cur. induction s as [|c s IH]; intros b cur; simpl.
  - destruct b; [done|]. by rewrite StringsFacts.append_nil_r.
  - destruct (Ascii.eqb_spec c " ") as [->|Hc].
    + destruct b; [done|]. simpl. intros H. rewrite (IH true) by done. done.
    + intros [_ H]%andb_true_iff. destruct b; simpl; rewrite (IH false) by done; simpl; by rewrite !StringsFacts.append_assoc.
Qed.
Lemma fields_spaces n cur k rest : fields cur k (spaces n +:+ rest)%stdpp = fields cur (k + n) rest.
Proof. revert k. induction n as [|n IH]; intros k; simpl; [by rewrite Nat.add_0_r | rewrite IH; f_equal; lia]. Qed.
Lemma fields_next c cur gap rest : neat c = true -> (2 <= gap)%nat ->
  fields cur gap (c +:+ rest)%stdpp = cur :: fields c 0 rest.
Proof.
  intros (a & s & -> & Ha & Hs)%neat_start Hg. cbn [String.append fields]. rewrite Ha.
  destruct (Nat.leb_spec 2 gap); [|lia]. by rewrite (fields_neat false).
Qed.
(** The cells of a row, each but the last padded to a width that leaves two spaces. *)
Lemma fields_row r widths cur gap : Forall (fun c => neat c = true) r -> length r = S (length widths) ->
  (forall j c w, r !! j = Some c -> widths !! j = Some w -> (runes c + padding <= w)%nat) -> (2 <= gap)%nat ->
  fields cur gap (write_cells widths r) = cur :: r.
Proof.
  revert r cur gap. induction widths as [|w widths IH]; intros [|c r] cur gap Hall Hl Hw Hg; try done.
  - destruct r; [|done]. apply Forall_cons in Hall as [Hc _]. simpl. by rewrite fields_next.
  - apply Forall_cons in Hall as [Hc Hall]. simpl. unfold left_in. rewrite StringsFacts.append_assoc, fields_next by done.
    f_equal. rewrite fields_spaces. specialize (Hw 0%nat c w eq_refl eq_refl) as H0. unfold padding in H0.
    apply IH; [done | by injection Hl | | lia]. intros j. exact (Hw (S j)).
Qed.
Lemma fields_first r widths : r <> [] -> Forall (fun c => neat c = true) r -> length r = S (length widths) ->
  (forall j c w, r !! j = Some c -> widths !! j = Some w -> (runes c + padding <= w)%nat) ->
  fields ε 0 (write_cells widths r) = r.
Proof.
  intros Hne Hall Hl Hw. assert (Hgap : fields ε 2 (write_cells widths r) = ε :: r) by (by apply fields_row).
  destruct r as [|c r]; [done|]. apply Forall_cons in Hall as [(a & s & -> & Ha & Hs)%neat_start _].
  assert (exists t, write_cells widths (String a s :: r) = String a t) as [t Et].
  { destruct widths as [|w ws]; simpl; unfold left_in; eauto. }
  rewrite Et in *. simpl in *. rewrite Ha in *. by injection Hgap.
Qed.
Lemma widths_fit n rows r j c w : r ∈ rows -> r !! j = Some c -> widths_of n rows !! j = Some w ->
  (runes c + padding <= w)%nat.
Proof.
  intros Hr Hc (x & Hx & [-> _]%lookup_seq)%list_lookup_fmap_Some. subst w. simpl. apply Nat.add_le_mono_r.
  apply max_list_elem_of_le. apply list_elem_of_fmap. exists r. by rewrite Hc.
Qed.
Lemma write_cells_unbroken widths r : Forall (fun c => unbroken c = true) r -> unbroken (write_cells widths r) = true.
Proof.
  intros Hall. revert widths. induction Hall as [|c r Hc Hall IH]; intros [|w widths]; try done;
    cbn [write_cells]; unfold left_in; rewrite ?unbroken_app, ?unbroken_spaces, Hc, IH; done.
Qed.
Lemma unbroken_line s : unbroken s = true -> Strings.str_forallb (fun c => negb (Ascii.eqb c newline)) s = true.
Proof.
  induction s as [|c s IH]; [done|]. unfold unbroken. simpl. intros [Hc Hs]%andb_true_iff. rewrite (IH Hs).
  unfold control in Hc. by destruct (Ascii.eqb c tab), (Ascii.eqb c newline).
Qed.
(** What was put into a table can be read from its text. *)
Lemma read_grid n rows : (2 <= n)%nat -> Forall (fun r => length r = n) rows ->
  Forall (Forall (fun c => neat c = true)) rows -> read_table (grid n rows) = rows.
Proof.
  intros Hn Hl Hneat. unfold read_table, grid. set (ws := widths_of n rows).
  assert (Hws : length ws = (n - 1)%nat) by (unfold ws, widths_of; by rewrite length_fmap, length_seq).
  assert (Hsub : rows ⊆ rows) by done. revert Hl Hneat Hsub. generalize rows at 1 2 3 5 6. intros rs.
  induction rs as [|r rs IH]; [done|]. intros [Hlr Hl]%Forall_cons [Hr Hneat]%Forall_cons Hsub. simpl.
  rewrite StringsFacts.append_assoc. simpl. rewrite StringsFacts.SplitByte_app.
  2: { apply unbroken_line, write_cells_unbroken. eapply Forall_impl; [exact Hr|]. intros c. apply neat_unbroken. }
  assert (Strings.SplitByte (text_concat ((fun r => (write_cells ws r +:+ String newline ε)%stdpp) <$> rs)) newline <> []) as Hne.
  { by destruct (text_concat _) as [|c t]; simpl; [|destruct (Ascii.eqb c newline), (Strings.SplitByte t newline)]. }
  destruct (Strings.SplitByte _ newline) as [|x xs] eqn:Ex; [done|]. rewrite <- Ex in *. cbn [removelast]. rewrite Ex.
  rewrite <- Ex. cbn [fmap list_fmap]. rewrite IH by set_solver. f_equal.
  apply fields_first; [|done | lia |].
  - intros ->. simpl in Hlr. lia.
  - intros j c w. apply widths_fit. set_solver.
Qed.
End TabwriterFacts.
