(* ===== verification/Halctl.v ===== *)
(** * Halctl

    internal/halctl: the client library of the command line tool, and of
    cmd/halctl/main.go the commands it is called with.  What is printed is in
    [HalctlMain].

    [Wire] is how encoding/json writes what the handlers of [HttpApi] answer, by
    the tags of their structs, as a [value]; the text of a value is an argument
    ([Json value]).  [Ctl] is the client over an arbitrary network [N], which
    answers a request with a status and a body.  The last part puts the client
    and the REST API together: [network] parses the request as net/http and
    net/url do and serves it; an answer that comes after the server's
    [WriteTimeout] or the client's own timeout is lost.

    The client decodes an answer twice: [ParseResponse] first reads it into an
    [interface{}], where every number is a [float64], and writes that again. *)

From stdpp Require Import sorting.
From S2P Require Import Prelude GoStd SqlStore NodeRegistry SessionTracker Commands Dispatcher Cost.
From S2P Require Import AuditLog OAuth Health Metrics HttpApi.

(** ** encoding/json on structs *)
Module Wire.

(** [omitempty] on a string and on a number. *)
Definition omit_str (k s : string) : list (string * value) := if str_empty s then [] else [(k, VStr s)].
Definition int_value (n : Z) : value := VNum (Float64.of_Z n).
Definition omit_int (k : string) (n : Z) : list (string * value) := if n =? 0 then [] else [(k, int_value n)].

Section Write.
Context `{TimeText} `{Json value}.
Definition time_value (t : Time.t) : value := VStr (Format_RFC3339Nano t).

Definition session_value (s : sessionJSON) : value :=
  VObj [("id", VStr (sj_ID s)); ("node_id", VStr (sj_NodeID s)); ("project", VStr (sj_Project s));
        ("status", VStr (sj_Status s)); ("tokens", int_value (sj_Tokens s)); ("cost", VNum (sj_Cost s));
        ("started_at", time_value (sj_StartedAt s))]%string.
Definition node_value (n : nodeJSON) : value :=
  VObj [("id", VStr (nj_ID n)); ("hostname", VStr (nj_Hostname n)); ("status", VStr (nj_Status n));
        ("last_heartbeat", time_value (nj_LastHeartbeat n)); ("connected_at", time_value (nj_ConnectedAt n))]%string.
Definition auth_state_value (s : NodeAuthState) : value :=
  VObj ([("tool", VStr (nas_Tool s)); ("status", VStr (nas_Status s))]%string ++ omit_str "reason" (nas_Reason s) ++
        [("checked_at"%string, time_value (nas_CheckedAt s))]).
Definition node_auth_value (n : nodeAuthJSON) : value :=
  VObj [("node_id", VStr (naj_NodeID n));
        ("auth_states", VObj (prod_map id auth_state_value <$> members (naj_AuthStates n)));
        ("credential_sync", VStr (naj_CredentialSync n));
        ("credential_version", int_value (naj_CredentialVersion n))]%string.
Definition drift_value (n : driftNodeJSON) : value :=
  VObj [("node_id", VStr (dn_NodeID n)); ("credential_sync", VStr (dn_CredentialSync n));
        ("credential_version", int_value (dn_CredentialVersion n))]%string.
(** A raw message is written as it is; the encoder fails on one that is no JSON. *)
Definition event_value (e : eventJSON) : res string value :=
  let? data := (if str_empty (ej_Data e) then Ok VNil else json_unmarshal (ej_Data e)) in
  Ok (VObj [("id", VStr (ej_ID e)); ("session_id", VStr (ej_SessionID e)); ("type", VStr (ej_Type e));
            ("data", data); ("timestamp", time_value (ej_Timestamp e))])%string.
Definition result_value (r : CommandResult) : value :=
  VObj ([("command_id", VStr (cr_CommandID r)); ("status", VStr (cr_Status r)); ("output", VStr (cr_Output r))]%string ++
        omit_str "error" (cr_Error r) ++ [("timestamp"%string, time_value (cr_Timestamp r))]).
Definition breakdown_value (b : CostBreakdown) : value :=
  VObj ([("provider"%string, VStr (cb_Provider b))] ++ omit_str "model" (cb_Model b) ++
        [("tokens", int_value (cb_Tokens b)); ("cost_usd", VNum (cb_CostUSD b))]%string).
Definition project_cost_value (p : ProjectCost) : value :=
  VObj [("project", VStr (pcost_Project p)); ("tokens", int_value (pcost_Tokens p)); ("cost_usd", VNum (pcost_CostUSD p))]%string.
Definition report_value (r : CostReport) : value :=
  VObj [("period", VStr (rp_Period r)); ("total_tokens", int_value (rp_TotalTokens r));
        ("total_cost_usd", VNum (rp_TotalCostUSD r)); ("by_provider", VArr (breakdown_value <$> rp_ByProvider r));
        ("by_model", VArr (breakdown_value <$> rp_ByModel r)); ("by_project", VArr (project_cost_value <$> rp_ByProject r));
        ("degraded_providers", VArr (VStr <$> rp_DegradedProviders r))]%string.

Definition meta_value (m : apiMeta) : value :=
  VObj ([("total"%string, int_value (meta_Total m))] ++ omit_int "limit" (meta_Limit m) ++ omit_int "offset" (meta_Offset m)).
Definition api_response (data : value) (meta : option apiMeta) : value :=
  VObj (("data"%string, data) :: match meta with Some m => [("meta"%string, meta_value m)] | None => [] end).
(** The answers halctl reads; the others are [None]. *)
Definition body_value (b : body) : option (res string value) :=
  match b with
  | ApiError error code => Some (Ok (VObj [("error", VStr error); ("code", VStr code)]%string))
  | Sessions l meta => Some (Ok (api_response (VArr (session_value <$> l)) (Some meta)))
  | OneSession s => Some (Ok (api_response (session_value s) None))
  | Nodes l meta => Some (Ok (api_response (VArr (node_value <$> l)) (Some meta)))
  | OneNode n => Some (Ok (api_response (node_value n) None))
  | NodeAuth n => Some (Ok (api_response (node_auth_value n) None))
  | Drift l meta => Some (Ok (api_response (VArr (drift_value <$> l)) (Some meta)))
  | Events l meta =>
      Some (res_bind (foldr (fun e acc => let? v := event_value e in let? l := acc in Ok (v :: l)) (Ok []) l)
              (fun l => Ok (api_response (VArr l) (Some meta))))
  | Command_result r => Some (Ok (api_response (result_value r) None))
  | CostBody r => Some (Ok (api_response (report_value r) None))
  | JsonObject m => Some (Ok (api_response (VObj (members m)) None))
  | _ => None
  end.
(** The text of an answer: nothing when its encoding fails. *)
Definition body_text (b : body) : string :=
  match b with
  | MuxText text => text
  | _ =>
      match body_value b with
      | Some (Ok v) => match json_marshal v with Ok s => s | Err _ => ε end
      | _ => ε
      end
  end.
Definition encodes (b : body) : bool :=
  match body_value b with
  | Some (Ok v) => is_Ok (json_marshal v)
  | Some (Err _) => false
  | None => true
  end.
End Write.

(** *** Reading a struct

    A member fills the field whose name it folds to; null leaves the field as it
    is; a member of another type is an error ([None]). *)
Definition field_of {A} (read : value -> option A) (zero : A) (m : list (string * value)) (name : string) : option A :=
  foldl (fun acc kv =>
    if Strings.EqualFold kv.1 name
    then match acc with
         | None => None
         | Some a => match kv.2 with VNil => Some a | v => read v end
         end
    else acc) (Some zero) m.
Definition read_str (v : value) : option string := match v with VStr s => Some s | _ => None end.
Definition read_float (v : value) : option Float64.t := match v with VNum f => Some f | _ => None end.
(** An [int] read from the text of a [float64]: one with a fraction, or that is
    written with an exponent, is refused. *)
Definition float_int (f : Float64.t) : option Z :=
  match f with
  | S754_zero _ => Some 0
  | S754_finite s m e =>
      let a := if 0 <=? e then Some (Zpos m * 2 ^ e)
               else if Zpos m mod 2 ^ (- e) =? 0 then Some (Zpos m / 2 ^ (- e)) else None in
      in_int (option_map (fun a => if s then - a else a) a)
  | _ => None
  end.
Definition read_int (v : value) : option Z := match v with VNum f => float_int f | _ => None end.
Definition read_obj (v : value) : option (list (string * value)) := match v with VObj m => Some m | _ => None end.
Definition read_strs (v : value) : option (list string) :=
  match v with VArr l => mapM (fun x => match x with VNil => Some ε | _ => read_str x end) l | _ => None end.
Definition struct {A} (fields : list (string * value) -> option A) (v : value) : option A :=
  match v with VNil => fields [] | VObj m => fields m | _ => None end.
Definition slice {A} (elem : value -> option A) (v : value) : option (list A) :=
  match v with VNil => Some [] | VArr l => mapM elem l | _ => None end.
End Wire.

(** ** The client *)
Inductive transport_error := bad_request_url (e : string) | no_connection (e : string) | unreadable (e : string).
Record clientRequest := mkClientRequest {
  clr_Method : string; clr_URL : string; clr_Authorization : string; clr_Body : string }.
Class Network (N : Type) := net_do : N -> clientRequest -> N * res transport_error (Z * string).

Inductive client_error :=
  | marshal_request (e : string)
  | transport_failed (baseURL : string) (e : transport_error)
  | authentication_failed
  | resource_not_found (e : option string)
  | invalid_request (e : string)
  | service_unavailable (e : option string)
  | server_status (status : Z)
  | server_error (e : string)
  | parse_response_failed (e : string)
  | response_shape
  | unmarshal_data_failed
  | argument_required (what : string)
  | command_refused (e : string)
  | command_status (what status : string)
  | output_failed (what : string).

(** What the client keeps of the answers. *)
Record SessionView := mkSessionView {
  sv_ID : string; sv_NodeID : string; sv_Project : string; sv_Status : string; sv_Tokens : Z;
  sv_Cost : Float64.t; sv_StartedAt : Time.t }.
Record EventView := mkEventView {
  ev_ID : string; ev_SessionID : string; ev_Type : string; ev_Data : value; ev_Timestamp : Time.t }.
Record NodeView := mkNodeView {
  nv_ID : string; nv_Hostname : string; nv_Status : string; nv_LastHeartbeat : Time.t; nv_ConnectedAt : Time.t }.
Record AuthStateView := mkAuthStateView {
  av_Tool : string; av_Status : string; av_Reason : string; av_CheckedAt : string }.
Record NodeAuthView := mkNodeAuthView {
  nav_NodeID : string; nav_AuthStates : gmap string AuthStateView; nav_CredentialSync : string;
  nav_CredentialVersion : Z }.
Record DriftView := mkDriftView { dv_NodeID : string; dv_CredentialSync : string; dv_CredentialVersion : Z }.
Record CostSummary := mkCostSummary {
  csum_Period : string; csum_TotalCost : Float64.t; csum_SessionCount : Z; csum_TokensUsed : Z }.
Record EnvResult := mkEnvResult {
  er_Project : string; er_Status : string; er_Notes : list string; er_Details : list (string * value) }.
Record AgentMdDiff := mkAgentMdDiff { amd_Project : string; amd_Local : string; amd_Template : string; amd_Diff : string }.
Record AgentMdSyncResult := mkAgentMdSync { ams_Project : string; ams_Status : string; ams_Message : string }.
Record commandEnvelope := mkCommandEnvelope {
  ce_CommandID : string; ce_Status : string; ce_Output : string; ce_Error : string }.

Module Ctl.
Import Wire.

(** *** The structs of the client *)
Section Structs.
Context `{TimeText}.
Definition read_time (v : value) : option Time.t := match v with VStr s => Parse RFC3339Nano s | _ => None end.

Definition read_session : value -> option SessionView := struct (fun m =>
  id ← field_of read_str ε m "id"; node ← field_of read_str ε m "node_id";
  project ← field_of read_str ε m "project"; status ← field_of read_str ε m "status";
  tokens ← field_of read_int 0 m "tokens"; cost ← field_of read_float Float64.zero m "cost";
  started ← field_of read_time Time.zero m "started_at";
  Some (mkSessionView id node project status tokens cost started)).
(** A raw message keeps a null as it is. *)
Definition read_raw (m : list (string * value)) (name : string) : value :=
  foldl (fun acc kv => if Strings.EqualFold kv.1 name then kv.2 else acc) VNil m.
Definition read_event : value -> option EventView := struct (fun m =>
  id ← field_of read_str ε m "id"; session ← field_of read_str ε m "session_id";
  type ← field_of read_str ε m "type"; time ← field_of read_time Time.zero m "timestamp";
  Some (mkEventView id session type (read_raw m "data") time)).
Definition read_node : value -> option NodeView := struct (fun m =>
  id ← field_of read_str ε m "id"; host ← field_of read_str ε m "hostname";
  status ← field_of read_str ε m "status"; beat ← field_of read_time Time.zero m "last_heartbeat";
  connected ← field_of read_time Time.zero m "connected_at";
  Some (mkNodeView id host status beat connected)).
Definition read_auth_state : value -> option AuthStateView := struct (fun m =>
  tool ← field_of read_str ε m "tool"; status ← field_of read_str ε m "status";
  reason ← field_of read_str ε m "reason"; checked ← field_of read_str ε m "checked_at";
  Some (mkAuthStateView tool status reason checked)).
Definition read_auth_states (v : value) : option (gmap string AuthStateView) :=
  m ← read_obj v;
  foldl (fun acc kv => acc ← acc; s ← read_auth_state kv.2; Some (<[kv.1 := s]> acc)) (Some ∅) m.
Definition read_node_auth : value -> option NodeAuthView := struct (fun m =>
  node ← field_of read_str ε m "node_id"; states ← field_of read_auth_states ∅ m "auth_states";
  sync ← field_of read_str ε m "credential_sync"; version ← field_of read_int 0 m "credential_version";
  Some (mkNodeAuthView node states sync version)).
Definition read_drift : value -> option DriftView := struct (fun m =>
  node ← field_of read_str ε m "node_id"; sync ← field_of read_str ε m "credential_sync";
  version ← field_of read_int 0 m "credential_version"; Some (mkDriftView node sync version)).
Definition read_cost : value -> option CostSummary := struct (fun m =>
  period ← field_of read_str ε m "period"; cost ← field_of read_float Float64.zero m "total_cost";
  count ← field_of read_int 0 m "session_count"; tokens ← field_of read_int 0 m "tokens_used";
  Some (mkCostSummary period cost count tokens)).
(** The two results about environments differ in the name of their notes. *)
Definition read_env (notes : string) : value -> option EnvResult := struct (fun m =>
  project ← field_of read_str ε m "project"; status ← field_of read_str ε m "status";
  notes ← field_of read_strs [] m notes; details ← field_of read_obj [] m "details";
  Some (mkEnvResult project status notes details)).
Definition read_diff : value -> option AgentMdDiff := struct (fun m =>
  project ← field_of read_str ε m "project"; local ← field_of read_str ε m "local";
  template ← field_of read_str ε m "template"; diff ← field_of read_str ε m "diff";
  Some (mkAgentMdDiff project local template diff)).
Definition read_sync : value -> option AgentMdSyncResult := struct (fun m =>
  project ← field_of read_str ε m "project"; status ← field_of read_str ε m "status";
  message ← field_of read_str ε m "message"; Some (mkAgentMdSync project status message)).
Definition read_envelope : value -> option commandEnvelope := struct (fun m =>
  id ← field_of read_str ε m "command_id"; status ← field_of read_str ε m "status";
  output ← field_of read_str ε m "output"; error ← field_of read_str ε m "error";
  Some (mkCommandEnvelope id status output error)).
End Structs.

(** *** Requests *)
Record HTTPClient := mkHTTPClient { baseURL : string; authToken : string }.
Definition NewHTTPClient (url token : string) : HTTPClient := mkHTTPClient url token.
(** The [Timeout] of the client's [http.Client], from the request to the end of the answer. *)
Definition clientTimeout : Z := 30 * Time.Second.

Section Client.
Context {N : Type} `{Network N} `{Json value} `{TimeText}.

Definition setAuthHeader (c : HTTPClient) : string :=
  if str_empty (authToken c) then ε else ("Bearer " +:+ authToken c)%stdpp.
Definition parseError (statusCode : Z) (body : string) : client_error :=
  let apiErr :=
    match json_unmarshal body with
    | Err _ => None
    | Ok v => struct (fun m => error ← field_of read_str ε m "error"; _ ← field_of read_str ε m "code"; Some error) v
    end in
  match apiErr with
  | None =>
      if statusCode =? 401 then authentication_failed
      else if statusCode =? 404 then resource_not_found None
      else if statusCode =? 503 then service_unavailable None
      else server_status statusCode
  | Some error =>
      if statusCode =? 401 then authentication_failed
      else if statusCode =? 404 then resource_not_found (Some error)
      else if statusCode =? 400 then invalid_request error
      else if statusCode =? 503 then service_unavailable (Some error)
      else server_error error
  end.
Definition send (c : HTTPClient) (method path payload : string) (n : N) : N * res client_error string :=
  match net_do n (mkClientRequest method (baseURL c +:+ path)%stdpp (setAuthHeader c) payload) with
  | (n, Err e) => (n, Err (transport_failed (baseURL c) e))
  | (n, Ok (statusCode, body)) =>
      (n, if negb (statusCode =? 200) then Err (parseError statusCode body) else Ok body)
  end.
Definition Get (c : HTTPClient) (path : string) (n : N) : N * res client_error string := send c "GET" path ε n.
Definition Post (c : HTTPClient) (path : string) (payload : value) (n : N) : N * res client_error string :=
  match json_marshal payload with
  | Err e => (n, Err (marshal_request e))
  | Ok data => send c "POST" path data n
  end.

(** The numbers of the metadata are checked to be numbers; nothing reads them. *)
Definition read_meta : value -> option () := struct (fun m =>
  _ ← field_of read_float Float64.zero m "total"; _ ← field_of read_float Float64.zero m "limit";
  _ ← field_of read_float Float64.zero m "offset"; Some ()).
Definition response_data : value -> option value := struct (fun m =>
  _ ← field_of read_meta () m "meta"; Some (read_raw m "data")).
Definition ParseResponse {A} (target : value -> option A) (body : string) : res client_error A :=
  match json_unmarshal body with
  | Err e => Err (parse_response_failed e)
  | Ok v =>
      match response_data v with
      | None => Err response_shape
      | Some data => match target data with Some a => Ok a | None => Err unmarshal_data_failed end
      end
  end.
Definition parsed {A} (target : value -> option A) (r : N * res client_error string) : N * res client_error A :=
  (r.1, let? body := r.2 in ParseResponse target body).
Definition needs {A} (what arg : string) (r : N * res client_error A) (n : N) : N * res client_error A :=
  if str_empty arg then (n, Err (argument_required what)) else r.

(** *** The calls *)
Definition ListNodes (c : HTTPClient) (n : N) : N * res client_error (list NodeView) :=
  parsed (slice read_node) (Get c "/api/v1/nodes" n).
Definition GetNode (c : HTTPClient) (id : string) (n : N) : N * res client_error NodeView :=
  needs "node id" id (parsed read_node (Get c ("/api/v1/nodes/" +:+ id)%stdpp n)) n.
Definition GetNodeAuth (c : HTTPClient) (nodeID : string) (n : N) : N * res client_error NodeAuthView :=
  parsed read_node_auth (Get c ("/api/v1/nodes/" +:+ nodeID +:+ "/auth")%stdpp n).
Definition GetAuthDrift (c : HTTPClient) (n : N) : N * res client_error (list DriftView) :=
  parsed (slice read_drift) (Get c "/api/v1/auth/drift" n).

Definition sessions_path (project status nodeID : string) (limit : Z) : string :=
  let path := "/api/v1/sessions"%string in
  if negb (str_empty project) || negb (str_empty status) || negb (str_empty nodeID) || (0 <? limit) then
    let path := (path +:+ "?")%stdpp in
    let path := if str_empty project then path else (path +:+ "project=" +:+ project +:+ "&")%stdpp in
    let path := if str_empty status then path else (path +:+ "status=" +:+ status +:+ "&")%stdpp in
    let path := if str_empty nodeID then path else (path +:+ "node_id=" +:+ nodeID +:+ "&")%stdpp in
    let path := if 0 <? limit then (path +:+ "limit=" +:+ Itoa limit +:+ "&")%stdpp else path in
    if Strings.HasSuffix path "&" then Strings.take_bytes (String.length path - 1) path else path
  else path.
Definition ListSessions (c : HTTPClient) (project status nodeID : string) (limit : Z) (n : N)
    : N * res client_error (list SessionView) :=
  parsed (slice read_session) (Get c (sessions_path project status nodeID limit) n).
Definition GetSession (c : HTTPClient) (id : string) (n : N) : N * res client_error SessionView :=
  needs "session id" id (parsed read_session (Get c ("/api/v1/sessions/" +:+ id)%stdpp n)) n.
Definition logs_path (id : string) (limit : Z) : string :=
  let path := ("/api/v1/events?session_id=" +:+ id)%stdpp in
  if 0 <? limit then (path +:+ "&limit=" +:+ Itoa limit)%stdpp else path.
Definition GetSessionLogs (c : HTTPClient) (id : string) (limit : Z) (n : N)
    : N * res client_error (list EventView) :=
  needs "session id" id (parsed (slice read_event) (Get c (logs_path id limit) n)) n.

(** [GetCostToday], [GetCostWeek] and [GetCostMonth]. *)
Definition GetCost (period : string) (c : HTTPClient) (n : N) : N * res client_error CostSummary :=
  parsed read_cost (Get c ("/api/v1/cost/" +:+ period)%stdpp n).
Definition GetEnvStatus (c : HTTPClient) (project : string) (n : N) : N * res client_error EnvResult :=
  needs "project" project (parsed (read_env "issues") (Get c ("/api/v1/env/status/" +:+ project)%stdpp n)) n.
Definition GetAgentMdDiff (c : HTTPClient) (project : string) (n : N) : N * res client_error AgentMdDiff :=
  needs "project" project (parsed read_diff (Get c ("/api/v1/agentmd/diff/" +:+ project)%stdpp n)) n.

(** [CheckEnv], [ProvisionEnv] and [SyncAgentMd]: an answer that is no command
    result is read as the result itself. *)
Definition command_payload (commandType project : string) : value :=
  VObj [("target", VStr project); ("type", VStr commandType)]%string.
Definition is_direct (cmd : commandEnvelope) : bool :=
  str_empty (ce_CommandID cmd) && str_empty (ce_Output cmd) && negb (String.eqb (ce_Status cmd) "success") &&
  negb (String.eqb (ce_Status cmd) "failure") && negb (String.eqb (ce_Status cmd) "timeout").
Definition command_outcome {A} (what : string) (target : value -> option A) (body : string) : res client_error A :=
  let? cmd := ParseResponse read_envelope body in
  if is_direct cmd then ParseResponse target body
  else if negb (String.eqb (ce_Status cmd) "success") then
    Err (if negb (str_empty (ce_Error cmd)) then command_refused (ce_Error cmd)
         else command_status what (ce_Status cmd))
  else
    match (if str_empty (ce_Output cmd) then Ok VNil else json_unmarshal (ce_Output cmd)) with
    | Err _ => Err (output_failed what)
    | Ok v => match target v with Some a => Ok a | None => Err (output_failed what) end
    end.
Definition run_command {A} (commandType what : string) (target : value -> option A) (c : HTTPClient)
    (project : string) (n : N) : N * res client_error A :=
  needs "project" project
    (let '(n, r) := Post c "/api/v1/commands" (command_payload commandType project) n in
     (n, let? body := r in command_outcome what target body)) n.
Definition CheckEnv := run_command "env_check" "env check" (read_env "issues").
Definition ProvisionEnv := run_command "env_provision" "env provision" (read_env "changes").
Definition SyncAgentMd := run_command "agentmd_sync" "agentmd sync" read_sync.
End Client.

(** *** The commands of cmd/halctl/main.go *)
Inductive shown :=
  | ShowSessions (l : list SessionView) | ShowSession (s : SessionView) | ShowEvents (l : list EventView)
  | ShowNodes (l : list NodeView) | ShowNode (n : NodeView)
  | ShowCost (c : CostSummary)
  | ShowEnvCheck (r : EnvResult) | ShowEnvProvision (r : EnvResult)
  | ShowAuth (s : NodeAuthView) | ShowDrift (l : list DriftView)
  | ShowDiff (d : AgentMdDiff) | ShowSync (s : AgentMdSyncResult).
(** A usage error ends the program before any request is made. *)
Inductive cli_error := Usage (text : string) | Failed (e : client_error).

Section Commands.
Context {N : Type} `{Network N} `{Json value} `{TimeText}.
Definition done {A} (show : A -> shown) (r : N * res client_error A) : N * res cli_error shown :=
  (r.1, let? a := res_map_err Failed r.2 in Ok (show a)).
Definition usage (text : string) (n : N) : N * res cli_error shown := (n, Err (Usage text)).
Definition with_arg (args : list string) (text : string) (k : string -> N * res cli_error shown) (n : N)
    : N * res cli_error shown :=
  match args with a :: _ => k a | [] => usage text n end.

Definition handleSessions (c : HTTPClient) (args : list string) (n : N) : N * res cli_error shown :=
  match args with
  | [] => usage "sessions command requires subcommand (list, get, logs)" n
  | sub :: args =>
      if String.eqb sub "list" then done ShowSessions (ListSessions c ε ε ε 100 n)
      else if String.eqb sub "get" then
        with_arg args "sessions get requires session id" (fun id => done ShowSession (GetSession c id n)) n
      else if String.eqb sub "logs" then
        with_arg args "sessions logs requires session id" (fun id => done ShowEvents (GetSessionLogs c id 100 n)) n
      else usage ("unknown sessions subcommand " +:+ Quote sub)%stdpp n
  end.
Definition handleNodes (c : HTTPClient) (args : list string) (n : N) : N * res cli_error shown :=
  match args with
  | [] => usage "nodes command requires subcommand (list, get)" n
  | sub :: args =>
      if String.eqb sub "list" then done ShowNodes (ListNodes c n)
      else if String.eqb sub "get" then
        with_arg args "nodes get requires node id" (fun id => done ShowNode (GetNode c id n)) n
      else usage ("unknown nodes subcommand " +:+ Quote sub)%stdpp n
  end.
Definition handleCost (c : HTTPClient) (args : list string) (n : N) : N * res cli_error shown :=
  match args with
  | [] => usage "cost command requires subcommand (today, week, month)" n
  | sub :: _ =>
      if existsb (String.eqb sub) ["today"; "week"; "month"]%string then done ShowCost (GetCost sub c n)
      else usage ("unknown cost subcommand " +:+ Quote sub)%stdpp n
  end.
Definition handleEnv (c : HTTPClient) (args : list string) (n : N) : N * res cli_error shown :=
  match args with
  | [] => usage "env command requires subcommand (status, check, provision)" n
  | sub :: args =>
      if String.eqb sub "status" then
        with_arg args "env status requires project name" (fun p => done ShowEnvCheck (GetEnvStatus c p n)) n
      else if String.eqb sub "check" then
        with_arg args "env check requires project name" (fun p => done ShowEnvCheck (CheckEnv c p n)) n
      else if String.eqb sub "provision" then
        with_arg args "env provision requires project name" (fun p => done ShowEnvProvision (ProvisionEnv c p n)) n
      else usage ("unknown env subcommand " +:+ Quote sub)%stdpp n
  end.
Definition handleAuth (c : HTTPClient) (args : list string) (n : N) : N * res cli_error shown :=
  match args with
  | [] => usage "auth command requires subcommand (status, drift)" n
  | sub :: args =>
      if String.eqb sub "status" then
        with_arg args "auth status requires node id" (fun id => done ShowAuth (GetNodeAuth c id n)) n
      else if String.eqb sub "drift" then done ShowDrift (GetAuthDrift c n)
      else usage ("unknown auth subcommand " +:+ Quote sub)%stdpp n
  end.
Definition handleAgentMd (c : HTTPClient) (args : list string) (n : N) : N * res cli_error shown :=
  match args with
  | [] => usage "agentmd command requires subcommand (diff, sync)" n
  | sub :: args =>
      if String.eqb sub "diff" then
        with_arg args "agentmd diff requires project name" (fun p => done ShowDiff (GetAgentMdDiff c p n)) n
      else if String.eqb sub "sync" then
        with_arg args "agentmd sync requires project name" (fun p => done ShowSync (SyncAgentMd c p n)) n
      else usage ("unknown agentmd subcommand " +:+ Quote sub)%stdpp n
  end.
(** The switch of [main]; [args] is not empty. *)
Definition run (c : HTTPClient) (args : list string) (n : N) : N * res cli_error shown :=
  match args with
  | [] => usage "no command" n
  | cmd :: args =>
      if String.eqb cmd "sessions" then handleSessions c args n
      else if String.eqb cmd "nodes" then handleNodes c args n
      else if String.eqb cmd "cost" then handleCost c args n
      else if String.eqb cmd "env" then handleEnv c args n
      else if String.eqb cmd "auth" then handleAuth c args n
      else if String.eqb cmd "agentmd" then handleAgentMd c args n
      else usage ("unknown command " +:+ Quote cmd)%stdpp n
  end.
End Commands.
End Ctl.

(** ** The network of a supervisor *)
Module Net.

(** What net/http and net/url make of the target of a request, for texts without
    escapes: the path, clean or not, its segments ([/] stands for a slash at its
    end), and the parameters of the query, of which the first of a name counts. *)
Definition cut_query (target : string) : string * string :=
  match Strings.CutByte target "?"%char with Some (path, query) => (path, query) | None => (target, ε) end.
Definition clean_path (path : string) : string :=
  let np := Path.Clean path in
  if Strings.HasSuffix path "/" && negb (String.eqb np "/") then (np +:+ "/")%stdpp else np.
Definition segments (path : string) : list string :=
  match Strings.SplitByte path Path.slash with
  | [] => []
  | _ :: segs => (fun s => if str_empty s then "/"%string else s) <$> segs
  end.
Definition parameters (query : string) : list (string * string) :=
  (fun w => match Strings.CutByte w "="%char with Some (k, v) => (k, v) | None => (w, ε) end) <$>
    filter (fun w => str_empty w = false) (Strings.SplitByte query "&"%char).
Definition query_get (query k : string) : string :=
  match list_find (fun kv => kv.1 = k) (parameters query) with Some (_, (_, v)) => v | None => ε end.

(** The [WriteTimeout] of the supervisor's server, from the request on: an answer
    written later is not sent, and the connection is closed. *)
Definition WriteTimeout : Z := 15 * Time.Second.
(** What becomes of the answer to a request.  [elapsed] is how long the handler of
    a posted command waited; the other handlers do not wait.  A client that waits
    no longer gives up, whatever the server does. *)
Definition lost (method : string) (elapsed : Z) : option transport_error :=
  if negb (String.eqb method "POST") then None
  else if Ctl.clientTimeout <=? elapsed
  then Some (no_connection "context deadline exceeded (Client.Timeout exceeded while awaiting headers)")
  else if WriteTimeout <=? elapsed then Some (no_connection "EOF")
  else None.

Section Network.
Context {W : Type} `{ApiParts W} `{TimeText} `{MapRange} `{Json value}.
Context (decode_command : string -> res string commandRequest)
  (decode_push : string -> res string pushRequest) (decode_oauth : string -> res string oauthTriggerRequest)
  (decode_object : string -> res string (gmap string value)) (decode_result : string -> res string OAuthResult).
(** The address the supervisor listens on, and the client's. *)
Context (base remote : string) (now : Time.t) (elapsed : Z).

Definition server_request (rq : clientRequest) (target : string) : HttpRequest :=
  let '(path, query) := cut_query target in
  mkHttpRequest (clr_Method rq) (String.eqb (clean_path path) path) (segments path) (clr_Authorization rq)
    (query_get query) (clr_Body rq) remote now elapsed.
Definition handler := Api.Handler (W := W) Wire.encodes decode_command decode_push decode_oauth decode_object decode_result.
#[export] Instance network : Network (HTTPAPI W) := fun a rq =>
  match Strings.CutPrefix (clr_URL rq) base with
  | None => (a, Err (no_connection "connection refused"))
  | Some target =>
      let '(a, resp) := handler a (server_request rq target) in
      (a, match lost (clr_Method rq) elapsed with
          | Some e => Err e
          | None => Ok (rs_Status resp, Wire.body_text (rs_Body resp))
          end)
  end.
End Network.
End Net.

(** ** Lemmas *)
Module HalctlFacts.
Import Strings StringsFacts NumberFacts Wire Ctl Net.

(** *** Plain texts *)
Definition plain_byte (c : ascii) : bool :=
  negb (existsb (Ascii.eqb c) ["/"; "?"; "&"; "="; "#"; "%"; "+"; ";"; " "]%char).
Definition plain (s : string) : Prop := str_forallb plain_byte s = true.
Lemma plain_no sep s : plain_byte sep = false -> plain s -> str_forallb (fun c => negb (Ascii.eqb c sep)) s = true.
Proof.
  intros Hsep. apply str_forallb_impl. intros c Hc. apply negb_true_iff, Ascii.eqb_neq. intros ->. congruence.
Qed.
Lemma plain_Itoa n : 0 < n -> plain (Itoa n).
Proof.
  intros Hn. destruct (Itoa_digits n Hn) as [Hd _]. revert Hd. apply str_forallb_impl. intros c Hc.
  unfold plain_byte. apply negb_true_iff, not_true_iff_false. intros (x & Hin & ->%Ascii.eqb_eq)%existsb_exists.
  apply list_elem_of_In in Hin.
  repeat (apply elem_of_cons in Hin as [->|Hin]; [done|]). by apply elem_of_nil in Hin.
Qed.

(** *** The query *)
Definition piece (k v : string) : string := (k +:+ "=" +:+ v)%stdpp.
Definition query_text (l : list (string * string)) : string := Join ((fun kv => piece kv.1 kv.2) <$> l) "&".
Lemma query_get_text l k :
  Forall (fun kv => plain kv.1 /\ plain kv.2) l ->
  query_get (query_text l) k = match list_find (fun kv => kv.1 = k) l with Some (_, (_, v)) => v | None => ε end.
Proof.
  intros Hl. unfold query_get. assert (parameters (query_text l) = l) as ->; [|done].
  destruct l as [|kv l]; [done|]. unfold parameters, query_text. rewrite SplitByte_Join; [|done|].
  - induction Hl as [|[k' v] l' [Hk Hv] _ IH]; [done|]. cbn [fmap list_fmap fst snd].
    rewrite filter_cons_True by (unfold piece; by destruct k'). cbn [fmap list_fmap]. rewrite IH. f_equal.
    unfold piece. simpl. by rewrite CutByte_append by (by apply plain_no).
  - apply Forall_fmap. eapply Forall_impl; [exact Hl|]. intros [k' v] [Hk Hv]. unfold piece. simpl.
    rewrite str_forallb_app. simpl. by rewrite !plain_no.
Qed.

Definition session_query (project status nodeID : string) (limit : Z) : list (string * string) :=
  (if str_empty project then [] else [("project"%string, project)]) ++
  (if str_empty status then [] else [("status"%string, status)]) ++
  (if str_empty nodeID then [] else [("node_id"%string, nodeID)]) ++
  (if 0 <? limit then [("limit"%string, Itoa limit)] else []).
Definition amp (l : list (string * string)) : string :=
  foldr (fun kv acc => (piece kv.1 kv.2 +:+ "&" +:+ acc)%stdpp) ε l.
Lemma amp_text l : l <> [] -> amp l = (query_text l +:+ "&")%stdpp.
Proof.
  induction l as [|[k v] l IH]; [done|]. intros _. destruct l as [|kv l]; [done|].
  change (amp ((k, v) :: kv :: l)) with (piece k v +:+ "&" +:+ amp (kv :: l))%stdpp. rewrite IH by done.
  change (query_text ((k, v) :: kv :: l)) with (piece k v +:+ "&" +:+ query_text (kv :: l))%stdpp.
  by rewrite !append_assoc.
Qed.
Lemma trim_amp s : (if HasSuffix (s +:+ "&")%stdpp "&"
  then take_bytes (String.length (s +:+ "&")%stdpp - 1) (s +:+ "&")%stdpp else (s +:+ "&")%stdpp) = s.
Proof.
  rewrite (proj2 (HasSuffix_true _ _)) by (by exists s). rewrite length_append. simpl String.length.
  rewrite Nat.add_sub. apply take_append.
Qed.
Lemma sessions_path_eq project status nodeID limit :
  sessions_path project status nodeID limit =
    match session_query project status nodeID limit with
    | [] => "/api/v1/sessions"%string
    | q => ("/api/v1/sessions?" +:+ query_text q)%stdpp
    end.
Proof.
  assert (Hq : session_query project status nodeID limit <> [] ->
    ("/api/v1/sessions?" +:+ amp (session_query project status nodeID limit))%stdpp =
    (("/api/v1/sessions?" +:+ query_text (session_query project status nodeID limit)) +:+ "&")%stdpp).
  { intros Hne. by rewrite amp_text, append_assoc by done. }
  unfold sessions_path. revert Hq. unfold session_query.
  destruct (str_empty project), (str_empty status), (str_empty nodeID), (0 <? limit); cbv zeta;
    cbn [negb orb app]; intros Hq; try done;
    match goal with |- (if HasSuffix ?p _ then _ else _) = ?q => transitivity
      (if HasSuffix (q +:+ "&")%stdpp "&" then take_bytes (String.length (q +:+ "&")%stdpp - 1) (q +:+ "&")%stdpp
       else (q +:+ "&")%stdpp); [|apply trim_amp]; rewrite <- Hq by done; unfold amp, piece; cbn [foldr fst snd];
      rewrite ?append_assoc, ?append_nil_r; try done end.
Qed.

(** *** Reading what was written *)
Section Trip.
Context `{TimeTextLaws}.
Definition survives_int (n : Z) : Prop := float_int (Float64.of_Z n) = Some n.
Definition session_survives (s : sessionJSON) : Prop :=
  survives_int (sj_Tokens s) /\ printable_time (sj_StartedAt s).
Definition session_view (s : sessionJSON) : SessionView :=
  mkSessionView (sj_ID s) (sj_NodeID s) (sj_Project s) (sj_Status s) (sj_Tokens s) (sj_Cost s) (sj_StartedAt s).
Lemma read_session_value s : session_survives s -> read_session (session_value s) = Some (session_view s).
Proof.
  intros [Ht Hp]. unfold read_session, session_value, struct, field_of. cbn. rewrite Ht. cbn.
  by rewrite (parse_format _ Hp).
Qed.
Lemma mapM_read {A B} (w : A -> value) (r : value -> option B) (view : A -> B) l :
  Forall (fun a => r (w a) = Some (view a)) l -> mapM r (w <$> l) = Some (view <$> l).
Proof. intros Hl. induction Hl as [|a l Ha _ IH]; [done|]. cbn. by rewrite Ha, IH. Qed.
Lemma response_data_value data meta : response_data (api_response data meta) = Some data.
Proof.
  unfold response_data, api_response, struct. destruct meta as [m|]; [|done].
  unfold meta_value, omit_int, field_of. cbn.
  destruct (meta_Limit m =? 0), (meta_Offset m =? 0); reflexivity.
Qed.
Lemma ParseResponse_value `{JsonLaws value} {A} (target : value -> option A) data meta text a :
  json_plain (api_response data meta) -> json_marshal (api_response data meta) = Ok text ->
  target data = Some a -> ParseResponse target text = Ok a.
Proof.
  intros Hp Hm Ha. unfold ParseResponse. rewrite (json_round_trip _ _ Hp Hm), response_data_value. by rewrite Ha.
Qed.
End Trip.

Lemma cut_sessions q : cut_query ("/api/v1/sessions?" +:+ q)%stdpp = ("/api/v1/sessions"%string, q).
Proof.
  change ("/api/v1/sessions?" +:+ q)%stdpp with ("/api/v1/sessions" +:+ String "?" q)%stdpp.
  unfold cut_query. by rewrite CutByte_append.
Qed.
Lemma query_get_session project status nodeID limit k :
  plain project -> plain status -> plain nodeID ->
  query_get (query_text (session_query project status nodeID limit)) k =
    (if String.eqb k "project" then project else if String.eqb k "status" then status
     else if String.eqb k "node_id" then nodeID
     else if String.eqb k "limit" then (if 0 <? limit then Itoa limit else ε) else ε).
Proof.
  intros Hp Hs Hn. rewrite query_get_text.
  - unfold session_query.
    destruct (str_empty project) eqn:E1, (str_empty status) eqn:E2, (str_empty nodeID) eqn:E3;
      rewrite ?str_empty_true in E1; rewrite ?str_empty_true in E2; rewrite ?str_empty_true in E3; subst;
      destruct (0 <? limit); cbn [app list_find fst];
      repeat match goal with
      | |- context [decide (?x = k)] => destruct (decide (x = k)) as [<-|?]; [done|]; cbn [fmap option_fmap option_map]
      end; cbn [prod_map snd fst id]; repeat (case_match; try done);
      repeat match goal with Hb : String.eqb k _ = true |- _ => apply String.eqb_eq in Hb end; congruence.
  - unfold session_query. repeat apply Forall_app_2; case_match; repeat constructor; try done.
    apply plain_Itoa. by apply Z.ltb_lt.
Qed.
Lemma sessions_request remote now elapsed project status nodeID limit url auth payload :
  plain project -> plain status -> plain nodeID ->
  let rq := server_request remote now elapsed (mkClientRequest "GET" url auth payload)
              (sessions_path project status nodeID limit) in
  hq_Method rq = "GET"%string /\ hq_Clean rq = true /\ hq_Segments rq = ["api"; "v1"; "sessions"]%string /\
  forall k, hq_Query rq k =
    (if String.eqb k "project" then project else if String.eqb k "status" then status
     else if String.eqb k "node_id" then nodeID
     else if String.eqb k "limit" then (if 0 <? limit then Itoa limit else ε) else ε).
Proof.
  intros Hp Hs Hn rq. unfold rq, server_request. rewrite sessions_path_eq.
  pose proof (query_get_session project status nodeID limit) as Hq.
  destruct (session_query project status nodeID limit) as [|kv l].
  - cbn. split_and!; try (vm_compute; reflexivity). intros k. by apply Hq.
  - rewrite cut_sessions. cbn [hq_Method hq_Clean hq_Segments hq_Query clr_Method].
    split_and!; try (vm_compute; reflexivity). intros k. by apply Hq.
Qed.
End HalctlFacts.

(** ** Properties *)
Section Properties.
Import Strings StringsFacts NumberFacts Wire Ctl Net HalctlFacts.
Context {W : Type} `{ApiParts W} `{TimeTextLaws} `{MapRange} `{JsonLaws value}.
Context (decode_command : string -> res string commandRequest)
  (decode_push : string -> res string pushRequest) (decode_oauth : string -> res string oauthTriggerRequest)
  (decode_object : string -> res string (gmap string value)) (decode_result : string -> res string OAuthResult).
Context (base remote : string) (now : Time.t) (elapsed : Z).
#[local] Instance net : Network (HTTPAPI W) :=
  network decode_command decode_push decode_oauth decode_object decode_result base remote now elapsed.
Implicit Types a : HTTPAPI W.

Notation serve := (Api.serve Wire.encodes decode_command decode_push decode_oauth decode_object decode_result).
Lemma CutPrefix_base (t : string) : CutPrefix (base +:+ t)%stdpp base = Some t.
Proof. by apply CutPrefix_Some. Qed.

(** A call that matches a private route is answered by its handler. *)
Lemma send_served a c method target payload r values :
  baseURL c = base -> authToken c = api_authToken a -> api_authToken a <> ε ->
  let rq := server_request remote now elapsed (mkClientRequest method (base +:+ target)%stdpp
              ("Bearer " +:+ authToken c)%stdpp payload) target in
  hq_Clean rq = true -> r ∈ Api.private_routes -> Api.match_route rq r = Some (Api.rt_Endpoint r, true, values) ->
  send c method target payload a =
    let '(a', resp) := serve (Api.rt_Endpoint r) values a rq in
    (a', match lost method elapsed with
         | Some e => Err (transport_failed (baseURL c) e)
         | None => if negb (rs_Status resp =? 200) then Err (parseError (rs_Status resp) (body_text (rs_Body resp)))
                   else Ok (body_text (rs_Body resp))
         end).
Proof.
  intros Hb Ht Hne rq Hc Hin Hm. apply str_empty_false in Hne.
  unfold send, net_do, net, network, setAuthHeader. cbn [clr_URL].
  rewrite Hb, Ht, Hne, CutPrefix_base. rewrite <- Ht. fold rq. unfold handler, Api.Handler.
  rewrite Hc. cbn [negb andb].
  assert (Hin' : r ∈ Api.routes a) by (unfold Api.routes; rewrite !elem_of_app; tauto).
  rewrite (ApiFacts.find_route_apart rq (Api.routes a) r _ (ApiFacts.routes_apart a) Hin' Hm).
  unfold Api.requireAuth, Api.token_ok, Api.bearer_token.
  assert (hq_Authorization rq = ("Bearer " +:+ authToken c)%stdpp) as ->
    by (unfold rq, server_request; by destruct (cut_query target)).
  rewrite (proj2 (HasPrefix_true _ _)) by (by eexists). rewrite TrimPrefix_append, Ht, Hne, String.eqb_refl.
  cbn [negb orb clr_Method]. destruct (serve _ _ a rq) as [a' resp]. by destruct (lost method elapsed).
Qed.
(** What a handler that answers 200 is read as. *)
Lemma written_text b v text : body_value b = Some (Ok v) -> json_marshal v = Ok text ->
  rs_Status (Api.writeJSON Wire.encodes 200 b) = 200 /\ body_text (rs_Body (Api.writeJSON Wire.encodes 200 b)) = text.
Proof.
  intros Hb Ht. unfold Api.writeJSON, Wire.encodes. rewrite Hb, Ht. cbn. split; [done|].
  unfold body_text. rewrite Hb, Ht. by destruct b.
Qed.

(** A client of the supervisor, with its token. *)
Definition talks_to (c : HTTPClient) a : Prop :=
  baseURL c = base /\ authToken c = api_authToken a /\ api_authToken a <> ε.
(** An answer that encoding/json writes and reads back. *)
Definition travels (v : value) : Prop := json_plain v /\ exists text, json_marshal v = Ok text.

Lemma served_data a a' c method path payload r values b data meta :
  talks_to c a ->
  let rq := server_request remote now elapsed (mkClientRequest method (base +:+ path)%stdpp
              ("Bearer " +:+ authToken c)%stdpp payload) path in
  hq_Clean rq = true -> r ∈ Api.private_routes -> Api.match_route rq r = Some (Api.rt_Endpoint r, true, values) ->
  serve (Api.rt_Endpoint r) values a rq = (a', Api.writeJSON Wire.encodes 200 b) ->
  body_value b = Some (Ok (api_response data meta)) -> travels (api_response data meta) ->
  exists text,
    send c method path payload a =
      (a', match lost method elapsed with Some e => Err (transport_failed (baseURL c) e) | None => Ok text end) /\
    forall (B : Type) (read : value -> option B),
      ParseResponse read text = match read data with Some x => Ok x | None => Err unmarshal_data_failed end.
Proof.
  intros (Hb & Ht & Hne) rq Hc Hin Hm Hs Hbody [Hp [text Htext]]. exists text.
  rewrite (send_served a c method path payload r values Hb Ht Hne Hc Hin Hm). fold rq. rewrite Hs.
  destruct (written_text b _ text Hbody Htext) as [-> ->]. split; [done|]. intros B read.
  unfold ParseResponse. by rewrite (json_round_trip _ _ Hp Htext), response_data_value.
Qed.

(** C19: [halctl sessions list] through the whole program: whatever filters are
    given, as long as they need no escapes, the path that is built reaches the
    listing with exactly these filters, and what is read back is, session for
    session, what the tracker has. *)
Theorem halctl_lists_what_the_tracker_has (c : HTTPClient) a (project status nodeID : string) (limit : Z) :
  talks_to c a -> plain project -> plain status -> plain nodeID -> limit < 2 ^ 63 ->
  let order := tracker_sessions (api_world a) in
  let wanted := if 0 <? limit then limit else 100 in
  let page := Api.filter_sessions status nodeID wanted []
    (if str_empty project then Tracker.GetAllSessions order else Tracker.GetSessionsByProject order project) in
  Forall session_survives page ->
  travels (api_response (VArr (session_value <$> page)) (Some (mkMeta (Z.of_nat (length page)) wanted 0))) ->
  ListSessions c project status nodeID limit a = (a, Ok (session_view <$> page)).
Proof.
  intros Hc Hp Hs Hn Hl order wanted page Hsur Htr.
  destruct (sessions_request remote now elapsed project status nodeID limit
    (base +:+ sessions_path project status nodeID limit)%stdpp ("Bearer " +:+ authToken c)%stdpp ε Hp Hs Hn)
    as (Hmeth & Hclean & Hseg & Hquery).
  assert (Hlim : Api.parseIntParam (if 0 <? limit then Itoa limit else ε) 100 = wanted).
  { unfold wanted, Api.parseIntParam. destruct (Z.ltb_spec 0 limit) as [Hpos|]; [|done].
    rewrite Atoi_Itoa by lia. rewrite (proj2 (Z.leb_gt _ _)) by lia. destruct (str_empty (Itoa limit)) eqn:E; [|done].
    apply str_empty_true in E. pose proof (Atoi_Itoa limit ltac:(lia)) as Hbad. by rewrite E in Hbad. }
  destruct (served_data a a c "GET" (sessions_path project status nodeID limit) ε
    (Api.mkRoute "GET" [Api.Lit "api"; Api.Lit "v1"; Api.Lit "sessions"] true Api.EListSessions) []
    (Sessions (Api.filter_sessions status nodeID wanted [] (if str_empty project then Tracker.GetAllSessions order
       else Tracker.GetSessionsByProject order project)) (mkMeta (Z.of_nat (length page)) wanted 0))
    (VArr (session_value <$> page)) (Some (mkMeta (Z.of_nat (length page)) wanted 0)) Hc Hclean)
    as (text & Hsend & Hparse); [left | | | done | done |].
  - unfold Api.match_route. rewrite Hmeth, Hseg. done.
  - cbn [Api.rt_Endpoint Api.serve]. unfold Api.handleListSessions. rewrite !Hquery.
    cbn [String.eqb Ascii.eqb Bool.eqb]. by rewrite Hlim.
  - unfold ListSessions, Get, parsed. change (lost "GET" elapsed) with (@None transport_error) in Hsend.
    rewrite Hsend. cbn [fst snd res_bind]. rewrite Hparse. cbn [slice].
    by rewrite (mapM_read session_value read_session session_view)
      by (eapply Forall_impl; [exact Hsur | apply read_session_value]).
Qed.

(** C21: [halctl cost] shows no costs: whatever the supervisor reports, the
    summary that is read has the period of the report, but a total of zero, no
    sessions and no tokens, since none of these names occurs in a report. *)
Theorem halctl_cost_reads_zero (c : HTTPClient) a (period : string) (report : CostReport) :
  talks_to c a -> period ∈ ["today"; "week"; "month"]%string -> api_costs a = true ->
  cost_report (api_world a) now period = Ok report -> travels (api_response (report_value report) None) ->
  GetCost period c a = (a, Ok (mkCostSummary (rp_Period report) Float64.zero 0 0)).
Proof.
  intros Hc Hper Hcosts Hrep Htr.
  assert (Hreq : forall url auth, let rq := server_request remote now elapsed
      (mkClientRequest "GET" url auth ε) ("/api/v1/cost/" +:+ period)%stdpp in
    hq_Method rq = "GET"%string /\ hq_Clean rq = true /\ hq_Now rq = now /\
    hq_Segments rq = ["api"; "v1"; "cost"; period]%string /\ ToLower (TrimSpace period) = period /\
    String.eqb period "/" = false /\ str_empty period = false).
  { intros url auth.
    repeat (apply elem_of_cons in Hper as [->|Hper]; [split_and!; vm_compute; reflexivity|]).
    by apply elem_of_nil in Hper. }
  destruct (Hreq (base +:+ ("/api/v1/cost/" +:+ period))%stdpp ("Bearer " +:+ authToken c)%stdpp)
    as (Hmeth & Hclean & Hnow & Hseg & Hlow & Hslash & Hne).
  destruct (served_data a a c "GET" ("/api/v1/cost/" +:+ period)%stdpp ε
    (Api.mkRoute "GET" [Api.Lit "api"; Api.Lit "v1"; Api.Lit "cost"; Api.Wild "period"] true Api.ECostReportByPath)
    [("period", period)]%string (CostBody report) (report_value report) None Hc Hclean)
    as (text & Hsend & Hparse); [| | | done | done |].
  - apply list_elem_of_In. vm_compute. tauto.
  - unfold Api.match_route. rewrite Hmeth, Hseg. cbn. by rewrite Hslash.
  - cbn [Api.rt_Endpoint Api.serve]. unfold Api.handleCostReportByPath, Api.report_for.
    change (Api.PathValue [("period"%string, period)] "period") with period. by rewrite Hlow, Hne, Hcosts, Hnow, Hrep.
  - unfold GetCost, Get, parsed. change (lost "GET" elapsed) with (@None transport_error) in Hsend. rewrite Hsend. cbn [fst snd res_bind]. rewrite Hparse. done.
Qed.

(** C28: what [halctl env check], [env provision] and [agentmd sync] make of a
    command.  One command of the type for the project is dispatched, and it is
    recorded, however long it takes.  When the answer comes within the server's
    15 seconds, the output of a command that succeeded is decoded, and one that
    did not is always an error, with the text of the result where it has one.
    Later the result is lost, whatever it is: the client reports that it could
    not connect, because the server closed the connection or, from 30 seconds on,
    because the client itself gave up. *)
Theorem halctl_command_outcome {A} (c : HTTPClient) a (t what project payload : string)
    (target : value -> option A) (w : W) (r : CommandResult) :
  talks_to c a -> t ∈ ["env_check"; "env_provision"; "agentmd_sync"]%string -> project <> ε ->
  api_dispatcher a = true -> json_marshal (command_payload t project) = Ok payload ->
  decode_command payload = Ok (mkCommandRequest t project ∅ ε 0) ->
  let cmd := mkCommand ε t ε (mkTarget project ε) ∅ 0 in
  dispatch_command (api_world a) (Some (Api.deadline_of cmd)) cmd = (w, Ok r) -> cr_CommandID r <> ε ->
  travels (api_response (result_value r) None) ->
  run_command t what target c project a =
    (Api.recorded (Api.dispatch_done t r elapsed) (Api.with_world w a),
     if clientTimeout <=? elapsed then
       Err (transport_failed base (no_connection
              "context deadline exceeded (Client.Timeout exceeded while awaiting headers)"))
     else if WriteTimeout <=? elapsed then Err (transport_failed base (no_connection "EOF"))
     else if String.eqb (cr_Status r) "success" then
       match (if str_empty (cr_Output r) then Ok VNil else json_unmarshal (cr_Output r)) with
       | Ok v => match target v with Some x => Ok x | None => Err (output_failed what) end
       | Err _ => Err (output_failed what)
       end
     else Err (if negb (str_empty (cr_Error r)) then command_refused (cr_Error r) else command_status what (cr_Status r))).
Proof.
  intros Hc Ht Hp Hdisp Hpay Hdec cmd Hrun Hid Htr.
  assert (Hparse_t : ParseCommandIntent t = Ok t /\ str_empty t = false).
  { repeat (apply elem_of_cons in Ht as [->|Ht]; [by vm_compute|]). by apply elem_of_nil in Ht. }
  destruct Hparse_t as [Hint Htne].
  destruct (served_data a (Api.recorded (Api.dispatch_done t r elapsed) (Api.with_world w a)) c "POST" "/api/v1/commands" payload
    (Api.mkRoute "POST" [Api.Lit "api"; Api.Lit "v1"; Api.Lit "commands"] true Api.ECommand) []
    (Command_result r) (result_value r) None Hc)
    as (text & Hsend & Hparse); [vm_compute; reflexivity | | vm_compute; reflexivity | | done | done |].
  - apply list_elem_of_In. vm_compute. tauto.
  - cbn [Api.rt_Endpoint Api.serve]. unfold Api.handleCommand. rewrite Hdisp. cbn [negb].
    change (hq_Body _) with payload. rewrite Hdec. cbn [cq_Type]. rewrite Htne, Hint.
    change (Api.command_of _ t) with cmd. rewrite Hrun. unfold server_request. by destruct (cut_query _).
  - apply str_empty_false in Hp. unfold run_command, needs. rewrite Hp. unfold Post. rewrite Hpay, Hsend.
    rewrite (proj1 Hc). unfold lost. cbn [String.eqb Ascii.eqb Bool.eqb negb]. destruct (clientTimeout <=? elapsed); [done|].
    destruct (WriteTimeout <=? elapsed); [done|]. cbn [res_bind]. unfold command_outcome. rewrite Hparse.
    assert (read_envelope (result_value r) =
      Some (mkCommandEnvelope (cr_CommandID r) (cr_Status r) (cr_Output r) (cr_Error r))) as ->.
    { unfold read_envelope, result_value, struct, field_of, omit_str. destruct (str_empty (cr_Error r)) eqn:E; cbn; [|done].
      apply str_empty_true in E. by rewrite E. }
    cbn [res_bind]. unfold is_direct. cbn [ce_CommandID ce_Status ce_Output ce_Error].
    apply str_empty_false in Hid. rewrite Hid. cbn [andb]. destruct (String.eqb (cr_Status r) "success"); [|done].
    cbn [negb]. by destruct (if str_empty (cr_Output r) then _ else _).
Qed.
End Properties.

(** Every number passes through a [float64] on its way: a count above 2^53 may
    come back as another one. *)
Example large_counts_are_rounded : HalctlFacts.survives_int (2 ^ 53) /\ Wire.float_int (Float64.of_Z (2 ^ 53 + 1)) = Some (2 ^ 53).
Proof. split; vm_compute; reflexivity. Qed.

(** ** Witness: a supervisor with three sessions, and the texts of four values *)
Module HalctlWitness.
Import Wire Ctl Net HalctlFacts ApiWitness CommandWitness.
#[local] Existing Instance sorted_range.

Definition the_report : CostReport := mkReport "today" 12 (Float64.of_Z 3) [] [] [] [].
Definition the_result : CommandResult := mkResult "c1" "failure" ε "node offline" 7.
Record desk := mkDesk { dk_sessions : list TrackedSession; dk_sent : list Command }.
#[export] Instance desk_parts : ApiParts desk := {
  tracker_sessions w := (fun s => (ses_SessionID s, s)) <$> dk_sessions w;
  registry_nodes _ := [];
  get_session w _ := (w, Err lookup_not_found);
  get_node w _ := (w, Err lookup_not_found);
  get_auth_state w _ := (w, ∅);
  dispatch_command w _ cmd := (mkDesk (dk_sessions w) (dk_sent w ++ [cmd]), Ok the_result);
  dispatch_panics _ _ _ := None;
  query_rows _ _ _ := Ok [];
  ping_db _ := Ok ();
  cost_report _ _ _ := Ok the_report;
  log_command w _ _ _ _ _ _ := w }.
Definition desk0 : desk := mkDesk [ses "s1" "n1"; ses "s2" "n2"; ses "s3" "n1"] [].
Definition api0 : HTTPAPI desk := Api.SetCostAggregator (Api.NewHTTPAPI Metric.fresh desk0 true true "t0k").

Definition page : list sessionJSON := Api.toSessionJSON <$> [ses "s1" "n1"; ses "s3" "n1"].
Definition page_answer : value := api_response (VArr (session_value <$> page)) (Some (mkMeta 2 100 0)).
Definition cost_answer : value := api_response (report_value the_report) None.
Definition result_answer : value := api_response (result_value the_result) None.
Definition text_of (v : value) : string :=
  match v with
  | VObj [_; _] => "sessions"
  | VObj [(_, VObj (("period", _) :: _))] => "cost"
  | _ => "result"
  end%string.
#[export] Instance desk_json : Json value := {
  json_marshal v := Ok (text_of v);
  json_unmarshal s :=
    if String.eqb s "sessions" then Ok page_answer
    else if String.eqb s "cost" then Ok cost_answer
    else if String.eqb s "result" then Ok result_answer else Err "unexpected end of JSON input"%string }.
#[export] Instance desk_json_laws : JsonLaws value.
Proof.
  refine {| json_plain v := v = page_answer \/ v = cost_answer \/ v = result_answer |}.
  intros v s [->|[->| ->]] [= <-]; reflexivity.
Defined.
Definition decode_command (body : string) : res string commandRequest :=
  if String.eqb body "sessions" then Ok (mkCommandRequest "env_check" "p1" ∅ ε 0) else Err "EOF"%string.
#[export] Instance desk_net : Network (HTTPAPI desk) :=
  network decode_command no_json no_json no_json no_json "http://localhost:8421" "::1" 9 0.
Definition client : HTTPClient := NewHTTPClient "http://localhost:8421" "t0k".

Example listed_here :
  (ListSessions client ε "running" "n1" 0 api0).2 = Ok (session_view <$> page).
Proof. vm_compute. reflexivity. Qed.

Lemma client_here : talks_to "http://localhost:8421" client api0.
Proof. split_and!; try reflexivity. discriminate. Qed.

Lemma page_survives : Forall session_survives page.
Proof. repeat constructor; vm_compute; try reflexivity; discriminate. Qed.
Lemma page_travels : travels page_answer.
Proof. split; [left; reflexivity | eexists; reflexivity]. Qed.
Lemma halctl_lists_what_the_tracker_has_witness :
  ListSessions client ε "running" "n1" 0 api0 = (api0, Ok (session_view <$> page)).
Proof.
  exact (halctl_lists_what_the_tracker_has decode_command no_json no_json no_json no_json
    "http://localhost:8421" "::1" 9 0 client api0 ε "running" "n1" 0 client_here eq_refl eq_refl eq_refl eq_refl
    page_survives page_travels).
Defined.
Lemma halctl_cost_reads_zero_witness :
  GetCost "today" client api0 = (api0, Ok (mkCostSummary "today" Float64.zero 0 0)).
Proof.
  apply (halctl_cost_reads_zero decode_command no_json no_json no_json no_json
    "http://localhost:8421" "::1" 9 0 client api0 "today" the_report); try reflexivity.
  - apply client_here.
  - left.
  - split; [right; left; reflexivity | eexists; reflexivity].
Defined.
(** A failure that comes at once, and one that takes 20 seconds. *)
Definition check_after (elapsed : Z) : HTTPAPI desk * res client_error _ :=
  CheckEnv (H := network decode_command no_json no_json no_json no_json "http://localhost:8421" "::1" 9 elapsed)
    client "p1" api0.
Definition recorded_after (elapsed : Z) : HTTPAPI desk :=
  Api.recorded (Api.dispatch_done "env_check" the_result elapsed)
    (Api.with_world (mkDesk (dk_sessions desk0) [mkCommand ε "env_check" ε (mkTarget "p1" ε) ∅ 0]) api0).
Lemma halctl_command_outcome_witness :
  check_after 0 = (recorded_after 0, Err (command_refused "node offline")) /\
  check_after (20 * Time.Second) =
    (recorded_after (20 * Time.Second), Err (transport_failed "http://localhost:8421" (no_connection "EOF"))).
Proof.
  assert (travels result_answer) as Htr by (split; [right; right; reflexivity | eexists; reflexivity]).
  pose proof (fun elapsed => halctl_command_outcome decode_command no_json no_json no_json no_json
    "http://localhost:8421" "::1" 9 elapsed client api0 "env_check" "env check" "p1" "sessions" (read_env "issues")
    (mkDesk (dk_sessions desk0) [mkCommand ε "env_check" ε (mkTarget "p1" ε) ∅ 0]) the_result
    client_here ltac:(left) ltac:(discriminate) eq_refl eq_refl eq_refl eq_refl ltac:(discriminate) Htr) as Hall.
  split; [exact (Hall 0) | exact (Hall (20 * Time.Second))].
Defined.
End HalctlWitness.
