(* ===== verification/CliConfig.v ===== *)
(** * CliConfig

    cmd/halctl: the configuration dialogue (config_cmd.go) and the settings
    [main] starts from.  The lines of standard input are a list, each without its
    newline; after the last one every read fails.  Prompts loop until a usable
    line comes, with fuel; what the dialogue prints is left out.  The file system is the
    class [ConfigDisk]; JSON texts and random bytes are arguments. *)

From S2P Require Import Prelude GoStd Commands Config.

(** ** The disk *)
Inductive read_result := NoFile | ReadFailed (e : string) | FileData (s : string).
Class ConfigDisk (D : Type) := {
  disk_read : D -> string -> read_result;
  disk_mkdir_all : D -> string -> D * res string ();
  disk_create_temp : D -> string -> D * res string string;
  disk_write : D -> string -> string -> D * res string ();
  disk_chmod : D -> string -> Z -> D * res string ();
  disk_close : D -> string -> D * res string ();
  disk_rename : D -> string -> string -> D * res string ();
  disk_remove : D -> string -> D * res string ();
}.
(** What a file holds.  A write that fails may leave anything in the temporary
    file; a rename replaces the file as a whole or not at all. *)
Class ConfigDiskLaws (D : Type) `{ConfigDisk D} := {
  on_disk : D -> string -> option string;
  mkdir_keeps d dir p : on_disk (disk_mkdir_all d dir).1 p = on_disk d p;
  temp_ok d dir d' tmp : disk_create_temp d dir = (d', Ok tmp) ->
    Strings.HasSuffix tmp ".tmp" = true /\ forall p, p <> tmp -> on_disk d' p = on_disk d p;
  temp_failed d dir d' e : disk_create_temp d dir = (d', Err e) -> forall p, on_disk d' p = on_disk d p;
  write_other d tmp s p : p <> tmp -> on_disk (disk_write d tmp s).1 p = on_disk d p;
  write_ok d tmp s d' : disk_write d tmp s = (d', Ok ()) -> on_disk d' tmp = Some s;
  chmod_keeps d f m p : on_disk (disk_chmod d f m).1 p = on_disk d p;
  close_keeps d f p : on_disk (disk_close d f).1 p = on_disk d p;
  rename_ok d src dst d' : disk_rename d src dst = (d', Ok ()) ->
    on_disk d' dst = on_disk d src /\ forall p, p <> src -> p <> dst -> on_disk d' p = on_disk d p;
  rename_failed d src dst d' e : disk_rename d src dst = (d', Err e) -> forall p, on_disk d' p = on_disk d p;
  remove_other d f p : p <> f -> on_disk (disk_remove d f).1 p = on_disk d p;
  read_finds d p s : disk_read d p = FileData s -> on_disk d p = Some s;
}.

(** ** Data *)
Definition defaultSupervisorConfigPath : string := "/etc/hal-o-swarm/supervisor.config.json".
Definition defaultAgentConfigPath : string := "/etc/hal-o-swarm/agent.config.json".
Definition defaultCLIFormat : string := "table".
Definition defaultCLIURL : string := "http://localhost:8421".

Record agentConfigFile := mkAgentFile {
  af_SupervisorURL : string; af_AuthToken : string; af_OpencodePort : Z; af_AuthReportIntervalSec : Z;
  af_Projects : list ProjectDir }.
(** The policies, the security settings and the credentials have the fields they
    have in the config package; the server and the costs have fewer. *)
Record supervisorConfigFile := mkSupervisorFile {
  sf_Port : Z; sf_HTTPPort : Z; sf_AuthToken : string; sf_HeartbeatIntervalSec : Z; sf_HeartbeatTimeoutCount : Z;
  sf_DatabasePath : string; sf_Channels : value; sf_PollIntervalMinutes : Z;
  sf_AnthropicAdminAPIKey : string; sf_OpenAIOrgAPIKey : string;
  sf_Routes : value; sf_Policies : PolicyConfig; sf_Dependencies : value; sf_Security : SecurityConfig;
  sf_Credentials : CredentialDistributionConfig }.
Record cliConfigFile := mkCLIFile { cf_SupervisorURL : string; cf_AuthToken : string; cf_Format : string }.

Inductive write_error :=
  | parent_failed (e : string) | marshal_failed (e : string) | temp_file_failed (e : string)
  | temp_write_failed (e : string) | temp_mode_failed (e : string) | temp_close_failed (e : string)
  | replace_failed (e : string).
Inductive config_cmd_error :=
  | token_failed (e : string)
  | writing_failed (e : write_error)
  | supervisor_invalid (e : load_error config_error)
  | agent_invalid (e : load_error agent_config_error)
  | home_unknown (e : string)
  | cli_unreadable (e : string).

Module Dialogue.

(** *** Defaults *)
Definition no_channels : value :=
  VObj [("discord", VObj [("bot_token", VStr ε); ("guild_id", VStr ε);
          ("channels", VObj [("alerts", VStr ε); ("dev-log", VStr ε)])]);
        ("slack", VObj [("bot_token", VStr ε); ("channels", VObj [("alerts", VStr ε); ("dev-log", VStr ε)])]);
        ("n8n", VObj [("webhook_url", VStr ε)])]%string.
Definition defaultSupervisorConfig : supervisorConfigFile :=
  mkSupervisorFile 8420 8421 ε 30 3 "/var/lib/hal-o-swarm/supervisor.db" no_channels 60 ε ε (VArr [])
    (mkPolicies (mkIdlePolicy true 300 3 3600) (mkCompactionPolicy true 180000 2 3600)
       (mkCostPolicy false (Float64.of_Z 10) 1 86400) 30)
    (VObj []) (mkSecurity (mkTLS false ε ε) [] false 300 true 90) (mkCredentials 1 ∅ ∅).
Definition defaultAgentConfig : agentConfigFile := mkAgentFile "ws://127.0.0.1:8420/ws/agent" ε 4096 30 [].
Definition with_token (cfg : supervisorConfigFile) (token : string) : supervisorConfigFile :=
  mkSupervisorFile (sf_Port cfg) (sf_HTTPPort cfg) token (sf_HeartbeatIntervalSec cfg) (sf_HeartbeatTimeoutCount cfg)
    (sf_DatabasePath cfg) (sf_Channels cfg) (sf_PollIntervalMinutes cfg) (sf_AnthropicAdminAPIKey cfg)
    (sf_OpenAIOrgAPIKey cfg) (sf_Routes cfg) (sf_Policies cfg) (sf_Dependencies cfg) (sf_Security cfg)
    (sf_Credentials cfg).

(** *** Prompts *)
Section Prompts.
Definition P (A : Type) : Type := list string -> option (A * list string).
Definition ret {A} (a : A) : P A := fun lines => Some (a, lines).
Definition bind {A B} (m : P A) (k : A -> P B) : P B :=
  fun lines => match m lines with Some (a, lines) => k a lines | None => None end.
End Prompts.
Notation "'ask!' x ':=' m 'in' k" := (bind m (fun x => k))
  (at level 10, x pattern, m at level 200, k at level 200).

(** The value of a line, or [None] when it is required and missing. *)
Definition accept (def : string) (required : bool) (line : string) : option string :=
  let input := Strings.TrimSpace line in
  let input := if str_empty input then def else input in
  if required && str_empty (Strings.TrimSpace input) then None else Some input.
Fixpoint promptString (fuel : nat) (def : string) (required : bool) (lines : list string)
    : option (string * list string) :=
  match fuel with
  | O => None
  | S fuel =>
      match lines with
      | [] => promptString fuel def required []
      | line :: rest =>
          match accept def required line with
          | Some input => Some (input, rest)
          | None => promptString fuel def required rest
          end
      end
  end.
Section Fuel.
Context (fuel : nat).
Fixpoint again {A} (n : nat) (try : P (option A)) : P A :=
  match n with
  | O => fun _ => None
  | S n => ask! a := try in match a with Some a => ret a | None => again n try end
  end.
Definition promptInt (def : Z) : P Z :=
  again fuel (
    ask! raw := promptString fuel (Itoa def) true in
    ret (match Atoi raw with
         | Some val => if (val <=? 0) || (65535 <? val) then None else Some val
         | None => None
         end)).
Definition yes_no (def : bool) (line : string) : option bool :=
  let answer := Strings.ToLower (Strings.TrimSpace line) in
  if str_empty answer then Some def
  else if String.eqb answer "y" || String.eqb answer "yes" then Some true
  else if String.eqb answer "n" || String.eqb answer "no" then Some false
  else None.
(** A read that fails is tried again. *)
Definition promptYesNo (def : bool) : P bool :=
  again fuel (fun lines =>
    match lines with [] => Some (None, []) | line :: rest => Some (yes_no def line, rest) end).
Definition promptTarget : P string :=
  again fuel (
    ask! choice := promptString fuel "1" true in
    let choice := Strings.TrimSpace choice in
    ret (if String.eqb choice "1" || String.eqb choice "supervisor" then Some "supervisor"%string
         else if String.eqb choice "2" || String.eqb choice "agent" then Some "agent"%string
         else if String.eqb choice "3" || String.eqb choice "cli" then Some "cli"%string
         else None)).

(** *** Files *)
Section Files.
Context {D : Type} `{ConfigDisk D}.

(** [decode], [json.Unmarshal] into a struct that has values already, also
    returns what it filled in before an error. *)
Definition readJSONIfExists {A} (decode : A -> string -> A * option string) (d : D) (path : string) (target : A)
    : A * option string :=
  match disk_read d path with
  | NoFile => (target, None)
  | ReadFailed e => (target, Some e)
  | FileData data => if str_empty (Strings.TrimSpace data) then (target, None) else decode target data
  end.
Definition newline : string := String (ascii_of_nat 10) EmptyString.
(** The temporary file is removed on every way out. *)
Definition writeJSONAtomic (data : res string string) (path : string) (mode : Z) (d : D) : D * res write_error () :=
  match disk_mkdir_all d (Path.Dir path) with
  | (d, Err e) => (d, Err (parent_failed e))
  | (d, Ok _) =>
      match data with
      | Err e => (d, Err (marshal_failed e))
      | Ok data =>
          match disk_create_temp d (Path.Dir path) with
          | (d, Err e) => (d, Err (temp_file_failed e))
          | (d, Ok tmp) =>
              let '(d, r) :=
                match disk_write d tmp (data +:+ newline)%stdpp with
                | (d, Err e) => ((disk_close d tmp).1, Err (temp_write_failed e))
                | (d, Ok _) =>
                    match disk_chmod d tmp mode with
                    | (d, Err e) => ((disk_close d tmp).1, Err (temp_mode_failed e))
                    | (d, Ok _) =>
                        match disk_close d tmp with
                        | (d, Err e) => (d, Err (temp_close_failed e))
                        | (d, Ok _) =>
                            match disk_rename d tmp path with
                            | (d, Err e) => (d, Err (replace_failed e))
                            | (d, Ok _) => (d, Ok ())
                            end
                        end
                    end
                end in
              ((disk_remove d tmp).1, r)
          end
      end
  end.
Definition read_text (d : D) (path : string) : res string string :=
  match disk_read d path with
  | NoFile => Err "no such file or directory"%string
  | ReadFailed e => Err e
  | FileData s => Ok s
  end.
Definition mode_600 : Z := 384.

(** *** The dialogues *)
Context `{MapRange}.
Context (random_token : res string string).
(** The encoders and decoders of the three files, and the config package's. *)
Context (encode_supervisor : supervisorConfigFile -> res string string)
  (decode_supervisor : supervisorConfigFile -> string -> supervisorConfigFile * option string)
  (load_supervisor : string -> res string SupervisorConfig)
  (encode_agent : agentConfigFile -> res string string)
  (decode_agent : agentConfigFile -> string -> agentConfigFile * option string)
  (load_agent : string -> res string AgentConfig)
  (encode_cli : cliConfigFile -> res string string)
  (decode_cli : cliConfigFile -> string -> cliConfigFile * option string).

(** The new token, [None] for none. *)
Definition ask_token (current : string) : P (res config_cmd_error (option string)) :=
  ask! setNew := promptYesNo (str_empty current) in
  if setNew then
    ask! gen := promptYesNo true in
    if (gen : bool) then
      ret (match random_token with Ok tok => Ok (Some tok) | Err e => Err (token_failed e) end)
    else ask! tok := promptString fuel ε true in ret (Ok (Some tok))
  else ret (Ok None).
Definition save_supervisor (d : D) (cfg : supervisorConfigFile) : D * res config_cmd_error () :=
  match writeJSONAtomic (encode_supervisor cfg) defaultSupervisorConfigPath mode_600 d with
  | (d, Err e) => (d, Err (writing_failed e))
  | (d, Ok _) =>
      (d, match LoadSupervisorConfig (read_text d) load_supervisor defaultSupervisorConfigPath with
          | Err e => Err (supervisor_invalid e)
          | Ok _ => Ok ()
          end)
  end.
(** What is wrong with an existing file is not looked at. *)
Definition configureSupervisor (d : D) : P (D * res config_cmd_error ()) :=
  let cfg := (readJSONIfExists decode_supervisor d defaultSupervisorConfigPath defaultSupervisorConfig).1 in
  ask! token := ask_token (sf_AuthToken cfg) in
  ret (match token with
       | Err e => (d, Err e)
       | Ok None => save_supervisor d cfg
       | Ok (Some tok) => save_supervisor d (with_token cfg tok)
       end).

Fixpoint ask_projects (n : nat) (projects : list ProjectDir) : P (list ProjectDir) :=
  match n with
  | O => fun _ => None
  | S n =>
      ask! add := promptYesNo true in
      if (add : bool) then
        ask! name := promptString fuel ε true in
        ask! dir := promptString fuel ε true in
        ask_projects n (projects ++ [mkProjectDir name dir])
      else ret projects
  end.
Definition configureAgent (d : D) : P (D * res config_cmd_error ()) :=
  let cfg := (readJSONIfExists decode_agent d defaultAgentConfigPath defaultAgentConfig).1 in
  ask! url := promptString fuel (af_SupervisorURL cfg) true in
  ask! token := promptString fuel (af_AuthToken cfg) true in
  ask! port := promptInt (af_OpencodePort cfg) in
  ask! interval := promptInt (af_AuthReportIntervalSec cfg) in
  ask! reconfigure := promptYesNo (match af_Projects cfg with [] => true | _ => false end) in
  ask! projects := (if reconfigure then ask_projects fuel [] else ret (af_Projects cfg)) in
  let cfg := mkAgentFile url token port interval projects in
  ret (match writeJSONAtomic (encode_agent cfg) defaultAgentConfigPath mode_600 d with
       | (d, Err e) => (d, Err (writing_failed e))
       | (d, Ok _) =>
           (d, match LoadAgentConfig (read_text d) load_agent defaultAgentConfigPath with
               | Err e => Err (agent_invalid e)
               | Ok _ => Ok ()
               end)
       end).

Definition defaultCLIConfigPath (home : res string string) : res config_cmd_error string :=
  let? h := res_map_err home_unknown home in Ok (Path.Join [h; ".halctl"; "config.json"]%string).
Definition ask_format (def : string) : P string :=
  again fuel (
    ask! format := promptString fuel def true in
    let format := Strings.ToLower format in
    ret (if String.eqb format "table" || String.eqb format "json" then Some format else None)).
Definition ask_cli_token (current : string) : P string :=
  if negb (str_empty current) then
    ask! keep := promptYesNo true in
    if (keep : bool) then ret current else promptString fuel ε true
  else promptString fuel ε true.
Definition configureCLI (home : res string string) (d : D) : P (D * res config_cmd_error ()) :=
  match defaultCLIConfigPath home with
  | Err e => ret (d, Err e)
  | Ok path =>
      let cfg := (readJSONIfExists decode_cli d path (mkCLIFile defaultCLIURL ε defaultCLIFormat)).1 in
      ask! url := promptString fuel (cf_SupervisorURL cfg) true in
      ask! token := ask_cli_token (cf_AuthToken cfg) in
      ask! format := ask_format (cf_Format cfg) in
      ret (match writeJSONAtomic (encode_cli (mkCLIFile url token format)) path mode_600 d with
           | (d, Err e) => (d, Err (writing_failed e))
           | (d, Ok _) => (d, Ok ())
           end)
  end.

(** [halctl config]: the dialogue of the target. *)
Inductive config_action := ConfigUsage | UnknownTarget (target : string) | ConfigRan (d : D) (r : res config_cmd_error ()).
Definition handleConfig (home : res string string) (d : D) (args : list string) : P config_action :=
  if (1 <? length args)%nat then ret ConfigUsage
  else
    let target := match args with [a] => Strings.ToLower (Strings.TrimSpace a) | _ => ε end in
    ask! target := (if str_empty target then promptTarget else ret target) in
    let ran (m : P (D * res config_cmd_error ())) := ask! (d, r) := m in ret (ConfigRan d r) in
    if String.eqb target "supervisor" then ran (configureSupervisor d)
    else if String.eqb target "agent" then ran (configureAgent d)
    else if String.eqb target "cli" then ran (configureCLI home d)
    else ret (UnknownTarget target).

(** *** What [main] starts from *)
Definition loadCLIConfig (home : res string string) (d : D) : res config_cmd_error (option cliConfigFile) :=
  let? path := defaultCLIConfigPath home in
  match readJSONIfExists decode_cli d path (mkCLIFile ε ε ε) with
  | (_, Some e) => Err (cli_unreadable e)
  | (cfg, None) =>
      Ok (if str_empty (cf_SupervisorURL cfg) && str_empty (cf_AuthToken cfg) && str_empty (cf_Format cfg)
          then None else Some cfg)
  end.
(** The flags, with their defaults, the environment and the file; [None] when no
    token is found. *)
Definition settings (url token format env_token : string) (cli : option cliConfigFile)
    : option (string * string * string) :=
  let url := match cli with
             | Some c => if String.eqb url defaultCLIURL && negb (str_empty (cf_SupervisorURL c))
                         then cf_SupervisorURL c else url
             | None => url
             end in
  let format := match cli with
                | Some c => if String.eqb format defaultCLIFormat && negb (str_empty (cf_Format c))
                            then cf_Format c else format
                | None => format
                end in
  let token := if str_empty token then env_token else token in
  let token := match cli with Some c => if str_empty token then cf_AuthToken c else token | None => token end in
  if str_empty token then None else Some (url, token, format).
End Files.
End Fuel.
End Dialogue.

(** ** Lemmas *)
Module DialogueFacts.
Import Dialogue.

Lemma promptString_skip def required before : forall fuel rest,
  Forall (fun l => accept def required l = None) before ->
  promptString (length before + fuel) def required (before ++ rest) = promptString fuel def required rest.
Proof.
  induction before as [|l before IH]; intros fuel rest Hb; [done|]. apply Forall_cons in Hb as [Hl Hb].
  simpl. rewrite Hl. by apply IH.
Qed.
Lemma promptString_end def required fuel : promptString fuel def required [] = None.
Proof. by induction fuel. Qed.
Lemma promptString_None def required fuel : forall lines,
  Forall (fun l => accept def required l = None) lines -> promptString fuel def required lines = None.
Proof.
  induction fuel as [|fuel IH]; intros lines Hl; [done|]. simpl.
  destruct Hl as [|l lines Hl Hls]; [apply promptString_end|]. rewrite Hl. by apply IH.
Qed.
Lemma promptString_required def fuel : forall lines input rest,
  promptString fuel def true lines = Some (input, rest) -> input <> ε.
Proof.
  induction fuel as [|fuel IH]; intros [|l lines] input rest; simpl; [done | done | apply IH |].
  destruct (accept def true l) as [a|] eqn:Ea; [|apply IH]. intros [= <- _].
  unfold accept in Ea. simpl in Ea. destruct (str_empty (Strings.TrimSpace _)) eqn:Et; [done|].
  injection Ea as <-. intros Hbad. rewrite Hbad in Et. done.
Qed.

Section Disk.
Context {D : Type} `{ConfigDiskLaws D}.
Lemma writeJSONAtomic_spec data path mode d :
  Strings.HasSuffix path ".tmp" = false ->
  let '(d', r) := writeJSONAtomic data path mode d in
  (forall p, Strings.HasSuffix p ".tmp" = false -> p <> path -> on_disk d' p = on_disk d p) /\
  match r with
  | Ok _ => exists text, data = Ok text /\ on_disk d' path = Some (text +:+ newline)%stdpp
  | Err _ => on_disk d' path = on_disk d path
  end.
Proof.
  intros Hpath. unfold writeJSONAtomic.
  pose proof (fun p => mkdir_keeps d (Path.Dir path) p) as Hmk.
  destruct (disk_mkdir_all d (Path.Dir path)) as [d1 [[]|e1]]; cbn [fst] in Hmk; [|split; auto].
  destruct data as [text|e]; [|split; auto].
  destruct (disk_create_temp d1 (Path.Dir path)) as [d2 [tmp|e2]] eqn:Et.
  2:{ split; intros; rewrite (temp_failed _ _ _ _ Et); auto. }
  destruct (temp_ok _ _ _ _ Et) as [Hsuf Hother].
  assert (Hne : forall p, Strings.HasSuffix p ".tmp" = false -> p <> tmp) by (intros p Hp ->; congruence).
  assert (Hd2 : forall p, Strings.HasSuffix p ".tmp" = false -> on_disk d2 p = on_disk d p)
    by (intros p Hp; rewrite Hother by auto; apply Hmk).
  pose proof (fun p => write_other d2 tmp (text +:+ newline)%stdpp p) as Hw.
  pose proof (write_ok d2 tmp (text +:+ newline)%stdpp) as Hwok.
  destruct (disk_write d2 tmp (text +:+ newline)%stdpp) as [d3 [[]|e3]]; cbn [fst] in Hw.
  2:{ split; intros; rewrite remove_other, close_keeps, Hw by auto; auto. }
  specialize (Hwok d3 eq_refl).
  pose proof (fun p => chmod_keeps d3 tmp mode p) as Hc.
  destruct (disk_chmod d3 tmp mode) as [d4 [[]|e4]]; cbn [fst] in Hc.
  2:{ split; intros; rewrite remove_other, close_keeps, Hc, Hw by auto; auto. }
  pose proof (fun p => close_keeps d4 tmp p) as Hcl.
  destruct (disk_close d4 tmp) as [d5 [[]|e5]]; cbn [fst] in Hcl.
  2:{ split; intros; rewrite remove_other, Hcl, Hc, Hw by auto; auto. }
  destruct (disk_rename d5 tmp path) as [d6 [[]|e6]] eqn:Er.
  - destruct (rename_ok _ _ _ _ Er) as [Hren Hkeep]. split.
    + intros p Hp Hpp. rewrite remove_other, Hkeep, Hcl, Hc, Hw by auto. auto.
    + exists text. split; [done|]. rewrite remove_other, Hren, Hcl, Hc by auto. done.
  - pose proof (rename_failed _ _ _ _ _ Er) as Hren.
    split; intros; rewrite remove_other, Hren, Hcl, Hc, Hw by auto; auto.
Qed.
End Disk.

(** What the config package reads of what the dialogue writes, and the dialogue
    of a file that spells out a whole configuration. *)
Definition loaded_as (f : supervisorConfigFile) : SupervisorConfig :=
  mkSupervisor (mkServer (sf_Port f) (sf_HTTPPort f) (sf_AuthToken f) (sf_HeartbeatIntervalSec f)
      (sf_HeartbeatTimeoutCount f) [])
    (sf_Channels f) (sf_DatabasePath f)
    (mkCost (sf_PollIntervalMinutes f) (mkProvider ε None ∅ ε (sf_AnthropicAdminAPIKey f) ε)
       (mkProvider ε None ∅ ε ε (sf_OpenAIOrgAPIKey f)) 0 0 0)
    (sf_Routes f) (sf_Policies f) (sf_Dependencies f) (sf_Security f) (sf_Credentials f).
Definition read_as (c : SupervisorConfig) : supervisorConfigFile :=
  let s := sc_Server c in
  mkSupervisorFile (srv_Port s) (srv_HTTPPort s) (srv_AuthToken s) (srv_HeartbeatIntervalSec s)
    (srv_HeartbeatTimeoutCount s) (sc_DatabasePath c) (sc_Channels c) (cc_PollIntervalMinutes (sc_Cost c))
    (cpc_AdminAPIKey (cc_Anthropic (sc_Cost c))) (cpc_OrgAPIKey (cc_OpenAI (sc_Cost c)))
    (sc_Routes c) (sc_Policies c) (sc_Dependencies c) (sc_Security c) (sc_Credentials c).

Lemma default_config_valid `{MapRange} tok :
  tok <> ε -> exists c, validateSupervisorConfig (loaded_as (with_token defaultSupervisorConfig tok)) = Ok c.
Proof.
  intros Ht%str_empty_false. eexists. unfold validateSupervisorConfig.
  cbn -[validateCostProviderConfig validateCredentialDistributionConfig check_policies]. rewrite Ht.
  change (validateCostProviderConfig "anthropic" _) with (Ok () : res config_error ()).
  change (validateCostProviderConfig "openai" _) with (Ok () : res config_error ()). cbn [res_bind].
  match goal with |- context [check_policies ?p] =>
    assert (check_policies p = Ok ()) as -> by (vm_compute; reflexivity) end. cbn [res_bind].
  unfold validateCredentialDistributionConfig. cbn [cd_Version cd_Defaults cd_Agents Z.ltb Z.compare].
  rewrite !range_of_empty. reflexivity.
Qed.
End DialogueFacts.

(** ** Properties *)
Section PromptProperties.
Import Dialogue DialogueFacts.

(** A prompt returns exactly when a usable line arrives: it skips the lines
    before it, and takes no more turns than these; but where standard input ends
    first it asks for ever, since a read that fails is only tried again. *)
Theorem prompt_returns_iff_usable_line (def : string) (required : bool) (lines : list string) :
  (forall before line after input, lines = before ++ line :: after ->
     Forall (fun l => accept def required l = None) before -> accept def required line = Some input ->
     forall fuel, (length before < fuel)%nat -> promptString fuel def required lines = Some (input, after)) /\
  (Forall (fun l => accept def required l = None) lines ->
     forall fuel, promptString fuel def required lines = None).
Proof.
  split; [|intros Hl fuel; by apply promptString_None].
  intros before line after input -> Hb Ha fuel Hf.
  replace fuel with (length before + S (fuel - S (length before)))%nat by lia.
  rewrite promptString_skip by done. simpl. by rewrite Ha.
Qed.
End PromptProperties.

Section Properties.
Import Dialogue DialogueFacts.
Context {D : Type} `{ConfigDiskLaws D} `{MapRange}.

(** C30: a configuration file is written as a whole or not at all: afterwards
    it holds the new text and a newline if no error is returned, and what it held
    before if one is, whatever step failed; no file but it and temporary ones is
    touched. *)
Theorem config_write_is_atomic (data : res string string) (path : string) (mode : Z) (d d' : D)
    (r : res write_error ()) :
  Strings.HasSuffix path ".tmp" = false -> writeJSONAtomic data path mode d = (d', r) ->
  (forall p, Strings.HasSuffix p ".tmp" = false -> p <> path -> on_disk d' p = on_disk d p) /\
  match r with
  | Ok _ => exists text, data = Ok text /\ on_disk d' path = Some (text +:+ newline)%stdpp
  | Err _ => on_disk d' path = on_disk d path
  end.
Proof. intros Hp Hw. pose proof (writeJSONAtomic_spec data path mode d Hp) as Hs. by rewrite Hw in Hs. Qed.

Context (fuel : nat) (random_token : res string string)
  (encode_supervisor : supervisorConfigFile -> res string string)
  (decode_supervisor : supervisorConfigFile -> string -> supervisorConfigFile * option string)
  (load_supervisor : string -> res string SupervisorConfig).
Notation configure :=
  (configureSupervisor fuel random_token encode_supervisor decode_supervisor load_supervisor).
(** encoding/json pairs fields by their tags; [plain] configurations survive it. *)
Context (plain : supervisorConfigFile -> Prop).
Context (supervisor_wire : forall f text, plain f -> encode_supervisor f = Ok text ->
  load_supervisor (text +:+ newline)%stdpp = Ok (loaded_as f)).

Lemma save_supervisor_spec d d' f r :
  plain f -> save_supervisor encode_supervisor load_supervisor d f = (d', r) ->
  match r with
  | Ok _ => exists text, on_disk d' defaultSupervisorConfigPath = Some text /\ load_supervisor text = Ok (loaded_as f)
  | Err (supervisor_invalid (load_parse _)) => False
  | Err (supervisor_invalid (load_invalid e)) => validateSupervisorConfig (loaded_as f) = Err e
  | Err _ => True
  end.
Proof.
  intros Hplain. unfold save_supervisor.
  pose proof (writeJSONAtomic_spec (encode_supervisor f) defaultSupervisorConfigPath mode_600 d eq_refl) as Hs.
  destruct (writeJSONAtomic _ _ _ d) as [d1 [[]|e]]; [|by intros [= <- <-]].
  destruct Hs as (_ & text & Henc & Hdisk). intros [= <- <-]. unfold LoadSupervisorConfig, read_text.
  destruct (disk_read d1 defaultSupervisorConfigPath) as [|e|s] eqn:Er; [done | done |].
  apply read_finds in Er. rewrite Hdisk in Er. injection Er as <-. cbn [res_map_err res_bind].
  rewrite (supervisor_wire f text Hplain Henc). cbn [res_map_err res_bind].
  destruct (validateSupervisorConfig (loaded_as f)) as [c|e] eqn:Ev; simpl; [|done]. eauto.
Qed.

(** Where there is no configuration yet, the dialogue never ends in an
    invalid one unless the user declines to set a token: the defaults of the
    dialogue satisfy the config package, on the other side of the file. *)
Theorem fresh_supervisor_config_is_valid (d d' : D) (lines rest : list string) (e : config_error) :
  (forall tok, plain (with_token defaultSupervisorConfig tok)) ->
  (forall tok, random_token = Ok tok -> tok <> ε) -> disk_read d defaultSupervisorConfigPath = NoFile ->
  configure d lines = Some (d', Err (supervisor_invalid (load_invalid e)), rest) ->
  exists rest', promptYesNo fuel true lines = Some (false, rest').
Proof.
  intros Hplain Hrand Hno. unfold configureSupervisor, readJSONIfExists. rewrite Hno. cbn [fst].
  unfold ask_token, bind. change (str_empty (sf_AuthToken defaultSupervisorConfig)) with true.
  destruct (promptYesNo fuel true lines) as [[[] l1]|] eqn:Ey; [|eauto|done].
  assert (Hbad : forall tok, tok <> ε ->
    save_supervisor encode_supervisor load_supervisor d (with_token defaultSupervisorConfig tok) <>
      (d', Err (supervisor_invalid (load_invalid e)))).
  { intros tok Htok Hs%save_supervisor_spec; [|apply Hplain]. destruct (default_config_valid tok Htok) as [c Hc]. congruence. }
  destruct (promptYesNo fuel true l1) as [[[] l2]|]; [| |done].
  - unfold ret. destruct random_token as [tok|] eqn:Er; [|done]. intros [= Hs _]. exfalso.
    apply (Hbad tok); [by apply Hrand | exact Hs].
  - destruct (promptString fuel ε true l2) as [[tok l3]|] eqn:Ep; [|done]. unfold ret. intros [= Hs _]. exfalso.
    apply (Hbad tok); [by eapply promptString_required | exact Hs].
Qed.

(** Run on an existing configuration, the dialogue drops settings it does
    not know, even where nothing is changed: the allowed origins, and of the cost
    providers all but one key each, so that a provider that had its key as
    [api_key] is enabled no more; the policies, the security settings and the
    credentials stay. *)
Theorem reconfiguring_loses_settings (d d' : D) (data line : string) (rest : list string) (cfg : SupervisorConfig) :
  disk_read d defaultSupervisorConfigPath = FileData data -> str_empty (Strings.TrimSpace data) = false ->
  decode_supervisor defaultSupervisorConfig data = (read_as cfg, None) -> plain (read_as cfg) ->
  (0 < fuel)%nat -> yes_no (str_empty (srv_AuthToken (sc_Server cfg))) line = Some false ->
  configure d (line :: rest) = Some (d', Ok (), rest) ->
  exists text c', on_disk d' defaultSupervisorConfigPath = Some text /\ load_supervisor text = Ok c' /\
    srv_AllowedOrigins (sc_Server c') = [] /\
    cpc_APIKey (cc_Anthropic (sc_Cost c')) = ε /\ cpc_ModelRates (cc_Anthropic (sc_Cost c')) = ∅ /\
    cc_RequestTimeoutSec (sc_Cost c') = 0 /\
    (cpc_AdminAPIKey (cc_Anthropic (sc_Cost cfg)) = ε -> IsEnabled (cc_Anthropic (sc_Cost c')) = false) /\
    sc_Policies c' = sc_Policies cfg /\ sc_Security c' = sc_Security cfg /\ sc_Credentials c' = sc_Credentials cfg.
Proof.
  intros Hread Hblank Hdec Hplain Hfuel Hno. unfold configureSupervisor, readJSONIfExists. rewrite Hread, Hblank, Hdec.
  cbn [fst]. unfold ask_token, bind, promptYesNo. destruct fuel as [|n]; [lia|]. cbn [again].
  change (sf_AuthToken (read_as cfg)) with (srv_AuthToken (sc_Server cfg)).
  unfold bind. rewrite Hno. unfold ret. intros [= Hs].
  apply save_supervisor_spec in Hs as (text & Hdisk & Hload); [|done]. exists text, (loaded_as (read_as cfg)).
  split_and!; try done. intros Ha. unfold IsEnabled, EffectiveAPIKey. simpl. by rewrite Ha.
Qed.
End Properties.

(** ** Witness: a disk in memory, and configurations told apart by their token *)
Module DialogueWitness.
Import Dialogue DialogueFacts.
#[local] Existing Instance sorted_range.

Notation files := (gmap string string).
Definition temp_in (dir : string) : string := Path.Join [dir; ".halctl-config-1.tmp"%string].
#[export] Instance mem_disk : ConfigDisk files := {
  disk_read d p := match d !! p with Some s => FileData s | None => NoFile end;
  disk_mkdir_all d _ := (d, Ok ());
  disk_create_temp d dir :=
    let tmp := temp_in dir in
    if Strings.HasSuffix tmp ".tmp" then (<[tmp := ε]> d, Ok tmp) else (d, Err "bad name"%string);
  disk_write d tmp s := (<[tmp := s]> d, Ok ());
  disk_chmod d _ _ := (d, Ok ());
  disk_close d _ := (d, Ok ());
  disk_rename d src dst :=
    match d !! src with
    | Some s => (<[dst := s]> (delete src d), Ok ())
    | None => (d, Err "no such file"%string)
    end;
  disk_remove d f := (delete f d, Ok ()) }.
#[export] Instance mem_disk_laws : ConfigDiskLaws files.
Proof.
  refine {| on_disk d p := d !! p |}; simpl; try done.
  - intros d dir d' tmp. destruct (Strings.HasSuffix (temp_in dir) ".tmp") eqn:E; [|done].
    intros [= <- <-]. split; [done|]. intros p Hp. by rewrite lookup_insert_ne.
  - intros d dir d' e. destruct (Strings.HasSuffix (temp_in dir) ".tmp"); [done|]. by intros [= <- _].
  - intros d tmp s p Hp. by rewrite lookup_insert_ne.
  - intros d tmp s d' [= <-]. by rewrite lookup_insert_eq.
  - intros d src dst d'. destruct (d !! src) as [s|] eqn:Es; [|done]. intros [= <-]. rewrite lookup_insert_eq.
    split; [done|]. intros p Hs Hd. by rewrite lookup_insert_ne, lookup_delete_ne.
  - intros d src dst d' e. destruct (d !! src); [done|]. by intros [= <- _].
  - intros d f p Hp. by rewrite lookup_delete_ne.
  - intros d p s. destruct (d !! p); [|done]. by intros [= ->].
Defined.

Definition plain (f : supervisorConfigFile) : Prop := exists tok, f = with_token defaultSupervisorConfig tok.
Definition encode (f : supervisorConfigFile) : res string string := Ok (sf_AuthToken f).
Definition load (text : string) : res string SupervisorConfig :=
  Ok (loaded_as (with_token defaultSupervisorConfig (Strings.take_bytes (String.length text - 1) text))).
Lemma wire f text : plain f -> encode f = Ok text -> load (text +:+ newline)%stdpp = Ok (loaded_as f).
Proof.
  intros [tok ->] [= <-]. unfold load. rewrite StringsFacts.length_append. simpl String.length.
  by rewrite Nat.add_sub, StringsFacts.take_append.
Qed.
Definition decode (target : supervisorConfigFile) (data : string) : supervisorConfigFile * option string :=
  (with_token defaultSupervisorConfig data, None).
Definition token : res string string := Ok "0123456789abcdef"%string.

Lemma prompt_returns_iff_usable_line_witness :
  promptString 3 ε true [" "; "p1 "; "n"]%string = Some ("p1", ["n"])%string /\
  forall fuel, promptString fuel ε true [" "]%string = None.
Proof.
  split.
  - apply (proj1 (prompt_returns_iff_usable_line ε true [" "; "p1 "; "n"]%string) [" "]%string "p1 "%string ["n"]%string);
      [reflexivity | repeat constructor | reflexivity | simpl; lia].
  - apply (proj2 (prompt_returns_iff_usable_line ε true [" "]%string)). repeat constructor.
Defined.

Definition written : files * res write_error () := writeJSONAtomic (Ok "{}"%string) "/etc/c.json" mode_600 ∅.
Lemma config_write_is_atomic_witness :
  exists text, Ok (E := string) "{}"%string = Ok text /\ on_disk written.1 "/etc/c.json" = Some (text +:+ newline)%stdpp.
Proof.
  exact (proj2 (config_write_is_atomic (Ok "{}"%string) "/etc/c.json" mode_600 (∅ : files) written.1 (Ok ())
    eq_refl eq_refl)).
Defined.

(** The user declines to set a token. *)
Lemma fresh_supervisor_config_is_valid_witness : exists rest', promptYesNo 2 true ["n"]%string = Some (false, rest').
Proof.
  apply (fresh_supervisor_config_is_valid 2 token encode decode load plain wire (∅ : files)
    {[ defaultSupervisorConfigPath := newline ]} ["n"]%string [] server_auth_token_required).
  - intros tok. by exists tok.
  - by intros tok [= <-].
  - reflexivity.
  - vm_compute. reflexivity.
Defined.

(** A provider with an [api_key], and an allowed origin. *)
Definition existing : SupervisorConfig :=
  let c := loaded_as (with_token defaultSupervisorConfig "t0k") in
  mkSupervisor (mkServer 8420 8421 "t0k" 30 3 ["https://ops.example"%string]) (sc_Channels c) (sc_DatabasePath c)
    (mkCost 60 (mkProvider "key" None ∅ ε ε ε) (mkProvider ε None ∅ ε ε ε) 15 3 500)
    (sc_Routes c) (sc_Policies c) (sc_Dependencies c) (sc_Security c) (sc_Credentials c).
Definition disk0 : files := {[ defaultSupervisorConfigPath := "t0k"%string ]}.
Definition disk1 : files := {[ defaultSupervisorConfigPath := ("t0k" +:+ newline)%stdpp ]}.
Example enabled_before : IsEnabled (cc_Anthropic (sc_Cost existing)) = true.
Proof. reflexivity. Qed.
Lemma reconfiguring_loses_settings_witness :
  exists text c', disk1 !! defaultSupervisorConfigPath = Some text /\ load text = Ok c' /\
    srv_AllowedOrigins (sc_Server c') = [] /\ IsEnabled (cc_Anthropic (sc_Cost c')) = false.
Proof.
  destruct (reconfiguring_loses_settings 2 token encode decode load plain wire disk0 disk1 "t0k" "n" [] existing)
    as (text & c' & Hd & Hl & Ho & _ & _ & _ & He & _).
  - reflexivity.
  - reflexivity.
  - reflexivity.
  - by exists "t0k"%string.
  - lia.
  - reflexivity.
  - vm_compute. reflexivity.
  - exists text, c'. split_and!; [exact Hd | exact Hl | exact Ho | apply He; reflexivity].
Defined.
End DialogueWitness.
