(* ===== verification/HalctlMain.v ===== *)
(** * HalctlMain

    cmd/halctl/main.go and internal/halctl/auth.go: what the command line client
    prints, and [main] from its arguments to its exit status.  The tables are
    written with [Tabwriter] or with the verbs of fmt; printing as JSON, layouts of
    times and what encoding/json says of an answer it cannot read are arguments, the usage
    text is a constant without its wording.  Flags come parsed, with their
    defaults. *)

From S2P Require Import Prelude GoStd SqlStore Commands Config Tabwriter Halctl CliConfig.

Module Main.
Import Ctl Tabwriter.

(** ** The tables of auth.go *)
Section Formats.
Context `{MapRange}.
Definition nl : string := String newline ε.
Definition or_dash (reason : string) : string := if str_empty reason then "-"%string else reason.
Definition FormatAuthStatusTable (status : NodeAuthView) : string :=
  ("Node: " +:+ nav_NodeID status +:+ nl +:+ "Credential Sync: " +:+ nav_CredentialSync status +:+ nl +:+
   "Credential Version: " +:+ Itoa (nav_CredentialVersion status) +:+ nl +:+ nl +:+
   "Tool            Status              Reason" +:+ nl +:+ "----            ------              ------" +:+ nl +:+
   (if (size (nav_AuthStates status) =? 0)%nat then "(no auth states reported)" +:+ nl
    else text_concat ((fun x : string * AuthStateView =>
           left_in 15 x.1 +:+ " " +:+ left_in 19 (av_Status x.2) +:+ " " +:+ or_dash (av_Reason x.2) +:+ nl)
           <$> range_of (nav_AuthStates status))))%stdpp.
Definition FormatDriftTable (drifted : list DriftView) : string :=
  ("Node ID         Sync Status       Version" +:+ nl +:+ "-------         -----------       -------" +:+ nl +:+
   (if (length drifted =? 0)%nat then "(no nodes with credential drift)" +:+ nl
    else text_concat ((fun n =>
           left_in 15 (dv_NodeID n) +:+ " " +:+ left_in 17 (dv_CredentialSync n) +:+ " " +:+
           Itoa (dv_CredentialVersion n) +:+ nl) <$> drifted)) +:+
   nl +:+ "Total: " +:+ Itoa (Z.of_nat (length drifted)) +:+ " nodes with credential drift" +:+ nl)%stdpp.
Definition FormatAuthStatusTableWriter (w : Writer) (status : NodeAuthView) : Writer :=
  let w := Write w (text_concat (row_text <$>
    [["Node"; nav_NodeID status]; ["Credential Sync"; nav_CredentialSync status];
     ["Credential Version"; Itoa (nav_CredentialVersion status)]]))%string in
  if (0 <? size (nav_AuthStates status))%nat then
    Write w (nl +:+ text_concat (row_text <$> ["Tool"; "Status"; "Reason"]%string ::
      ((fun x : string * AuthStateView => [x.1; av_Status x.2; or_dash (av_Reason x.2)]) <$> range_of (nav_AuthStates status))))%stdpp
  else w.
End Formats.

(** ** The tables of main.go, by their rows *)
Section Tables.
Context (Format : string -> Time.t -> string).
Definition clock (t : Time.t) : string := Format "2006-01-02 15:04:05"%string t.
(** [%v] of strings. *)
Definition bracketed (l : list string) : string := ("[" +:+ Strings.Join l " " +:+ "]")%stdpp.
Definition field_value (fields : list (string * string)) : list (list string) :=
  ["FIELD"; "VALUE"]%string :: ((fun f => [f.1; f.2]) <$> fields).

Definition sessions_rows (sessions : list SessionView) : list (list string) :=
  ["ID"; "NODE_ID"; "PROJECT"; "STATUS"; "TOKENS"; "COST"; "STARTED_AT"]%string ::
  ((fun s => [sv_ID s; sv_NodeID s; sv_Project s; sv_Status s; Itoa (sv_Tokens s); Fixed 4 (sv_Cost s);
              clock (sv_StartedAt s)]) <$> sessions).
Definition session_rows (s : SessionView) : list (list string) :=
  field_value [("ID", sv_ID s); ("NODE_ID", sv_NodeID s); ("PROJECT", sv_Project s); ("STATUS", sv_Status s);
               ("TOKENS", Itoa (sv_Tokens s)); ("COST", Fixed 4 (sv_Cost s)); ("STARTED_AT", clock (sv_StartedAt s))]%string.
Definition events_rows (events : list EventView) : list (list string) :=
  ["ID"; "SESSION_ID"; "TYPE"; "TIMESTAMP"]%string ::
  ((fun e => [ev_ID e; ev_SessionID e; ev_Type e; clock (ev_Timestamp e)]) <$> events).
Definition nodes_rows (nodes : list NodeView) : list (list string) :=
  ["ID"; "HOSTNAME"; "STATUS"; "LAST_HEARTBEAT"; "CONNECTED_AT"]%string ::
  ((fun n => [nv_ID n; nv_Hostname n; nv_Status n; clock (nv_LastHeartbeat n); clock (nv_ConnectedAt n)]) <$> nodes).
Definition node_rows (n : NodeView) : list (list string) :=
  field_value [("ID", nv_ID n); ("HOSTNAME", nv_Hostname n); ("STATUS", nv_Status n);
               ("LAST_HEARTBEAT", clock (nv_LastHeartbeat n)); ("CONNECTED_AT", clock (nv_ConnectedAt n))]%string.
Definition cost_rows (c : CostSummary) : list (list string) :=
  field_value [("PERIOD", csum_Period c); ("TOTAL_COST", Fixed 4 (csum_TotalCost c));
               ("SESSION_COUNT", Itoa (csum_SessionCount c)); ("TOKENS_USED", Itoa (csum_TokensUsed c))]%string.
(** [printEnvCheckTable] and [printEnvProvisionTable] differ in the name of the notes. *)
Definition env_rows (notes : string) (r : EnvResult) : list (list string) :=
  field_value ([("PROJECT", er_Project r); ("STATUS", er_Status r)]%string ++
               (if (0 <? length (er_Notes r))%nat then [(notes, bracketed (er_Notes r))] else [])).
Definition diff_rows (d : AgentMdDiff) : list (list string) :=
  field_value [("PROJECT", amd_Project d); ("DIFF", amd_Diff d)]%string.
Definition sync_rows (r : AgentMdSyncResult) : list (list string) :=
  field_value [("PROJECT", ams_Project r); ("STATUS", ams_Status r); ("MESSAGE", ams_Message r)]%string.

(** What is laid out by a tabwriter; the answers about authentication are not. *)
Definition rows_of (x : shown) : option (list (list string)) :=
  match x with
  | ShowSessions l => Some (sessions_rows l)
  | ShowSession s => Some (session_rows s)
  | ShowEvents l => Some (events_rows l)
  | ShowNodes l => Some (nodes_rows l)
  | ShowNode n => Some (node_rows n)
  | ShowCost c => Some (cost_rows c)
  | ShowEnvCheck r => Some (env_rows "ISSUES" r)
  | ShowEnvProvision r => Some (env_rows "CHANGES" r)
  | ShowDiff d => Some (diff_rows d)
  | ShowSync r => Some (sync_rows r)
  | ShowAuth _ | ShowDrift _ => None
  end.
Context `{MapRange} (json_text : shown -> res string string).
(** [printJSON]: an encoding that fails prints nothing. *)
Definition printed (format : string) (x : shown) : string :=
  if String.eqb format "json" then match json_text x with Ok s => s | Err _ => ε end
  else
    match x with
    | ShowAuth s => FormatAuthStatusTable s
    | ShowDrift l => FormatDriftTable l
    | _ => table_text (default [] (rows_of x))
    end.
End Tables.

(** ** The texts of errors *)
Section Errors.
Context (json_error : client_error -> string).
Definition error_text (e : client_error) : string :=
  match e with
  | marshal_request e => "failed to marshal request: " +:+ e
  | transport_failed _ (bad_request_url e) => "failed to create request: " +:+ e
  | transport_failed baseURL (no_connection e) => "failed to connect to supervisor at " +:+ baseURL +:+ ": " +:+ e
  | transport_failed _ (unreadable e) => "failed to read response: " +:+ e
  | authentication_failed => "authentication failed. Check your auth token"
  | resource_not_found None => "resource not found"
  | resource_not_found (Some e) => "resource not found: " +:+ e
  | invalid_request e => "invalid request: " +:+ e
  | service_unavailable None => "supervisor service unavailable"
  | service_unavailable (Some e) => "supervisor service unavailable: " +:+ e
  | server_status status => "server error (status " +:+ Itoa status +:+ ")"
  | server_error e => "server error: " +:+ e
  | parse_response_failed e => "failed to parse response: " +:+ e
  | response_shape => "failed to parse response: " +:+ json_error e
  | unmarshal_data_failed => "failed to unmarshal response data: " +:+ json_error e
  | argument_required what => what +:+ " is required"
  | command_refused e => e
  | command_status what status => what +:+ " failed with status " +:+ status
  | output_failed what => "failed to parse " +:+ what +:+ " output: " +:+ json_error e
  end%stdpp.
(** The two errors [loadCLIConfig] returns; the others are of the dialogue. *)
Definition config_text (e : config_cmd_error) : string :=
  match e with
  | home_unknown e => ("could not determine home directory: " +:+ e)%stdpp
  | cli_unreadable e => e
  | _ => ε
  end.
End Errors.

(** ** [main] *)
Inductive message := UsageText | Text (s : string).
Inductive ended :=
  | Dialog (args : list string)
  | Exit (code : Z) (stdout : string) (stderr : option message).
Definition failed (text : string) : ended := Exit 1 ε (Some (Text ("Error: " +:+ text +:+ nl)%stdpp)).
Section Run.
Context {N : Type} `{Network N} `{Json value} `{TimeText} `{MapRange}.
Context (Format : string -> Time.t -> string) (json_text : shown -> res string string) (json_error : client_error -> string).
Definition main (url token format : string) (args : list string) (env_token : string)
    (cli : res config_cmd_error (option cliConfigFile)) (n : N) : N * ended :=
  match args with
  | [] => (n, Exit 1 ε (Some UsageText))
  | cmd :: rest =>
      if String.eqb cmd "help" then (n, Exit 0 ε (Some UsageText))
      else if String.eqb cmd "config" then (n, Dialog rest)
      else
        match cli with
        | Err e => (n, failed ("failed to load CLI config: " +:+ config_text e)%stdpp)
        | Ok cli =>
            match Dialogue.settings url token format env_token cli with
            | None => (n, failed "auth token required (--auth-token or HALCTL_AUTH_TOKEN env var)")
            | Some (url, token, format) =>
                let '(n, r) := run (NewHTTPClient url token) args n in
                (n, match r with
                    | Ok x => Exit 0 (printed Format json_text format x) None
                    | Err (Usage text) => failed text
                    | Err (Failed e) => failed (error_text json_error e)
                    end)
            end
        end
  end.
End Run.
End Main.

(** ** Properties *)
Module MainFacts.
Import Ctl Tabwriter TabwriterFacts Main.

(** The lines of a table have as many cells as its header. *)
Lemma rows_even Format x rows : rows_of Format x = Some rows ->
  rows <> [] /\ exists n, (2 <= n)%nat /\ Forall (fun r => length r = n) rows.
Proof.
  intros Hrows. assert (Hmap : forall A (f : A -> list string) h l, (2 <= length h)%nat ->
    (forall a, length (f a) = length h) -> h :: (f <$> l) <> [] /\ exists n, (2 <= n)%nat /\
    Forall (fun r => length r = n) (h :: (f <$> l))).
  { intros A f h l Hh Hf. split; [done|]. exists (length h). split; [done|]. constructor; [done|].
    apply Forall_fmap, Forall_forall. intros a _; apply Hf. }
  destruct x; try done; injection Hrows as <-; apply Hmap; try done; simpl; lia.
Qed.
End MainFacts.

Section Properties.
Import Ctl Tabwriter TabwriterFacts Main MainFacts.
Context `{MapRange} (Format : string -> Time.t -> string) (json_text : shown -> res string string).

(** C20: every table halctl lays out lines up and can be read back: it is the grid
    whose columns are as wide as their widest cell and two more, counted in runes,
    and cutting its lines where two spaces or more are gives the header and the
    fields of each line, if none is empty, has a control character of the
    tabwriter or more than single spaces inside. *)
Theorem halctl_tables_read_back (format : string) (x : shown) (rows : list (list string)) :
  rows_of Format x = Some rows -> format <> "json"%string -> Forall (Forall (fun c => neat c = true)) rows ->
  printed Format json_text format x = grid (length (default [] (head rows))) rows /\
  read_table (printed Format json_text format x) = rows.
Proof.
  intros Hrows Hf Hneat. destruct (rows_even Format x rows Hrows) as (Hne & n & Hn & Hl).
  assert (Hgrid : printed Format json_text format x = grid n rows).
  { unfold printed. destruct (String.eqb_spec format "json") as [->|_]; [done|].
    assert (table_text rows = grid n rows) as <-.
    { apply table_text_grid; try done. eapply Forall_impl; [exact Hneat|]. intros r Hr.
      eapply Forall_impl; [exact Hr|]. intros c. apply neat_unbroken. }
    rewrite Hrows. by destruct x. }
  rewrite Hgrid. split; [|by apply read_grid]. f_equal. destruct rows as [|r rows]; [done|].
  by apply Forall_cons in Hl as [<- _].
Qed.

Context {N : Type} `{Network N} `{Json value} `{TimeText} (json_error : client_error -> string).
Notation main := (main Format json_text json_error).

(** The supervisor is asked only with a token, and by the command given; the
    status is 0 exactly when an answer is printed or help was asked for, and
    otherwise nothing is printed but one line of an error, or the usage. *)
Theorem main_ends (url token format : string) (args : list string) (env_token : string)
    (cli : res config_cmd_error (option cliConfigFile)) (n : N) :
  let '(n', e) := main url token format args env_token cli n in
  (n' = n \/ exists c u t f, cli = Ok c /\ Dialogue.settings url token format env_token c = Some (u, t, f) /\ t <> ε /\
                          n' = (run (NewHTTPClient u t) args n).1) /\
  match e with
  | Dialog rest => args = "config"%string :: rest
  | Exit code out err =>
      (code = 0 /\ (head args = Some "help"%string /\ out = ε \/
                   exists u t f x, (run (NewHTTPClient u t) args n).2 = Ok x /\ out = printed Format json_text f x /\ err = None)) \/
      (code = 1 /\ out = ε /\ err <> None)
  end.
Proof.
  assert (Htok : forall c u t f, Dialogue.settings url token format env_token c = Some (u, t, f) -> t <> ε).
  { intros c u t f. unfold Dialogue.settings. repeat case_match; intros [= <- <- <-];
      match goal with E : str_empty _ = false |- _ <> ε => by apply str_empty_false in E end || by apply str_empty_false. }
  unfold Main.main. destruct args as [|cmd rest]; [split; [by left | right; done]|].
  destruct (String.eqb_spec cmd "help") as [->|_]; [split; [by left | left; split; [done | by left]]|].
  destruct (String.eqb_spec cmd "config") as [->|_]; [split; [by left | done]|].
  destruct cli as [c|e]; [|split; [by left | right; done]].
  destruct (Dialogue.settings url token format env_token c) as [[[u t] f]|] eqn:Es; [|split; [by left | right; done]].
  destruct (run (NewHTTPClient u t) (cmd :: rest) n) as [n' r] eqn:Er. split.
  - right. exists c, u, t, f. rewrite Er. eauto.
  - destruct r as [x|[text|e]]; [left | right; done..]. split; [done|]. right. exists u, t, f, x. by rewrite Er.
Qed.
End Properties.

(** ** Witness *)
Module MainWitness.
Import Ctl Tabwriter Main.
#[local] Existing Instance sorted_range.
Definition fmt (layout : string) (t : Time.t) : string := layout.
Definition two_sessions : shown :=
  ShowSessions [mkSessionView "ses_1" "node-a" "shop" "running" 1200 (Float64.div (Float64.of_Z 1) (Float64.of_Z 8)) 0;
                mkSessionView "ses_22" "b" "web site" "idle" 3 Float64.zero 0].
Lemma halctl_tables_read_back_witness :
  read_table (printed fmt (fun _ => Err "no"%string) "table" two_sessions) = sessions_rows fmt
    [mkSessionView "ses_1" "node-a" "shop" "running" 1200 (Float64.div (Float64.of_Z 1) (Float64.of_Z 8)) 0;
     mkSessionView "ses_22" "b" "web site" "idle" 3 Float64.zero 0].
Proof.
  refine (proj2 (halctl_tables_read_back fmt (fun _ => Err "no"%string) "table" two_sessions _ eq_refl _ _)).
  - discriminate.
  - repeat constructor.
Defined.
(** An empty field is lost to a reader, and a tab makes two of one. *)
Example empty_field_is_lost : read_table (table_text [["ID"; "PROJECT"; "STATUS"]; ["s1"; ε; "idle"]])%string =
  [["ID"; "PROJECT"; "STATUS"]; ["s1"; "idle"]]%string.
Proof. vm_compute. reflexivity. Qed.
End MainWitness.
