(* ===== verification/CredentialFlow.v ===== *)
(** * CredentialFlow

    How a credential version travels: an operator's push reaches the applier of
    an agent (credential_apply.go), the agent's client reports the applier's
    version each time it connects (the hook of RegisterCredentialSyncOnReconnect,
    wsclient.go), the hub hands the report to the registry (agent_conn.go,
    hub.go, credential_sync.go), and the registry shows the node as in sync or as
    drifted.  The agents, their connections and the hub are one state; every step
    is a step of the component that takes it. *)

From S2P Require Import Prelude GoStd SqlStore NodeRegistry Commands Config Hub CredentialApplier Floats Backoff WSClient Agent.

(** What the supervisor reads of a version report: the two structs have the same
    fields and tags. *)
Class SyncCodec `{Json CredentialVersionReport, Json CredentialSyncPayload} := {
  sync_plain : CredentialVersionReport -> Prop;
  sync_read rep s : sync_plain rep -> json_marshal rep = Ok s ->
    json_unmarshal s = Ok (mkCredentialSync (cvr_NodeID rep) (cvr_CredentialVersion rep)) }.

Module Flow.
Import Register.
Section Defs.
Context {DB E : Type} `{KeyedTable DB NodeRow E} `{TimeText} `{Json Envelope}.
Context `{Json CredentialVersionReport} `{Json CredentialSyncPayload} `{MapRange}.
Context (upgrade : Request -> bool -> res string ())
  (decode_auth : string -> res string (list AuthStateReport))
  (decode_type : string -> res string string)
  (decode_push : string -> res string push_command).

(** [fa_conn] is the connection the client dialled last.  [fa_applied] is
    history: the push commands that this process has applied. *)
Record agent := mkFlowAgent {
  fa_client : AgentClient;
  fa_applier : Applier.CredentialApplier;
  fa_conn : option nat;
  fa_applied : list Envelope }.
(** The agents by host name; what each connection carries to the hub and the hub
    has not read; and, as history, the hosts that dialled, each with the commands
    its process had applied. *)
Record world := mkFlow {
  agents : gmap string agent;
  wires : gmap nat (list Envelope);
  sys : Hub.System DB;
  dialled : list (string * list Envelope) }.

Definition with_agent (id : string) (a : agent) (w : world) : world :=
  mkFlow (<[id := a]> (agents w)) (wires w) (sys w) (dialled w).
Definition put (conn : option nat) (sent : list Envelope) (w : world) : world :=
  match conn with
  | Some i => mkFlow (agents w) (<[i := default [] (wires w !! i) ++ sent]> (wires w)) (sys w) (dialled w)
  | None => w
  end.
Definition with_client (c : AgentClient) (a : agent) : agent :=
  mkFlowAgent c (fa_applier a) (fa_conn a) (fa_applied a).

(** An agent's process starts (see [AssemblyFacts.Start_Ok]). *)
Definition start_agent (cfg : AgentConfig) (id : string) : agent :=
  mkFlowAgent (AssemblyFacts.client_of cfg id) Applier.NewCredentialApplier None [].

(** The agent reads a message; only pushes concern its applier. *)
Definition receive (msg : string) (a : agent) : agent :=
  match Client.read_message decode_type (fa_client a) msg with
  | Client.ToCommandHandler CredentialPushHandler env =>
      match Applier.HandleCredentialPush decode_push (Some (fa_applier a)) (Some env) with
      | (Some applier, Ok (Some _)) => mkFlowAgent (fa_client a) applier (fa_conn a) (fa_applied a ++ [env])
      | (Some applier, _) => mkFlowAgent (fa_client a) applier (fa_conn a) (fa_applied a)
      | (None, _) => a
      end
  | _ => a
  end.

(** The request that opens a connection has the header of the client. *)
Definition header (name : string) (l : list (string * string)) : string :=
  default ε (snd <$> find (fun kv => String.eqb kv.1 name) l).
Definition request_of (c : AgentClient) : Request :=
  mkRequest (header "Authorization" (Client.dial_header c)) ε (header "X-Node-ID" (Client.dial_header c)) ε.

Inductive flow_action :=
  | FStart (id : string) (cfg : AgentConfig)
  | FMessage (id msg : string)
  | FDial (id uuid : string) (now : Time.t) (w : writes)
  | FSendEvent (id : string) (env : Envelope) (w : writes)
  | FSendEnvelope (id : string) (env : Envelope) (w : writes)
  | FAcknowledge (id : string) (seq : Z)
  | FLose (id : string)
  | FDeliver (i : nat) (now : Time.t)
  | FCut (i : nat)
  | FHub (a : Hub.action).

(** Connecting and receiving are done by [FDial] and [FDeliver]: every connection
    is an agent's. *)
Definition hub_alone (a : Hub.action) : bool :=
  match a with Hub.AConnect _ _ _ | Hub.AReceive _ _ _ => false | _ => true end.
Notation hub_exec := (Hub.exec upgrade json_unmarshal decode_auth).
Definition hub_step (a : Hub.action) (w : world) : option world :=
  match hub_exec (sys w) a with
  | Hub.Next s => Some (mkFlow (agents w) (wires w) s (dialled w))
  | _ => None
  end.
(** A client dials when its last connection has ended; the hub takes the
    request, and the agent writes what a new connection is opened with. *)
Definition dial (id uuid : string) (now : Time.t) (ws : writes) (a : agent) (w : world) : option world :=
  let c := fa_client a in
  let rq := request_of c in
  match Hub.ServeWS upgrade (Hub.hub (sys w)) rq uuid with
  | Accepted _ =>
      let i := fresh (dom (Hub.conns (Hub.hub (sys w)))) in
      let '(c, sent, _) := Client.dial_phase c (Ok ()) (fa_applier a) now ws in
      w ← hub_step (Hub.AConnect rq uuid now) w;
      Some (mkFlow (<[id := mkFlowAgent c (fa_applier a) (Some i) (fa_applied a)]> (agents w))
              (<[i := sent]> (wires w)) (sys w) (dialled w ++ [(id, fa_applied a)]))
  | Unauthorized => Some (with_agent id (with_client (Client.dial_phase c (Err "bad handshake"%string) (fa_applier a) now ws).1.1 a) w)
  | UpgradeFailed e => Some (with_agent id (with_client (Client.dial_phase c (Err e) (fa_applier a) now ws).1.1 a) w)
  end.

(** [None]: the step cannot be taken, or panics.  Only the hook makes messages
    of the type credential_sync. *)
Definition flow_exec (w : world) (x : flow_action) : option world :=
  match x with
  | FStart id cfg => if str_empty id then None else Some (with_agent id (start_agent cfg id) w)
  | FMessage id msg => a ← agents w !! id; Some (with_agent id (receive msg a) w)
  | FDial id uuid now ws =>
      a ← agents w !! id; if Client.connected (fa_client a) then None else dial id uuid now ws a w
  | FSendEvent id env ws =>
      a ← agents w !! id;
      if String.eqb (env_Type env) MessageTypeCredentialSync then None
      else
        let '(c, _, (sent, _, _)) := Client.SendEvent (fa_client a) ws env in
        Some (put (fa_conn a) sent (with_agent id (with_client c a) w))
  | FSendEnvelope id env ws =>
      a ← agents w !! id;
      if String.eqb (env_Type env) MessageTypeCredentialSync then None
      else Some (put (fa_conn a) (Client.SendEnvelope (fa_client a) ws env).1.1 w)
  | FAcknowledge id seq =>
      a ← agents w !! id; Some (with_agent id (with_client (Client.AcknowledgeSeq (fa_client a) seq) a) w)
  | FLose id => a ← agents w !! id; Some (with_agent id (with_client (Client.closeConn (fa_client a)) a) w)
  | FDeliver i now =>
      match wires w !! i with
      | Some (env :: rest) =>
          w ← hub_step (Hub.AReceive i now env) w; Some (mkFlow (agents w) (<[i := rest]> (wires w)) (sys w) (dialled w))
      | _ => None
      end
  | FCut i => Some (mkFlow (agents w) (delete i (wires w)) (sys w) (dialled w))
  | FHub a => if hub_alone a then hub_step a w else None
  end.
Fixpoint flow_run (w : world) (l : list flow_action) : option world :=
  match l with [] => Some w | x :: l' => w ← flow_exec w x; flow_run w l' end.

(** Host names that JSON writes and reads back. *)
Definition plain_start `{!SyncCodec} (x : flow_action) : Prop :=
  match x with FStart id _ => forall v, sync_plain (mkVersionReport id v) | _ => True end.
Inductive flows `{!SyncCodec} (w0 : world) : world -> Prop :=
  | flows_start : flows w0 w0
  | flows_step w x w' : flows w0 w -> plain_start x -> flow_exec w x = Some w' -> flows w0 w'.
(** A supervisor that has just been set up, and no agents. *)
Definition initial (w : world) : Prop :=
  agents w = ∅ /\ wires w = ∅ /\ dialled w = [] /\ HubFacts.idle (sys w) /\
  forall r, Hub.registry (Hub.hub (sys w)) = Some r -> Registry.nodes r = ∅.

(** The version of the last of the commands. *)
Definition last_version (cmds : list Envelope) (v : Z) : Prop :=
  match last cmds with
  | None => v = 0
  | Some env => exists c, decode_push (env_Payload env) = Ok c /\ pc_Version c = v
  end.
End Defs.
End Flow.

(** ** Lemmas *)
Module FlowFacts.
Import Flow Register.

(** *** What keeps the registry from claiming too much: a node in sync has the
    expected version, and [Q] holds of it *)
Section Credits.
Context {DB E : Type} `{KT : KeyedTable DB NodeRow E} `{TT : TimeText}.
Context (upgrade : Request -> bool -> res string ())
  (decode_sync : string -> res string CredentialSyncPayload)
  (decode_auth : string -> res string (list AuthStateReport)).
Context (Q : string -> Prop) (e : Z).
Implicit Types (r : Registry.NodeRegistry DB) (h : Hub.Hub DB).

Definition entry_ok (id : string) (n : NodeEntry) : Prop :=
  node_CredSyncStatus n = CredentialSyncStatusInSync -> node_CredVersion n = e /\ Q id.
Definition registry_ok r : Prop := map_Forall entry_ok (Registry.nodes r).
Definition cred_ok h : Prop := HubFacts.hub_keeps registry_ok e h.

Lemma lookup_entry_ok r id n : registry_ok r -> Registry.lookup_or_read r id = Ok n -> entry_ok id n.
Proof.
  intros Hr. unfold Registry.lookup_or_read. destruct (Registry.nodes r !! id) as [m|] eqn:En.
  { intros [= <-]. by apply (Hr id m). }
  unfold Registry.readNode. destruct (select_row _ _) as [[row|]|]; [|done..]. unfold Registry.scanNodeRow.
  destruct (Registry.scan_time _ (nr_last_heartbeat row)); [|done].
  destruct (Registry.scan_time _ (nr_connected_at row)); [|done]. by intros [= <-].
Qed.
Lemma Register_ok r now id host :
  registry_ok r ->
  registry_ok (Registry.Register r now (mkNodeEntry id host ε [] [] ε Time.zero Time.zero ε 0 None Time.zero)).1.
Proof.
  intros Hr. unfold Registry.Register. destruct (str_empty _); [done|]. destruct (str_empty _); [done|].
  destruct (Registry.upsertNode _ _); [|done]. unfold registry_ok. cbn [fst Registry.nodes].
  apply map_Forall_insert_2; [|done]. unfold entry_ok. by destruct (Time.IsZero _).
Qed.
Lemma MarkOffline_ok r now id : registry_ok r -> registry_ok (Registry.MarkOffline r now id).1.
Proof.
  intros Hr. unfold Registry.MarkOffline. destruct (Registry.lookup_or_read r id) as [n|] eqn:En; [|done].
  simpl. destruct (Registry.upsertNode _ _); [|done]. apply map_Forall_insert_2; [|done].
  by apply (lookup_entry_ok r id n).
Qed.
Lemma auth_ok r now id payload :
  registry_ok r -> registry_ok (Registry.HandleAuthStateMessage decode_auth r now id payload).1.
Proof.
  intros Hr. unfold Registry.HandleAuthStateMessage. destruct (str_empty id); [done|].
  destruct (decode_auth payload) as [[|rep reps]|]; [done| |done]. unfold Registry.UpdateAuthState.
  destruct (Registry.lookup_or_read r id) as [n|] eqn:En; [|done]. apply map_Forall_insert_2; [|done].
  by apply (lookup_entry_ok r id n).
Qed.
Lemma sync_ok r payload :
  registry_ok r ->
  (forall p, decode_sync payload = Ok p -> csp_CredentialVersion p = e -> Q (csp_NodeID p)) ->
  registry_ok (Registry.HandleCredentialSyncMessage decode_sync r payload e).1.
Proof.
  intros Hr Hp. unfold Registry.HandleCredentialSyncMessage. destruct (decode_sync payload) as [p|]; [|done].
  destruct (str_empty _); [done|]. unfold Registry.ReconcileCredentialVersion.
  destruct (Registry.lookup_or_read r _) as [n|]; [|done]. apply map_Forall_insert_2; [|done].
  unfold entry_ok. simpl. destruct (Z.eqb_spec (csp_CredentialVersion p) e) as [Heq|]; [|done]. eauto.
Qed.

Lemma creds_closed :
  HubFacts.closed_under_hub decode_sync decode_auth registry_ok e
    (fun payload => forall p, decode_sync payload = Ok p -> csp_CredentialVersion p = e -> Q (csp_NodeID p)).
Proof. split; intros; [by apply Register_ok | by apply MarkOffline_ok | by apply auth_ok | by apply sync_ok]. Qed.
End Credits.

(** *** Every version on the way was the version of its agent *)
Section Facts.
Context {DB E : Type} `{KT : KeyedTable DB NodeRow E} `{TT : TimeText} `{JE : Json Envelope}.
Context `{JR : Json CredentialVersionReport} `{JS : Json CredentialSyncPayload} `{SC : !SyncCodec} `{MR : MapRange}.
Context (upgrade : Request -> bool -> res string ())
  (decode_auth : string -> res string (list AuthStateReport))
  (decode_type : string -> res string string)
  (decode_push : string -> res string push_command).
Notation last_version := (last_version decode_push).
Notation flow_exec := (flow_exec upgrade decode_auth decode_type decode_push).
Notation flow_run := (flow_run upgrade decode_auth decode_type decode_push).
Notation flows := (flows upgrade decode_auth decode_type decode_push).
Notation hub_step := (hub_step upgrade decode_auth).
Implicit Types (w : world (DB := DB)) (a : agent).

Definition not_sync (env : Envelope) : Prop := env_Type env <> MessageTypeCredentialSync.
Record agent_ok (id : string) (a : agent) : Prop := {
  ag_named : id <> ε;
  ag_plain v : sync_plain (mkVersionReport id v);
  ag_hooks : Client.onConnectHooks (fa_client a) = [sync_hook id];
  ag_pending : Forall (not_sync ∘ pe_env) (Client.pendingEvents (fa_client a));
  ag_version : last_version (fa_applied a) (Applier.GetVersion (fa_applier a)) }.

(** A report is of a host that dialled when it had that version. *)
Definition backed (d : list (string * list Envelope)) (env : Envelope) : Prop :=
  env_Type env = MessageTypeCredentialSync ->
  exists id cmds v, (id, cmds) ∈ d /\ last_version cmds v /\
    json_unmarshal (env_Payload env) = Ok (mkCredentialSync id v).
Definition dialled_with (d : list (string * list Envelope)) (v : Z) (id : string) : Prop :=
  exists cmds, (id, cmds) ∈ d /\ last_version cmds v.
Record flow_ok (e : Z) w : Prop := {
  fo_sys : HubFacts.sys_ok (sys w);
  fo_cred : cred_ok (dialled_with (dialled w) e) e (Hub.hub (sys w));
  fo_agents : map_Forall agent_ok (agents w);
  fo_wires : map_Forall (fun _ l => Forall (backed (dialled w)) l) (wires w) }.

Lemma not_sync_backed d env : not_sync env -> backed d env.
Proof. intros Hn Ht. by destruct Hn. Qed.
Lemma start_agent_ok cfg id :
  id <> ε -> (forall v, sync_plain (mkVersionReport id v)) -> agent_ok id (start_agent cfg id).
Proof. intros Hid Hp. by split. Qed.
Lemma receive_ok msg id a : agent_ok id a -> agent_ok id (receive decode_type decode_push msg a).
Proof.
  intros Hok. unfold receive. destruct (Client.read_message _ _ _) as [|[] env|]; try done.
  pose proof (ApplierFacts.HandleCredentialPush_values decode_push (fa_applier a) env) as Hv.
  destruct (Applier.HandleCredentialPush _ _ _) as [o r]. destruct Hok as [Hid Hp Hh Hpe Hver].
  destruct r as [[log|]|err].
  - destruct Hv as (b & c & -> & Hd & _ & Hv). split; [done..|]. unfold Flow.last_version. simpl.
    rewrite last_snoc. exists c. by split.
  - by subst o; split.
  - by subst o; split.
Qed.
Lemma with_client_ok id a c :
  agent_ok id a -> Client.onConnectHooks c = Client.onConnectHooks (fa_client a) ->
  Forall (not_sync ∘ pe_env) (Client.pendingEvents c) -> agent_ok id (with_client c a).
Proof. intros [Hid Hp Hh Hpe Hv] Hc Hn. split; simpl; [done | done | congruence | done | done]. Qed.

(** What a new connection is opened with. *)
Lemma dial_sent_backed id a d answer now ws :
  agent_ok id a -> (id, fa_applied a) ∈ d ->
  Forall (backed d) (Client.dial_phase (fa_client a) answer (fa_applier a) now ws).1.2.
Proof.
  intros [Hid Hp Hh Hpe Hv] Hd. apply Forall_forall. intros env He.
  apply ClientFacts.dial_phase_sent in He as [_ [(sp & payload & _ & _ & ->)|[(pe & -> & Hin)%list_elem_of_fmap|(hook & Hin & Hs)]]].
  - by apply not_sync_backed.
  - apply not_sync_backed. by apply (proj1 (Forall_forall _ _) Hpe).
  - rewrite Hh in Hin. apply list_elem_of_singleton in Hin as ->. unfold sync_hook in Hs.
    destruct (json_marshal _) as [payload|] eqn:Ej; [|done]. injection Hs as <-. intros _.
    exists id, (fa_applied a), (Applier.GetVersion (fa_applier a)). split_and!; [done | done|].
    by apply (sync_read _ _ (Hp _)) in Ej.
Qed.
Lemma dial_agent_ok id a answer now ws :
  agent_ok id a -> agent_ok id (with_client (Client.dial_phase (fa_client a) answer (fa_applier a) now ws).1.1 a).
Proof.
  intros Hok. pose proof (ClientFacts.dial_phase_same (fa_client a) answer (fa_applier a) now ws) as (_ & Hpe & _ & Hh).
  apply with_client_ok; [done | done|]. rewrite Hpe. apply Hok.
Qed.

Lemma flow_ok_agent e w id a : flow_ok e w -> agent_ok id a -> flow_ok e (with_agent id a w).
Proof. intros [Hs Hc Ha Hw] Hok. split; simpl; try done. by apply map_Forall_insert_2. Qed.
Lemma flow_ok_put e w conn sent : flow_ok e w -> Forall (backed (dialled w)) sent -> flow_ok e (put conn sent w).
Proof.
  intros [Hs Hc Ha Hw] Hsent. destruct conn as [i|]; [|by split]. split; simpl; try done.
  apply map_Forall_insert_2; [|done]. apply Forall_app. split; [|done].
  destruct (wires w !! i) as [l|] eqn:Ei; [by apply (Hw i) | constructor].
Qed.
Lemma flow_ok_hub e w x w' :
  flow_ok e w -> hub_step x w = Some w' ->
  match x with Hub.AReceive _ _ env => backed (dialled w) env | _ => True end ->
  flow_ok e w' /\ agents w' = agents w /\ wires w' = wires w /\ dialled w' = dialled w.
Proof.
  intros [Hs Hc Ha Hw] Hn Hb. unfold Flow.hub_step in Hn.
  destruct (Hub.exec upgrade json_unmarshal decode_auth (sys w) x) as [s'| |] eqn:Ex; [|done|done].
  injection Hn as <-. split; [|done]. split; simpl; [| |done|done].
  - pose proof (HubFacts.exec_fine upgrade json_unmarshal decode_auth (sys w) x Hs) as Hf. by rewrite Ex in Hf.
  - eapply HubFacts.exec_keeps; [apply creds_closed | exact Hc | | exact Ex]. destruct x; try done. intros Ht p Hp Hv.
    destruct (Hb Ht) as (id & cmds & v & Hd & Hl & Hdec). rewrite Hp in Hdec. injection Hdec as ->. simpl in *.
    subst v. by exists cmds.
Qed.

Lemma backed_more d d' env : d ⊆ d' -> backed d env -> backed d' env.
Proof. intros Hd Hb Ht. destruct (Hb Ht) as (id & cmds & v & ? & ? & ?). exists id, cmds, v. eauto. Qed.
Lemma flow_ok_more e w d :
  flow_ok e w -> dialled w ⊆ d -> flow_ok e (mkFlow (agents w) (wires w) (sys w) d).
Proof.
  intros [Hs [He Hc] Ha Hw] Hd. split; simpl; [done| |done|].
  - split; [done|]. intros r Hr id n Hn Hin. destruct (Hc r Hr id n Hn Hin) as [? (cmds & ? & ?)].
    split; [done|]. exists cmds. eauto.
  - intros i l Hl. eapply Forall_impl; [exact (Hw i l Hl)|]. intros env. by apply backed_more.
Qed.
Lemma dial_ok e w id uuid now ws a w' :
  flow_ok e w -> agent_ok id a -> dial upgrade decode_auth id uuid now ws a w = Some w' -> flow_ok e w'.
Proof.
  intros Hw Ha. unfold dial. pose proof (dial_agent_ok id a) as Hdial.
  destruct (Hub.ServeWS _ _ _ _) as [|err|agentID].
  - intros [= <-]. apply flow_ok_agent; [done|]. exact (Hdial (Err ε) now ws Ha).
  - intros [= <-]. apply flow_ok_agent; [done|]. exact (Hdial (Err err) now ws Ha).
  - pose proof (dial_sent_backed id a (dialled w ++ [(id, fa_applied a)]) (Ok ()) now ws Ha) as Hsent.
    specialize (Hdial (Ok ()) now ws Ha).
    destruct (Client.dial_phase _ _ _ _ _) as [[c sent] r]. simpl in Hsent, Hdial.
    destruct (Flow.hub_step _ _ _ w) as [w1|] eqn:E1; [|done]. intros [= <-].
    destruct (flow_ok_hub e w _ w1 Hw E1 I) as (Hok1 & Eag & Ewi & Edi).
    apply (flow_ok_more e w1 (dialled w ++ [(id, fa_applied a)])) in Hok1; [|rewrite Edi; set_solver].
    destruct Hok1 as [Hs1 Hc1 Ha1 Hw1]. simpl in *. split; simpl; rewrite ?Edi; try done.
    + apply map_Forall_insert_2; [|done]. by destruct Hdial; split.
    + apply map_Forall_insert_2; [|done]. apply Hsent. set_solver.
Qed.
Lemma flow_step_ok e w x w' : flow_ok e w -> plain_start x -> flow_exec w x = Some w' -> flow_ok e w'.
Proof.
  intros Hw Hp. pose proof Hw as [_ _ Hag Hwi].
  destruct x as [id cfg|id msg|id uuid now ws|id env ws|id env ws|id seq|id|i now|i|x]; cbn [Flow.flow_exec];
    try (destruct (agents w !! id) as [a|] eqn:Ea; [|done]; cbn [mbind option_bind]; pose proof (Hag id a Ea) as Ha).
  - destruct (str_empty id) eqn:Ei; [done|]. apply str_empty_false in Ei. intros [= <-].
    by apply flow_ok_agent, start_agent_ok.
  - intros [= <-]. by apply flow_ok_agent, receive_ok.
  - destruct (Client.connected _); [done|]. by apply dial_ok.
  - destruct (String.eqb_spec (env_Type env) MessageTypeCredentialSync) as [|Hns]; [done|].
    pose proof (ClientFacts.SendEnvelope_sent (Client.SendEvent (fa_client a) ws env).1.1 ws env) as Hs.
    unfold Client.SendEvent in *. simpl in Hs.
    destruct (Client.SendEnvelope _ ws env) as [[sent ws'] r]. intros [= <-]. apply flow_ok_put.
    + apply flow_ok_agent; [done|]. apply with_client_ok; [done | done|]. apply Forall_app. split; [apply Ha|].
      by constructor.
    + apply Forall_forall. intros x [-> _]%Hs. by apply not_sync_backed.
  - destruct (String.eqb_spec (env_Type env) MessageTypeCredentialSync) as [|Hns]; [done|]. intros [= <-].
    apply flow_ok_put; [done|]. apply Forall_forall. intros x [-> _]%ClientFacts.SendEnvelope_sent.
    by apply not_sync_backed.
  - intros [= <-]. apply flow_ok_agent; [done|]. apply with_client_ok; [done | done|]. simpl.
    apply Forall_forall. intros pe [_ Hpe]%list_elem_of_filter. by apply (proj1 (Forall_forall _ _) (ag_pending _ _ Ha)).
  - intros [= <-]. apply flow_ok_agent; [done|]. by apply with_client_ok; [done | done | apply Ha].
  - destruct (wires w !! i) as [[|env rest]|] eqn:Ei; [done| |done].
    destruct (Flow.hub_step _ _ _ w) as [w1|] eqn:E1; [|done]. intros [= <-].
    pose proof (Hwi i _ Ei) as Hl. apply Forall_cons in Hl as [Henv Hrest].
    destruct (flow_ok_hub e w _ w1 Hw E1 Henv) as ([Hs1 Hc1 Ha1 Hw1] & _ & _ & Edi).
    split; simpl; try done. apply map_Forall_insert_2; [|done]. by rewrite Edi.
  - intros [= <-]. destruct Hw as [Hs Hc Ha _]. split; simpl; try done. by apply map_Forall_delete.
  - destruct (hub_alone x) eqn:Eh; [|done]. intros Hx. eapply flow_ok_hub; [exact Hw | exact Hx | by destruct x].
Qed.
Lemma flows_ok w0 w : initial w0 -> flows w0 w -> flow_ok (Hub.expectedCredVersion (Hub.hub (sys w0))) w.
Proof.
  intros (Ha & Hw & Hd & Hs & Hr) Hf. induction Hf as [|w x w' Hf IH Hp Hx]; [|by eapply flow_step_ok].
  split.
  - by apply HubFacts.idle_ok.
  - split; [done|]. intros r Er. unfold registry_ok. rewrite (Hr r Er). apply map_Forall_empty.
  - rewrite Ha. apply map_Forall_empty.
  - rewrite Hw. apply map_Forall_empty.
Qed.

(** *** A new connection settles what the registry says of its node *)
Definition known (id : string) (h : Hub.Hub DB) : Prop :=
  exists r n, Hub.registry h = Some r /\ Registry.nodes r !! id = Some n.
Definition settled (e v : Z) (id : string) (h : Hub.Hub DB) : Prop :=
  exists r n, Hub.registry h = Some r /\ Registry.nodes r !! id = Some n /\ node_CredVersion n = v /\
    node_CredSyncStatus n = if v =? e then CredentialSyncStatusInSync else CredentialSyncStatusDriftDetected.
Notation handle h i now env := (Hub.handleEnvelope json_unmarshal decode_auth h i now env).1.

Lemma insert_known (m : gmap string NodeEntry) id k n :
  is_Some (m !! id) -> is_Some (<[k := n]> m !! id).
Proof. intros Hm. destruct (decide (k = id)) as [->|]; [by rewrite lookup_insert_eq | by rewrite lookup_insert_ne]. Qed.
Lemma envelope_known id h i now env : known id h -> known id (handle h i now env).
Proof.
  intros (r & n & Hr & Hn). assert (Hsome : is_Some (Registry.nodes r !! id)) by (by exists n).
  assert (Hk : forall h' r', Hub.registry h' = Some r' -> is_Some (Registry.nodes r' !! id) -> known id h')
    by (intros h' r' ? [? ?]; red; eauto).
  unfold Hub.handleEnvelope. destruct (String.eqb _ _); [by eapply Hk|]. destruct (String.eqb _ _).
  { unfold Hub.reconcileCredentialSync. simpl. rewrite Hr. eapply Hk; [done|]. unfold Registry.HandleCredentialSyncMessage.
    destruct (json_unmarshal _) as [p|]; [|done]. destruct (str_empty _); [done|]. unfold Registry.ReconcileCredentialVersion.
    destruct (Registry.lookup_or_read r _); [|done]. by apply insert_known. }
  destruct (String.eqb _ _); [by eapply Hk|].
  destruct (String.eqb (env_Type env) MessageTypeAuthState); [|case_match; by eapply Hk].
  unfold Hub.reconcileAuthState. simpl. rewrite Hr. eapply Hk; [done|]. unfold Registry.HandleAuthStateMessage.
  destruct (str_empty _); [done|]. destruct (decode_auth _) as [[|]|]; [done| |done]. unfold Registry.UpdateAuthState.
  destruct (Registry.lookup_or_read r _); [|done]. by apply insert_known.
Qed.
Lemma envelope_settled id v h i now env :
  id <> ε -> known id h -> env_Type env = MessageTypeCredentialSync ->
  json_unmarshal (env_Payload env) = Ok (mkCredentialSync id v) ->
  settled (Hub.expectedCredVersion h) v id (handle h i now env).
Proof.
  intros Hid%str_empty_false (r & n & Hr & Hn) Ht Hd. unfold Hub.handleEnvelope. rewrite Ht. simpl.
  unfold Hub.reconcileCredentialSync. simpl. rewrite Hr. eexists. simpl.
  unfold Registry.HandleCredentialSyncMessage, Registry.ReconcileCredentialVersion, Registry.lookup_or_read.
  rewrite Hd. simpl. rewrite Hid, Hn. eexists. split; [done|]. simpl. rewrite lookup_insert_eq. by split_and!.
Qed.

(** The hub reads a connection. *)
Definition reading (i : nat) (id : string) (e : Z) w : Prop :=
  Hub.in_state (Hub.hub (sys w)) i Reading = true /\ known id (Hub.hub (sys w)) /\
  Hub.expectedCredVersion (Hub.hub (sys w)) = e.
Lemma handle_expected h i now env : Hub.expectedCredVersion (handle h i now env) = Hub.expectedCredVersion h.
Proof. unfold Hub.handleEnvelope, Hub.reconcileCredentialSync, Hub.reconcileAuthState. repeat (case_match; try done). Qed.
Lemma deliver_one w i id e now env rest :
  reading i id e w -> wires w !! i = Some (env :: rest) ->
  exists w', flow_exec w (FDeliver i now) = Some w' /\ reading i id e w' /\ agents w' = agents w /\
    wires w' !! i = Some rest /\ Hub.hub (sys w') = handle (Hub.hub (sys w)) i now env.
Proof.
  intros (Hst & Hk & He) Hw. cbn [Flow.flow_exec]. rewrite Hw. unfold Flow.hub_step. cbn [Hub.exec]. rewrite Hst.
  pose proof (HubFacts.reconcile_conns json_unmarshal decode_auth (Hub.hub (sys w)) now i env) as [_ Hc].
  pose proof (envelope_known id (Hub.hub (sys w)) i now env Hk) as Hk'.
  pose proof (handle_expected (Hub.hub (sys w)) i now env) as He'.
  destruct (Hub.handleEnvelope _ _ _ _ _ _) as [h' r]. simpl in *. eexists. split; [done|].
  split_and!; simpl; [|done|by rewrite lookup_insert_eq|done]. split_and!; [|done|simpl; congruence].
  apply HubFacts.in_state_Some in Hst as (c & Ec & Hr). simpl. unfold Hub.in_state. rewrite Hc, lookup_alter_eq, Ec.
  simpl. by rewrite Hr.
Qed.
Lemma deliver_all w i id e now l env v :
  reading i id e w -> wires w !! i = Some (l ++ [env]) -> id <> ε ->
  env_Type env = MessageTypeCredentialSync -> json_unmarshal (env_Payload env) = Ok (mkCredentialSync id v) ->
  exists w', flow_run w (replicate (length (l ++ [env])) (FDeliver i now)) = Some w' /\
    agents w' = agents w /\ wires w' !! i = Some [] /\ settled e v id (Hub.hub (sys w')).
Proof.
  intros Hr Hw Hid Ht Hd. revert w Hr Hw. induction l as [|x l IH]; intros w Hr Hw.
  - destruct (deliver_one _ _ _ _ now _ _ Hr Hw) as (w' & Hx & _ & Ha & Hw' & Hh). exists w'.
    cbn [app length replicate Flow.flow_run]. rewrite Hx. cbn [mbind option_bind Flow.flow_run]. split_and!; try done.
    rewrite Hh. destruct Hr as (_ & Hk & <-). by apply envelope_settled.
  - destruct (deliver_one _ _ _ _ now _ _ Hr Hw) as (w1 & Hx & Hr1 & Ha & Hw1 & _).
    destruct (IH w1 Hr1 Hw1) as (w' & Hrun & Ha' & Hrest). exists w'.
    cbn [app length replicate Flow.flow_run]. rewrite Hx. cbn [mbind option_bind]. split_and!; [done | congruence | apply Hrest..].
Qed.

(** The hub files a connection that waits; the node is then known. *)
Lemma online_known (good : DB -> Prop) h r now id :
  HubFacts.writable good -> Hub.registry h = Some r -> good (Registry.db r) -> id <> ε ->
  known id (Hub.registerNodeOnline h now id) /\
  Hub.expectedCredVersion (Hub.registerNodeOnline h now id) = Hub.expectedCredVersion h.
Proof.
  intros Hw Hr Hg Hid%str_empty_false. unfold Hub.registerNodeOnline. rewrite Hr, Hid. split; [|done].
  unfold Registry.Register. cbn [node_ID node_Hostname]. rewrite Hid. cbv zeta. unfold Registry.upsertNode.
  match goal with |- context [upsert_row ?d ?row] => destruct (Hw d row Hg) as (d' & -> & _) end.
  destruct (Time.IsZero _); eexists _, _; (split; [done|]); simpl; apply lookup_insert_eq.
Qed.
Lemma register_reading (good : DB -> Prop) e w i now c r :
  HubFacts.sys_ok (sys w) -> HubFacts.writable good -> Hub.registry (Hub.hub (sys w)) = Some r -> good (Registry.db r) ->
  Hub.stopped (Hub.hub (sys w)) = false -> Hub.expectedCredVersion (Hub.hub (sys w)) = e ->
  Hub.conns (Hub.hub (sys w)) !! i = Some c -> ac_reader c = Registering -> ac_agentID c <> ε ->
  exists w', flow_exec w (FHub (Hub.ARegister i now)) = Some w' /\ reading i (ac_agentID c) e w' /\
    agents w' = agents w /\ wires w' = wires w.
Proof.
  intros [Hok _] Hw Hr Hg Hst He Hc Hreg Hid.
  destruct (HubFacts.run_register_ok _ i now c Hok Hc Hreg) as (h' & Hrun & Hdom & _).
  cbn [Flow.flow_exec hub_alone]. unfold Flow.hub_step. cbn [Hub.exec].
  assert (Hub.in_state (Hub.hub (sys w)) i Registering = true) as Hin.
  { unfold Hub.in_state. rewrite Hc. by apply bool_decide_eq_true_2. }
  rewrite Hst, Hin, Hrun. simpl. eexists. split; [done|]. split; [|done].
  destruct (HubFacts.run_register_mid _ _ _ _ Hrun) as (c' & h0 & cl & ev & Hc' & [Hr0 He0] & ->). simplify_eq.
  destruct (online_known good (Hub.with_clients cl h0) r now (ac_agentID c) Hw) as [Hk Hx]; [by simpl; rewrite Hr0|done..|].
  destruct (HubFacts.same_registry_emit ev (Hub.registerNodeOnline (Hub.with_clients cl h0) now (ac_agentID c))) as [Er Ex].
  split_and!; simpl.
  - assert (is_Some (Hub.conns (Hub.emit ev (Hub.registerNodeOnline (Hub.with_clients cl h0) now (ac_agentID c))) !! i)) as [c1 Hc1].
    { apply elem_of_dom. rewrite Hdom. apply elem_of_dom. eauto. }
    unfold Hub.in_state. simpl. by rewrite lookup_alter_eq, Hc1.
  - destruct Hk as (r1 & n1 & ? & ?). exists r1, n1. simpl. by rewrite Er.
  - rewrite Ex, Hx. simpl. congruence.
Qed.

Lemma run_flows w0 w l :
  flows w0 w -> Forall plain_start l -> is_Some (flow_run w l) -> flows w0 (default w (flow_run w l)).
Proof.
  revert w. induction l as [|x l IH]; intros w Hw Hp Hrun; [done|]. apply Forall_cons in Hp as [Hx Hl].
  cbn [Flow.flow_run] in *. destruct (flow_exec w x) as [w1|] eqn:E1; [|by destruct Hrun].
  cbn [mbind option_bind] in *. specialize (IH w1). destruct (flow_run w1 l) as [w2|]; [|by destruct Hrun].
  apply IH; [|done|by eexists]. by eapply flows_step.
Qed.
End Facts.
End FlowFacts.

(** ** Properties *)
Section Properties.
Import Flow FlowFacts Register.
Context {DB E : Type} `{KT : KeyedTable DB NodeRow E} `{TT : TimeText} `{JE : Json Envelope}.
Context `{JR : Json CredentialVersionReport} `{JS : Json CredentialSyncPayload} `{SC : !SyncCodec} `{MR : MapRange}.
Context (upgrade : Request -> bool -> res string ())
  (decode_auth : string -> res string (list AuthStateReport))
  (decode_type : string -> res string string)
  (decode_push : string -> res string push_command).

(** C14: a node is never shown as in sync for nothing: whatever the agents, their
    connections and the hub do, in any order, a node that the registry shows as in
    sync is one whose agent dialled when the last push command that its process had
    applied carried the version the supervisor expects (or when it had applied none
    and version zero is expected). *)
Theorem in_sync_was_pushed (w0 w : world (DB := DB)) (r : Registry.NodeRegistry DB) (id : string) (n : NodeEntry) :
  let expected := Hub.expectedCredVersion (Hub.hub (sys w0)) in
  initial w0 -> flows upgrade decode_auth decode_type decode_push w0 w ->
  Hub.registry (Hub.hub (sys w)) = Some r -> Registry.nodes r !! id = Some n ->
  node_CredSyncStatus n = CredentialSyncStatusInSync ->
  node_CredVersion n = expected /\
  exists cmds, (id, cmds) ∈ dialled w /\ last_version decode_push cmds expected.
Proof.
  intros e H0 Hf Hr Hn Hs. destruct (flows_ok _ _ _ _ _ _ H0 Hf) as [_ [_ Hc] _ _].
  exact (Hc r Hr id n Hn Hs).
Qed.

End Properties.

(** ** Witnesses: an agent starts, is pushed version 2, dials and is heard *)
Module FlowWitness.
Import Flow FlowFacts Register CommandWitness ApplierWitness.
#[local] Existing Instance sorted_range.

#[export] Instance sync_payload_json : Json CredentialSyncPayload := {
  json_marshal p := Ok (report_text (mkVersionReport (csp_NodeID p) (csp_CredentialVersion p)));
  json_unmarshal s :=
    match read_report s with
    | Some (id, v) => Ok (mkCredentialSync id v)
    | None => Err "unexpected end of JSON input"%string
    end }.
#[export] Instance sync_codec : SyncCodec.
Proof.
  refine {| sync_plain _ := True |}. intros [id v] s _ [= <-]. simpl. by rewrite read_report_text.
Defined.

Definition decode_type (s : string) : res string string := Ok CommandTypeCredentialPush.
Definition hub0 : Hub.Hub (mem_table NodeRow) := Hub.ConfigureRegistry HubWitness.reg0 2 (Hub.NewHub "t" [] 30 3).
Definition w0 : world (DB := mem_table NodeRow) := mkFlow ∅ ∅ (Hub.mkSystem hub0 [] []) [].
Definition now : Time.t := 62135596805 * Time.Second.
Definition push_text : string := match MarshalEnvelope ApplierWitness.env with Ok s => s | Err _ => ε end.
Definition before : list flow_action := [FStart "n1" AgentWitness.cfg; FMessage "n1" push_text].
Definition connecting : list flow_action :=
  [FDial "n1" "u" now []; FHub (Hub.ARegister 0 7); FDeliver 0 8].
Definition run := flow_run HubWitness.upgrade HubWitness.no_auth decode_type ApplierWitness.decode.
Definition pushed : world := default w0 (run w0 before).
Definition heard : world := default w0 (run w0 (before ++ connecting)).
Lemma initial0 : initial w0.
Proof. split_and!; [done..|]. intros r [= <-]. reflexivity. Defined.
Lemma plain_all (l : list flow_action) : Forall plain_start l.
Proof. induction l as [|[] l IH]; by constructor. Defined.
Lemma reached l : is_Some (run w0 l) ->
  flows HubWitness.upgrade HubWitness.no_auth decode_type ApplierWitness.decode w0 (default w0 (run w0 l)).
Proof. intros Hl. apply run_flows; [apply flows_start | apply plain_all | exact Hl]. Defined.

Definition reg_of (w : world) : Registry.NodeRegistry (mem_table NodeRow) :=
  default HubWitness.reg0 (Hub.registry (Hub.hub (sys w))).
Definition node_of (w : world) : NodeEntry :=
  default (mkNodeEntry ε ε ε [] [] ε 0 0 ε 0 None 0) (Registry.nodes (reg_of w) !! "n1"%string).
Lemma in_sync_was_pushed_witness :
  node_CredVersion (node_of heard) = 2 /\
  exists cmds, ("n1"%string, cmds) ∈ dialled heard /\ last_version ApplierWitness.decode cmds 2.
Proof.
  apply (in_sync_was_pushed HubWitness.upgrade HubWitness.no_auth decode_type ApplierWitness.decode
    w0 heard (reg_of heard) "n1" (node_of heard)).
  - apply initial0.
  - apply (reached (before ++ connecting)). apply is_Some_alt. vm_compute. exact I.
  - vm_compute. reflexivity.
  - vm_compute. reflexivity.
  - vm_compute. reflexivity.
Defined.

Definition agent1 : agent := default (start_agent AgentWitness.cfg "n1") (agents pushed !! "n1"%string).
Lemma default_agent (m : gmap string agent) :
  bool_decide (is_Some (m !! "n1"%string)) = true ->
  m !! "n1"%string = Some (default (start_agent AgentWitness.cfg "n1") (m !! "n1"%string)).
Proof. intros [a ->]%bool_decide_eq_true_1. reflexivity. Qed.
Definition opened := Client.dial_phase (fa_client agent1) (Ok ()) (fa_applier agent1) now [].
Lemma came_up {A B Er} (x : A * B * res Er ()) : is_Ok x.2 = true -> x = (x.1.1, x.1.2, Ok ()).
Proof. by destruct x as [[] [[]|]]. Qed.
Example version_two : Applier.GetVersion (fa_applier agent1) = 2 /\ length opened.1.2 = 1%nat.
Proof. vm_compute. by split. Qed.
Example drifted_without_push :
  (fun w => (node_CredSyncStatus (node_of w), node_CredVersion (node_of w))) <$>
    run w0 (FStart "n1" AgentWitness.cfg :: connecting) = Some (CredentialSyncStatusDriftDetected, 0).
Proof. vm_compute. reflexivity. Qed.
End FlowWitness.
