(* ===== verification/Support.v ===== *)
(** * Support

    The small parts between the components: internal/shared/logging.go,
    internal/storage/schema.go, the loading of the TLS certificate
    (internal/supervisor/security.go), StartHTTPServer (http_api.go), random
    tokens (internal/agent/provision.go and cmd/halctl/config_cmd.go) and the
    hub's hand-over of a command result.
    The random source, certificates and listeners are arguments. *)

From S2P Require Import Prelude GoStd Commands Dispatcher.

(** ** Correlation ids *)
Module Logging.
(** A context's values, newest first; the key's type keeps other packages' keys
    apart. *)
Inductive context_key := contextKey (k : string) | foreign_key (k : string).
#[export] Instance context_key_eq_dec : EqDecision context_key.
Proof. solve_decision. Defined.
Definition context := list (context_key * value).
Definition correlationIDKey : context_key := contextKey "correlation_id".
Definition WithValue (ctx : context) (k : context_key) (v : value) : context := (k, v) :: ctx.
Definition Value (ctx : context) (k : context_key) : option value :=
  snd <$> find (fun kv => bool_decide (kv.1 = k)) ctx.

Definition WithCorrelationID (ctx : context) (id : string) : context := WithValue ctx correlationIDKey (VStr id).
(** [uuid] is what a new id would be. *)
Definition GetCorrelationID (ctx : context) (uuid : string) : string :=
  match Value ctx correlationIDKey with
  | Some (VStr id) => if str_empty id then uuid else id
  | _ => uuid
  end.

Inductive level := LevelInfo | LevelError.
Record log_entry := mkEntry { le_level : level; le_msg : string; le_fields : list (string * string) }.
(** [logger] is whether there is one. *)
Definition LogWithContext (ctx : context) (uuid : string) (logger : bool) (msg : string) (fields : list (string * string))
    : option log_entry :=
  if logger then Some (mkEntry LevelInfo msg (fields ++ [("correlation_id"%string, GetCorrelationID ctx uuid)])) else None.
Definition LogErrorWithContext (ctx : context) (uuid : string) (logger : bool) (msg : string) (err : option string)
    (fields : list (string * string)) : option log_entry :=
  if logger then
    Some (mkEntry LevelError msg (fields ++ ("correlation_id"%string, GetCorrelationID ctx uuid) ::
            match err with Some e => [("error"%string, e)] | None => [] end))
  else None.
End Logging.

(** ** Random tokens *)
Module Tokens.
(** [hex.EncodeToString], lower case. *)
Definition hex_char (n : nat) : ascii := ascii_of_nat (if (n <? 10)%nat then 48 + n else 87 + n).
Fixpoint EncodeToString (b : list ascii) : string :=
  match b with
  | [] => ε
  | c :: b' => let n := nat_of_ascii c in String (hex_char (n / 16)) (String (hex_char (n mod 16)) (EncodeToString b'))
  end.
(** [rand] is what [rand.Read] puts into a buffer of that length. *)
Definition generateApprovalToken (rand : nat -> res string (list ascii)) : string :=
  match rand 8%nat with
  | Err _ => "prov_fallback"%string
  | Ok b => ("prov_" +:+ EncodeToString b)%stdpp
  end.
Definition randomTokenHex (rand : nat -> res string (list ascii)) (bytesLen : nat) : res string string :=
  let? b := rand bytesLen in Ok (EncodeToString b).

(** What the digits stand for. *)
Definition hex_value (c : ascii) : option nat :=
  let n := nat_of_ascii c in
  if (48 <=? n)%nat && (n <=? 57)%nat then Some (n - 48)%nat
  else if (97 <=? n)%nat && (n <=? 102)%nat then Some (n - 87)%nat else None.
Fixpoint DecodeString (s : string) : option (list ascii) :=
  match s with
  | ε => Some []
  | String a (String b s') =>
      x ← hex_value a; y ← hex_value b; l ← DecodeString s'; Some (ascii_of_nat (16 * x + y) :: l)
  | _ => None
  end.
End Tokens.

(** ** TLS and the HTTP server *)
Module Network.
Record TLSFiles := mkTLSFiles { tls_Enabled : bool; tls_CertPath : string; tls_KeyPath : string }.
Definition VersionTLS12 : Z := 771.
Record tls_config (C : Type) := mkTLSConfig { tls_Certificates : list C; tls_MinVersion : Z }.
Arguments mkTLSConfig {C}. Arguments tls_Certificates {C}. Arguments tls_MinVersion {C}.
(** [load] is [tls.LoadX509KeyPair]; [Ok None] is the nil configuration. *)
Definition LoadTLSConfig {C} (load : string -> string -> res string C) (cfg : TLSFiles) : res string (option (tls_config C)) :=
  if negb (tls_Enabled cfg) then Ok None
  else let? cert := load (tls_CertPath cfg) (tls_KeyPath cfg) in Ok (Some (mkTLSConfig [cert] VersionTLS12)).

Record http_server := mkHTTPServer { hs_Addr : string; hs_ReadTimeout : Z; hs_WriteTimeout : Z; hs_IdleTimeout : Z }.
Definition new_http_server (addr : string) : http_server :=
  mkHTTPServer addr (15 * Time.Second) (15 * Time.Second) (60 * Time.Second).
Definition startup_wait : Z := 50 * Time.Millisecond.
(** When [ListenAndServe] returns, counted from the start, and with which error;
    [None] is [http.ErrServerClosed]. *)
Definition listen_end := option (Z * option string).
Inductive start_error := server_failed (e : option string).
(** A listener that ends within the wait is a failure to start, the closing of the
    server included; what comes later is in a channel that nobody reads. *)
Definition StartHTTPServer (addr : string) (ending : listen_end) : res start_error http_server :=
  match ending with
  | Some (after, e) => if after <? startup_wait then Err (server_failed e) else Ok (new_http_server addr)
  | None => Ok (new_http_server addr)
  end.
End Network.

(** ** storage/schema.go *)
Module Storage.
Record Storage (D : Type) := mkStorage { st_db : D }.
Arguments mkStorage {D}. Arguments st_db {D}.
Definition NewStorage {D} (db : D) : Storage D := mkStorage db.
Definition Close {D} (close : D -> res string ()) (s : Storage D) : res string () := close (st_db s).
End Storage.

(** ** What the hub does with a command result, once it has a dispatcher *)
Definition handleCommandResultEnvelope `{Json CommandResult} (dispatcher : option Waiters.state) (now : Time.t)
    (env : Envelope) : option Waiters.state * option string :=
  match dispatcher with
  | None => (None, None)
  | Some s =>
      match Waiters.HandleCommandResultEnvelope s now (Some env) with
      | (s, Ok _) => (Some s, None)
      | (s, Err _) => (Some s, Some "command result ingest failed"%string)
      end
  end.

(** ** Lemmas *)
Module SupportFacts.
Import Logging Tokens.

Lemma hex_value_char n : (n < 16)%nat -> hex_value (hex_char n) = Some n.
Proof. intros Hn. do 16 (destruct n as [|n]; [done|]). lia. Qed.
Lemma Encode_Decode b : DecodeString (EncodeToString b) = Some b.
Proof.
  induction b as [|c b IH]; [done|]. cbn [EncodeToString DecodeString].
  pose proof (nat_ascii_bounded c) as Hc. rewrite !hex_value_char, IH;
    [|by apply Nat.Div0.div_lt_upper_bound; simpl; lia|by apply Nat.mod_upper_bound].
  cbn [mbind option_bind]. by rewrite <- Nat.div_mod_eq, ascii_nat_embedding.
Qed.
Lemma Encode_length b : String.length (EncodeToString b) = (2 * length b)%nat.
Proof. induction b as [|c b IH]; [done|]. cbn [EncodeToString String.length length]. rewrite IH. lia. Qed.
End SupportFacts.

(** ** Properties *)
Section Properties.
Import Logging Tokens SupportFacts.

(** An approval's token names it: two tokens that were drawn are the same only
    if the eight bytes drawn are, and a token has sixteen digits after its prefix. *)
Theorem approval_tokens_distinct (r1 r2 : nat -> res string (list ascii)) (b1 b2 : list ascii) :
  r1 8%nat = Ok b1 -> r2 8%nat = Ok b2 -> length b1 = 8%nat ->
  String.length (generateApprovalToken r1) = 21%nat /\
  (generateApprovalToken r1 = generateApprovalToken r2 <-> b1 = b2).
Proof.
  intros H1 H2 Hl. unfold generateApprovalToken. rewrite H1, H2. split.
  - simpl. by rewrite Encode_length, Hl.
  - split; [|by intros ->]. simpl. intros [= He]. apply (f_equal DecodeString) in He.
    rewrite !Encode_Decode in He. by injection He.
Qed.

(** What is logged in a context carries the correlation id that the context was
    given last, whatever other values were put into it since; in one that was
    given none, or an empty one, every entry gets an id of its own. *)
Theorem correlation_id_kept (ctx : context) (id uuid msg : string) (others : list (context_key * value))
    (fields : list (string * string)) :
  Forall (fun kv => kv.1 <> correlationIDKey) others ->
  let logged := LogWithContext (others ++ WithCorrelationID ctx id) uuid true msg fields in
  logged = Some (mkEntry LevelInfo msg (fields ++ [("correlation_id"%string, if str_empty id then uuid else id)])).
Proof.
  intros Ho. cbv zeta. unfold LogWithContext, GetCorrelationID. assert (Value (others ++ WithCorrelationID ctx id) correlationIDKey = Some (VStr id)) as ->; [|done].
  induction Ho as [|[k v] others Hk _ IH]; [done|]. unfold Value. simpl in *. by rewrite bool_decide_eq_false_2.
Qed.
End Properties.

(** ** Examples *)
Module SupportWitness.
Import Logging Tokens.
Example token : generateApprovalToken (fun _ => Ok (ascii_of_nat <$> [0; 1; 15; 16; 171; 205; 254; 255]%nat)) =
  "prov_00010f10abcdfeff"%string.
Proof. vm_compute. reflexivity. Qed.
Example late_failure_unseen : Network.StartHTTPServer ":8421" (Some (60 * Time.Millisecond, Some "accept"%string)) =
  Ok (Network.new_http_server ":8421").
Proof. vm_compute. reflexivity. Qed.
End SupportWitness.
