(* ===== verification/CommandFlow.v ===== *)
(** * CommandFlow

    The way of the commands through the running supervisor, as cmd/supervisor/main.go
    wires it: the dispatcher and the hub have the same registry, the dispatcher's
    transport is the hub, and the hub hands command results to the dispatcher.
    [process] is the state of the hub with its connections, of the dispatcher's
    waiting callers (handlers of the REST API, of the bot and of the policy engine),
    of its table of results, and of how far each dispatch is; a step is a step of
    the hub's goroutines or the next step of one dispatch, and dispatches and
    goroutines interleave freely.

    A dispatch is [DispatchCommand] of [Dispatcher], cut where others can come in
    between: it begins with the checks of the command and its key; looks the key up;
    resolves the target, at the sessions the tracker has at that time, which are an
    argument; registers its channel; looks up the connection and encodes the frame;
    puts it into the queue; waits, by the steps of [Waiters]; and keeps the result
    under the key.  It ends with a result, with an error, or with the panic of a send
    on a queue that the hub closed in between.  A look into the table, with the purge
    of an expired row, is one step, and so is resolving a target.  A goroutine that
    reads a result for a waiter is busy until it has offered it ([POffer]).  Nothing
    in the program posts a broadcast. *)

From S2P Require Import Prelude GoStd SqlStore NodeRegistry SessionTracker Commands Dispatcher Hub Support.

Module Running.
Import Dispatch.

(** Where the command of a caller goes: the target's node; then, found under it,
    the connection, with the frame for it. *)
Inductive leg := Resolved (node : string) | Found (node : string) (conn : nat) (data : string).
(** What [DispatchCommand] comes to. *)
Inductive outcome (E : Type) := Answered (r : CommandResult) | Failed (e : dispatch_error E) | Panics.
Arguments Answered {E}.
Arguments Failed {E}.
Arguments Panics {E}.
(** What a dispatch is told on its way: a result that is kept under its key, and
    the node of its target or why there is none. *)
Inductive told := Kept (r : CommandResult) | Target (t : res string string).
(** How far a dispatch is; the key is that of its row in the table of results. *)
Inductive stage (E : Type) :=
  | Checking (cmd : Command) (key : string)
  | Resolving (cmd : Command) (key : option string)
  | Registering (cmd : Command) (key : option string) (node : string)
  | InSend (cmd : Command) (key : option string)
  | Caching (cmd : Command) (key : string) (r : CommandResult)
  | Ended (cmd : Command) (o : outcome E).
Arguments Checking {E}.
Arguments Resolving {E}.
Arguments Registering {E}.
Arguments InSend {E}.
Arguments Caching {E}.
Arguments Ended {E}.

(** [queued] is history: who put which frame into the queue of which connection. *)
Record process (DB IDB E : Type) := mkProcess {
  sys : Hub.System DB;
  waiters : Waiters.state;
  legs : gmap nat leg;
  queued : list (nat * nat * string);
  idem : option IDB;
  stages : gmap nat (stage E) }.
Arguments mkProcess {DB IDB E}.
Arguments sys {DB IDB E}.
Arguments waiters {DB IDB E}.
Arguments legs {DB IDB E}.
Arguments queued {DB IDB E}.
Arguments idem {DB IDB E}.
Arguments stages {DB IDB E}.

Section Defs.
Context {DB IDB E : Type} `{KeyedTable DB NodeRow E} `{TimeText} `{KeyedTable IDB IdemRow E} `{!KeyedDelete IDB E}.
Context `{Json Command} `{Json Envelope} `{Json CommandResult} `{Json canonical}.
Context (upgrade : Request -> bool -> res string ())
  (decode_sync : string -> res string CredentialSyncPayload)
  (decode_auth : string -> res string (list AuthStateReport)).
Context (uuid_parse : string -> bool) (sha256_hex : string -> string).
Context (errtext : registry_error E -> string) (sendtext : Hub.send_error -> string) (duration_text : Z -> string).
Context (node_order : Registry.NodeRegistry DB -> list (string * NodeEntry)).
Notation process := (process DB IDB E).

Definition with_sys (s : Hub.System DB) (p : process) : process :=
  mkProcess s (waiters p) (legs p) (queued p) (idem p) (stages p).
Definition with_waiters (ws : Waiters.state) (p : process) : process :=
  mkProcess (sys p) ws (legs p) (queued p) (idem p) (stages p).
Definition with_leg (i : nat) (l : leg) (p : process) : process :=
  mkProcess (sys p) (waiters p) (<[i := l]> (legs p)) (queued p) (idem p) (stages p).
Definition with_idem (t : option IDB) (p : process) : process :=
  mkProcess (sys p) (waiters p) (legs p) (queued p) t (stages p).
Definition with_stage (i : nat) (st : stage E) (p : process) : process :=
  mkProcess (sys p) (waiters p) (legs p) (queued p) (idem p) (<[i := st]> (stages p)).
Definition with_hub (h : Hub.Hub DB) (p : process) : process :=
  with_sys (Hub.mkSystem h (Hub.inflight (sys p)) (Hub.results (sys p))) p.

(** The steps of [Waiters], as a function of the label. *)
Definition waiter_exec (s : Waiters.state) (l : Waiters.label) : option Waiters.state :=
  match l with
  | Waiters.LBegin i cmd =>
      match Waiters.callers s !! i with
      | None => Some (Waiters.with_caller (Waiters.get_or_make s (cmd_CommandID cmd)).1 i (Waiters.Sending cmd))
      | Some _ => None
      end
  | Waiters.LSend i err =>
      match Waiters.callers s !! i with
      | Some (Waiters.Sending cmd) =>
          Some (match err with
                | None => Waiters.with_caller s i (Waiters.Sent cmd)
                | Some e => Waiters.with_caller s i (Waiters.Failing cmd e)
                end)
      | _ => None
      end
  | Waiters.LPanic i =>
      match Waiters.callers s !! i with
      | Some (Waiters.Sending cmd) => Some (Waiters.with_caller s i (Waiters.Panicked cmd))
      | _ => None
      end
  | Waiters.LDrop i =>
      match Waiters.callers s !! i with
      | Some (Waiters.Failing cmd e) =>
          Some (Waiters.with_caller (Waiters.delete_pending s (cmd_CommandID cmd)) i (Waiters.Returned cmd (Err e)))
      | _ => None
      end
  | Waiters.LLookup i =>
      match Waiters.callers s !! i with
      | Some (Waiters.Sent cmd) =>
          let '(s, ch) := Waiters.get_or_make s (cmd_CommandID cmd) in Some (Waiters.with_caller s i (Waiters.Waiting cmd ch))
      | _ => None
      end
  | Waiters.LReceive i =>
      match Waiters.callers s !! i with
      | Some (Waiters.Waiting cmd ch) =>
          match Waiters.buffers s !! ch with
          | Some (Some r) =>
              Some (Waiters.with_caller (Waiters.with_buffer s ch None) i (Waiters.Leaving cmd r))
          | _ => None
          end
      | _ => None
      end
  | Waiters.LTimeout i now =>
      match Waiters.callers s !! i with
      | Some (Waiters.Waiting cmd _) =>
          Some (Waiters.with_caller s i (Waiters.Leaving cmd (Waiters.timeout_result duration_text cmd now)))
      | _ => None
      end
  | Waiters.LReturn i =>
      match Waiters.callers s !! i with
      | Some (Waiters.Leaving cmd r) =>
          Some (Waiters.with_caller (Waiters.delete_pending s (cmd_CommandID cmd)) i (Waiters.Returned cmd (Ok r)))
      | _ => None
      end
  | Waiters.LFind j now r =>
      match Waiters.delivering s !! j with
      | Some _ => None
      | None =>
          Some (match Waiters.find_waiter s now r with
                | Some x => Waiters.with_delivering s (<[j := x]> (Waiters.delivering s))
                | None => s
                end)
      end
  | Waiters.LOffer j =>
      match Waiters.delivering s !! j with
      | Some (ch, r) => Some (Waiters.with_delivering (Waiters.offer s ch r).1 (delete j (Waiters.delivering s)))
      | None => None
      end
  end.

(** The dispatcher, with the sessions that the tracker has. *)
Definition dispatcher_of (p : process) (sessions : option (list (string * TrackedSession))) : CommandDispatcher DB IDB :=
  mkDispatcher (idem p) (Hub.registry (Hub.hub (sys p))) sessions.
Definition resolve (p : process) (cmd : Command) (sessions : option (list (string * TrackedSession))) :=
  resolveTarget errtext node_order (dispatcher_of p sessions) cmd.

(** [DispatchCommand] up to the table of results: the type, the id and the key. *)
Definition begin_stage (new_uuid : string) (cmd : Command) : stage E :=
  match ParseCommandIntent (cmd_Type cmd) with
  | Err intent => Ended cmd (Failed (unsupported_intent intent))
  | Ok t =>
      if negb (str_empty (cmd_CommandID cmd)) && negb (uuid_parse (cmd_CommandID cmd)) then
        Ended cmd (Failed (invalid_command_id (cmd_CommandID cmd)))
      else
        let cmd := set_id_type (if str_empty (cmd_CommandID cmd) then new_uuid else cmd_CommandID cmd) t cmd in
        if str_empty (cmd_IdempotencyKey cmd) then Resolving cmd None
        else
          match idempotencyHash sha256_hex cmd with
          | Err e => Ended cmd (Failed e)
          | Ok key => Checking cmd key
          end
  end.
(** A result of [dispatchToTarget] is returned, or kept first when there is a key. *)
Definition answered_stage (cmd : Command) (key : option string) (r : CommandResult) : stage E :=
  match key with None => Ended cmd (Answered r) | Some key => Caching cmd key r end.

Inductive process_action :=
  | PHub (a : Hub.action)
  | PRead (i : nat) (now : Time.t) (env : Envelope)
  | POffer (i : nat)
  | PBegin (i : nat) (new_uuid : string) (cmd : Command)
  | PCheck (i : nat) (now : Time.t)
  | PResolve (i : nat) (now : Time.t) (sessions : option (list (string * TrackedSession)))
  | PRegister (i : nat)
  | PFind (i : nat) (now : Time.t)
  | PPush (i : nat)
  | PWait (l : Waiters.label)
  | PReturn (i : nat) (now : Time.t)
  | PCache (i : nat) (now : Time.t).

(** What a caller does between [Send] and its return. *)
Definition after_send (l : Waiters.label) : bool :=
  match l with Waiters.LLookup _ | Waiters.LReceive _ | Waiters.LTimeout _ _ => true | _ => false end.
Definition reads (a : Hub.action) : bool := match a with Hub.AReceive _ _ _ => true | _ => false end.
Definition wait_step (l : Waiters.label) (p : process) : option process :=
  ws ← waiter_exec (waiters p) l; Some (with_waiters ws p).
(** [Send] returns an error. *)
Definition send_fails (i : nat) (e : Hub.send_error) (p : process) : option process :=
  wait_step (Waiters.LSend i (Some (sendtext e))) p.

(** [None]: the step cannot be taken. *)
Definition process_exec (p : process) (x : process_action) : option process :=
  match x with
  | PHub a =>
      if HubFacts.hub_own a && negb (reads a) then
        match Hub.exec upgrade decode_sync decode_auth (sys p) a with Hub.Next s => Some (with_sys s p) | _ => None end
      else None
  | PRead i now env =>
      match Waiters.delivering (waiters p) !! i, Hub.exec upgrade decode_sync decode_auth (sys p) (Hub.AReceive i now env) with
      | None, Hub.Next s =>
          match Waiters.result_in <$> (Hub.handleEnvelope decode_sync decode_auth (Hub.hub (sys p)) i now env).2 with
          | Some (Ok r) => wait_step (Waiters.LFind i now r) (with_sys s p)
          | _ => Some (with_sys s p)
          end
      | _, _ => None
      end
  | POffer i => wait_step (Waiters.LOffer i) p
  | PBegin i new_uuid cmd =>
      match stages p !! i with None => Some (with_stage i (begin_stage new_uuid cmd) p) | Some _ => None end
  | PCheck i now =>
      match stages p !! i with
      | Some (Checking cmd key) =>
          let '(d, cached) := checkIdempotency (dispatcher_of p None) now key in
          Some (with_stage i (match cached with Some r => Ended cmd (Answered r) | None => Resolving cmd (Some key) end)
                  (with_idem (disp_db d) p))
      | _ => None
      end
  | PResolve i now sessions =>
      match stages p !! i with
      | Some (Resolving cmd key) =>
          let '(d, r) := resolve p cmd sessions in
          Some (with_stage i
                  (match r with
                   | Err e => answered_stage cmd key (unresolved cmd now e)
                   | Ok node => Registering cmd key node
                   end)
                  (with_hub (Hub.with_registry (disp_registry d) (Hub.hub (sys p))) p))
      | _ => None
      end
  | PRegister i =>
      match stages p !! i with
      | Some (Registering cmd key node) =>
          p ← wait_step (Waiters.LBegin i cmd) p; Some (with_stage i (InSend cmd key) (with_leg i (Resolved node) p))
      | _ => None
      end
  | PFind i now =>
      match Waiters.callers (waiters p) !! i, legs p !! i with
      | Some (Waiters.Sending cmd), Some (Resolved node) =>
          match Hub.command_message now cmd with
          | Err e => send_fails i e p
          | Ok data =>
              match Hub.send_lookup (Hub.hub (sys p)) node with
              | Err e => send_fails i e p
              | Ok conn => Some (with_leg i (Found node conn data) p)
              end
          end
      | _, _ => None
      end
  | PPush i =>
      match Waiters.callers (waiters p) !! i, legs p !! i with
      | Some (Waiters.Sending cmd), Some (Found node conn data) =>
          match Hub.send_push (Hub.hub (sys p)) node conn data with
          | None => p ← wait_step (Waiters.LPanic i) p; Some (with_stage i (Ended cmd Panics) p)
          | Some (h, Err e) => send_fails i e p
          | Some (h, Ok _) =>
              ws ← waiter_exec (waiters p) (Waiters.LSend i None);
              Some (mkProcess (Hub.mkSystem h (Hub.inflight (sys p)) (Hub.results (sys p))) ws (legs p)
                      (queued p ++ [(i, conn, data)]) (idem p) (stages p))
          end
      | _, _ => None
      end
  | PWait l => if after_send l then wait_step l p else None
  | PReturn i now =>
      match stages p !! i, Waiters.callers (waiters p) !! i with
      | Some (InSend cmd key), Some (Waiters.Leaving _ r) =>
          p ← wait_step (Waiters.LReturn i) p; Some (with_stage i (answered_stage cmd key (completed cmd now r)) p)
      | Some (InSend cmd key), Some (Waiters.Failing _ e) =>
          p ← wait_step (Waiters.LDrop i) p; Some (with_stage i (Ended cmd (Failed (send_failed e))) p)
      | _, _ => None
      end
  | PCache i now =>
      match stages p !! i with
      | Some (Caching cmd key r) =>
          let '(d, kept) := cacheResult (dispatcher_of p None) now key r in
          Some (with_stage i (Ended cmd (match kept with Ok _ => Answered r | Err e => Failed e end))
                  (with_idem (disp_db d) p))
      | _ => None
      end
  end.
Fixpoint process_run (p : process) (l : list process_action) : option process :=
  match l with [] => Some p | x :: l' => p ← process_exec p x; process_run p l' end.

(** A hub that has been set up, with a registry whose nodes are under their own
    ids, and no dispatch begun. *)
Definition fresh_process (p : process) : Prop :=
  HubFacts.idle (sys p) /\ Hub.broadcast (Hub.hub (sys p)) = [] /\ waiters p = Waiters.init /\ legs p = ∅ /\ queued p = [] /\
  stages p = ∅ /\
  forall r, Hub.registry (Hub.hub (sys p)) = Some r -> map_Forall (fun id n => node_ID n = id) (Registry.nodes r).

(** *** What of a process is observed *)
(** The frames a caller has put into queues, and the frames put into a queue. *)
Definition put_by (i : nat) (p : process) : list (nat * string) :=
  (fun x => (x.1.2, x.2)) <$> filter (fun x => x.1.1 = i) (queued p).
Definition queued_for (conn : nat) (p : process) : list string := snd <$> filter (fun x => x.1.2 = conn) (queued p).
(** What the dispatch of the [i]-th caller is told by a step, in the state that the
    step is taken in; and by one of the steps of a run. *)
Definition tells (p : process) (x : process_action) (i : nat) (cmd : Command) (a : told) : Prop :=
  match x, a with
  | PCheck j now, Kept r =>
      j = i /\ exists key, stages p !! i = Some (Checking cmd key) /\ idempotencyHash (E := E) sha256_hex cmd = Ok key /\
        (checkIdempotency (dispatcher_of p None) now key).2 = Some r
  | PResolve j now sessions, Target t =>
      j = i /\ exists key, stages p !! i = Some (Resolving cmd key) /\ (resolve p cmd sessions).2 = t
  | _, _ => False
  end.
Definition told_in (p0 : process) (l : list process_action) (i : nat) (cmd : Command) (a : told) : Prop :=
  exists l1 x l2 p, l = l1 ++ x :: l2 /\ process_run p0 l1 = Some p /\ tells p x i cmd a.
(** The node that the target of a command was resolved to, which is the target's own
    node when it names one. *)
Definition addressed (tells : nat -> Command -> told -> Prop) (i : nat) (cmd : Command) (node : string) : Prop :=
  tells i cmd (Target (Ok node)) /\ (tgt_NodeID (cmd_Target cmd) <> ε -> node = tgt_NodeID (cmd_Target cmd)).
(** The frame of the command was put once into a queue, of a connection of that node. *)
Definition reached_agent (p0 : process) (l : list process_action) (p : process) (i : nat) (cmd : Command) : Prop :=
  exists conn data c now, put_by i p = [(conn, data)] /\ Hub.command_message now cmd = Ok data /\
    Hub.conns (Hub.hub (sys p)) !! conn = Some c /\ addressed (told_in p0 l) i cmd (ac_agentID c).
(** What keeping a result can fail with. *)
Definition keeping_failed (e : dispatch_error E) : bool :=
  match e with idempotency_unavailable | marshal_result_failed _ | cache_write_failed _ => true | _ => false end.
End Defs.
End Running.

(** ** Lemmas *)
Module RunningFacts.
Import Dispatch Registry Running.

(** *** Nodes under their own ids *)
Section Ids.
Context {DB E : Type} `{KT : KeyedTable DB NodeRow E} `{!KeyedTableLaws DB NodeRow E} `{TT : TimeTextLaws}.
Context (decode_sync : string -> res string CredentialSyncPayload)
  (decode_auth : string -> res string (list AuthStateReport)).
Implicit Types r : NodeRegistry DB.

Definition own_ids r : Prop := map_Forall (fun id n => node_ID n = id) (nodes r).
Lemma own_ids_lookup r id n : own_ids r -> lookup_or_read r id = Ok n -> node_ID n = id.
Proof.
  intros Hr. unfold lookup_or_read. destruct (nodes r !! id) as [m|] eqn:En; [intros [= <-]; by apply (Hr id)|].
  intros (_ & _ & _ & ?)%RegistryFacts.readNode_ok. done.
Qed.
Lemma own_ids_closed e (good : string -> Prop) : HubFacts.closed_under_hub decode_sync decode_auth own_ids e good.
Proof.
  split.
  - intros r now id Hr. unfold Register. cbn [node_ID node_Hostname]. destruct (str_empty id); [done|].
    cbv zeta. destruct (upsertNode _ _); [|done]. apply map_Forall_insert_2; [|done]. by destruct (Time.IsZero _).
  - intros r now id Hr. unfold MarkOffline. destruct (lookup_or_read r id) as [n|] eqn:En; [|done]. simpl.
    destruct (upsertNode _ _); [|done]. apply map_Forall_insert_2; [|done]. exact (own_ids_lookup r _ n Hr En).
  - intros r now id payload Hr. unfold HandleAuthStateMessage. destruct (str_empty id); [done|].
    destruct (decode_auth payload) as [[|rep reps]|]; [done| |done]. unfold UpdateAuthState.
    destruct (lookup_or_read r id) as [n|] eqn:En; [|done]. apply map_Forall_insert_2; [|done]. exact (own_ids_lookup r _ n Hr En).
  - intros r payload Hr _. unfold HandleCredentialSyncMessage. destruct (decode_sync payload) as [p|]; [|done].
    destruct (str_empty _); [done|]. unfold ReconcileCredentialVersion.
    destruct (lookup_or_read r _) as [n|] eqn:En; [|done]. apply map_Forall_insert_2; [|done]. exact (own_ids_lookup r _ n Hr En).
Qed.
Lemma own_ids_GetNode r id :
  own_ids r -> own_ids (GetNode r id).1 /\ forall n, (GetNode r id).2 = Ok n -> node_ID n = id.
Proof.
  intros Hr. unfold GetNode. destruct (nodes r !! id) as [m|] eqn:En; [split; [done|]; intros n [= <-]; by apply (Hr id)|].
  destruct (readNode (db r) id) as [m|] eqn:Er; [|done]. apply RegistryFacts.readNode_ok in Er as (_ & _ & _ & Hid).
  split; [by apply map_Forall_insert_2 | by intros n [= <-]].
Qed.
Lemma own_ids_session_node project sessions r : own_ids r -> own_ids (session_node r project sessions).1.
Proof.
  revert r. induction sessions as [|[k s] sessions IH]; intros r Hr; [done|]. simpl. destruct (negb _); [by apply IH|].
  pose proof (own_ids_GetNode r (ses_NodeID s) Hr) as [Hg _]. destruct (GetNode r (ses_NodeID s)) as [r1 [n|]]; [|by apply IH].
  destruct (String.eqb _ _); [done | by apply IH].
Qed.

Context (errtext : registry_error E -> string) (node_order : NodeRegistry DB -> list (string * NodeEntry)).
Lemma resolve_ids {IDB} (d : CommandDispatcher DB IDB) cmd d' result :
  (forall r, disp_registry d = Some r -> own_ids r) ->
  resolveTarget errtext node_order d cmd = (d', result) ->
  (forall r, disp_registry d' = Some r -> own_ids r) /\
  forall node, result = Ok node -> tgt_NodeID (cmd_Target cmd) <> ε -> node = tgt_NodeID (cmd_Target cmd).
Proof.
  unfold resolveTarget. intros Hd. destruct (disp_registry d) as [r|] eqn:Er; [|by intros [= <- <-]; rewrite Er].
  specialize (Hd r eq_refl). destruct (str_empty (tgt_NodeID (cmd_Target cmd))) eqn:Ee; cbn [negb].
  - assert (tgt_NodeID (cmd_Target cmd) = ε) as -> by by apply str_empty_true.
    destruct (str_empty (tgt_Project _)); [intros [= <- <-]; rewrite Er; split; [by intros ? [= <-] | by intros ? [=]]|].
    assert (Hf : own_ids (match disp_sessions d with Some l => session_node r (tgt_Project (cmd_Target cmd)) l | None => (r, None) end).1).
    { destruct (disp_sessions d); [by apply own_ids_session_node | done]. }
    destruct (match disp_sessions d with Some _ => _ | None => _ end) as [r1 found]. intros [= <- <-].
    split; [by intros ? [= <-]|]. intros node _. by intros [].
  - destruct (own_ids_GetNode r (tgt_NodeID (cmd_Target cmd)) Hd) as [Hg Hid].
    destruct (GetNode r _) as [r1 [n|err]].
    + intros [= <- <-]. split; [by intros ? [= <-]|]. intros node. case_match; [done|]. intros [= <-] _. by apply Hid.
    + destruct err; intros [= <- <-]; (split; [by intros ? [= <-] | by intros ? [=]]).
Qed.
End Ids.
(** *** Where every caller stands *)
Section Standing.
Context (duration_text : Z -> string).
Import Waiters.

Definition its_command (c : caller) : Command :=
  match c with
  | Sending cmd | Sent cmd | Waiting cmd _ | Leaving cmd _ | Failing cmd _ | Returned cmd _ | Panicked cmd => cmd
  end.
(** Whether the command was handed over; whether its caller is inside [sendCommand]. *)
Definition handed (c : caller) : bool :=
  match c with Sending _ | Failing _ _ | Returned _ (Err _) | Panicked _ => false | _ => true end.
Definition inside (c : caller) : bool := match c with Returned _ _ | Panicked _ => false | _ => true end.
Definition standing (s : state) (i : nat) : option (Command * bool) :=
  (fun c => (its_command c, handed c)) <$> callers s !! i.

Lemma waiter_exec_step s l s' : waiter_exec duration_text s l = Some s' -> step duration_text s l s'.
Proof.
  destruct l as [i cmd|i err|i|i|i|i|i now|i|j now r|j]; simpl.
  1: { destruct (callers s !! i) eqn:Ec; [done|]. intros [= <-]. by constructor. }
  8: { destruct (delivering s !! j) eqn:Ed; [done|]. intros [= <-]. by constructor. }
  8: { destruct (delivering s !! j) as [[ch r]|] eqn:Ed; [|done]. intros [= <-]. by constructor. }
  all: destruct (callers s !! i) as [[cmd|cmd|cmd ch|cmd r|cmd e|cmd res|cmd]|] eqn:Ec; try done.
  - intros [= <-]. destruct err; by constructor.
  - intros [= <-]. by constructor.
  - intros [= <-]. by constructor.
  - destruct (get_or_make s (cmd_CommandID cmd)) as [s1 ch] eqn:Eg. intros [= <-]. by econstructor.
  - destruct (buffers s !! ch) as [[r|]|] eqn:Eb; try done. intros [= <-]. by econstructor.
  - intros [= <-]. by econstructor.
  - intros [= <-]. by constructor.
Qed.
Lemma get_or_make_callers s id : callers (get_or_make s id).1 = callers s.
Proof. unfold get_or_make. by destruct (pending s !! id). Qed.

(** Which callers a step moves, and from where to where. *)
Definition moves (l : label) (c c' : caller) : Prop :=
  match l with
  | LSend _ None => exists cmd, c = Sending cmd /\ c' = Sent cmd
  | LSend _ (Some e) => exists cmd, c = Sending cmd /\ c' = Failing cmd e
  | LPanic _ => exists cmd, c = Sending cmd /\ c' = Panicked cmd
  | LDrop _ => exists cmd e, c = Failing cmd e /\ c' = Returned cmd (Err e)
  | LReturn _ => exists cmd r, c = Leaving cmd r /\ c' = Returned cmd (Ok r)
  | _ => its_command c' = its_command c /\ handed c = true /\ handed c' = true /\ inside c = true /\ inside c' = true
  end.
Lemma waiter_moves s l s' : waiter_exec duration_text s l = Some s' ->
  match l with
  | LBegin i cmd => callers s !! i = None /\ callers s' = <[i := Sending cmd]> (callers s)
  | LFind _ _ _ | LOffer _ => callers s' = callers s
  | LSend i _ | LPanic i | LDrop i | LLookup i | LReceive i | LTimeout i _ | LReturn i =>
      exists c c', callers s !! i = Some c /\ callers s' = <[i := c']> (callers s) /\ moves l c c'
  end.
Proof.
  intros Hs%waiter_exec_step.
  destruct Hs as [s i cmd Hn|s i cmd Hc|s i cmd e Hc|s i cmd Hc|s i cmd e Hc|s i cmd s' ch Hc Hg
    |s i cmd ch r Hc Hb|s i cmd ch now Hc|s i cmd r Hc|s j now r Hj|s j ch r Hj].
  - split; [done|]. simpl. by rewrite get_or_make_callers.
  - exists (Sending cmd), (Sent cmd). split_and!; [done | done | by exists cmd].
  - exists (Sending cmd), (Failing cmd e). split_and!; [done | done | by exists cmd].
  - exists (Sending cmd), (Panicked cmd). split_and!; [done | done | by exists cmd].
  - exists (Failing cmd e), (Returned cmd (Err e)). split_and!; [done | done | by exists cmd, e].
  - exists (Sent cmd), (Waiting cmd ch). split_and!; [done | | by simpl].
    simpl. apply (f_equal fst) in Hg. simpl in Hg. by rewrite <- Hg, get_or_make_callers.
  - exists (Waiting cmd ch), (Leaving cmd r). by split_and!.
  - eexists (Waiting cmd ch), (Leaving cmd _). by split_and!.
  - exists (Leaving cmd r), (Returned cmd (Ok r)). split_and!; [done | done | by exists cmd, r].
  - by destruct (find_waiter s now r).
  - unfold offer. simpl. by destruct (buffers s !! ch) as [[|]|].
Qed.

Lemma standing_callers s s' : callers s' = callers s -> forall i, standing s' i = standing s i.
Proof. intros Hc i. unfold standing. by rewrite Hc. Qed.
Lemma standing_insert s s' c i j : callers s' = <[i := c]> (callers s) ->
  standing s' j = if decide (i = j) then Some (its_command c, handed c) else standing s j.
Proof.
  intros Hc. unfold standing. rewrite Hc.
  destruct (decide (i = j)) as [<-|]; [by rewrite lookup_insert_eq | by rewrite lookup_insert_ne].
Qed.
Lemma standing_keep s s' i c c' : callers s !! i = Some c -> callers s' = <[i := c']> (callers s) ->
  its_command c' = its_command c -> handed c' = handed c -> forall j, standing s' j = standing s j.
Proof.
  intros Hi Hc Hcmd Hh j. rewrite (standing_insert s s' c' i j Hc). destruct (decide (i = j)) as [<-|]; [|done].
  unfold standing. by rewrite Hi, Hcmd, Hh.
Qed.
End Standing.

(** *** What is in the queues, and whose it is *)
Section Routes.
Context {DB : Type} `{TT : TimeText} `{JC : Json Command} `{JE : Json Envelope}.
(** Who was told what. *)
Implicit Types (tells : nat -> Command -> told -> Prop).
Implicit Types (h : Hub.Hub DB) (lg : gmap nat leg) (q : list (nat * nat * string)) (st : nat -> option (Command * bool)).

Definition found_ok tells h (i : nat) (cmd : Command) (l : leg) : Prop :=
  match l with
  | Resolved node => addressed tells i cmd node
  | Found node conn data =>
      addressed tells i cmd node /\ (exists now, Hub.command_message now cmd = Ok data) /\
      exists c, Hub.conns h !! conn = Some c /\ ac_agentID c = node
  end.
Definition put_of (i : nat) q : list (nat * string) := (fun x => (x.1.2, x.2)) <$> filter (fun x => x.1.1 = i) q.
Definition frames_of (conn : nat) q : list string := snd <$> filter (fun x => x.1.2 = conn) q.
Record routes_ok tells h st lg q : Prop := {
  ro_leg i l : lg !! i = Some l -> exists cmd b, st i = Some (cmd, b) /\ found_ok tells h i cmd l;
  ro_put i : match st i with
             | Some (_, true) => exists node conn data, lg !! i = Some (Found node conn data) /\ put_of i q = [(conn, data)]
             | _ => put_of i q = []
             end;
  ro_queue conn c : Hub.conns h !! conn = Some c -> ac_send c `suffix_of` frames_of conn q }.

Lemma routes_st tells h st st' lg q : (forall i, st' i = st i) -> routes_ok tells h st lg q -> routes_ok tells h st' lg q.
Proof.
  intros Hst [Hl Hp Hq]. split; [|intros i; rewrite Hst; apply Hp | done].
  intros i l Hi. rewrite Hst. by apply Hl.
Qed.
Lemma routes_more tells tells' h st lg q :
  (forall i cmd a, tells i cmd a -> tells' i cmd a) -> routes_ok tells h st lg q -> routes_ok tells' h st lg q.
Proof.
  intros Ht [Hl Hp Hq]. split; [|done..]. intros i l (cmd & b & Hs & Hf)%Hl. exists cmd, b. split; [done|].
  destruct l as [node|node conn data]; simpl in *; unfold addressed in *; [|destruct Hf as [Hf Hc]; split; [|done]];
    destruct Hf; auto.
Qed.
Lemma routes_drained tells h h' st lg q : HubFacts.drained h h' -> routes_ok tells h st lg q -> routes_ok tells h' st lg q.
Proof.
  intros (_ & Hk & Hn) [Hl Hp Hq]. split; [|done|].
  - intros i l (cmd & b & Hs & Hf)%Hl. exists cmd, b. split; [done|]. destruct l as [|node conn data]; [done|].
    destruct Hf as (Ha & Hd & c & Hc & Hid). split_and!; [done..|]. destruct (Hk conn c Hc) as (c' & ? & ? & _). exists c'.
    split; [done | congruence].
  - intros conn c' Hc'. destruct (Hub.conns h !! conn) as [c|] eqn:Ec.
    + destruct (Hk conn c Ec) as (c1 & Hc1 & _ & Hs & _). simplify_eq. etrans; [exact Hs | by apply Hq].
    + rewrite (Hn conn c' Ec Hc'). apply suffix_nil.
Qed.
Lemma routes_leg tells h st lg q i l cmd b : st i = Some (cmd, b) -> (b = true -> False) -> found_ok tells h i cmd l ->
  routes_ok tells h st lg q -> routes_ok tells h st (<[i := l]> lg) q.
Proof.
  intros Hs Hb Hf [Hl Hp Hq]. split; [| |done].
  - intros j l' [[<- <-]|[_ ?]]%lookup_insert_Some; [by exists cmd, b | by apply Hl].
  - intros j. specialize (Hp j). destruct (decide (i = j)) as [<-|].
    + rewrite Hs in Hp |- *. destruct b; [by destruct Hb | done].
    + by rewrite lookup_insert_ne.
Qed.
Lemma put_of_app i q x : put_of i (q ++ [x]) = put_of i q ++ if decide (x.1.1 = i) then [(x.1.2, x.2)] else [].
Proof. unfold put_of. rewrite filter_app, fmap_app. f_equal. rewrite filter_cons. by case_decide. Qed.
Lemma frames_of_app conn q x : frames_of conn (q ++ [x]) = frames_of conn q ++ if decide (x.1.2 = conn) then [x.2] else [].
Proof. unfold frames_of. rewrite filter_app, fmap_app. f_equal. rewrite filter_cons. by case_decide. Qed.
Lemma routes_push tells h st st' lg q i node conn data cmd c :
  lg !! i = Some (Found node conn data) -> st i = Some (cmd, false) ->
  (forall j, st' j = if decide (i = j) then Some (cmd, true) else st j) -> Hub.conns h !! conn = Some c ->
  routes_ok tells h st lg q ->
  routes_ok tells (Hub.upd conn (Hub.set_send (ac_send c ++ [data])) h) st' lg (q ++ [(i, conn, data)]).
Proof.
  intros Hi Hs Hst Hc [Hl Hp Hq]. split.
  - intros j l Hj. destruct (Hl j l Hj) as (cmd' & b & Hb & Hf).
    assert (exists b', st' j = Some (cmd', b')) as [b' Hb'].
    { rewrite Hst. destruct (decide (i = j)) as [<-|]; [|by eexists]. exists true. congruence. }
    exists cmd', b'. split; [done|]. destruct l as [|n k d]; [done|]. destruct Hf as (Ha & Hd & c1 & Hc1 & Hid).
    split_and!; [done..|]. simpl. destruct (decide (conn = k)) as [<-|].
    + eexists. rewrite lookup_alter_eq, Hc1. by split.
    + exists c1. by rewrite lookup_alter_ne.
  - intros j. specialize (Hp j). rewrite Hst, put_of_app. simpl. destruct (decide (i = j)) as [<-|].
    + rewrite Hs in Hp. rewrite Hp. by exists node, conn, data.
    + by rewrite app_nil_r.
  - intros k c' Hk. rewrite frames_of_app. simpl in *. destruct (decide (conn = k)) as [<-|].
    + rewrite lookup_alter_eq, Hc in Hk. injection Hk as <-. simpl. destruct (Hq _ _ Hc) as [pre ->]. exists pre. by rewrite app_assoc.
    + rewrite lookup_alter_ne in Hk by done. rewrite app_nil_r. by apply Hq.
Qed.
End Routes.
(** *** How far the dispatches are *)
Section Stages.
Context {DB E : Type} `{JC : Json canonical}.
Context (sha256_hex : string -> string).
Implicit Types (h : Hub.Hub DB) (cs : gmap nat Waiters.caller) (lg : gmap nat leg) (ss : gmap nat (stage E)).
Implicit Types (tells : nat -> Command -> told -> Prop).

Definition keyed (cmd : Command) (key : option string) : Prop :=
  match key with
  | Some key => cmd_IdempotencyKey cmd <> ε /\ idempotencyHash (E := E) sha256_hex cmd = Ok key
  | None => True
  end.
(** A result that [dispatchToTarget] came to. *)
Definition came tells cs (i : nat) (cmd : Command) (r : CommandResult) : Prop :=
  (cs !! i = None /\ exists now e, r = unresolved cmd now e /\ tells i cmd (Target (Err e))) \/
  (exists r0 now, cs !! i = Some (Waiters.Returned cmd (Ok r0)) /\ r = completed cmd now r0).
Definition stage_ok tells h cs lg (i : nat) (st : stage E) : Prop :=
  match st with
  | Checking cmd key => cs !! i = None /\ keyed cmd (Some key)
  | Resolving cmd key => cs !! i = None /\ keyed cmd key
  | Registering cmd key node => cs !! i = None /\ keyed cmd key /\ addressed tells i cmd node
  | InSend cmd key => keyed cmd key /\ exists c, cs !! i = Some c /\ its_command c = cmd /\ inside c = true
  | Caching cmd key r => keyed cmd (Some key) /\ came tells cs i cmd r
  | Ended cmd (Answered r) =>
      came tells cs i cmd r \/ (cs !! i = None /\ cmd_IdempotencyKey cmd <> ε /\ tells i cmd (Kept r))
  | Ended cmd (Failed e) =>
      (cs !! i = None \/ exists e', cs !! i = Some (Waiters.Returned cmd (Err e'))) \/
      (cmd_IdempotencyKey cmd <> ε /\ keeping_failed e = true /\ exists r, came tells cs i cmd r)
  | Ended cmd Panics =>
      cs !! i = Some (Waiters.Panicked cmd) /\
      exists node conn data c, lg !! i = Some (Found node conn data) /\ Hub.conns h !! conn = Some c /\ ac_closed c = true
  end.
Record stages_ok tells h cs lg ss : Prop := {
  so_stage i st : ss !! i = Some st -> stage_ok tells h cs lg i st;
  so_none i : ss !! i = None -> cs !! i = None }.

Lemma stage_more tells tells' h h' cs lg i st :
  (forall i cmd a, tells i cmd a -> tells' i cmd a) ->
  (forall conn c, Hub.conns h !! conn = Some c -> ac_closed c = true ->
     exists c', Hub.conns h' !! conn = Some c' /\ ac_closed c' = true) ->
  stage_ok tells h cs lg i st -> stage_ok tells' h' cs lg i st.
Proof.
  intros Ht Hh. assert (forall cmd r, came tells cs i cmd r -> came tells' cs i cmd r) as Hcame.
  { intros cmd r [(? & now & e & ? & ?)|?]; [left | by right]. split; [done|]. exists now, e. auto. }
  destruct st as [| |cmd key node| |cmd key r|cmd [r|e|]]; simpl; unfold addressed; try done.
  - intros (? & ? & ? & ?). auto.
  - intros [? ?]. auto.
  - intros [?|(? & ? & ?)]; auto.
  - intros [?|(? & ? & r & ?)]; eauto 6.
  - intros (? & node & conn & data & c & Hl & Hc & Hcl). split; [done|].
    destruct (Hh conn c Hc Hcl) as (c' & ? & ?). by exists node, conn, data, c'.
Qed.
Lemma stages_more tells tells' h h' cs lg ss :
  (forall i cmd a, tells i cmd a -> tells' i cmd a) ->
  (forall conn c, Hub.conns h !! conn = Some c -> ac_closed c = true ->
     exists c', Hub.conns h' !! conn = Some c' /\ ac_closed c' = true) ->
  stages_ok tells h cs lg ss -> stages_ok tells' h' cs lg ss.
Proof. intros Hr Hh [Hs Hn]. split; [|done]. intros i st Hi. eapply stage_more; [done | done | by apply Hs]. Qed.
Lemma stages_drained tells h h' cs lg ss :
  HubFacts.drained h h' -> stages_ok tells h cs lg ss -> stages_ok tells h' cs lg ss.
Proof.
  intros (_ & Hk & _). apply stages_more; [done|]. intros conn c Hc Hcl.
  destruct (Hk conn c Hc) as (c' & ? & _ & _ & ?). exists c'. auto.
Qed.

Lemma stage_at tells h cs cs' lg lg' i st :
  cs' !! i = cs !! i -> lg' !! i = lg !! i -> stage_ok tells h cs lg i st -> stage_ok tells h cs' lg' i st.
Proof. intros Hc Hl. unfold stage_ok, came. by rewrite Hc, Hl. Qed.
(** One dispatch goes on, with its caller and its leg. *)
Lemma stages_set tells h cs cs' lg lg' ss i st :
  (forall j, j <> i -> cs' !! j = cs !! j) -> (forall j, j <> i -> lg' !! j = lg !! j) ->
  stage_ok tells h cs' lg' i st -> stages_ok tells h cs lg ss -> stages_ok tells h cs' lg' (<[i := st]> ss).
Proof.
  intros Hc Hl Hst [Hs Hn]. split.
  - intros j st' [[<- <-]|[Hne Hj]]%lookup_insert_Some; [done|].
    apply (stage_at _ _ cs _ lg); [by apply Hc | by apply Hl | by apply Hs].
  - intros j [Hj Hne]%lookup_insert_None. rewrite Hc by done. by apply Hn.
Qed.
(** A caller inside [sendCommand] moves and stays there. *)
Lemma stages_inside tells h cs cs' lg lg' ss i c c' :
  cs !! i = Some c -> inside c = true -> cs' !! i = Some c' -> inside c' = true -> its_command c' = its_command c ->
  (forall j, j <> i -> cs' !! j = cs !! j) -> (forall j, j <> i -> lg' !! j = lg !! j) ->
  stages_ok tells h cs lg ss -> stages_ok tells h cs' lg' ss.
Proof.
  intros Hi Hin Hi' Hin' Hcmd Hc Hl [Hs Hn]. split.
  - intros j st Hj. specialize (Hs j st Hj). destruct (decide (j = i)) as [->|Hne].
    2:{ apply (stage_at _ _ cs _ lg); [by apply Hc | by apply Hl | done]. }
    destruct st as [| | | |cmd key r|cmd [r|e|]]; simpl in Hs |- *; unfold came in Hs; rewrite Hi in Hs.
    + by destruct Hs.
    + by destruct Hs.
    + by destruct Hs as (? & _).
    + destruct Hs as (Hk & c0 & [= <-] & Hc0 & _). split; [done|]. exists c'. split_and!; [done | congruence | done].
    + destruct Hs as [_ [[? _]|(r0 & now & [= ->] & _)]]; done.
    + destruct Hs as [[[? _]|(r0 & now & [= ->] & _)]|[? _]]; done.
    + destruct Hs as [[?|[e' [= ->]]]|(_ & _ & r & [[? _]|(r0 & now & [= ->] & _)])]; done.
    + destruct Hs as [[= ->] _]. done.
  - intros j Hj. destruct (decide (j = i)) as [->|Hne]; [|rewrite Hc by done; by apply Hn].
    rewrite (Hn i Hj) in Hi. done.
Qed.
End Stages.

(** *** The process *)
Section Process.
Context {DB IDB E : Type} `{KT : KeyedTable DB NodeRow E} `{!KeyedTableLaws DB NodeRow E} `{TT : TimeTextLaws}.
Context `{IT : KeyedTable IDB IdemRow E} `{!KeyedDelete IDB E}.
Context `{JC : Json Command} `{JE : Json Envelope} `{JR : Json CommandResult} `{JK : Json canonical}.
Context (upgrade : Request -> bool -> res string ())
  (decode_sync : string -> res string CredentialSyncPayload)
  (decode_auth : string -> res string (list AuthStateReport)).
Context (uuid_parse : string -> bool) (sha256_hex : string -> string).
Context (errtext : registry_error E -> string) (sendtext : Hub.send_error -> string) (duration_text : Z -> string).
Context (node_order : NodeRegistry DB -> list (string * NodeEntry)).
Notation process := (process DB IDB E).
Notation process_exec := (process_exec (DB := DB) (IDB := IDB) (E := E) upgrade decode_sync decode_auth uuid_parse sha256_hex errtext sendtext duration_text node_order).
Notation process_run := (process_run (DB := DB) (IDB := IDB) (E := E) upgrade decode_sync decode_auth uuid_parse sha256_hex errtext sendtext duration_text node_order).
Notation stages_ok := (stages_ok sha256_hex).
Notation stage_ok := (stage_ok sha256_hex).
Notation told_at := (told_in (DB := DB) (IDB := IDB) (E := E) upgrade decode_sync decode_auth uuid_parse sha256_hex errtext sendtext duration_text node_order).
Notation tells_at := (tells (DB := DB) (IDB := IDB) (E := E) sha256_hex errtext node_order).
Implicit Types (p : process) (tells : nat -> Command -> told -> Prop).

(** What the dispatcher was brought came in envelopes that the hub has read. *)
Definition trail_ok (results : list Envelope) (ws : Waiters.state) : Prop :=
  exists ls, Waiters.reached duration_text ls ws /\
    forall j now r, Waiters.LFind j now r ∈ ls -> exists env, env ∈ results /\ Waiters.result_in env = Ok r.
Record process_ok tells (e : Z) p : Prop := {
  po_sys : HubFacts.sys_ok (sys p);
  po_quiet : Hub.broadcast (Hub.hub (sys p)) = [];
  po_ids : HubFacts.hub_keeps own_ids e (Hub.hub (sys p));
  po_trail : trail_ok (Hub.results (sys p)) (waiters p);
  po_routes : routes_ok tells (Hub.hub (sys p)) (standing (waiters p)) (legs p) (queued p);
  po_stages : stages_ok tells (Hub.hub (sys p)) (Waiters.callers (waiters p)) (legs p) (stages p) }.

Lemma trail_more l l' ws : l ⊆ l' -> trail_ok l ws -> trail_ok l' ws.
Proof. intros Hl (ls & Hr & Hb). exists ls. split; [done|]. intros j now r (env & ? & ?)%Hb. exists env. eauto. Qed.
Lemma trail_step l ws lb ws' : waiter_exec duration_text ws lb = Some ws' ->
  (forall j now r, lb = Waiters.LFind j now r -> exists env, env ∈ l /\ Waiters.result_in env = Ok r) ->
  trail_ok l ws -> trail_ok l ws'.
Proof.
  intros Hx Hlb (ls & Hr & Hb). exists (ls ++ [lb]). split.
  - econstructor; [done|]. by apply (waiter_exec_step duration_text).
  - intros j now r [?|Heq%list_elem_of_singleton]%elem_of_app; [by eapply Hb | by eapply Hlb].
Qed.
Lemma more_told tells tells' e p :
  (forall i cmd a, tells i cmd a -> tells' i cmd a) -> process_ok tells e p -> process_ok tells' e p.
Proof. intros Hm [? ? ? ? Hr Hs]. split; try done; [by eapply routes_more | eapply stages_more; [exact Hm | by eauto | done]]. Qed.

Lemma exec_results s a s' :
  Hub.exec upgrade decode_sync decode_auth s a = Hub.Next s' -> reads a = false -> HubFacts.hub_own a = true ->
  Hub.results s' = Hub.results s.
Proof.
  destruct a; try done; cbn [Hub.exec]; intros Hx _ _.
  1: destruct (Hub.ServeWS _ _ _ _); [by injection Hx as <-..|].
  all: repeat match type of Hx with
       | Hub.when _ _ = _ => apply HubFacts.when_Next in Hx as [_ Hx]
       | match ?x with _ => _ end = _ => destruct x; try done
       end; unfold Hub.after in Hx; repeat case_match; by simplify_eq.
Qed.
Lemma read_results s i now env s' :
  Hub.exec upgrade decode_sync decode_auth s (Hub.AReceive i now env) = Hub.Next s' ->
  Hub.results s' = Hub.results s ++ option_list (Hub.handleEnvelope decode_sync decode_auth (Hub.hub s) i now env).2.
Proof.
  cbn [Hub.exec]. intros [_ Hx]%HubFacts.when_Next. destruct (Hub.handleEnvelope _ _ _ _ _ _) as [h r]. by injection Hx as <-.
Qed.
(** A step of the hub; what it has read grows. *)
Lemma hub_step_ok tells e p a s :
  HubFacts.hub_own a = true -> process_ok tells e p ->
  Hub.exec upgrade decode_sync decode_auth (sys p) a = Hub.Next s -> Hub.results (sys p) ⊆ Hub.results s ->
  process_ok tells e (with_sys s p).
Proof.
  intros Ha [Hs Hq Hi Ht Hr Hst] Hx Hres. pose proof (HubFacts.exec_drained _ _ _ _ _ _ Hq Ha Hx) as Hd. split.
  - pose proof (HubFacts.exec_fine upgrade decode_sync decode_auth (sys p) a Hs) as Hf. by rewrite Hx in Hf.
  - destruct Hd as [Hb _]. simpl. congruence.
  - refine (HubFacts.exec_keeps upgrade decode_sync decode_auth own_ids e (fun _ => True) _ _ a _ Hi _ Hx);
      [by apply own_ids_closed | by destruct a].
  - by eapply trail_more.
  - by eapply routes_drained.
  - by eapply stages_drained.
Qed.
(** A delivery leaves the callers where they are. *)
Lemma delivery_ok tells e p lb p' :
  process_ok tells e p -> wait_step duration_text lb p = Some p' ->
  match lb with
  | Waiters.LFind j now r => exists env, env ∈ Hub.results (sys p) /\ Waiters.result_in env = Ok r
  | Waiters.LOffer _ => True
  | _ => False
  end -> process_ok tells e p'.
Proof.
  intros [Hs Hq Hi Ht Hr Hst] Hx Hlb. unfold wait_step in Hx.
  destruct (waiter_exec duration_text (waiters p) lb) as [ws|] eqn:Hw; [|done]. injection Hx as <-.
  assert (Waiters.callers ws = Waiters.callers (waiters p)) as Hc.
  { apply (waiter_moves duration_text) in Hw. by destruct lb. }
  split; simpl; try done.
  - eapply trail_step; [exact Hw | | done]. intros j now r ->. exact Hlb.
  - eapply routes_st; [|exact Hr]. by apply standing_callers.
  - by rewrite Hc.
Qed.
(** A step of a caller, with its stage; [st] is where it leaves its dispatch. *)
Lemma caller_ok tells e p lb ws i c c' :
  process_ok tells e p -> waiter_exec duration_text (waiters p) lb = Some ws ->
  (forall j now r, lb <> Waiters.LFind j now r) ->
  Waiters.callers (waiters p) !! i = Some c -> Waiters.callers ws = <[i := c']> (Waiters.callers (waiters p)) ->
  its_command c' = its_command c -> handed c' = handed c ->
  (inside c = true -> inside c' = true -> process_ok tells e (with_waiters ws p)) /\
  forall st, stage_ok tells (Hub.hub (sys p)) (Waiters.callers ws) (legs p) i st ->
    process_ok tells e (with_stage i st (with_waiters ws p)).
Proof.
  intros [Hs Hq Hi Ht Hr Hst] Hx Hlb Hc Hws Hcmd Hh.
  assert (trail_ok (Hub.results (sys p)) ws) as Ht' by (eapply trail_step; [exact Hx | by intros j now r ?%Hlb | done]).
  assert (routes_ok tells (Hub.hub (sys p)) (standing ws) (legs p) (queued p)) as Hr'
    by (eapply routes_st; [by apply (standing_keep (waiters p) ws i c c') | done]).
  assert (forall j, j <> i -> Waiters.callers ws !! j = Waiters.callers (waiters p) !! j) as Hother
    by (intros j Hne; by rewrite Hws, lookup_insert_ne).
  split.
  - intros Hin Hin'. split; try done. apply (stages_inside _ _ _ (Waiters.callers (waiters p)) _ (legs p) _ _ i c c'); try done.
    simpl. rewrite Hws. apply lookup_insert_eq.
  - intros st Hst'. split; try done. by apply (stages_set _ _ _ (Waiters.callers (waiters p)) _ (legs p)).
Qed.
Lemma wait_ok tells e p lb p' :
  after_send lb = true -> process_ok tells e p -> wait_step duration_text lb p = Some p' -> process_ok tells e p'.
Proof.
  intros Ha Hok Hx. unfold wait_step in Hx. destruct (waiter_exec duration_text (waiters p) lb) as [ws|] eqn:Hw; [|done].
  injection Hx as <-. pose proof (waiter_moves duration_text _ _ _ Hw) as Hm.
  destruct lb; try done; destruct Hm as (c & c' & Hc & Hws & Hcmd & Hh & Hh' & Hin & Hin');
    (eapply (proj1 (caller_ok tells e p _ ws _ c c' Hok Hw ltac:(done) Hc Hws Hcmd ltac:(congruence))); done).
Qed.
Lemma send_fails_ok tells e p i err p' :
  process_ok tells e p -> send_fails sendtext duration_text i err p = Some p' -> process_ok tells e p'.
Proof.
  intros Hok Hx. unfold send_fails, wait_step in Hx. destruct (waiter_exec _ _ _) as [ws|] eqn:Hw; [|done].
  injection Hx as <-. pose proof (waiter_moves duration_text _ _ _ Hw) as (c & c' & Hc & Hws & cmd & -> & ->).
  by apply (proj1 (caller_ok tells e p _ ws i _ _ Hok Hw ltac:(done) Hc Hws eq_refl eq_refl)).
Qed.
Lemma read_ok tells e p i now env p' :
  process_ok tells e p -> process_exec p (PRead i now env) = Some p' -> process_ok tells e p'.
Proof.
  intros Hok. cbn [Running.process_exec]. destruct (Waiters.delivering (waiters p) !! i); [done|].
  destruct (Hub.exec _ _ _ _ _) as [s| |] eqn:Hx; [|done|done]. pose proof (read_results _ _ _ _ _ Hx) as Hres.
  assert (process_ok tells e (with_sys s p)) as Hok'
    by (eapply (hub_step_ok tells e p (Hub.AReceive i now env)); [done | done | done | rewrite Hres; set_solver]).
  destruct ((Hub.handleEnvelope _ _ _ _ _ _).2) as [env'|]; cbn [fmap option_fmap option_map]; [|by intros [= <-]].
  destruct (Waiters.result_in env') as [r|] eqn:Er; [|by intros [= <-]].
  intros Hw. apply (delivery_ok _ _ _ _ _ Hok' Hw). exists env'. split; [|done]. simpl. rewrite Hres. set_solver.
Qed.
(** A dispatch moves on without its caller. *)
Lemma stage_only tells e p i st :
  process_ok tells e p -> stage_ok tells (Hub.hub (sys p)) (Waiters.callers (waiters p)) (legs p) i st ->
  process_ok tells e (with_stage i st p).
Proof.
  intros [Hs Hq Hi Ht Hr Hst] Hok. split; try done. simpl.
  by apply (stages_set _ _ _ (Waiters.callers (waiters p)) _ (legs p)).
Qed.
Lemma begin_ok tells e p i uuid cmd p' :
  process_ok tells e p -> process_exec p (PBegin i uuid cmd) = Some p' -> process_ok tells e p'.
Proof.
  intros Hok. cbn [Running.process_exec]. destruct (stages p !! i) eqn:Es; [done|]. intros [= <-].
  apply stage_only; [done|]. pose proof (so_none _ _ _ _ _ _ (po_stages _ _ _ Hok) i Es) as Hn. unfold begin_stage.
  destruct (ParseCommandIntent _) as [t|]; [|by left; left]. destruct (negb _ && _); [by left; left|].
  cbv zeta. destruct (str_empty (cmd_IdempotencyKey _)) eqn:Ek; [by split|].
  destruct (idempotencyHash sha256_hex _) as [key|err] eqn:Eh; [|by left; left].
  split; [done|]. split; [by apply str_empty_false | done].
Qed.
Lemma check_ok tells e p i now p' :
  (forall j cmd a, tells_at p (PCheck i now) j cmd a -> tells j cmd a) ->
  process_ok tells e p -> process_exec p (PCheck i now) = Some p' -> process_ok tells e p'.
Proof.
  intros Hnew Hok. cbn [Running.process_exec].
  destruct (stages p !! i) as [[cmd key| | | | |]|] eqn:Es; try done.
  pose proof (so_stage _ _ _ _ _ _ (po_stages _ _ _ Hok) i _ Es) as [Hn [Hk Hh]].
  destruct (checkIdempotency _ _ _) as [d o] eqn:Ec. intros [= <-].
  apply (stage_only _ _ (with_idem (disp_db d) p)); [by destruct Hok|]. destruct o as [r|]; [|by split].
  right. split_and!; [done | done |]. apply Hnew. split; [done|]. exists key. by rewrite Ec.
Qed.
(** The registry may have read a node, and the target is resolved or refused. *)
Lemma resolve_ok tells e p i now sessions p' :
  (forall j cmd a, tells_at p (PResolve i now sessions) j cmd a -> tells j cmd a) ->
  process_ok tells e p -> process_exec p (PResolve i now sessions) = Some p' -> process_ok tells e p'.
Proof.
  intros Hnew Hok. pose proof Hok as [Hs Hq [He Hi] Ht Hr Hst]. cbn [Running.process_exec].
  destruct (stages p !! i) as [[|cmd key| | | |]|] eqn:Es; try done.
  pose proof (so_stage _ _ _ _ _ _ Hst i _ Es) as [Hn Hk].
  assert (tells i cmd (Target (resolve errtext node_order p cmd sessions).2)) as Htold
    by (apply Hnew; split; [done | by exists key]).
  revert Htold. unfold resolve. destruct (resolveTarget errtext node_order (dispatcher_of p sessions) cmd) as [d result] eqn:Er.
  intros Htold.
  destruct (resolve_ids errtext node_order (dispatcher_of p sessions) cmd d result Hi Er) as [Hi' Hnode].
  intros [= <-]. set (q := with_hub _ p). assert (process_ok tells e q) as Hok'.
  { assert (HubFacts.drained (Hub.hub (sys p)) (Hub.hub (sys q))) as Hd by by apply HubFacts.drained_refl.
    split; [exact (conj (proj1 Hs) (proj2 Hs)) | done | by split | done | |].
    - by apply (routes_drained _ (Hub.hub (sys p))).
    - by apply (stages_drained _ _ (Hub.hub (sys p))). }
  apply (stage_only _ _ q); [done|]. destruct result as [node|err].
  - split_and!; [done | done |]. split; [done | by apply Hnode].
  - assert (came tells (Waiters.callers (waiters q)) i cmd (unresolved cmd now err)) as Hcame
      by (left; split; [done|]; by exists now, err).
    destruct key as [key|]; [by split | by left].
Qed.
Lemma register_ok tells e p i p' :
  process_ok tells e p -> process_exec p (PRegister i) = Some p' -> process_ok tells e p'.
Proof.
  intros Hok. cbn [Running.process_exec]. destruct (stages p !! i) as [[| |cmd key node| | |]|] eqn:Es; try done.
  pose proof Hok as [Hs Hq Hi Ht Hr Hst]. pose proof (so_stage _ _ _ _ _ _ Hst i _ Es) as (_ & Hk & Ha).
  unfold wait_step. destruct (waiter_exec _ _ _) as [ws|] eqn:Hw; [|done]. intros [= <-].
  pose proof (waiter_moves duration_text _ _ _ Hw) as [Hn Hws].
  assert (Hst' : forall j, standing ws j = if decide (i = j) then Some (cmd, false) else standing (waiters p) j)
    by (intros j; by rewrite (standing_insert _ _ _ _ j Hws)).
  split; [done..| | |]; simpl.
  - eapply trail_step; [exact Hw | done | done].
  - destruct Hr as [Hl Hp Hqu]. assert (Hnone : standing (waiters p) i = None) by (unfold standing; by rewrite Hn).
    apply (routes_leg _ _ _ _ _ _ _ cmd false); [by rewrite Hst', decide_True | done | done |].
    split; [| |done].
    + intros j l Hj. rewrite Hst'. case_decide; [subst j | by apply Hl].
      destruct (Hl i l Hj) as (cmd' & b & Hb & _). congruence.
    + intros j. specialize (Hp j). rewrite Hst'. case_decide; [|done]. subst j. by rewrite Hnone in Hp.
  - apply (stages_set _ _ _ (Waiters.callers (waiters p)) _ (legs p)); [| | |done].
    + intros j Hne. by rewrite Hws, lookup_insert_ne.
    + intros j Hne. by rewrite lookup_insert_ne.
    + split; [done|]. exists (Waiters.Sending cmd). rewrite Hws, lookup_insert_eq. by split_and!.
Qed.
Lemma find_ok tells e p i now p' :
  process_ok tells e p -> process_exec p (PFind i now) = Some p' -> process_ok tells e p'.
Proof.
  intros Hok. cbn [Running.process_exec]. destruct (Waiters.callers (waiters p) !! i) as [[cmd| | | | | |]|] eqn:Ec; try done.
  destruct (legs p !! i) as [[node|]|] eqn:El; try done. destruct (Hub.command_message now cmd) as [data|err] eqn:Em.
  2:{ by apply send_fails_ok. }
  unfold Hub.send_lookup. destruct (Hub.clients (Hub.hub (sys p)) !! node) as [conn|] eqn:Eh; [|by apply send_fails_ok].
  intros [= <-]. destruct Hok as [Hs Hq Hi Ht Hr Hst]. split; try done.
  - assert (Hstand : standing (waiters p) i = Some (cmd, false)) by by unfold standing; rewrite Ec.
    apply (routes_leg _ _ _ _ _ _ _ cmd false); [done | done | | done].
    destruct (ro_leg _ _ _ _ _ Hr i _ El) as (cmd' & b & Hb & Ha). rewrite Hstand in Hb. injection Hb as <- <-.
    destruct (HubFacts.ok_client _ _ (proj1 Hs) _ _ Eh) as (c & Hc & Hid & _). split_and!; eauto.
  - apply (stages_inside _ _ _ (Waiters.callers (waiters p)) _ (legs p) _ _ i (Waiters.Sending cmd) (Waiters.Sending cmd)); try done.
    intros j Hne. simpl. by rewrite lookup_insert_ne.
Qed.
Lemma push_ok tells e p i p' :
  process_ok tells e p -> process_exec p (PPush i) = Some p' -> process_ok tells e p'.
Proof.
  intros Hok. cbn [Running.process_exec]. destruct (Waiters.callers (waiters p) !! i) as [[cmd| | | | | |]|] eqn:Ec; try done.
  destruct (legs p !! i) as [[|node conn data]|] eqn:El; try done.
  destruct (ro_leg _ _ _ _ _ (po_routes _ _ _ Hok) i _ El) as (cmd0 & b0 & _ & _ & _ & c & Hconn & _).
  unfold Hub.send_push, Hub.try_send. rewrite Hconn. cbn [mbind option_bind].
  destruct (ac_closed c) eqn:Ecl; cbn [mbind option_bind].
  { unfold wait_step. destruct (waiter_exec _ _ _) as [ws|] eqn:Hw; [|done]. intros [= <-].
    pose proof (waiter_moves duration_text _ _ _ Hw) as (c0 & c1 & Hc0 & Hws & cmd1 & -> & ->). simplify_eq.
    apply (proj2 (caller_ok tells e p _ ws i _ _ Hok Hw ltac:(done) Ec Hws eq_refl eq_refl)).
    split; [rewrite Hws; apply lookup_insert_eq|]. by exists node, conn, data, c. }
  destruct (_ <? _)%nat; cbn [mbind option_bind]; [|by apply send_fails_ok].
  destruct (waiter_exec duration_text (waiters p) (Waiters.LSend i None)) as [ws|] eqn:Hw; [|done]. intros [= <-].
  pose proof (waiter_moves duration_text _ _ _ Hw) as (c0 & c1 & Hc0 & Hws & cmd1 & -> & ->). simplify_eq.
  destruct Hok as [Hs Hq Hi Ht Hr Hst]. split; [| done | exact Hi | | |].
  - apply HubFacts.sys_ok_quiet; [done|]. by intros ?.
  - eapply trail_step; [exact Hw | done | done].
  - apply (routes_push _ _ (standing (waiters p)) _ _ _ _ node _ _ cmd); try done.
    + unfold standing. by rewrite Ec.
    + intros j. exact (standing_insert _ _ _ i j Hws).
  - apply (stages_inside _ _ _ (Waiters.callers (waiters p)) _ (legs p) _ _ i (Waiters.Sending cmd) (Waiters.Sent cmd)); try done.
    + simpl. rewrite Hws. apply lookup_insert_eq.
    + intros j Hne. simpl. by rewrite Hws, lookup_insert_ne.
    + eapply stages_more; [by eauto | | exact Hst]. intros k c1 Hk Hcl. simpl.
      destruct (decide (conn = k)) as [<-|]; [congruence|]. exists c1. by rewrite lookup_alter_ne.
Qed.
Lemma return_ok tells e p i now p' :
  process_ok tells e p -> process_exec p (PReturn i now) = Some p' -> process_ok tells e p'.
Proof.
  intros Hok. cbn [Running.process_exec]. destruct (stages p !! i) as [[| | |cmd key| |]|] eqn:Es; try done.
  pose proof (so_stage _ _ _ _ _ _ (po_stages _ _ _ Hok) i _ Es) as (Hk & c & Hc & Hcmd & _).
  rewrite Hc. destruct c as [| | |cmd' r|cmd' err| |]; try done; simpl in Hcmd; subst cmd'; unfold wait_step;
    (destruct (waiter_exec _ _ _) as [ws|] eqn:Hw; [|done]); intros [= <-];
    pose proof (waiter_moves duration_text _ _ _ Hw) as (c0 & c1 & Hc0 & Hws & cmd1 & r1 & -> & ->); simplify_eq;
    apply (proj2 (caller_ok tells e p _ ws i _ _ Hok Hw ltac:(done) Hc Hws eq_refl eq_refl)).
  - assert (came tells (Waiters.callers ws) i cmd (completed cmd now r)) as Hcame.
    { right. exists r, now. by rewrite Hws, lookup_insert_eq. }
    destruct key as [key|]; [by split | by left].
  - left. right. exists err. rewrite Hws. apply lookup_insert_eq.
Qed.
Lemma cacheResult_fails (d : CommandDispatcher DB IDB) now key r err :
  (cacheResult d now key r).2 = Err err -> keeping_failed err = true.
Proof.
  unfold cacheResult. destruct (disp_db d) as [t|]; [|by intros [= <-]].
  destruct (json_marshal r); [|by intros [= <-]]. by destruct (upsert_row _ _); [|intros [= <-]].
Qed.
Lemma cache_ok tells e p i now p' :
  process_ok tells e p -> process_exec p (PCache i now) = Some p' -> process_ok tells e p'.
Proof.
  intros Hok. cbn [Running.process_exec]. destruct (stages p !! i) as [[| | | |cmd key r|]|] eqn:Es; try done.
  pose proof (so_stage _ _ _ _ _ _ (po_stages _ _ _ Hok) i _ Es) as [[Hk _] Hcame].
  pose proof (fun err => cacheResult_fails (dispatcher_of p None) now key r err) as Hf.
  destruct (cacheResult _ _ _ _) as [d o]. intros [= <-].
  apply (stage_only _ _ (with_idem (disp_db d) p)); [by destruct Hok|].
  destruct o as [[]|err]; [by left | right]. split_and!; [done | by apply Hf | by exists r].
Qed.
Lemma process_step_ok tells e p x p' :
  (forall i cmd a, tells_at p x i cmd a -> tells i cmd a) ->
  process_ok tells e p -> process_exec p x = Some p' -> process_ok tells e p'.
Proof.
  intros Hnew Hok Hx.
  destruct x as [a|i now env|i|i uuid cmd|i now|i now sessions|i|i now|i|l|i now|i now].
  - cbn [Running.process_exec] in Hx. destruct (HubFacts.hub_own a) eqn:Ha; [|done]. destruct (reads a) eqn:Er; [done|].
    cbn [negb andb] in Hx. destruct (Hub.exec _ _ _ _ _) as [s| |] eqn:Hs; [|done|done]. injection Hx as <-.
    apply (hub_step_ok tells e p a); [done | done | done | by rewrite (exec_results _ _ _ Hs Er Ha)].
  - by eapply read_ok.
  - eapply delivery_ok; [exact Hok | exact Hx | done].
  - by eapply begin_ok.
  - by eapply check_ok.
  - by eapply resolve_ok.
  - by eapply register_ok.
  - by eapply find_ok.
  - by eapply push_ok.
  - cbn [Running.process_exec] in Hx. destruct (after_send l) eqn:Ea; [|done]. by eapply wait_ok.
  - by eapply return_ok.
  - by eapply cache_ok.
Qed.

Lemma process_run_app p l1 l2 : process_run p (l1 ++ l2) = process_run p l1 ≫= fun p1 => process_run p1 l2.
Proof.
  revert p. induction l1 as [|x l1 IH]; intros p; [done|]. cbn [app Running.process_run].
  destruct (process_exec p x); [apply IH | done].
Qed.
Lemma process_run_ok tells e p0 l p :
  process_ok tells e p0 -> (forall i cmd a, ~ tells i cmd a) -> process_run p0 l = Some p ->
  process_ok (told_at p0 l) e p.
Proof.
  intros H0 Hnone. revert p. induction l as [|x l IH] using rev_ind; intros p.
  { intros [= <-]. eapply more_told; [|exact H0]. by intros i cmd a ?%Hnone. }
  rewrite process_run_app. destruct (process_run p0 l) as [p1|] eqn:E1; [|done]. cbn [mbind option_bind Running.process_run].
  destruct (process_exec p1 x) as [p2|] eqn:Hx; [|done]. intros [= <-].
  apply (process_step_ok _ _ p1 x); [by intros i cmd a Ha; exists l, x, [], p1 | | exact Hx].
  eapply more_told; [|by apply IH]. intros i cmd a (l1 & y & l2 & p3 & -> & ?). exists l1, y, (l2 ++ [x]), p3.
  rewrite <- app_assoc. by split.
Qed.
Lemma fresh_ok p : fresh_process p ->
  process_ok (fun _ _ _ => False) (Hub.expectedCredVersion (Hub.hub (sys p))) p.
Proof.
  intros (Hidle & Hq & Hw & Hl & Hqu & Hss & Hids). split; [by apply HubFacts.idle_ok | done | by split | | |].
  - exists []. rewrite Hw. split; [constructor|]. by intros j now r ?%elem_of_nil.
  - rewrite Hw, Hl, Hqu. split.
    + intros i l. by rewrite lookup_empty.
    + intros i. unfold standing. by rewrite lookup_empty.
    + intros conn c. destruct Hidle as (_ & -> & _). by rewrite lookup_empty.
  - rewrite Hw, Hl, Hss. split; intros i; [intros st|]; by rewrite lookup_empty.
Qed.
Lemma reached_ok p0 l p : fresh_process p0 -> process_run p0 l = Some p ->
  process_ok (told_at p0 l) (Hub.expectedCredVersion (Hub.hub (sys p0))) p.
Proof. intros H0. apply (process_run_ok (fun _ _ _ => False)); [by apply fresh_ok | by intros ??? []]. Qed.
(** *** One command from the caller to the agent and back *)
Lemma standing_returned ws i cmd outcome :
  Waiters.callers ws !! i = Some (Waiters.Returned cmd outcome) -> standing ws i = Some (cmd, is_Ok outcome).
Proof. intros Hc. unfold standing. rewrite Hc. by destruct outcome. Qed.

(** The steps of sending, where the node of the target has a connection with room. *)
Lemma send_steps p i cmd key sessions d node conn c now0 now data :
  HubFacts.sys_ok (sys p) -> stages p !! i = Some (Resolving cmd key) -> Waiters.callers (waiters p) !! i = None ->
  resolve errtext node_order p cmd sessions = (d, Ok node) ->
  Hub.clients (Hub.hub (sys p)) !! node = Some conn -> Hub.conns (Hub.hub (sys p)) !! conn = Some c ->
  (length (ac_send c) < sendBuffer)%nat -> Hub.command_message now cmd = Ok data ->
  exists p1, process_run p [PResolve i now0 sessions; PRegister i; PFind i now; PPush i] = Some p1 /\
    waiters p1 = Waiters.with_caller (Waiters.get_or_make (waiters p) (cmd_CommandID cmd)).1 i (Waiters.Sent cmd) /\
    stages p1 !! i = Some (InSend cmd key) /\
    Hub.conns (Hub.hub (sys p1)) !! conn = Some (Hub.set_send (ac_send c ++ [data]) c).
Proof.
  intros [Hok _] Hst Hi Hr Hcl Hc Hroom Hm.
  assert (ac_closed c = false) as Hopen.
  { destruct (HubFacts.ok_client _ _ Hok _ _ Hcl) as (c' & Hc' & Hid & Hreg). simplify_eq.
    by apply (HubFacts.ok_open _ _ Hok _ _ Hc). }
  apply Nat.ltb_lt in Hroom. set (ws1 := Waiters.with_caller (Waiters.get_or_make (waiters p) (cmd_CommandID cmd)).1 i (Waiters.Sending cmd)).
  set (p0 := with_stage i (Registering cmd key node) (with_hub (Hub.with_registry (disp_registry d) (Hub.hub (sys p))) p)).
  assert (H0 : process_exec p (PResolve i now0 sessions) = Some p0).
  { cbn [Running.process_exec]. by rewrite Hst, Hr. }
  set (p1 := with_stage i (InSend cmd key) (with_leg i (Resolved node) (with_waiters ws1 p0))).
  assert (H1 : process_exec p0 (PRegister i) = Some p1).
  { cbn [Running.process_exec]. unfold p0 at 1. cbn [stages with_stage]. rewrite lookup_insert_eq. unfold wait_step. cbn [waiter_exec].
    change (waiters p0) with (waiters p). by rewrite Hi. }
  set (p2 := with_leg i (Found node conn data) p1).
  assert (H2 : process_exec p1 (PFind i now) = Some p2).
  { cbn [Running.process_exec]. unfold p1 at 1 2. cbn [waiters legs with_stage with_leg with_waiters ws1 Waiters.callers Waiters.with_caller].
    rewrite !lookup_insert_eq, Hm. unfold Hub.send_lookup. change (Hub.clients (Hub.hub (sys p1))) with (Hub.clients (Hub.hub (sys p))).
    by rewrite Hcl. }
  assert (exists p3, process_exec p2 (PPush i) = Some p3 /\
    waiters p3 = Waiters.with_caller ws1 i (Waiters.Sent cmd) /\ stages p3 = stages p2 /\
    Hub.conns (Hub.hub (sys p3)) !! conn = Some (Hub.set_send (ac_send c ++ [data]) c)) as (p3 & H3 & Hw3 & Hs3 & Hc3).
  { cbn [Running.process_exec]. unfold p2 at 1 2, p1 at 1.
    cbn [waiters legs with_stage with_leg with_waiters ws1 Waiters.callers Waiters.with_caller].
    rewrite !lookup_insert_eq. unfold Hub.send_push, Hub.try_send.
    change (Hub.conns (Hub.hub (sys p2))) with (Hub.conns (Hub.hub (sys p))). rewrite Hc. cbn [mbind option_bind].
    rewrite Hopen, Hroom. cbn [mbind option_bind waiter_exec]. change (waiters p2) with ws1.
    assert (Waiters.callers ws1 !! i = Some (Waiters.Sending cmd)) as -> by (simpl; apply lookup_insert_eq).
    eexists. split; [done|]. split_and!; [done | done|]. simpl. by rewrite lookup_alter_eq, Hc. }
  exists p3. cbn [Running.process_run]. rewrite H0. cbn [mbind option_bind]. rewrite H1. cbn [mbind option_bind].
  rewrite H2. cbn [mbind option_bind]. rewrite H3. cbn [mbind option_bind]. split_and!; [done | | | done].
  - rewrite Hw3. unfold ws1, Waiters.with_caller. simpl. by rewrite insert_insert_eq.
  - rewrite Hs3. simpl. apply lookup_insert_eq.
Qed.
Lemma completed_stamped cmd now t r : cr_CommandID r = cmd_CommandID cmd ->
  completed cmd now (Waiters.stamped t r) = Waiters.stamped now (Waiters.stamped t r).
Proof.
  intros Hid. unfold completed, Waiters.stamped. destruct r as [id st o e ts]. simpl in Hid. subst id.
  assert (forall x : string, (if str_empty x then x else x) = x) as Hx by (intros x; by destruct (str_empty x)).
  generalize (Time.IsZero). intros z. cbn. destruct (z ts) eqn:Et; cbn; rewrite Hx, ?Et; [|done]. by destruct (z t).
Qed.
(** The rest: the caller waits, the hub reads the answer and delivers it, the
    caller returns it. *)
Lemma reply_steps p ws i cmd key conn c t t' env r :
  waiters p = Waiters.with_caller (Waiters.get_or_make ws (cmd_CommandID cmd)).1 i (Waiters.Sent cmd) ->
  stages p !! i = Some (InSend cmd key) ->
  Waiters.pending ws !! cmd_CommandID cmd = None -> cmd_CommandID cmd <> ε -> Waiters.delivering ws !! conn = None ->
  Hub.conns (Hub.hub (sys p)) !! conn = Some c -> ac_reader c = Reading ->
  env_Type env = MessageTypeCommandResult -> Waiters.result_in env = Ok r -> cr_CommandID r = cmd_CommandID cmd ->
  exists p', process_run p [PWait (Waiters.LLookup i); PRead conn t env; POffer conn; PWait (Waiters.LReceive i); PReturn i t'] = Some p' /\
    Waiters.callers (waiters p') !! i = Some (Waiters.Returned cmd (Ok (Waiters.stamped t r))) /\
    Waiters.pending (waiters p') !! cmd_CommandID cmd = None /\
    stages p' !! i = Some (answered_stage cmd key (Waiters.stamped t' (Waiters.stamped t r))).
Proof.
  intros Hw Hst Hp Hid Hdel Hc Hreg Ht Hr Hcr. set (id := cmd_CommandID cmd) in *. set (ch := Waiters.next_ch ws).
  assert (Hw' : waiters p = Waiters.mkState (<[id := ch]> (Waiters.pending ws)) (<[ch := None]> (Waiters.buffers ws)) (S ch)
    (<[i := Waiters.Sent cmd]> (Waiters.callers ws)) (Waiters.delivering ws))
    by (rewrite Hw; unfold Waiters.get_or_make; by rewrite Hp).
  set (ws1 := Waiters.with_caller (waiters p) i (Waiters.Waiting cmd ch)).
  assert (H1 : process_exec p (PWait (Waiters.LLookup i)) = Some (with_waiters ws1 p)).
  { cbn [Running.process_exec after_send]. unfold wait_step. cbn [waiter_exec]. rewrite Hw'. cbn [Waiters.callers]. rewrite lookup_insert_eq.
    unfold Waiters.get_or_make. cbn [Waiters.pending]. fold id. rewrite lookup_insert_eq. unfold ws1. by rewrite Hw'. }
  destruct (Hub.handleEnvelope decode_sync decode_auth (Hub.hub (sys p)) conn t env) as [h o] eqn:Eh.
  assert (o = Some env) as -> by (unfold Hub.handleEnvelope in Eh; rewrite Ht in Eh; by injection Eh).
  set (s2 := Hub.mkSystem h (Hub.inflight (sys p)) (Hub.results (sys p) ++ [env])).
  set (ws2 := Waiters.with_delivering ws1 (<[conn := (ch, Waiters.stamped t r)]> (Waiters.delivering ws1))).
  assert (H2 : process_exec (with_waiters ws1 p) (PRead conn t env) = Some (with_waiters ws2 (with_sys s2 (with_waiters ws1 p)))).
  { cbn [Running.process_exec Hub.exec]. change (waiters (with_waiters ws1 p)) with ws1. change (sys (with_waiters ws1 p)) with (sys p).
    assert (Waiters.delivering ws1 !! conn = None) as Hd1 by (unfold ws1; rewrite Hw'; exact Hdel). rewrite Hd1.
    unfold Hub.in_state. rewrite Hc, Hreg, Eh. cbn [bool_decide decide_rel Hub.when fst snd]. cbv iota beta.
    cbn [fmap option_fmap option_map]. rewrite Hr. unfold wait_step. cbn [waiter_exec].
    change (waiters (with_sys _ (with_waiters ws1 p))) with ws1. rewrite Hd1. unfold Waiters.find_waiter. rewrite Hcr.
    apply str_empty_false in Hid. rewrite Hid. cbv zeta. rewrite WaiterFacts.stamped_id, Hcr.
    assert (Waiters.pending ws1 !! id = Some ch) as -> by (unfold ws1; rewrite Hw'; apply lookup_insert_eq). done. }
  set (ws3 := Waiters.with_delivering (Waiters.with_buffer ws2 ch (Some (Waiters.stamped t r))) (delete conn (Waiters.delivering ws2))).
  set (p3 := with_waiters ws3 (with_waiters ws2 (with_sys s2 (with_waiters ws1 p)))).
  assert (H3 : process_exec (with_waiters ws2 (with_sys s2 (with_waiters ws1 p))) (POffer conn) = Some p3).
  { cbn [Running.process_exec]. unfold wait_step. cbn [waiter_exec]. change (waiters (with_waiters ws2 _)) with ws2.
    assert (Waiters.delivering ws2 !! conn = Some (ch, Waiters.stamped t r)) as -> by (simpl; apply lookup_insert_eq).
    unfold Waiters.offer.
    assert (Waiters.buffers ws2 !! ch = Some None) as -> by (simpl; rewrite Hw'; apply lookup_insert_eq). done. }
  set (ws4 := Waiters.with_caller (Waiters.with_buffer ws3 ch None) i (Waiters.Leaving cmd (Waiters.stamped t r))).
  assert (H4 : process_exec p3 (PWait (Waiters.LReceive i)) = Some (with_waiters ws4 p3)).
  { cbn [Running.process_exec after_send]. unfold wait_step. cbn [waiter_exec]. change (waiters p3) with ws3.
    assert (Waiters.callers ws3 !! i = Some (Waiters.Waiting cmd ch)) as -> by (simpl; apply lookup_insert_eq).
    assert (Waiters.buffers ws3 !! ch = Some (Some (Waiters.stamped t r))) as -> by (simpl; apply lookup_insert_eq). done. }
  cbn [Running.process_run]. rewrite H1. cbn [mbind option_bind]. rewrite H2. cbn [mbind option_bind]. rewrite H3. cbn [mbind option_bind].
  rewrite H4. cbn [mbind option_bind Running.process_exec].
  change (stages (with_waiters ws4 p3)) with (stages p). rewrite Hst. change (waiters (with_waiters ws4 p3)) with ws4.
  assert (Waiters.callers ws4 !! i = Some (Waiters.Leaving cmd (Waiters.stamped t r))) as Hl by (simpl; apply lookup_insert_eq).
  rewrite Hl. unfold wait_step. cbn [waiter_exec]. change (waiters (with_waiters ws4 p3)) with ws4. rewrite Hl.
  cbn [mbind option_bind]. eexists. split; [done|]. split_and!.
  - simpl. apply lookup_insert_eq.
  - simpl. apply lookup_delete_eq.
  - cbn [stages with_stage]. rewrite lookup_insert_eq. by rewrite (completed_stamped cmd t' t r Hcr).
Qed.
End Process.
End RunningFacts.

(** ** Properties *)
Section Properties.
Import Dispatch Running RunningFacts.
Context {DB IDB E : Type} `{KT : KeyedTable DB NodeRow E} `{!KeyedTableLaws DB NodeRow E} `{TT : TimeTextLaws}.
Context `{IT : KeyedTable IDB IdemRow E} `{!KeyedDelete IDB E}.
Context `{JC : Json Command} `{JE : Json Envelope} `{JR : Json CommandResult} `{JK : Json canonical}.
Context (upgrade : Request -> bool -> res string ())
  (decode_sync : string -> res string CredentialSyncPayload)
  (decode_auth : string -> res string (list AuthStateReport)).
Context (uuid_parse : string -> bool) (sha256_hex : string -> string).
Context (errtext : registry_error E -> string) (sendtext : Hub.send_error -> string) (duration_text : Z -> string).
Context (node_order : Registry.NodeRegistry DB -> list (string * NodeEntry)).
Notation process := (process DB IDB E).
Notation process_run := (process_run (DB := DB) (IDB := IDB) (E := E) upgrade decode_sync decode_auth uuid_parse sha256_hex errtext sendtext duration_text node_order).
Notation told_in := (told_in (DB := DB) (IDB := IDB) (E := E) upgrade decode_sync decode_auth uuid_parse sha256_hex errtext sendtext duration_text node_order).
Notation reached_agent := (reached_agent (DB := DB) (IDB := IDB) (E := E) upgrade decode_sync decode_auth uuid_parse sha256_hex errtext sendtext duration_text node_order).

(** C1: whatever the hub, the agents and any number of dispatches do, in any
    order, and however a dispatch ends.  When it answers with a result, either it
    put the frame of its command once, into the queue of one connection, of the
    agent its target was resolved to on the way (the target's node, when it names
    one), and the result is its own timeout or came in an envelope, for its id, that
    the hub has read; or it put nothing into any queue, and the result is the failure
    that names why the target was refused on the way, or, for a command with an
    idempotency key, what the table had for that key when it looked.  When it fails it put nothing
    into any queue, unless only keeping the result of a command with a key failed.
    When it panics it put nothing, and the connection it had found was closed.  And
    what waits in the queue of a connection is the end of what dispatches put
    there, in order. *)
Theorem commands_reach_their_agents (p0 p : process) (l : list process_action) (i : nat) (cmd : Command) (o : outcome E) :
  fresh_process p0 -> process_run p0 l = Some p -> stages p !! i = Some (Ended cmd o) ->
  match o with
  | Answered r =>
      (reached_agent p0 l p i cmd /\ cr_CommandID r = cmd_CommandID cmd /\
       exists r0 done, r = completed cmd done r0 /\
         ((exists now, r0 = Waiters.timeout_result duration_text cmd now) \/
          exists now env r1, env ∈ Hub.results (sys p) /\ Waiters.result_in env = Ok r1 /\ r0 = Waiters.stamped now r1)) \/
      (put_by i p = [] /\
       ((exists now e, r = unresolved cmd now e /\ told_in p0 l i cmd (Target (Err e))) \/
        (cmd_IdempotencyKey cmd <> ε /\ told_in p0 l i cmd (Kept r))))
  | Failed e =>
      put_by i p = [] \/ (cmd_IdempotencyKey cmd <> ε /\ keeping_failed e = true /\ reached_agent p0 l p i cmd)
  | Panics =>
      put_by i p = [] /\
      exists conn c, Hub.conns (Hub.hub (sys p)) !! conn = Some c /\ ac_closed c = true /\
        addressed (told_in p0 l) i cmd (ac_agentID c)
  end /\
  forall conn c, Hub.conns (Hub.hub (sys p)) !! conn = Some c -> ac_send c `suffix_of` queued_for conn p.
Proof.
  intros H0 Hrun Hst. pose proof (reached_ok _ _ _ _ _ _ _ _ _ p0 l p H0 Hrun) as [_ _ _ Ht Hr Hss].
  split; [|apply Hr]. pose proof (so_stage _ _ _ _ _ _ Hss i _ Hst) as Hok.
  assert (Hnone : Waiters.callers (waiters p) !! i = None -> put_by i p = []).
  { intros Hn. pose proof (ro_put _ _ _ _ _ Hr i) as Hput. unfold standing in Hput. by rewrite Hn in Hput. }
  assert (Hsent : forall r0, Waiters.callers (waiters p) !! i = Some (Waiters.Returned cmd (Ok r0)) -> reached_agent p0 l p i cmd).
  { intros r0 Hc. pose proof (ro_put _ _ _ _ _ Hr i) as Hput. rewrite (standing_returned _ _ _ _ Hc) in Hput.
    destruct Hput as (node & conn & data & Hl & Hput).
    destruct (ro_leg _ _ _ _ _ Hr i _ Hl) as (cmd' & b & Hs & Ha & (now & Hm) & c & Hcn & Hid).
    rewrite (standing_returned _ _ _ _ Hc) in Hs. injection Hs as <- <-. exists conn, data, c, now. by rewrite Hid. }
  destruct o as [r|e|].
  - destruct Hok as [[(Hn & now & e & Hr0 & Href)|(r0 & now & Hc & ->)]|(Hn & Hk & Hrep)].
    + right. split; [by apply Hnone|]. left. by exists now, e.
    + left. split; [by eapply Hsent|]. destruct Ht as (ls & Hreached & Hb).
      destruct (WaiterFacts.reached_inv _ _ _ Hreached) as [owner Hi].
      destruct (WaiterFacts.wi_result _ _ _ _ Hi i cmd r0 (or_intror Hc)) as [Hcr Hown]. split.
      { unfold completed. cbn [cr_CommandID]. by destruct (str_empty (cr_CommandID r0)). }
      exists r0, now. split; [done|]. destruct Hown as [(j & t & r1 & Hin & ->)|Hto]; [right | by left].
      destruct (Hb j t r1 Hin) as (env & ? & ?). by exists t, env, r1.
    + right. split; [by apply Hnone|]. by right.
  - destruct Hok as [[Hn|[e' Hc]]|(Hk & Hf & r & [(Hn & _)|(r0 & now & Hc & _)])].
    + left. by apply Hnone.
    + left. pose proof (ro_put _ _ _ _ _ Hr i) as Hput. by rewrite (standing_returned _ _ _ _ Hc) in Hput.
    + left. by apply Hnone.
    + right. split_and!; [done | done | by eapply Hsent].
  - destruct Hok as (Hc & node & conn & data & c & Hl & Hcn & Hcl). split.
    + pose proof (ro_put _ _ _ _ _ Hr i) as Hput. unfold standing in Hput. by rewrite Hc in Hput.
    + destruct (ro_leg _ _ _ _ _ Hr i _ Hl) as (cmd' & b & Hs & Ha & _ & c' & Hcn' & Hid). unfold standing in Hs. rewrite Hc in Hs.
      injection Hs as <- <-. exists conn, c. simplify_eq. by split_and!.
Qed.

(** C6: a command is answered: from any state that is reached, a dispatch whose
    target is resolved to a node with a connection that has room in its queue puts
    its frame at the end of that queue; and when its agent answers with a result
    for the command's id, the dispatch comes to exactly that result, which it
    returns, or keeps first when the command has a key, and leaves nothing behind
    in the dispatcher. *)
Theorem command_is_answered (p0 p : process) (l : list process_action) (i : nat) (cmd : Command) (key : option string)
    (sessions : option (list (string * TrackedSession))) (d : CommandDispatcher DB IDB) (node data : string) (conn : nat)
    (c : AgentConn) (now0 now t t' : Time.t) (env : Envelope) (r : CommandResult) :
  let id := cmd_CommandID cmd in
  fresh_process p0 -> process_run p0 l = Some p ->
  stages p !! i = Some (Resolving cmd key) -> Waiters.pending (waiters p) !! id = None -> id <> ε ->
  Waiters.delivering (waiters p) !! conn = None ->
  resolve errtext node_order p cmd sessions = (d, Ok node) ->
  Hub.clients (Hub.hub (sys p)) !! node = Some conn -> Hub.conns (Hub.hub (sys p)) !! conn = Some c ->
  ac_reader c = Reading -> (length (ac_send c) < sendBuffer)%nat -> Hub.command_message now cmd = Ok data ->
  env_Type env = MessageTypeCommandResult -> Waiters.result_in env = Ok r -> cr_CommandID r = id ->
  exists p1 p2,
    process_run p [PResolve i now0 sessions; PRegister i; PFind i now; PPush i] = Some p1 /\
    (ac_send <$> Hub.conns (Hub.hub (sys p1)) !! conn) = Some (ac_send c ++ [data]) /\
    process_run p1 [PWait (Waiters.LLookup i); PRead conn t env; POffer conn; PWait (Waiters.LReceive i); PReturn i t'] = Some p2 /\
    Waiters.callers (waiters p2) !! i = Some (Waiters.Returned cmd (Ok (Waiters.stamped t r))) /\
    Waiters.pending (waiters p2) !! id = None /\
    stages p2 !! i = Some (let answer := Waiters.stamped t' (Waiters.stamped t r) in
                           match key with None => Ended cmd (Answered answer) | Some key => Caching cmd key answer end).
Proof.
  intros id H0 Hrun Hst Hp Hid Hdel Hr Hcl Hc Hreg Hroom Hm Ht Hres Hcr.
  pose proof (reached_ok _ _ _ _ _ _ _ _ _ p0 l p H0 Hrun) as [Hs _ _ _ _ Hss].
  destruct (so_stage _ _ _ _ _ _ Hss i _ Hst) as [Hi _].
  destruct (send_steps upgrade decode_sync decode_auth uuid_parse sha256_hex errtext sendtext duration_text node_order
    p i cmd key sessions d node conn c now0 now data Hs Hst Hi Hr Hcl Hc Hroom Hm) as (p1 & H1 & Hw & Hst1 & Hc1).
  destruct (reply_steps upgrade decode_sync decode_auth uuid_parse sha256_hex errtext sendtext duration_text node_order
    p1 (waiters p) i cmd key conn _ t t' env r Hw Hst1 Hp Hid Hdel Hc1 Hreg Ht Hres Hcr) as (p2 & H2 & Hret & Hgone & Hst2).
  exists p1, p2. split_and!; try done. by rewrite Hc1.
Qed.
End Properties.


(** ** Witnesses: two agents connect, and a command for the first is answered *)
Module RunningWitness.
Import Dispatch Running RunningFacts CommandWitness DispatcherWitness HubWitness.

#[local] Instance command_json : Json Command := {
  json_marshal c := Ok (field_text (cmd_CommandID c)); json_unmarshal _ := Err ε }.
Definition text {A} (_ : A) : string := "error".
Definition any_id (_ : string) : bool := true.
Definition order (r : Registry.NodeRegistry (mem_table NodeRow)) := map_to_list (Registry.nodes r).
Notation process := (process (mem_table NodeRow) (mem_table IdemRow) string).
Definition run : process -> list process_action -> option process :=
  process_run upgrade no_sync no_auth any_id id text text dur order.
Definition p0 : process := mkProcess s0 Waiters.init ∅ [] (Some mem_empty) ∅.
Definition rq2 : Request := mkRequest "Bearer t" ε "n2" ε.
Definition connects : list process_action :=
  [PHub (Hub.AConnect rq "u" 1); PHub (Hub.ARegister 0 2); PHub (Hub.AConnect rq2 "v" 3); PHub (Hub.ARegister 1 4)].
Definition cmd : Command := mkCommand "c1" "session_status" ε (mkTarget ε "n1") ∅ 0.
Definition at_second (n : Z) : Time.t := (62135596800 + n) * 1000000000.
Definition frame : string := match Hub.command_message (at_second 5) cmd with Ok s => s | Err _ => ε end.
Definition answer : CommandResult := mkResult "c1" "success" "ok" ε 7.
Definition answer_env : Envelope :=
  mkEnvelope ProtocolVersion MessageTypeCommandResult ε 7 (match json_marshal answer with Ok s => s | Err _ => ε end).
Definition conn1 : AgentConn := mkConn "n1" [] false true 1 Reading true.
Definition sent : list process_action := [PResolve 0 (at_second 4) None; PRegister 0; PFind 0 (at_second 5); PPush 0].
Definition answered_by (conn : nat) : list process_action :=
  [PWait (Waiters.LLookup 0); PRead conn 9 answer_env; POffer conn; PWait (Waiters.LReceive 0); PReturn 0 10].
Definition begun (c : Command) : list process_action := connects ++ [PBegin 0 "u" c].
Definition ready : process := default p0 (run p0 (begun cmd)).
Definition finished : process := default p0 (run p0 (begun cmd ++ sent ++ answered_by 0)).
(** How the dispatch of the first caller ends. *)
Definition ends (l : list process_action) : option (stage string) := run p0 l ≫= fun p => stages p !! 0%nat.

Lemma fresh0 : fresh_process p0.
Proof. split; [by split_and!|]. split_and!; [done..|]. intros r [= <-]. apply map_Forall_empty. Defined.
Lemma ran (l : list process_action) : is_Some (run p0 l) -> run p0 l = Some (default p0 (run p0 l)).
Proof. by intros [p ->]. Defined.

Lemma commands_reach_their_agents_witness :
  reached_agent upgrade no_sync no_auth any_id id text text dur order p0 (begun cmd ++ sent ++ answered_by 0) finished 0 cmd /\
  forall conn c, Hub.conns (Hub.hub (sys finished)) !! conn = Some c -> ac_send c `suffix_of` queued_for conn finished.
Proof.
  assert (Hrun : is_Some (run p0 (begun cmd ++ sent ++ answered_by 0))) by (apply is_Some_alt; vm_compute; exact I).
  assert (Hend : stages finished !! 0%nat = Some (Ended cmd (Answered (Waiters.stamped 9 answer)))) by (vm_compute; reflexivity).
  assert (Hput : (put_by 0 finished = []) -> False) by (vm_compute; discriminate).
  destruct (commands_reach_their_agents upgrade no_sync no_auth any_id id text text dur order p0 finished _ 0 cmd _
    fresh0 (ran _ Hrun) Hend) as [[[Hreached _]|[Hnone _]] Hq]; [by split | by destruct Hput].
Defined.
Lemma command_is_answered_witness : exists p1 p2,
  run ready sent = Some p1 /\ (ac_send <$> Hub.conns (Hub.hub (sys p1)) !! 0%nat) = Some [frame] /\
  run p1 (answered_by 0) = Some p2 /\
  Waiters.callers (waiters p2) !! 0%nat = Some (Waiters.Returned cmd (Ok (Waiters.stamped 9 answer))) /\
  Waiters.pending (waiters p2) !! "c1"%string = None /\
  stages p2 !! 0%nat = Some (Ended cmd (Answered (Waiters.stamped 10 (Waiters.stamped 9 answer)))).
Proof.
  assert (Hrun : is_Some (run p0 (begun cmd))) by (apply is_Some_alt; vm_compute; exact I).
  destruct (command_is_answered upgrade no_sync no_auth any_id id text text dur order p0 ready (begun cmd) 0 cmd None None
    (resolve text order ready cmd None).1 "n1" frame 0 conn1 (at_second 4) (at_second 5) 9 10 answer_env answer fresh0 (ran _ Hrun))
    as (p1 & p2 & H1 & H2 & H3 & H4 & H5 & H6);
    [try (vm_compute; reflexivity)..|].
  { discriminate. }
  { apply Nat.ltb_lt. vm_compute. reflexivity. }
  exists p1, p2. unfold run. split; [exact H1|]. split; [exact H2|]. split; [exact H3|]. split; [exact H4|]. split; [exact H5 | exact H6].
Defined.
(** Results are matched by the command's id alone: the answer may come from an
    agent that the command was not sent to. *)
Example another_agent_answers :
  ends (begun cmd ++ sent ++ answered_by 1) = Some (Ended cmd (Answered (Waiters.stamped 9 answer))).
Proof. vm_compute. reflexivity. Qed.
(** The target is not known; the same command with a key is answered from the table;
    the connection is closed between the lookup and the send. *)
Definition lost_target : Command := mkCommand "c3" "session_status" ε (mkTarget ε "n3") ∅ 0.
Example target_refused :
  ends (begun lost_target ++ [PResolve 0 (at_second 4) None]) =
    Some (Ended lost_target (Answered (unresolved lost_target (at_second 4) "target node not found: n3"))).
Proof. vm_compute. reflexivity. Qed.
Definition keyed_cmd : Command := mkCommand "c1" "session_status" "k1" (mkTarget ε "n1") ∅ 0.
Definition again : Command := mkCommand "c2" "session_status" "k1" (mkTarget ε "n1") ∅ 0.
Example answered_from_the_table :
  ends (connects ++ [PBegin 1 "u" keyed_cmd; PCheck 1 (at_second 3); PResolve 1 (at_second 4) None; PRegister 1;
         PFind 1 (at_second 5); PPush 1; PWait (Waiters.LLookup 1); PRead 0 9 answer_env; POffer 0;
         PWait (Waiters.LReceive 1); PReturn 1 10; PCache 1 (at_second 11);
         PBegin 0 "v" again; PCheck 0 (at_second 12)]) = Some (Ended again (Answered (Waiters.stamped 9 answer))).
Proof. vm_compute. reflexivity. Qed.
Example closed_before_the_send :
  ends (begun cmd ++ [PResolve 0 (at_second 4) None; PRegister 0; PFind 0 (at_second 5);
                      PHub (Hub.AConnect rq "w" 6); PHub (Hub.ARegister 2 7); PPush 0]) = Some (Ended cmd Panics).
Proof. vm_compute. reflexivity. Qed.
End RunningWitness.
